(* ===== verification/_CoqProject ===== *)
-Q . S2P
Prelude.v
GoStrings.v
Message.v
HeaderBlock.v
Response.v
Request.v
Config.v
Metrics.v
Digest.v
Framing.v
Session.v
Remote.v
Fanout.v
Stream.v
Relay.v
Sdp.v
Upstream.v
Connect.v
Lifecycle.v
Locks.v
StreamManager.v
Report.v
ClientReader.v
Client.v
Handler.v
Answers.v
Server.v
Main.v
