(* ===== verification/Prelude.v ===== *)
(** * A verification development for the RTSP/1.0 proxy

    The program (src/cmd/main.go, package src/rtspproxy) accepts RTSP
    clients over TCP, finds the camera each asks for in its URL, keeps one
    upstream connection per camera, credentials and path, and copies the
    interleaved RTP packets of that connection to every client.

    ** Parts and how they interact

    - A client connection (client.go) has a reader, which takes requests
      and interleaved frames from the socket, a writer, which drains the
      channel [writeChan], and for every stream it joined a forwarder
      (client_session.go), which moves packets from the session's bounded
      queue to [writeChan].  The first request fixes the target; SETUP and
      DESCRIBE wait until the stream is ready.
    - The server (server.go) accepts connections and asks the registry
      (stream_manager.go) for the stream of a target; the registry keys
      streams by user, password, host and path.
    - A stream (stream.go) owns the upstream connection.  Its connect loop
      dials, runs OPTIONS, DESCRIBE, SETUP and PLAY through the remote
      (remote.go), and on a lost connection backs off and tries again; its
      reading loop cuts the bytes of the camera into packets, which go to
      the clients' queues, and responses, which go back to the remote.  It
      stops when it has been without clients for the idle timeout.
    - The remote matches responses to the requests it has sent, answers
      challenges (digest.go) and records sessions and transports
      (session.go, transport.go, substream.go); sessions are kept alive by
      a goroutine each; a caller waits for its response on a channel of
      its own (ipc.go).
    - message.go, request.go and response.go parse and print RTSP;
      config.go and metrics.go hold the process-wide settings and
      counters.

    ** Files

    - [Prelude] (this file): bytes, machine integers, errors and panics,
      the class [GoRuntime], the tactics and hints of the development.
    - [GoStrings]: the functions of Go's standard library called on
      strings, byte for byte, with their lemmas.
    - [Message], [HeaderBlock], [Response], [Request]: message.go and the
      parsers and printers of response.go and request.go, loop for loop.
    - [Config], [Metrics]: config.go with the flags of main.go, metrics.go.
    - [Digest]: digest.go.
    - [Framing]: [Stream.readLoop] on any sequence of reads, and
      [Remote.SendBinary].
    - [Session]: session.go, transport.go, substream.go; the keep-alive
      goroutines are a step relation.
    - [Remote]: the socket of remote.go: dialling, sending, credentials,
      the Transport parser.
    - [Fanout]: client_session.go, [Stream.dispatch] and the way of a
      packet through queue, forwarder and writer.
    - [Stream]: the state, channels, tables, timer and flags of stream.go
      with every operation on them, and their step relation.
    - [Relay]: the reading loop, the fan-out, the queues, forwarders and
      writers of all clients as one transition system, and the broadcast
      service it implements.
    - [Sdp]: [parseTracks].
    - [Upstream]: the rest of remote.go and ipc.go: the queue of requests,
      the response handlers, synchronous requests and
      [doConnectSequence] against a camera given as a list of events.
    - [Connect]: what a synchronous request and the connect sequence do
      against cameras that answer, that are late and that are silent.
    - [Lifecycle]: [connectLoop] as a program with a counter, interleaved
      with everything other goroutines do to the stream.
    - [Locks]: the calls that take a stream's read lock while they hold
      it, on a model of [sync.RWMutex], with any other calls beside them.
    - [StreamManager]: the registry, the [onDestroy] callback and the wait
      after it, and the steps of a registry whose streams run.
    - [Report]: logger.go, [GetBitrate], [ReportMetrics] and
      [metricsLoop].
    - [ClientReader], [Client]: the reader of client.go and its request
      handlers, split where they wait.
    - [Handler]: [incomingRequestHandler] as a whole: reader, parser,
      target, registry, handlers, answers and the end of the connection,
      interleaved with what the other goroutines do to the streams.
    - [Answers]: the text of an answer as a client reads it, and where its
      strings come from.
    - [Server]: the accept loop, split where [AcceptTCP] blocks, the life
      of a connection as interleaved actions of its goroutines, and the
      two halves of the shutdown of server.go.
    - [Main]: [main] of main.go with every exit.

    Records carry the fields of the Go structs; pointers shared between
    structures are numbers into a table.  A function which can panic
    returns [outcome], one which returns an error [result] or an option
    of [goerror].  A critical section is one function; code that releases
    a lock or waits in between is a composition of several: [dispatch] of
    [dispatch_begin] and one [deliver_one] per target, [Stop] of
    [Stop_take] and [Stop_end], [Destroy] of its transition, the cancel,
    [Destroy_take] and [Destroy_returns].  The step relations
    ([Stream.st_step], [Relay.rl_step], [Lifecycle.loop_step],
    [Server.sv_step]) interleave the parts; the compositions are runs
    without interference.  Integers keep Go's 64 bits ([int64_wrap]),
    counters their width.

    ** What the theorems show

    - Bytes.  The reading loop delivers the frames of the camera in order
      whatever the chunks they arrive in, and what each Content-Length
      does to it; the client's frames are read in order, one a read, and
      reach the camera; requests, responses, Transport headers and
      interleaved frames survive printing and parsing, header names up to
      their canonical spelling; the hand-written scanners equal their
      reference definitions.
    - Fan-out.  One packet reaches exactly the clients that mapped its
      channel, with the channel rewritten, and the others are untouched; a
      client's packets leave in the order they came.  Composed, this is a
      broadcast service: [relay_refines] is a forward simulation from the
      code to it, and from the service follows what every client has been
      sent, on which channels; a serving client's own two goroutines write
      out all that is on the way, however they are scheduled.
    - State.  The states a stream passes through are edges of a fixed
      graph; a channel a client waits on is current or closed, and closed
      once the stream plays or is destroyed; [Stop] and [Destroy] send a
      TEARDOWN for every session and release what the stream holds; a
      stream that plays or reconnects has a running loop, and the loop of
      a destroyed one ends.  A failed dial without clients always strands
      the stream without a loop, and an idle stream can be stopped and
      reconnect by itself.
    - Upstream.  Sequence numbers grow, responses finish the oldest
      request, a Digest challenge is answered once, with the header RFC
      2617 asks for, sessions and transports are recorded as the camera
      announced them.  Against a camera that answers the connect sequence
      succeeds; a synchronous request that returns waits no longer and
      leaves the others in order, but a late answer is taken for the next
      one, and a request repeated after a timeout carries the password.
    - Locks.  Two calls take the read lock twice; with a writer in between
      they stand still, and every other call on the stream with them.
    - Clients.  Targets are resolved from both URL forms, SETUP maps the
      channels of the camera to those of the client, every response is
      completed with CSeq, Via and Server.  Every request of a connection
      (what one read returned) is answered once and in order, by the
      stream of its own target, up to a text that does not parse or a
      probe of the proxy; no other stream knows the client, and none does
      after its reader has returned.  An answer is one message on the wire: no string of the
      client or the camera leaves its header line.  The goroutines of a
      connection never send to a closed channel, and when its reader
      returns all of them have ended.
    - Registry and server.  Streams of different targets are different
      (up to the separators of the key); a shutdown ends the accept loop,
      waits for the connections and destroys every stream, or reports the
      timeout, and the status of the process says which.

    ** Bounds and fuel

    Loops that do not recurse on their data take fuel.  [header_loop],
    [indexBytes_outer], [clen_outer], [strip_all], [clean_loop] and
    [auth_fields] consume at least one byte or advance one index a pass,
    so the length of the input (plus one where the last pass only stops)
    is enough; [header_loop_total] and the equalities with the reference
    definitions show it.  [digits_loop] has one pass per binary digit of
    the number.  [drain] has one pass per byte and one more: it consumes
    at least one byte a pass except on an input on which the code loops
    for ever, and that running out of this fuel means running for ever
    is proved in [Framing].

    ** Assumptions

    [GoRuntime] stands for Go's order of iteration over maps, of which
    only that it is some permutation of the entries is used, and for the
    Unicode case tables; [NetURL] for the parser and printer of net/url;
    [Crypto] for MD5.  What the network, the clock and the random source
    yield is an argument.  Theorems that need more of them say so, and
    their witnesses instantiate the classes with concrete functions.

    ** Not modelled

    The text [log] makes of a format and its arguments; the pools of
    packet buffers; HTTP behind the metrics handler; socket options and
    deadlines, except that a timed out read is tried again; locks other
    than that of a stream.

    ** Where the model is coarser than the code

    - A queue of capacity 0 refuses every packet in [dispatch] and hands
      it over to a waiting forwarder in [Fanout.p_step] and
      [Relay.rl_step]; the flag default is 1000.
    - [Client.handleSetup_end] runs [LookupTransport], [AddClient] and the
      two [MapChannel]s, each a critical section, without interference;
      in [Relay] joining and mapping are steps of their own.
    - [Server.cn_do] leaves the stream's lock out, so an action that may
      block there counts as enabled: it has more runs than the code, and
      only safety is proved with it.
    - [st_loops] counts a connect loop until its flag is reset; [wg.Done]
      follows at once.
    - In [Lifecycle] dialling, the connect sequence and reading are steps
      that return with any result; the TEARDOWNs of a [Stop] under way
      have no effect there besides the disconnect that follows.
    - Closing the listener and cancelling the context are one step.

    ** Open

    One state for a connection in [Server], its reader in [Handler] and the
    stream in [Lifecycle], so that joining a stream is the same step in
    all three; the order of the locks of stream, session, remote and
    registry; the accuracy of the bit rate. *)

From stdpp Require Import gmap strings list fin_maps.
From Stdlib Require Import Ascii ZArith Lia.

(** ** Go strings and byte slices

    A Go [string] and the contents of a [[]byte] are both sequences of
    bytes; both are modelled as [list ascii], an [ascii] being exactly
    eight bits.  [str] injects source literals. *)

Abbreviation gostring := (list ascii).

Definition str (s : string) : gostring := String.list_ascii_of_string s.

Declare Scope go_scope.
Delimit Scope go_scope with go.

Definition TAB : ascii := "009"%char.
Definition LF : ascii := "010"%char.
Definition CR : ascii := "013"%char.
Definition SP : ascii := " "%char.
Definition DQ : ascii := "034"%char.
Definition CRLF : gostring := [CR; LF].

(** The numeric value of a byte, and the Go conversion [byte(n)], which
    keeps the low eight bits. *)
Definition byte_val (c : ascii) : Z := Z.of_N (N_of_ascii c).
Definition to_byte (z : Z) : ascii := ascii_of_N (Z.to_N (z mod 256)).

(** Byte comparisons as they appear in conditions. *)
Definition ceq (a b : ascii) : bool := Ascii.eqb a b.
Infix "=c" := ceq (at level 70, no associativity) : go_scope.
Notation "a <>c b" := (negb (ceq a b)) (at level 70, no associativity) : go_scope.
Definition seq_eqb (a b : gostring) : bool := bool_decide (a = b).
Infix "=s" := seq_eqb (at level 70, no associativity) : go_scope.

(** ** Machine integers

    Go's [int] has 64 bits on every platform the proxy is built for. *)
Definition int64_max : Z := 2 ^ 63 - 1.
Definition int64_min : Z := - 2 ^ 63.
Definition int64_wrap (z : Z) : Z := (z + 2 ^ 63) mod 2 ^ 64 - 2 ^ 63.
Definition uint64_wrap (z : Z) : Z := z mod 2 ^ 64.
Definition uint32_wrap (z : Z) : Z := z mod 2 ^ 32.

(** [len(s)] as a Go [int]. *)
Definition slen {A} (s : list A) : Z := Z.of_nat (length s).

(** ** Errors and panics

    [result] is Go's pair of a value and an [error]; [outcome] adds the
    run-time panics (nil dereference, slice bounds, [NewTicker] on a
    non-positive interval, close of a closed channel) which end the
    process when no [recover] is installed. *)
Inductive goerror : Type :=
| ErrText (msg : gostring)
| ErrNumSyntax (input : gostring)
| ErrNumRange (input : gostring)
| ErrURL (input : gostring)
| ErrIO.

Inductive result (A : Type) : Type :=
| Ok (a : A)
| Err (e : goerror).
Arguments Ok {A} a.
Arguments Err {A} e.

Inductive panic : Type :=
| NilDeref
| SliceBounds
| NonPositiveTicker
| NegativeChanSize
| CloseOfClosed
| SendOnClosed.

Inductive outcome (A : Type) : Type :=
| Done (a : A)
| Panic (p : panic).
Arguments Done {A} a.
Arguments Panic {A} p.

Definition result_bind {A B} (m : result A) (k : A -> result B) : result B :=
  match m with Ok a => k a | Err e => Err e end.
Definition outcome_bind {A B} (m : outcome A) (k : A -> outcome B) : outcome B :=
  match m with Done a => k a | Panic p => Panic p end.

Notation "'let?' x ':=' m 'in' k" := (result_bind m (fun x => k))
  (at level 10, x pattern, m at level 100, k at level 200) : go_scope.
Notation "'let!' x ':=' m 'in' k" := (outcome_bind m (fun x => k))
  (at level 10, x pattern, m at level 100, k at level 200) : go_scope.

#[global] Instance goerror_eq_dec : EqDecision goerror.
Proof. solve_decision. Defined.
#[global] Instance panic_eq_dec : EqDecision panic.
Proof. solve_decision. Defined.

(** ** The parts of the Go run time whose result the language leaves open

    [map_range] is the order in which a [for k, v := range m] visits a
    map: any permutation of its entries.
    [unicode_ToLower] is [strings.ToLower] on strings that are not pure
    ASCII, where it follows the Unicode case tables. *)
Class GoRuntime := {
  map_range : forall {K : Type} {HE : EqDecision K} {HC : Countable K} {V : Type},
    gmap K V -> list (K * V);
  map_range_perm : forall (K : Type) (HE : EqDecision K) (HC : Countable K) (V : Type) (m : gmap K V),
    map_range m ≡ₚ map_to_list m;
  unicode_ToLower : gostring -> gostring
}.

(** A run time that visits maps in key order and leaves non-ASCII
    strings alone: the witness that the class is inhabited. *)
Definition sample_runtime : GoRuntime := {|
  map_range := fun K HE HC V m => map_to_list m;
  map_range_perm := fun K HE HC V m => reflexivity _;
  unicode_ToLower := fun s => s
|}.

(** ** Proof automation *)

Create HintDb gostr.
Create Rewrite HintDb gostr.
Create HintDb goint.
Create Rewrite HintDb goint.

(** Split every boolean test of the goal or of the hypotheses. *)
Ltac case_if :=
  repeat match goal with
  | |- context [if ?b then _ else _] => destruct b eqn:?
  | H : context [if ?b then _ else _] |- _ => destruct b eqn:?
  end.

(** Turn the boolean comparisons of the code into propositions. *)
Ltac reflect_bool :=
  repeat match goal with
  | H : (_ && _)%bool = true |- _ => apply andb_prop in H as [? ?]
  | H : (_ || _)%bool = false |- _ => apply orb_false_elim in H as [? ?]
  | H : negb _ = true |- _ => apply negb_true_iff in H
  | H : negb _ = false |- _ => apply negb_false_iff in H
  | H : ceq _ _ = true |- _ => apply Ascii.eqb_eq in H
  | H : ceq _ _ = false |- _ => apply Ascii.eqb_neq in H
  | H : seq_eqb _ _ = true |- _ => apply bool_decide_eq_true in H
  | H : seq_eqb _ _ = false |- _ => apply bool_decide_eq_false in H
  | H : bool_decide _ = true |- _ => apply bool_decide_eq_true in H
  | H : bool_decide _ = false |- _ => apply bool_decide_eq_false in H
  | H : (_ <=? _)%Z = true |- _ => apply Z.leb_le in H
  | H : (_ <=? _)%Z = false |- _ => apply Z.leb_gt in H
  | H : (_ <? _)%Z = true |- _ => apply Z.ltb_lt in H
  | H : (_ <? _)%Z = false |- _ => apply Z.ltb_ge in H
  | H : (_ =? _)%Z = true |- _ => apply Z.eqb_eq in H
  | H : (_ =? _)%Z = false |- _ => apply Z.eqb_neq in H
  | H : (_ <=? _)%nat = true |- _ => apply Nat.leb_le in H
  | H : (_ <=? _)%nat = false |- _ => apply Nat.leb_gt in H
  | H : (_ <? _)%nat = true |- _ => apply Nat.ltb_lt in H
  | H : (_ <? _)%nat = false |- _ => apply Nat.ltb_ge in H
  | H : (_ =? _)%nat = true |- _ => apply Nat.eqb_eq in H
  | H : (_ =? _)%nat = false |- _ => apply Nat.eqb_neq in H
  end.

(** ** Lemmas on bytes and integers *)

Lemma byte_val_range (c : ascii) : (0 <= byte_val c < 256)%Z.
Proof. unfold byte_val. pose proof (N_ascii_bounded c). lia. Qed.

Lemma to_byte_val (c : ascii) : to_byte (byte_val c) = c.
Proof.
  unfold to_byte. rewrite Z.mod_small by apply byte_val_range.
  unfold byte_val. rewrite N2Z.id. apply ascii_N_embedding.
Qed.

Lemma byte_val_to_byte (z : Z) : byte_val (to_byte z) = (z mod 256)%Z.
Proof.
  unfold byte_val, to_byte. pose proof (Z.mod_pos_bound z 256).
  rewrite N_ascii_embedding by lia. lia.
Qed.

Lemma byte_val_inj (a b : ascii) : byte_val a = byte_val b -> a = b.
Proof. intros H. rewrite <-(to_byte_val a), <-(to_byte_val b). congruence. Qed.

Lemma slen_nonneg {A} (s : list A) : (0 <= slen s)%Z.
Proof. unfold slen. lia. Qed.

Lemma slen_app {A} (s t : list A) : slen (s ++ t) = (slen s + slen t)%Z.
Proof. unfold slen. rewrite length_app. lia. Qed.

Lemma int64_wrap_small (z : Z) : (int64_min <= z <= int64_max)%Z -> int64_wrap z = z.
Proof.
  unfold int64_min, int64_max, int64_wrap. intros H.
  rewrite Z.mod_small; lia.
Qed.

Lemma int64_wrap_range (z : Z) : (int64_min <= int64_wrap z <= int64_max)%Z.
Proof.
  unfold int64_min, int64_max, int64_wrap.
  pose proof (Z.mod_pos_bound (z + 2 ^ 63) (2 ^ 64)). lia.
Qed.

Lemma ceq_refl (c : ascii) : ceq c c = true.
Proof. apply Ascii.eqb_refl. Qed.

Lemma ceq_neq (a b : ascii) : a <> b -> ceq a b = false.
Proof. apply Ascii.eqb_neq. Qed.

Lemma seq_eqb_refl (s : gostring) : seq_eqb s s = true.
Proof. by apply bool_decide_eq_true. Qed.

Lemma seq_eqb_neq (s t : gostring) : s <> t -> seq_eqb s t = false.
Proof. intros H. unfold seq_eqb. by apply bool_decide_eq_false. Qed.

#[export] Hint Resolve byte_val_range slen_nonneg int64_wrap_range : goint.
#[export] Hint Rewrite to_byte_val byte_val_to_byte @slen_app : goint.
#[export] Hint Rewrite ceq_refl seq_eqb_refl : gostr.
