(* ===== verification/GoStrings.v ===== *)
(** * The Go standard library functions the proxy calls on strings

    Byte-level definitions of the functions of [strings], [bytes],
    [strconv], [encoding/hex], [encoding/base64] and [path/filepath]
    which the files under src/rtspproxy call, with the lemmas the
    components share.  Nothing here models code of the proxy itself. *)

From stdpp Require Import gmap strings list fin_maps.
From Stdlib Require Import Ascii ZArith Lia.
From S2P Require Import Prelude.

Local Open Scope go_scope.

(** ** Prefixes and searching *)

Fixpoint HasPrefix (s p : gostring) {struct p} : bool :=
  match p, s with
  | [], _ => true
  | a :: p', b :: s' => (a =c b) && HasPrefix s' p'
  | _ :: _, [] => false
  end.

Definition TrimPrefix (s p : gostring) : gostring :=
  if HasPrefix s p then drop (length p) s else s.

(** [None] stands for the result -1. *)
Fixpoint Index (s sub : gostring) : option nat :=
  if HasPrefix s sub then Some 0%nat
  else match s with
       | [] => None
       | _ :: t => S <$> Index t sub
       end.

Definition Contains (s sub : gostring) : bool :=
  match Index s sub with Some _ => true | None => false end.

Fixpoint IndexByte (s : gostring) (c : ascii) : option nat :=
  match s with
  | [] => None
  | b :: t => if b =c c then Some 0%nat else S <$> IndexByte t c
  end.

(** ** Splitting and joining; every separator in the proxy is one byte *)

Fixpoint Split (s : gostring) (sep : ascii) : list gostring :=
  match s with
  | [] => [[]]
  | c :: t =>
      if c =c sep then [] :: Split t sep
      else match Split t sep with
           | [] => [[c]]
           | w :: ws => (c :: w) :: ws
           end
  end.

Fixpoint SplitN (s : gostring) (sep : ascii) (n : nat) : list gostring :=
  match n with
  | O => []
  | S O => [s]
  | S m => match IndexByte s sep with
           | None => [s]
           | Some i => take i s :: SplitN (drop (S i) s) sep m
           end
  end.

Fixpoint Join (parts : list gostring) (sep : gostring) : gostring :=
  match parts with
  | [] => []
  | [w] => w
  | w :: ws => w ++ sep ++ Join ws sep
  end.

(** [strings.ReplaceAll] for a non-empty [old]: non-overlapping
    occurrences from the left; [skip] counts the bytes of an occurrence
    that are still to be passed over. *)
Fixpoint replace_from (s old new : gostring) (skip : nat) : gostring :=
  match s with
  | [] => []
  | c :: t =>
      match skip with
      | S k => replace_from t old new k
      | O => if HasPrefix s old then new ++ replace_from t old new (pred (length old))
             else c :: replace_from t old new 0
      end
  end.

Definition ReplaceAll (s old new : gostring) : gostring := replace_from s old new 0.

(** ** Trimming *)

(** [TrimLeft] and [TrimRight] with a one-byte cutset. *)
Fixpoint TrimLeft (s : gostring) (cut : ascii) : gostring :=
  match s with
  | c :: t => if c =c cut then TrimLeft t cut else s
  | [] => []
  end.

Definition TrimRight (s : gostring) (cut : ascii) : gostring :=
  reverse (TrimLeft (reverse s) cut).

(** The UTF-8 encodings of the code points [unicode.IsSpace] accepts:
    U+0009 to U+000D, U+0020, U+0085, U+00A0, U+1680, U+2000 to U+200A,
    U+2028, U+2029, U+202F, U+205F and U+3000. *)
Definition space_encodings : list gostring :=
  [["009"]; ["010"]; ["011"]; ["012"]; ["013"]; [" "];
   ["194"; "133"]; ["194"; "160"]; ["225"; "154"; "128"];
   ["226"; "128"; "128"]; ["226"; "128"; "129"]; ["226"; "128"; "130"];
   ["226"; "128"; "131"]; ["226"; "128"; "132"]; ["226"; "128"; "133"];
   ["226"; "128"; "134"]; ["226"; "128"; "135"]; ["226"; "128"; "136"];
   ["226"; "128"; "137"]; ["226"; "128"; "138"];
   ["226"; "128"; "168"]; ["226"; "128"; "169"]; ["226"; "128"; "175"];
   ["226"; "129"; "159"]; ["227"; "128"; "128"]]%char.

Fixpoint strip_one (encs : list gostring) (s : gostring) : option gostring :=
  match encs with
  | [] => None
  | e :: es => if HasPrefix s e then Some (drop (length e) s) else strip_one es s
  end.

Fixpoint strip_all (fuel : nat) (encs : list gostring) (s : gostring) : gostring :=
  match fuel with
  | O => s
  | S n => match strip_one encs s with
           | Some t => strip_all n encs t
           | None => s
           end
  end.

Definition trim_left_space (s : gostring) : gostring :=
  strip_all (length s) space_encodings s.

Definition trim_right_space (s : gostring) : gostring :=
  reverse (strip_all (length s) (reverse <$> space_encodings) (reverse s)).

Definition TrimSpace (s : gostring) : gostring := trim_right_space (trim_left_space s).

(** ** Letter case *)

Definition is_lower (c : ascii) : bool := (97 <=? byte_val c)%Z && (byte_val c <=? 122)%Z.
Definition is_upper (c : ascii) : bool := (65 <=? byte_val c)%Z && (byte_val c <=? 90)%Z.
Definition lower_byte (c : ascii) : ascii :=
  if is_upper c then to_byte (byte_val c + 32) else c.
Definition is_ascii (s : gostring) : bool := forallb (fun c => (byte_val c <? 128)%Z) s.

Definition ToLower `{GoRuntime} (s : gostring) : gostring :=
  if is_ascii s then map lower_byte s else unicode_ToLower s.

(** [strings.EqualFold] against a target whose letters have no
    non-ASCII simple folding (any letter but k and s). *)
Definition EqualFold (s target : gostring) : bool :=
  (map lower_byte s) =s (map lower_byte target).

(** [string(b)] for a byte [b]: the UTF-8 encoding of the code point. *)
Definition string_of_byte (c : ascii) : gostring :=
  let v := byte_val c in
  if (v <? 128)%Z then [c]
  else [to_byte (192 + Z.shiftr v 6); to_byte (128 + Z.land v 63)].

(** ** Numbers *)

Definition is_digit (c : ascii) : bool := (48 <=? byte_val c)%Z && (byte_val c <=? 57)%Z.
Definition digit_val (c : ascii) : Z := (byte_val c - 48)%Z.
Definition digit_char (d : Z) : ascii := to_byte (48 + d).

(** The loop of [strconv.ParseUint] in base 10 and 64 bits: the overflow
    test comes before the next byte is looked at. *)
Fixpoint parse_uint_loop (s : gostring) (n : Z) : Z * bool * bool :=
  match s with
  | [] => (n, true, true)
  | c :: t =>
      if negb (is_digit c) then (0%Z, false, true)
      else if (1844674407370955162 <=? n)%Z then ((2 ^ 64 - 1)%Z, true, false)
      else let n1 := (n * 10 + digit_val c)%Z in
           if (2 ^ 64 - 1 <? n1)%Z then ((2 ^ 64 - 1)%Z, true, false)
           else parse_uint_loop t n1
  end.

(** [strconv.Atoi]: the value returned next to an error is 0 for a
    syntax error and the nearest bound for a range error. *)
Definition Atoi (s : gostring) : Z * option goerror :=
  let '(neg, digits) :=
    match s with
    | c :: t => if c =c "-"%char then (true, t)
                else if c =c "+"%char then (false, t) else (false, s)
    | [] => (false, s)
    end in
  match digits with
  | [] => (0%Z, Some (ErrNumSyntax s))
  | _ =>
      let '(un, syntax_ok, range_ok) := parse_uint_loop digits 0 in
      if negb syntax_ok then (0%Z, Some (ErrNumSyntax s))
      else if negb neg && (2 ^ 63 <=? un)%Z then (int64_max, Some (ErrNumRange s))
      else if neg && (2 ^ 63 <? un)%Z then (int64_min, Some (ErrNumRange s))
      else ((if neg then - un else un)%Z, None)
  end.

(** Digits of a natural number in a base, most significant first. *)
Fixpoint digits_loop (fuel : nat) (base n : Z) (acc : list Z) : list Z :=
  match fuel with
  | O => acc
  | S k => let acc' := (n mod base)%Z :: acc in
           if (n / base =? 0)%Z then acc' else digits_loop k base (n / base) acc'
  end.

Definition digits_of (base n : Z) : list Z := digits_loop (S (Z.to_nat (Z.log2 n))) base n [].

(** [strconv.Itoa] and the verb [%d]. *)
Definition Itoa (n : Z) : gostring :=
  if (n <? 0)%Z then "-"%char :: map digit_char (digits_of 10 (- n))
  else map digit_char (digits_of 10 n).

Definition hex_char (d : Z) : ascii :=
  if (d <? 10)%Z then to_byte (48 + d) else to_byte (87 + d).

(** The verb [%08x] on an unsigned integer. *)
Definition hex08 (n : Z) : gostring :=
  let ds := map hex_char (digits_of 16 n) in
  replicate (8 - length ds) "0"%char ++ ds.

(** [hex.EncodeToString]. *)
Definition hex_encode (s : gostring) : gostring :=
  flat_map (fun c => [hex_char (Z.shiftr (byte_val c) 4); hex_char (Z.land (byte_val c) 15)]) s.

(** [base64.StdEncoding.EncodeToString]. *)
Definition base64_char (d : Z) : ascii :=
  if (d <? 26)%Z then to_byte (65 + d)
  else if (d <? 52)%Z then to_byte (71 + d)
  else if (d <? 62)%Z then to_byte (d - 4)
  else if (d =? 62)%Z then "+"%char else "/"%char.

Definition base64_sextet (v i : Z) : ascii := base64_char (Z.land (Z.shiftr v (6 * i)) 63).

Fixpoint base64_encode (s : gostring) : gostring :=
  match s with
  | [] => []
  | [a] => let v := Z.shiftl (byte_val a) 16 in
           [base64_sextet v 3; base64_sextet v 2; "="%char; "="%char]
  | [a; b] => let v := Z.lor (Z.shiftl (byte_val a) 16) (Z.shiftl (byte_val b) 8) in
              [base64_sextet v 3; base64_sextet v 2; base64_sextet v 1; "="%char]
  | a :: b :: c :: t =>
      let v := Z.lor (Z.lor (Z.shiftl (byte_val a) 16) (Z.shiftl (byte_val b) 8)) (byte_val c) in
      base64_sextet v 3 :: base64_sextet v 2 :: base64_sextet v 1 :: base64_sextet v 0
        :: base64_encode t
  end.

(** ** Paths *)

(** [filepath.Split] on Unix: the directory up to and including the
    last slash, and the rest. *)
Fixpoint path_split (s : gostring) : gostring * gostring :=
  match s with
  | [] => ([], [])
  | c :: t =>
      let '(dir, file) := path_split t in
      match dir with
      | [] => if c =c "/"%char then ([c], file) else ([], c :: file)
      | _ :: _ => (c :: dir, file)
      end
  end.

(** [filepath.Base]. *)
Definition path_base (s : gostring) : gostring :=
  match s with
  | [] => str "."
  | _ => match (path_split (TrimRight s "/"%char)).2 with
         | [] => str "/"
         | b => b
         end
  end.

(** ** Lemmas: prefixes and searching *)

Lemma HasPrefix_spec (s p : gostring) : HasPrefix s p = true <-> exists t, s = p ++ t.
Proof.
  revert s. induction p as [|a p IH]; intros s; simpl.
  - split; [|done]. intros _. by exists s.
  - destruct s as [|b s].
    + split; [done|]. intros [t Ht]. done.
    + rewrite andb_true_iff, IH. unfold ceq. rewrite Ascii.eqb_eq. split.
      * intros [-> [t ->]]. by exists t.
      * intros [t [= -> ->]]. eauto.
Qed.

Lemma HasPrefix_app (p t : gostring) : HasPrefix (p ++ t) p = true.
Proof. apply HasPrefix_spec. eauto. Qed.

Lemma HasPrefix_false_app (s t p : gostring) :
  HasPrefix (s ++ t) p = false -> HasPrefix s p = false.
Proof.
  intros H. destruct (HasPrefix s p) eqn:E; [|done].
  apply HasPrefix_spec in E as [u ->].
  rewrite <-app_assoc, HasPrefix_app in H. done.
Qed.

Lemma HasPrefix_app_inv (s t p : gostring) :
  (length p <= length s)%nat -> HasPrefix (s ++ t) p = HasPrefix s p.
Proof.
  revert s. induction p as [|a p IH]; intros [|b s] Hl; simpl in *; try done; [lia|].
  rewrite IH by lia. done.
Qed.

Lemma TrimPrefix_app (p t : gostring) : TrimPrefix (p ++ t) p = t.
Proof. unfold TrimPrefix. by rewrite HasPrefix_app, drop_app_length. Qed.

Lemma Index_Some (s sub : gostring) (i : nat) :
  Index s sub = Some i <->
  HasPrefix (drop i s) sub = true /\ (i <= length s)%nat
  /\ forall j, (j < i)%nat -> HasPrefix (drop j s) sub = false.
Proof.
  revert i. induction s as [|c s IH]; intros i.
  - simpl. destruct (HasPrefix [] sub) eqn:E.
    + split.
      * intros [= <-]. repeat split; [done|lia|lia].
      * intros (_ & Hi & _). simpl in Hi. by replace i with 0%nat by lia.
    + split; [done|]. intros (Hp & Hi & _). rewrite drop_nil in Hp. congruence.
  - cbn [Index]. destruct (HasPrefix (c :: s) sub) eqn:E.
    + split.
      * intros [= <-]. repeat split; [done|lia|lia].
      * intros (_ & _ & Hj). destruct i as [|i]; [done|].
        specialize (Hj 0%nat ltac:(lia)). simpl in Hj. congruence.
    + destruct i as [|i].
      * split; [destruct (Index s sub); done|]. intros (Hp & _). simpl in Hp. congruence.
      * rewrite fmap_Some. split.
        -- intros (k & Hk & [= <-]). apply IH in Hk as (H1 & H2 & H3). simpl.
           repeat split; [done|lia|]. intros [|j] Hj; [done|]. apply H3. lia.
        -- intros (H1 & H2 & H3). exists i. split; [|done]. apply IH.
           repeat split; [done|simpl in H2; lia|].
           intros j Hj. apply (H3 (S j)). lia.
Qed.

Lemma Index_None (s sub : gostring) :
  Index s sub = None <-> forall j, (j <= length s)%nat -> HasPrefix (drop j s) sub = false.
Proof.
  induction s as [|c s IH].
  - simpl. destruct (HasPrefix [] sub) eqn:E.
    + split; [done|]. intros H. specialize (H 0%nat ltac:(lia)). simpl in H. congruence.
    + split; [|done]. intros _ j _. by rewrite drop_nil.
  - cbn [Index]. destruct (HasPrefix (c :: s) sub) eqn:E.
    + split; [done|]. intros H. specialize (H 0%nat ltac:(lia)). simpl in H. congruence.
    + rewrite fmap_None, IH. split.
      * intros H [|j] Hj; [done|]. apply H. simpl in Hj. lia.
      * intros H j Hj. apply (H (S j)). simpl. lia.
Qed.

Lemma Index_bound (s sub : gostring) (i : nat) :
  Index s sub = Some i -> (i + length sub <= length s)%nat.
Proof.
  rewrite Index_Some. intros (H & Hi & _).
  apply HasPrefix_spec in H as [t Ht].
  pose proof (f_equal length Ht) as Hl. rewrite length_drop, length_app in Hl. lia.
Qed.

(** More input behind an occurrence does not move it. *)
Lemma Index_app (s t sub : gostring) (i : nat) :
  Index s sub = Some i -> Index (s ++ t) sub = Some i.
Proof.
  intros Hi. pose proof (Index_bound _ _ _ Hi) as Hb.
  apply Index_Some in Hi as (H1 & H2 & H3). apply Index_Some.
  rewrite length_app. repeat split; [|lia|].
  - rewrite drop_app_le by lia. rewrite HasPrefix_app_inv; [done|].
    rewrite length_drop. lia.
  - intros j Hj. rewrite drop_app_le by lia.
    rewrite HasPrefix_app_inv; [by apply H3|]. rewrite length_drop. lia.
Qed.

Lemma Contains_spec (s sub : gostring) :
  Contains s sub = true <-> exists a b, s = a ++ sub ++ b.
Proof.
  unfold Contains. destruct (Index s sub) as [i|] eqn:E.
  - split; [|done]. intros _. apply Index_Some in E as (H & _ & _).
    apply HasPrefix_spec in H as [t Ht]. exists (take i s), t.
    rewrite <-Ht. by rewrite take_drop.
  - split; [done|]. intros (a & b & ->). rewrite Index_None in E.
    specialize (E (length a)). rewrite drop_app_length, HasPrefix_app in E.
    rewrite length_app in E. specialize (E ltac:(lia)). done.
Qed.

Lemma IndexByte_app (s t : gostring) (c : ascii) :
  c ∉ s -> IndexByte (s ++ c :: t) c = Some (length s).
Proof.
  induction s as [|b s IH]; intros Hn; simpl.
  - by rewrite ceq_refl.
  - apply not_elem_of_cons in Hn as [Hb Hn]. rewrite ceq_neq by done.
    by rewrite IH.
Qed.

Lemma IndexByte_None (s : gostring) (c : ascii) : IndexByte s c = None <-> c ∉ s.
Proof.
  induction s as [|b s IH]; simpl.
  - split; [|done]. intros _. apply not_elem_of_nil.
  - rewrite not_elem_of_cons. destruct (ceq b c) eqn:E; reflect_bool.
    + split; [done|]. intros [? _]. congruence.
    + rewrite fmap_None, IH. split; [by split|by intros [_ ?]].
Qed.

Lemma IndexByte_Some (s : gostring) (c : ascii) (i : nat) :
  IndexByte s c = Some i -> s = take i s ++ c :: drop (S i) s /\ c ∉ take i s.
Proof.
  revert i. induction s as [|b s IH]; intros i; simpl; [done|].
  destruct (ceq b c) eqn:E; reflect_bool.
  - intros [= <-]. subst. split; [done|]. apply not_elem_of_nil.
  - intros (k & Hk & ->)%fmap_Some. apply IH in Hk as [Hs Hn]. simpl. split.
    + by f_equal.
    + apply not_elem_of_cons. split; congruence.
Qed.

(** ** Lemmas: splitting *)

Lemma Split_cons (s : gostring) (sep : ascii) : exists w ws, Split s sep = w :: ws.
Proof.
  destruct s as [|c s]; simpl; [by eexists _, _|].
  destruct (ceq c sep); [by eexists _, _|].
  destruct (Split s sep); by eexists _, _.
Qed.

Lemma Split_no_sep (s : gostring) (sep : ascii) : sep ∉ s -> Split s sep = [s].
Proof.
  induction s as [|c s IH]; intros Hn; simpl; [done|].
  apply not_elem_of_cons in Hn as [Hc Hn].
  rewrite ceq_neq by congruence. by rewrite IH.
Qed.

Lemma Split_app (s t : gostring) (sep : ascii) :
  sep ∉ s -> Split (s ++ sep :: t) sep = s :: Split t sep.
Proof.
  induction s as [|c s IH]; intros Hn; simpl.
  - by rewrite ceq_refl.
  - apply not_elem_of_cons in Hn as [Hc Hn].
    rewrite ceq_neq by congruence. by rewrite IH.
Qed.

Lemma Split_Join (s : gostring) (sep : ascii) : Join (Split s sep) [sep] = s.
Proof.
  induction s as [|c s IH]; simpl; [done|].
  destruct (Split_cons s sep) as (w & ws & E). rewrite E in IH |- *.
  destruct (ceq c sep) eqn:Hc; reflect_bool.
  - subst c. by rewrite <-IH.
  - rewrite <-IH. by destruct ws.
Qed.

Lemma Split_parts (s : gostring) (sep : ascii) : Forall (fun w => sep ∉ w) (Split s sep).
Proof.
  induction s as [|c s IH]; simpl.
  - constructor; [apply not_elem_of_nil|constructor].
  - destruct (ceq c sep) eqn:Hc; reflect_bool.
    + constructor; [apply not_elem_of_nil|done].
    + destruct (Split_cons s sep) as (w & ws & E). rewrite E in IH |- *.
      apply Forall_cons in IH as [Hw Hws]. constructor; [|done].
      apply not_elem_of_cons. split; congruence.
Qed.

Lemma SplitN2_app (s t : gostring) (sep : ascii) :
  sep ∉ s -> SplitN (s ++ sep :: t) sep 2 = [s; t].
Proof.
  intros Hn. simpl. rewrite IndexByte_app by done. rewrite take_app_length.
  replace (S (length s)) with (length (s ++ [sep])) by (rewrite length_app; simpl; lia).
  replace (s ++ sep :: t) with ((s ++ [sep]) ++ t) by (by rewrite <-app_assoc).
  by rewrite drop_app_length.
Qed.

Lemma SplitN2_no_sep (s : gostring) (sep : ascii) : sep ∉ s -> SplitN s sep 2 = [s].
Proof. intros Hn. simpl. by rewrite (proj2 (IndexByte_None s sep) Hn). Qed.

Lemma TrimLeft_head (s : gostring) (cut : ascii) : head (TrimLeft s cut) <> Some cut.
Proof.
  induction s as [|c s IH]; simpl; [done|].
  destruct (ceq c cut) eqn:E; [done|]. simpl. reflect_bool. congruence.
Qed.

Lemma TrimLeft_id (s : gostring) (cut : ascii) : head s <> Some cut -> TrimLeft s cut = s.
Proof.
  destruct s as [|c s]; simpl; [done|]. intros H. rewrite ceq_neq; congruence.
Qed.

Lemma TrimRight_last (s : gostring) (cut : ascii) : last (TrimRight s cut) <> Some cut.
Proof. unfold TrimRight. rewrite last_reverse. apply TrimLeft_head. Qed.

Lemma TrimRight_id (s : gostring) (cut : ascii) : last s <> Some cut -> TrimRight s cut = s.
Proof.
  intros H. unfold TrimRight. rewrite TrimLeft_id; [apply reverse_involutive|].
  by rewrite head_reverse.
Qed.

(** ** Lemmas: white space *)

Lemma strip_one_None (encs : list gostring) (s : gostring) :
  strip_one encs s = None <-> Forall (fun e => HasPrefix s e = false) encs.
Proof.
  induction encs as [|e es IH]; simpl.
  - split; [constructor|done].
  - rewrite Forall_cons. destruct (HasPrefix s e); [by split; [|intros []]|].
    rewrite IH. by split; [|intros []].
Qed.

Lemma strip_one_Some (encs : list gostring) (s t : gostring) :
  strip_one encs s = Some t -> exists e, e ∈ encs /\ s = e ++ t.
Proof.
  induction encs as [|e es IH]; simpl; [done|].
  destruct (HasPrefix s e) eqn:E.
  - intros [= <-]. apply HasPrefix_spec in E as [u ->]. exists e.
    rewrite drop_app_length. split; [left|done].
  - intros H. destruct (IH H) as (e' & ? & ?). exists e'. split; [by right|done].
Qed.

Lemma strip_all_None (n : nat) (encs : list gostring) (s : gostring) :
  Forall (fun e => e <> []) encs -> (length s <= n)%nat ->
  strip_one encs (strip_all n encs s) = None.
Proof.
  intros Hne. revert s. induction n as [|n IH]; intros s Hl; simpl.
  - destruct s; [|simpl in Hl; lia]. apply strip_one_None.
    eapply Forall_impl; [exact Hne|]. intros [|a e] He; [done|done].
  - destruct (strip_one encs s) as [t|] eqn:E; [|done].
    apply IH. apply strip_one_Some in E as (e & He & ->).
    rewrite Forall_forall in Hne. specialize (Hne e He).
    destruct e; [done|]. simpl in Hl. rewrite length_app in Hl. lia.
Qed.

Lemma strip_all_id (n : nat) (encs : list gostring) (s : gostring) :
  strip_one encs s = None -> strip_all n encs s = s.
Proof. destruct n; simpl; [done|]. by intros ->. Qed.

Lemma strip_all_suffix (n : nat) (encs : list gostring) (s : gostring) :
  exists p, s = p ++ strip_all n encs s.
Proof.
  revert s. induction n as [|n IH]; intros s; simpl; [by exists []|].
  destruct (strip_one encs s) as [t|] eqn:E; [|by exists []].
  apply strip_one_Some in E as (e & _ & ->). destruct (IH t) as [p Hp].
  exists (e ++ p). by rewrite <-app_assoc, <-Hp.
Qed.

Lemma strip_one_prefix (encs : list gostring) (s t : gostring) :
  strip_one encs (s ++ t) = None -> strip_one encs s = None.
Proof.
  rewrite !strip_one_None. intros H. eapply Forall_impl; [exact H|].
  intros e. apply HasPrefix_false_app.
Qed.

Lemma space_encodings_nonempty : Forall (fun e => e <> []) space_encodings.
Proof. apply Forall_fold_right. vm_compute. repeat split; intros; discriminate. Qed.

Lemma space_encodings_rev_nonempty : Forall (fun e => e <> []) (reverse <$> space_encodings).
Proof. apply Forall_fold_right. vm_compute. repeat split; intros; discriminate. Qed.

(** A string that neither starts nor ends with a space is what
    [TrimSpace] returns, and only such strings are. *)
Definition trimmed (s : gostring) : Prop :=
  strip_one space_encodings s = None
  /\ strip_one (reverse <$> space_encodings) (reverse s) = None.

Lemma trim_right_space_prefix (s : gostring) : exists t, s = trim_right_space s ++ t.
Proof.
  unfold trim_right_space.
  destruct (strip_all_suffix (length s) (reverse <$> space_encodings) (reverse s)) as [p Hp].
  exists (reverse p).
  rewrite <-reverse_app, <-Hp. by rewrite reverse_involutive.
Qed.

Lemma TrimSpace_trimmed (s : gostring) : trimmed (TrimSpace s).
Proof.
  unfold TrimSpace, trimmed. split.
  - destruct (trim_right_space_prefix (trim_left_space s)) as [t Ht].
    apply strip_one_prefix with t. rewrite <-Ht.
    unfold trim_left_space. apply strip_all_None; [|done].
    apply space_encodings_nonempty.
  - unfold trim_right_space. rewrite reverse_involutive.
    apply strip_all_None; [|by rewrite length_reverse].
    apply space_encodings_rev_nonempty.
Qed.

Lemma TrimSpace_id (s : gostring) : trimmed s -> TrimSpace s = s.
Proof.
  intros [H1 H2]. unfold TrimSpace, trim_left_space, trim_right_space.
  rewrite (strip_all_id _ _ s) by done. rewrite strip_all_id by done.
  apply reverse_involutive.
Qed.

Lemma TrimSpace_idemp (s : gostring) : TrimSpace (TrimSpace s) = TrimSpace s.
Proof. apply TrimSpace_id, TrimSpace_trimmed. Qed.

Lemma TrimSpace_length (s : gostring) : (length (TrimSpace s) <= length s)%nat.
Proof.
  unfold TrimSpace. destruct (trim_right_space_prefix (trim_left_space s)) as [t Ht].
  destruct (strip_all_suffix (length s) space_encodings s) as [p Hp].
  fold (trim_left_space s) in Hp.
  apply (f_equal length) in Ht, Hp. rewrite length_app in Ht, Hp. lia.
Qed.

(** ** Lemmas: numbers *)

(** The number a digit list denotes in a base, after a prefix worth [n]. *)
Definition digits_value (base : Z) (ds : list Z) (n : Z) : Z :=
  fold_left (fun a d => (a * base + d)%Z) ds n.

Lemma digits_loop_value (fuel : nat) (base n : Z) (acc : list Z) :
  (2 <= base)%Z -> (0 <= n < 2 ^ Z.of_nat fuel)%Z ->
  digits_value base (digits_loop fuel base n acc) 0 = digits_value base acc n.
Proof.
  intros Hb. revert n acc. induction fuel as [|fuel IH]; intros n acc Hn.
  - simpl. f_equal. rewrite Nat2Z.inj_0, Z.pow_0_r in Hn. lia.
  - cbn [digits_loop]. pose proof (Z.div_mod n base ltac:(lia)) as Hd.
    destruct (n / base =? 0)%Z eqn:E; reflect_bool; cbn [digits_value fold_left].
    + unfold digits_value. simpl. f_equal. rewrite E in Hd. lia.
    + rewrite IH.
      * unfold digits_value. simpl. f_equal. lia.
      * rewrite Nat2Z.inj_succ, Z.pow_succ_r in Hn by lia. split.
        -- apply Z.div_pos; lia.
        -- apply Z.le_lt_trans with (n / 2)%Z; [apply Z.div_le_compat_l; lia|].
           apply Z.div_lt_upper_bound; lia.
Qed.

Lemma digits_of_value (base n : Z) :
  (2 <= base)%Z -> (0 <= n)%Z -> digits_value base (digits_of base n) 0 = n.
Proof.
  intros Hb Hn. unfold digits_of. rewrite digits_loop_value; [done|done|].
  split; [done|]. rewrite Nat2Z.inj_succ.
  pose proof (Z.log2_nonneg n). rewrite Z2Nat.id by done.
  destruct (Z.eq_dec n 0) as [->|Hne]; [by vm_compute|].
  apply Z.log2_spec. lia.
Qed.

Lemma digits_loop_range (fuel : nat) (base n : Z) (acc : list Z) :
  (2 <= base)%Z -> Forall (fun d => 0 <= d < base)%Z acc ->
  Forall (fun d => 0 <= d < base)%Z (digits_loop fuel base n acc).
Proof.
  intros Hb. revert n acc. induction fuel as [|fuel IH]; intros n acc Ha; [done|].
  cbn [digits_loop]. pose proof (Z.mod_pos_bound n base ltac:(lia)).
  destruct (n / base =? 0)%Z; [by constructor|]. apply IH. by constructor.
Qed.

Lemma digits_of_range (base n : Z) :
  (2 <= base)%Z -> Forall (fun d => 0 <= d < base)%Z (digits_of base n).
Proof. intros. unfold digits_of. apply digits_loop_range; [done|constructor]. Qed.

Lemma digits_loop_nonempty (fuel : nat) (base n : Z) (acc : list Z) :
  (0 < length acc + fuel)%nat -> digits_loop fuel base n acc <> [].
Proof.
  revert n acc. induction fuel as [|fuel IH]; intros n acc H; simpl.
  - destruct acc; [simpl in H; lia|done].
  - destruct (n / base =? 0)%Z; [done|]. apply IH. simpl. lia.
Qed.

Lemma digits_of_nonempty (base n : Z) : digits_of base n <> [].
Proof. unfold digits_of. apply digits_loop_nonempty. lia. Qed.

Lemma digits_loop_length (fuel k : nat) (base n : Z) (acc : list Z) :
  (2 <= base)%Z -> (0 <= n < base ^ Z.of_nat k)%Z -> (0 < k)%nat ->
  (length (digits_loop fuel base n acc) <= length acc + k)%nat.
Proof.
  intros Hb. revert n acc k. induction fuel as [|fuel IH]; intros n acc k Hn Hk; simpl; [lia|].
  destruct (n / base =? 0)%Z eqn:E; reflect_bool; simpl; [lia|].
  destruct k as [|k]; [lia|]. rewrite Nat2Z.inj_succ, Z.pow_succ_r in Hn by lia.
  assert (0 <= n / base < base ^ Z.of_nat k)%Z as Hd.
  { split; [apply Z.div_pos; lia|apply Z.div_lt_upper_bound; lia]. }
  destruct k as [|k].
  - rewrite Nat2Z.inj_0, Z.pow_0_r in Hd. lia.
  - specialize (IH (n / base)%Z ((n mod base)%Z :: acc) (S k) Hd). simpl in IH. lia.
Qed.

Lemma digits_of_length (k : nat) (base n : Z) :
  (2 <= base)%Z -> (0 <= n < base ^ Z.of_nat k)%Z -> (0 < k)%nat ->
  (length (digits_of base n) <= k)%nat.
Proof.
  intros. unfold digits_of.
  pose proof (digits_loop_length (S (Z.to_nat (Z.log2 n))) k base n []) as Hl.
  simpl in Hl |- *. apply Hl; done.
Qed.

Lemma digits_value_ge (base : Z) (ds : list Z) (n : Z) :
  (1 <= base)%Z -> Forall (fun d => 0 <= d)%Z ds -> (0 <= n)%Z -> (n <= digits_value base ds n)%Z.
Proof.
  intros Hb Hd. revert n. unfold digits_value.
  induction Hd as [|d ds Hd0 Hds IH]; intros n Hn; simpl; [lia|].
  specialize (IH (n * base + d)%Z). nia.
Qed.

Lemma digits_value_app (base : Z) (ds es : list Z) (n : Z) :
  digits_value base (ds ++ es) n = digits_value base es (digits_value base ds n).
Proof. unfold digits_value. by rewrite fold_left_app. Qed.

Lemma digits_value_zeros (base : Z) (k : nat) : digits_value base (replicate k 0%Z) 0 = 0%Z.
Proof. induction k as [|k IH]; [done|]. exact IH. Qed.

Lemma byte_val_digit (d : Z) : (0 <= d < 10)%Z -> byte_val (digit_char d) = (48 + d)%Z.
Proof. intros. unfold digit_char. rewrite byte_val_to_byte, Z.mod_small; lia. Qed.

Lemma is_digit_char (d : Z) : (0 <= d < 10)%Z -> is_digit (digit_char d) = true.
Proof.
  intros H. unfold is_digit. rewrite byte_val_digit by done.
  apply andb_true_intro; split; apply Z.leb_le; lia.
Qed.

Lemma digit_val_char (d : Z) : (0 <= d < 10)%Z -> digit_val (digit_char d) = d.
Proof. intros. unfold digit_val. rewrite byte_val_digit by done. lia. Qed.

Lemma parse_uint_digits (ds : list Z) (n : Z) :
  Forall (fun d => 0 <= d < 10)%Z ds -> (0 <= n)%Z ->
  (digits_value 10 ds n < 2 ^ 63 + 1)%Z ->
  parse_uint_loop (map digit_char ds) n = (digits_value 10 ds n, true, true).
Proof.
  intros Hd. revert n. induction Hd as [|d ds Hd0 Hds IH]; intros n Hn Hv; [done|].
  cbn [map parse_uint_loop]. rewrite is_digit_char, digit_val_char by done. cbn [negb].
  assert (n * 10 + d <= digits_value 10 (d :: ds) n)%Z as Hge.
  { unfold digits_value. cbn [fold_left]. apply (digits_value_ge 10 ds); [lia| |nia].
    eapply Forall_impl; [exact Hds|]. simpl. lia. }
  destruct (1844674407370955162 <=? n)%Z eqn:E1; reflect_bool; [lia|].
  destruct (2 ^ 64 - 1 <? n * 10 + d)%Z eqn:E2; reflect_bool; [lia|].
  rewrite IH; [done|lia|exact Hv].
Qed.

Lemma digit_char_not_sign (d : Z) :
  (0 <= d < 10)%Z -> ceq (digit_char d) "-"%char = false /\ ceq (digit_char d) "+"%char = false.
Proof.
  intros H. split; apply ceq_neq; intros E; apply (f_equal byte_val) in E;
    rewrite byte_val_digit in E by done; vm_compute (byte_val _) in E; lia.
Qed.

Lemma Atoi_digits (ds : list Z) :
  ds <> [] -> Forall (fun d => 0 <= d < 10)%Z ds -> (digits_value 10 ds 0 < 2 ^ 63)%Z ->
  Atoi (map digit_char ds) = (digits_value 10 ds 0, None).
Proof.
  intros Hne Hd Hv. unfold Atoi. destruct ds as [|d ds]; [done|].
  pose proof (Forall_inv Hd) as Hd0.
  destruct (digit_char_not_sign d Hd0) as [Hm Hp]. cbn [map].
  rewrite Hm, Hp. change (digit_char d :: map digit_char ds) with (map digit_char (d :: ds)).
  rewrite parse_uint_digits by (done || lia). cbn [negb andb].
  destruct (2 ^ 63 <=? digits_value 10 (d :: ds) 0)%Z eqn:E; reflect_bool; [lia|done].
Qed.

(** [strconv.Atoi] inverts [strconv.Itoa] on every non-negative [int]. *)
Lemma Atoi_Itoa (n : Z) : (0 <= n <= int64_max)%Z -> Atoi (Itoa n) = (n, None).
Proof.
  unfold int64_max. intros H. unfold Itoa.
  destruct (n <? 0)%Z eqn:E; reflect_bool; [lia|].
  rewrite Atoi_digits; rewrite ?digits_of_value by lia; [done| | |lia].
  - apply digits_of_nonempty.
  - apply digits_of_range. lia.
Qed.

Lemma Atoi_range (s : gostring) : (int64_min <= (Atoi s).1 <= int64_max)%Z.
Proof.
  assert (forall ds n, 0 <= n < 2 ^ 64 -> 0 <= (parse_uint_loop ds n).1.1 < 2 ^ 64)%Z as Hp.
  { induction ds as [|c ds IH]; intros n Hn; cbn [parse_uint_loop]; [done|].
    destruct (is_digit c) eqn:Ec; cbn [negb]; [|done].
    destruct (1844674407370955162 <=? n)%Z eqn:E1; [done|].
    destruct (2 ^ 64 - 1 <? _)%Z eqn:E2; [done|]. reflect_bool. apply IH.
    unfold is_digit in Ec. unfold digit_val in *. reflect_bool. lia. }
  unfold Atoi, int64_min, int64_max.
  destruct (match s with [] => _ | _ => _ end) as [neg [|d ds]]; [simpl; lia|].
  specialize (Hp (d :: ds) 0%Z ltac:(lia)).
  destruct (parse_uint_loop (d :: ds) 0) as [[un so] ro]. simpl in Hp.
  destruct so; cbn [negb]; [|simpl; lia].
  destruct neg; cbn [negb andb].
  - destruct (2 ^ 63 <? un)%Z eqn:E; reflect_bool; cbn [fst]; lia.
  - destruct (2 ^ 63 <=? un)%Z eqn:E; reflect_bool; cbn [fst]; lia.
Qed.

(** Every byte of [Itoa n] is a digit when [n] is not negative. *)
Lemma Itoa_digits (n : Z) : (0 <= n)%Z -> Forall (fun c => is_digit c = true) (Itoa n).
Proof.
  intros H. unfold Itoa. destruct (n <? 0)%Z eqn:E; reflect_bool; [lia|].
  apply Forall_fmap. eapply Forall_impl; [apply digits_of_range; lia|].
  intros d Hd. by apply is_digit_char.
Qed.

Lemma Itoa_no_dash (n : Z) : (0 <= n)%Z -> "-"%char ∉ Itoa n.
Proof.
  intros Hn Hin. pose proof (Itoa_digits n Hn) as HF. rewrite Forall_forall in HF.
  apply HF in Hin. by vm_compute in Hin.
Qed.

Lemma Itoa_nonempty (n : Z) : Itoa n <> [].
Proof.
  unfold Itoa. destruct (n <? 0)%Z; [done|].
  pose proof (digits_of_nonempty 10 n). by destruct (digits_of 10 n).
Qed.

Lemma Itoa_inj (n m : Z) :
  (0 <= n <= int64_max)%Z -> (0 <= m <= int64_max)%Z -> Itoa n = Itoa m -> n = m.
Proof. intros Hn Hm E. apply Atoi_Itoa in Hn, Hm. congruence. Qed.

Definition hex_val (c : ascii) : Z :=
  if (byte_val c <? 58)%Z then byte_val c - 48 else byte_val c - 87.

Lemma hex_val_char (d : Z) : (0 <= d < 16)%Z -> hex_val (hex_char d) = d.
Proof.
  intros H. unfold hex_val, hex_char.
  destruct (d <? 10)%Z eqn:E; reflect_bool; rewrite byte_val_to_byte, Z.mod_small by lia;
    destruct (_ <? 58)%Z eqn:E2; reflect_bool; lia.
Qed.

Lemma map_hex_val (ds : list Z) :
  Forall (fun d => 0 <= d < 16)%Z ds -> map hex_val (map hex_char ds) = ds.
Proof.
  induction 1 as [|d ds Hd Hds IH]; [done|]. cbn [map]. by rewrite hex_val_char, IH.
Qed.

(** [%08x] of a 32-bit counter has exactly eight digits ... *)
Lemma hex08_length (n : Z) : (0 <= n < 2 ^ 32)%Z -> length (hex08 n) = 8%nat.
Proof.
  intros H. unfold hex08. rewrite length_app, length_replicate, length_map.
  assert (length (digits_of 16 n) <= 8)%nat; [|lia].
  apply digits_of_length; [lia| |lia]. change (16 ^ Z.of_nat 8)%Z with (2 ^ 32)%Z. lia.
Qed.

(** ... and determines the counter. *)
Lemma hex08_value (n : Z) :
  (0 <= n)%Z -> digits_value 16 (map hex_val (hex08 n)) 0 = n.
Proof.
  intros H. unfold hex08. rewrite map_app, length_map, digits_value_app.
  rewrite map_hex_val by (apply digits_of_range; lia).
  replace (map hex_val (replicate _ "0"%char))
    with (replicate (8 - length (digits_of 16 n)) 0%Z).
  - rewrite digits_value_zeros. by apply digits_of_value.
  - induction (8 - length (digits_of 16 n))%nat as [|k IH]; [done|].
    cbn [replicate map]. by rewrite IH.
Qed.

Lemma hex08_inj (n m : Z) : (0 <= n)%Z -> (0 <= m)%Z -> hex08 n = hex08 m -> n = m.
Proof. intros Hn Hm E. rewrite <-(hex08_value n Hn), <-(hex08_value m Hm). by rewrite E. Qed.

(** ** Lemmas: letter case *)

Lemma lower_byte_lower (c : ascii) : is_lower c = true -> lower_byte c = c.
Proof.
  unfold lower_byte, is_lower, is_upper. intros H. reflect_bool.
  destruct (_ && _)%bool eqn:E; [|done]. reflect_bool. lia.
Qed.

Lemma string_of_byte_ascii (c : ascii) : (byte_val c < 128)%Z -> string_of_byte c = [c].
Proof. intros H. unfold string_of_byte. by rewrite (proj2 (Z.ltb_lt _ _) H). Qed.

Lemma string_of_byte_high (c : ascii) : (128 <= byte_val c)%Z -> length (string_of_byte c) = 2%nat.
Proof. intros H. unfold string_of_byte. by rewrite (proj2 (Z.ltb_ge _ _) H). Qed.

(** ** Lemmas: paths *)

Lemma path_split_app (s : gostring) : (path_split s).1 ++ (path_split s).2 = s.
Proof.
  induction s as [|c s IH]; [done|]. simpl.
  destruct (path_split s) as [dir file]. simpl in IH.
  destruct dir as [|d dir]; simpl in *.
  - destruct (ceq c "/"%char); simpl; by rewrite IH.
  - by rewrite IH.
Qed.

Lemma path_split_file (s : gostring) : "/"%char ∉ (path_split s).2.
Proof.
  induction s as [|c s IH]; [apply not_elem_of_nil|]. simpl.
  destruct (path_split s) as [dir file]. simpl in IH.
  destruct dir as [|d dir]; simpl; [|done].
  destruct (ceq c "/"%char) eqn:E; simpl; [done|]. reflect_bool.
  apply not_elem_of_cons. split; congruence.
Qed.

(** Splitting at the last slash. *)
Lemma path_split_no_slash (f : gostring) : "/"%char ∉ f -> path_split f = ([], f).
Proof.
  induction f as [|c f IH]; [done|]. intros [Hc Hf]%not_elem_of_cons. cbn [path_split]. rewrite IH by done.
  by rewrite ceq_neq.
Qed.

Lemma path_split_dir (a f : gostring) : "/"%char ∉ f -> path_split (a ++ "/"%char :: f) = (a ++ ["/"%char], f).
Proof.
  intros Hf. induction a as [|c a IH]; cbn [app path_split]; [by rewrite path_split_no_slash|].
  rewrite IH. by destruct (a ++ ["/"%char]) eqn:E; [destruct a|].
Qed.

#[export] Hint Resolve Split_parts TrimSpace_trimmed path_split_file : gostr.
#[export] Hint Rewrite TrimSpace_idemp HasPrefix_app TrimPrefix_app path_split_app : gostr.
