(* ===== verification/Message.v ===== *)
(** * Shared RTSP message syntax (src/rtspproxy/message.go)

    Line splitting, canonical header keys, header lookup, header-line
    parsing, and the two byte scanners [indexBytes] and
    [sharedParseContentLength], each translated loop for loop, with
    reference definitions they are proved equal to. *)

From stdpp Require Import gmap strings list fin_maps.
From Stdlib Require Import Ascii ZArith Lia.
From S2P Require Import Prelude GoStrings.

Local Open Scope go_scope.

(** ** Definitions *)

(** [sharedLineSplit]: the loop over [buf[i]] as recursion on the part
    not yet scanned; returns [(rest, line)]. *)
Fixpoint sharedLineSplit (buf : gostring) : gostring * gostring :=
  match buf with
  | [] => ([], [])
  | c :: t =>
      if (c =c CR) || (c =c LF) then
        match t with
        | d :: t' => if (c =c CR) && (d =c LF) then (t', []) else (t, [])
        | [] => (t, [])
        end
      else let '(rest, line) := sharedLineSplit t in (rest, c :: line)
  end.

(** The loop of [canonicalHeaderKey] with its variable [upper]. *)
Fixpoint canonical_loop (upper : bool) (b : gostring) : gostring :=
  match b with
  | [] => []
  | c :: t =>
      (if upper && is_lower c then to_byte (byte_val c - 32)
       else if negb upper && is_upper c then to_byte (byte_val c + 32)
       else c) :: canonical_loop (c =c "-"%char) t
  end.

Definition canonicalHeaderKey (s : gostring) : gostring :=
  let s := TrimSpace s in
  match s with
  | [] => s
  | _ => canonical_loop true s
  end.

(** [headers] is a [map[string]string]. *)
Abbreviation header_map := (gmap gostring gostring).

Fixpoint header_scan `{GoRuntime} (entries : list (gostring * gostring)) (lower : gostring)
  : gostring :=
  match entries with
  | [] => []
  | (k, v) :: es => if ToLower k =s lower then v else header_scan es lower
  end.

Definition headerGet `{GoRuntime} (headers : header_map) (key : gostring) : gostring :=
  match headers !! key with
  | Some v => v
  | None =>
      let canon := canonicalHeaderKey key in
      match headers !! canon with
      | Some v => v
      | None => header_scan (map_range headers) (ToLower key)
      end
  end.

(** The whitespace skip after the colon. *)
Fixpoint skip_blanks (s : gostring) : gostring :=
  match s with
  | c :: t => if (c =c SP) || (c =c TAB) then skip_blanks t else s
  | [] => []
  end.

(** The two-state loop that copies the value: [skip = false] is the state
    "value", [skip = true] the state "skip". *)
Fixpoint value_loop (skip : bool) (s : gostring) : gostring :=
  match s with
  | [] => []
  | c :: t =>
      if skip then
        if (c <>c SP) && (c <>c TAB) && (c <>c CR) && (c <>c LF)
        then c :: value_loop false t
        else value_loop true t
      else
        if (c =c TAB) || (c =c CR) || (c =c LF) then value_loop false t
        else c :: value_loop (c =c ";"%char) t
  end.

Definition sharedParseHeader (line : gostring) : result (gostring * gostring) :=
  match IndexByte line ":"%char with
  | None => Err (ErrText (str "header parse error: missing colon"))
  | Some colon =>
      Ok (canonicalHeaderKey (take colon line),
          value_loop false (skip_blanks (drop (S colon) line)))
  end.

(** [indexBytes]: inner loop over [j] ([k] iterations left), outer loop
    over [i]. *)
Fixpoint indexBytes_inner (haystack needle : gostring) (i j k : nat) : bool :=
  match k with
  | O => true
  | S k' =>
      match haystack !! (i + j)%nat, needle !! j with
      | Some a, Some b =>
          if a <>c b then false else indexBytes_inner haystack needle i (S j) k'
      | _, _ => false
      end
  end.

Fixpoint indexBytes_outer (fuel : nat) (haystack needle : gostring) (i : nat) : Z :=
  match fuel with
  | O => -1
  | S f =>
      if (i + length needle <=? length haystack)%nat then
        if indexBytes_inner haystack needle i 0 (length needle) then Z.of_nat i
        else indexBytes_outer f haystack needle (S i)
      else -1
  end.

Definition indexBytes (haystack needle : gostring) : Z :=
  match needle with
  | [] => 0
  | _ => indexBytes_outer (S (length haystack)) haystack needle 0
  end.

(** [sharedParseContentLength]: the case-insensitive scan, then the line
    that follows the needle. *)
Definition content_length_needle : gostring := str "content-length:".

Fixpoint clen_inner (headerPart : gostring) (i j k : nat) : bool :=
  match k with
  | O => true
  | S k' =>
      match headerPart !! (i + j)%nat, content_length_needle !! j with
      | Some c1, Some c2 =>
          if lower_byte c1 <>c c2 then false else clen_inner headerPart i (S j) k'
      | _, _ => false
      end
  end.

Definition clen_value (rest : gostring) : Z :=
  let lineEnd := indexBytes rest CRLF in
  let lineEnd := if (lineEnd <? 0)%Z then slen rest else lineEnd in
  (Atoi (TrimSpace (take (Z.to_nat lineEnd) rest))).1.

Fixpoint clen_outer (fuel : nat) (headerPart : gostring) (i : nat) : Z :=
  match fuel with
  | O => 0
  | S f =>
      let nLen := length content_length_needle in
      if (i + nLen <=? length headerPart)%nat then
        if clen_inner headerPart i 0 nLen then clen_value (drop (i + nLen) headerPart)
        else clen_outer f headerPart (S i)
      else 0
  end.

Definition sharedParseContentLength (headerPart : gostring) : Z :=
  clen_outer (S (length headerPart)) headerPart 0.

(** ** Specifications *)

(** What a line ends with. *)
Definition no_eol (s : gostring) : Prop := (CR ∉ s) /\ (LF ∉ s).

#[global] Instance no_eol_dec (s : gostring) : Decision (no_eol s).
Proof. unfold no_eol. apply _. Defined.

(** The values the header parser leaves unchanged: no tab or line end,
    no leading space, and no blank right behind a semicolon. *)
Fixpoint clean_from (skip : bool) (s : gostring) : bool :=
  match s with
  | [] => true
  | c :: t =>
      (c <>c TAB) && (c <>c CR) && (c <>c LF) && negb (skip && (c =c SP))
      && clean_from (negb skip && (c =c ";"%char)) t
  end.

Definition clean_value (v : gostring) : bool :=
  match v with
  | c :: _ => (c <>c SP) && clean_from false v
  | [] => true
  end.

(** The reference for [sharedParseContentLength]: the first occurrence of
    the needle in the lower-cased block, and the number on its line. *)
Definition content_length_spec (headerPart : gostring) : Z :=
  match Index (map lower_byte headerPart) content_length_needle with
  | None => 0
  | Some i =>
      let rest := drop (i + length content_length_needle) headerPart in
      let line := match Index rest CRLF with Some e => take e rest | None => rest end in
      (Atoi (TrimSpace line)).1
  end.

(** ** Lines *)

Lemma no_eol_cons (c : ascii) (s : gostring) :
  no_eol (c :: s) <-> c <> CR /\ c <> LF /\ no_eol s.
Proof. unfold no_eol. rewrite !not_elem_of_cons. intuition congruence. Qed.

Lemma no_eol_app (s t : gostring) : no_eol (s ++ t) <-> no_eol s /\ no_eol t.
Proof. unfold no_eol. rewrite !not_elem_of_app. tauto. Qed.

Lemma no_eol_nil : no_eol [].
Proof. split; apply not_elem_of_nil. Qed.

Lemma no_eol_take (n : nat) (s : gostring) : no_eol s -> no_eol (take n s).
Proof. intros H. rewrite <-(take_drop n s) in H. by apply no_eol_app in H as [? _]. Qed.

Lemma no_eol_drop (n : nat) (s : gostring) : no_eol s -> no_eol (drop n s).
Proof. intros H. rewrite <-(take_drop n s) in H. by apply no_eol_app in H as [_ ?]. Qed.

Lemma eol_tests (c : ascii) : c <> CR -> c <> LF -> (ceq c CR || ceq c LF)%bool = false.
Proof. intros H1 H2. by rewrite !ceq_neq. Qed.

Lemma lineSplit_crlf (line rest : gostring) :
  no_eol line -> sharedLineSplit (line ++ CRLF ++ rest) = (rest, line).
Proof.
  induction line as [|c line IH]; intros Hn; [done|].
  apply no_eol_cons in Hn as (H1 & H2 & Hn). cbn [app sharedLineSplit].
  rewrite eol_tests by done. by rewrite IH.
Qed.

Lemma lineSplit_last (line : gostring) : no_eol line -> sharedLineSplit line = ([], line).
Proof.
  induction line as [|c line IH]; intros Hn; [done|].
  apply no_eol_cons in Hn as (H1 & H2 & Hn). cbn [sharedLineSplit].
  rewrite eol_tests by done. by rewrite IH.
Qed.

(** How a buffer decomposes into its first line and the rest. *)
Definition split_of (buf rest line : gostring) : Prop :=
  no_eol line /\
  ((buf = line /\ rest = [])
   \/ buf = line ++ CRLF ++ rest
   \/ (buf = line ++ CR :: rest /\ head rest <> Some LF)
   \/ buf = line ++ LF :: rest).

Lemma lineSplit_decomposes (buf : gostring) :
  split_of buf (sharedLineSplit buf).1 (sharedLineSplit buf).2.
Proof.
  induction buf as [|c t IH]; [split; [apply no_eol_nil|by left]|].
  cbn [sharedLineSplit]. destruct (ceq c CR) eqn:Ecr; reflect_bool; cbn [orb andb].
  - subst c. destruct t as [|d t]; [split; [apply no_eol_nil|right; right; by left]|].
    destruct (ceq d LF) eqn:Elf; reflect_bool; (split; [apply no_eol_nil|]).
    + subst d. right. by left.
    + right. right. left. simpl. split; congruence.
  - destruct (ceq c LF) eqn:Elf; reflect_bool.
    + subst c. destruct t; (split; [apply no_eol_nil|]; by do 3 right).
    + destruct (sharedLineSplit t) as [rest line]. destruct IH as [Hn Hd].
      split; [by apply no_eol_cons|]. cbn [fst snd] in *.
      destruct Hd as [[-> ->]|[->|[[-> ?]| ->]]]; simpl; eauto 6.
Qed.

(** A non-empty line is consumed: what the header loops decrease. *)
Lemma lineSplit_shorter (buf : gostring) :
  (sharedLineSplit buf).2 <> [] ->
  (length (sharedLineSplit buf).1 < length buf)%nat.
Proof.
  destruct (lineSplit_decomposes buf) as [_ Hd].
  destruct (sharedLineSplit buf) as [rest line]. cbn [fst snd] in *. intros Hne.
  assert (0 < length line)%nat by (destruct line; [done|simpl; lia]).
  destruct Hd as [[-> ->]|[->|[[-> ?]| ->]]]; rewrite ?length_app; simpl; lia.
Qed.

(** ** Canonical keys *)

(** Two bytes that differ at most in letter case. *)
Definition case_variant (a b : ascii) : Prop :=
  a = b \/ (is_lower a || is_upper a = true)%bool /\ (is_lower b || is_upper b = true)%bool.

Lemma is_letter_spec (c : ascii) :
  (is_lower c || is_upper c)%bool = true <->
  (97 <= byte_val c <= 122 \/ 65 <= byte_val c <= 90)%Z.
Proof.
  unfold is_lower, is_upper. rewrite orb_true_iff, !andb_true_iff, !Z.leb_le. lia.
Qed.

Lemma canonical_byte_variant (u : bool) (c : ascii) :
  case_variant (if u && is_lower c then to_byte (byte_val c - 32)
                else if negb u && is_upper c then to_byte (byte_val c + 32) else c) c.
Proof.
  unfold case_variant. rewrite !is_letter_spec.
  destruct (u && is_lower c)%bool eqn:E1.
  - right. unfold is_lower in E1. reflect_bool.
    rewrite byte_val_to_byte, Z.mod_small; lia.
  - destruct (negb u && is_upper c)%bool eqn:E2; [|by left].
    right. unfold is_upper in E2. reflect_bool.
    rewrite byte_val_to_byte, Z.mod_small; lia.
Qed.

Lemma canonical_loop_variant (u : bool) (b : gostring) :
  Forall2 case_variant (canonical_loop u b) b.
Proof.
  revert u. induction b as [|c b IH]; intros u; simpl; constructor; [|done].
  apply canonical_byte_variant.
Qed.

(** Case variants start with the same letter-free prefixes. *)
Lemma variant_HasPrefix (a b e : gostring) :
  Forall2 case_variant a b ->
  Forall (fun c => (is_lower c || is_upper c)%bool = false) e ->
  HasPrefix a e = HasPrefix b e.
Proof.
  intros Hv He. revert a b Hv. induction He as [|x e Hx He IH]; intros a b Hv; [done|].
  destruct Hv as [|p q a b Hpq Hv]; [done|]. simpl. rewrite (IH a b Hv). f_equal.
  destruct Hpq as [->|[Hp Hq]]; [done|].
  rewrite !ceq_neq; [done| |]; intros ->; congruence.
Qed.

Lemma variant_strip_one (encs : list gostring) (a b : gostring) :
  Forall2 case_variant a b ->
  Forall (Forall (fun c => (is_lower c || is_upper c)%bool = false)) encs ->
  strip_one encs b = None -> strip_one encs a = None.
Proof.
  rewrite !strip_one_None. intros Hv Henc Hb.
  eapply Forall_impl; [exact (proj2 (Forall_and _ _) (conj Henc Hb))|].
  intros e [He Hp]. by rewrite (variant_HasPrefix a b).
Qed.

Lemma space_encodings_no_letter :
  Forall (Forall (fun c => (is_lower c || is_upper c)%bool = false)) space_encodings
  /\ Forall (Forall (fun c => (is_lower c || is_upper c)%bool = false)) (reverse <$> space_encodings).
Proof. split; apply (bool_decide_unpack _); by vm_compute. Qed.

Lemma variant_trimmed (a b : gostring) :
  Forall2 case_variant a b -> trimmed b -> trimmed a.
Proof.
  intros Hv [H1 H2]. destruct space_encodings_no_letter as [Hl Hr]. split.
  - by apply (variant_strip_one _ a b).
  - apply (variant_strip_one _ (reverse a) (reverse b)); [|done|done].
    by apply Forall2_reverse.
Qed.

Lemma canonical_byte_idemp (u : bool) (c : ascii) :
  let f c := if u && is_lower c then to_byte (byte_val c - 32)
             else if negb u && is_upper c then to_byte (byte_val c + 32) else c in
  f (f c) = f c.
Proof.
  cbn zeta. destruct u; cbn [negb andb].
  - destruct (is_lower c) eqn:E1; [|by rewrite E1].
    destruct (is_lower (to_byte _)) eqn:E2; [|done]. unfold is_lower in *.
    rewrite byte_val_to_byte in E2. reflect_bool. rewrite Z.mod_small in *; lia.
  - destruct (is_upper c) eqn:E1; [|by rewrite E1].
    destruct (is_upper (to_byte _)) eqn:E2; [|done]. unfold is_upper in *.
    rewrite byte_val_to_byte in E2. reflect_bool. rewrite Z.mod_small in *; lia.
Qed.

Lemma canonical_loop_idemp (u : bool) (b : gostring) :
  canonical_loop u (canonical_loop u b) = canonical_loop u b.
Proof.
  revert u. induction b as [|c b IH]; intros u; [done|]. cbn [canonical_loop].
  set (c' := if u && is_lower c then _ else _).
  assert (ceq c' "-"%char = ceq c "-"%char) as ->.
  { destruct (canonical_byte_variant u c) as [E|[H1 H2]]; [by unfold c'; rewrite E|].
    fold c' in H1. rewrite !ceq_neq; [done| |]; intros E; rewrite E in H1 || rewrite E in H2; done. }
  rewrite IH. f_equal. apply canonical_byte_idemp.
Qed.

Lemma canonical_loop_nil (u : bool) (b : gostring) : canonical_loop u b = [] -> b = [].
Proof. by destruct b. Qed.

Lemma canonicalHeaderKey_eq (s : gostring) :
  canonicalHeaderKey s = canonical_loop true (TrimSpace s).
Proof. unfold canonicalHeaderKey. by destruct (TrimSpace s). Qed.

Lemma canonical_idemp (s : gostring) :
  canonicalHeaderKey (canonicalHeaderKey s) = canonicalHeaderKey s.
Proof.
  rewrite !canonicalHeaderKey_eq. rewrite TrimSpace_id; [apply canonical_loop_idemp|].
  eapply variant_trimmed; [apply canonical_loop_variant|apply TrimSpace_trimmed].
Qed.

Lemma canonical_length (u : bool) (b : gostring) : length (canonical_loop u b) = length b.
Proof. exact (Forall2_length _ _ _ (canonical_loop_variant u b)). Qed.

Lemma infix_full {A} (p s t : list A) : (length (p ++ s ++ t) <= length s)%nat -> p ++ s ++ t = s.
Proof.
  rewrite !length_app. intros H.
  assert (p = []) as -> by (apply nil_length_inv; lia).
  assert (t = []) as -> by (apply nil_length_inv; lia). by rewrite app_nil_r.
Qed.

Lemma TrimSpace_infix (s : gostring) : exists p t, s = p ++ TrimSpace s ++ t.
Proof.
  unfold TrimSpace. destruct (trim_right_space_prefix (trim_left_space s)) as [t Ht].
  destruct (strip_all_suffix (length s) space_encodings s) as [p Hp].
  fold (trim_left_space s) in Hp. exists p, t. by rewrite <-Ht.
Qed.

(** A canonical key is trimmed and a fixed point of the loop. *)
Lemma canonical_fixed (k : gostring) :
  canonicalHeaderKey k = k -> TrimSpace k = k /\ canonical_loop true k = k.
Proof.
  rewrite canonicalHeaderKey_eq. intros H.
  assert (TrimSpace k = k) as Ht.
  { destruct (TrimSpace_infix k) as (p & t & Hk).
    apply (f_equal length) in H. rewrite canonical_length in H.
    rewrite Hk at 2. symmetry. apply infix_full. rewrite <-Hk. lia. }
  by rewrite Ht in H.
Qed.

Lemma lower_byte_variant (c d : ascii) :
  lower_byte c = lower_byte d -> forall u,
  (if u && is_lower c then to_byte (byte_val c - 32)
   else if negb u && is_upper c then to_byte (byte_val c + 32) else c)
  = (if u && is_lower d then to_byte (byte_val d - 32)
     else if negb u && is_upper d then to_byte (byte_val d + 32) else d).
Proof.
  intros H u. apply byte_val_inj. apply (f_equal byte_val) in H.
  unfold lower_byte in H. revert H. unfold is_lower, is_upper.
  pose proof (byte_val_range c). pose proof (byte_val_range d).
  destruct u; cbn [negb andb];
    repeat match goal with
    | |- context [(?a <=? ?b)%Z] => destruct (Z.leb_spec a b); cbn [andb]
    end; rewrite ?byte_val_to_byte, ?Z.mod_small by lia; lia.
Qed.

Lemma lower_byte_dash (c d : ascii) :
  lower_byte c = lower_byte d -> ceq c "-"%char = ceq d "-"%char.
Proof.
  intros H. apply (f_equal byte_val) in H. unfold lower_byte, is_upper in H.
  assert (forall x, byte_val x <> 45 -> ceq x "-"%char = false)%Z as Hx.
  { intros x Hx. apply ceq_neq. by intros ->. }
  assert (forall x, byte_val x = 45 -> ceq x "-"%char = true)%Z as Hy.
  { intros x Hy. rewrite (byte_val_inj x "-"%char) by (by rewrite Hy). done. }
  destruct (Z.eq_dec (byte_val c) 45) as [Ec|Ec].
  - rewrite (Hy c) by done. rewrite Ec in H. cbn in H. symmetry. apply Hy.
    pose proof (byte_val_range d).
    destruct (_ && _)%bool eqn:E in H; reflect_bool;
      [rewrite byte_val_to_byte, Z.mod_small in H; lia|lia].
  - rewrite (Hx c) by done. symmetry. apply Hx. intros Ed. rewrite Ed in H. cbn in H.
    pose proof (byte_val_range c).
    destruct (_ && _)%bool eqn:E in H; reflect_bool;
      [rewrite byte_val_to_byte, Z.mod_small in H; lia|lia].
Qed.

(** The canonical form depends on a key only up to letter case. *)
Lemma canonical_loop_lower (u : bool) (a b : gostring) :
  map lower_byte a = map lower_byte b -> canonical_loop u a = canonical_loop u b.
Proof.
  revert u b. induction a as [|c a IH]; intros u [|d b] H; try done.
  injection H as Hc Ha. cbn [canonical_loop]. f_equal.
  - by apply lower_byte_variant.
  - rewrite (lower_byte_dash _ _ Hc). by apply IH.
Qed.

(** ** Header lookup *)

Section HeaderGet.
Context `{GoRuntime}.

(** The header maps that parsing plain-ASCII messages produces. *)
Definition parsed_keys (h : header_map) : Prop :=
  map_Forall (fun k _ => canonicalHeaderKey k = k /\ is_ascii k = true) h.

Lemma header_scan_missing (es : list (gostring * gostring)) (lower : gostring) :
  (forall k v, (k, v) ∈ es -> ToLower k <> lower) -> header_scan es lower = [].
Proof.
  induction es as [|[k v] es IH]; intros Hes; simpl; [done|].
  destruct (ToLower k =s lower) eqn:E; reflect_bool.
  - destruct (Hes k v); [left|done].
  - apply IH. intros k' v' Hin. apply (Hes k' v'). by right.
Qed.

Lemma headerGet_canonical (h : header_map) (key : gostring) :
  parsed_keys h -> is_ascii key = true -> TrimSpace key = key ->
  headerGet h key = default [] (h !! canonicalHeaderKey key).
Proof.
  intros Hk Ha Ht. unfold headerGet.
  destruct (h !! key) as [v|] eqn:E1.
  { destruct (Hk _ _ E1) as [-> _]. by rewrite E1. }
  destruct (h !! canonicalHeaderKey key) as [v|] eqn:E2; [done|].
  apply header_scan_missing. intros k v Hin Hl.
  rewrite map_range_perm in Hin. apply elem_of_map_to_list in Hin.
  destruct (Hk _ _ Hin) as [Hc Hka]. unfold ToLower in Hl. rewrite Hka, Ha in Hl.
  apply canonical_fixed in Hc as [_ Hc].
  rewrite canonicalHeaderKey_eq, Ht, <-(canonical_loop_lower true k key) in E2 by done.
  rewrite Hc in E2. congruence.
Qed.

End HeaderGet.

(** ** Header lines *)

Lemma value_loop_clean (skip : bool) (v : gostring) :
  clean_from skip v = true -> value_loop skip v = v.
Proof.
  revert skip. induction v as [|c v IH]; intros skip Hc; [done|].
  cbn [clean_from] in Hc. reflect_bool.
  cbn [value_loop]. rewrite (ceq_neq c TAB), (ceq_neq c CR), (ceq_neq c LF) by done.
  destruct skip; cbn [negb orb andb] in *; reflect_bool.
  - rewrite (ceq_neq c SP) by done. cbn [negb andb]. f_equal. by apply IH.
  - f_equal. by apply IH.
Qed.

Lemma skip_blanks_clean (v : gostring) : clean_value v = true -> skip_blanks v = v.
Proof.
  destruct v as [|c v]; [done|]. unfold clean_value. cbn [clean_from skip_blanks].
  intros H. reflect_bool. by rewrite !ceq_neq.
Qed.

Lemma clean_value_from (v : gostring) : clean_value v = true -> clean_from false v = true.
Proof. destruct v; [done|]. unfold clean_value. intros H. by reflect_bool. Qed.

Lemma clean_from_no_eol (skip : bool) (v : gostring) : clean_from skip v = true -> no_eol v.
Proof.
  revert skip. induction v as [|c v IH]; intros skip Hc; [apply no_eol_nil|].
  cbn [clean_from] in Hc. reflect_bool. apply no_eol_cons. eauto.
Qed.

(** Whatever the value loop writes is clean, so parsing is a projection. *)
Lemma value_loop_is_clean (skip : bool) (s : gostring) :
  clean_from skip (value_loop skip s) = true.
Proof.
  revert skip. induction s as [|c s IH]; intros skip; [done|]. cbn [value_loop].
  destruct skip.
  - destruct (_ && _)%bool eqn:E; [|apply IH]. reflect_bool. cbn [clean_from].
    rewrite IH. rewrite !ceq_neq by done. done.
  - destruct (_ || _)%bool eqn:E; [apply IH|]. reflect_bool. cbn [clean_from].
    rewrite !ceq_neq by done. cbn [negb andb]. apply IH.
Qed.

Lemma skip_blanks_head (s : gostring) :
  head (skip_blanks s) <> Some SP /\ head (skip_blanks s) <> Some TAB.
Proof.
  induction s as [|c s IH]; [done|]. cbn [skip_blanks].
  destruct (_ || _)%bool eqn:E; [done|]. reflect_bool. simpl. split; congruence.
Qed.

Lemma skip_blanks_suffix (s : gostring) : exists p, s = p ++ skip_blanks s.
Proof.
  induction s as [|c s [p Hp]]; [by exists []|]. cbn [skip_blanks].
  destruct (_ || _)%bool; [|by exists []]. exists (c :: p). simpl. by rewrite <-Hp.
Qed.

Lemma no_eol_skip_blanks (s : gostring) : no_eol s -> no_eol (skip_blanks s).
Proof.
  intros Hn. destruct (skip_blanks_suffix s) as [p Hp]. rewrite Hp in Hn.
  by apply no_eol_app in Hn as [_ ?].
Qed.

Lemma parsed_value_clean (s : gostring) :
  no_eol s -> clean_value (value_loop false (skip_blanks s)) = true.
Proof.
  intros Hn. pose proof (value_loop_is_clean false (skip_blanks s)) as Hc.
  apply no_eol_skip_blanks in Hn. destruct (skip_blanks_head s) as [Hs Ht].
  destruct (skip_blanks s) as [|c t]; [done|].
  apply no_eol_cons in Hn as (H1 & H2 & _). revert Hc. cbn [value_loop].
  rewrite !ceq_neq by (simpl in *; congruence). cbn [orb]. intros Hc.
  unfold clean_value. rewrite Hc, ceq_neq by (simpl in *; congruence). done.
Qed.

Lemma parseHeader_print (key value : gostring) :
  canonicalHeaderKey key = key -> ":"%char ∉ key -> clean_value value = true ->
  sharedParseHeader (key ++ str ": " ++ value) = Ok (key, value).
Proof.
  intros Hk Hc Hv. unfold sharedParseHeader.
  change (str ": ") with [":"%char; SP]. cbn [app].
  rewrite IndexByte_app by done. rewrite take_app_length, Hk. do 2 f_equal.
  replace (S (length key)) with (length (key ++ [":"%char])) by (rewrite length_app; simpl; lia).
  replace (key ++ ":"%char :: SP :: value) with ((key ++ [":"%char]) ++ SP :: value)
    by (by rewrite <-app_assoc).
  rewrite drop_app_length. cbn [skip_blanks]. rewrite ceq_refl. cbn [orb].
  rewrite skip_blanks_clean by done. by apply value_loop_clean, clean_value_from.
Qed.

Lemma variant_colon (a b : gostring) :
  Forall2 case_variant a b -> ":"%char ∉ b -> ":"%char ∉ a.
Proof.
  induction 1 as [|x y a b Hxy _ IH]; [done|]. rewrite !not_elem_of_cons.
  intros [Hy Hb]. split; [|by apply IH]. intros E. subst x.
  destruct Hxy as [E|[Hx _]]; [done|by vm_compute in Hx].
Qed.

Lemma canonical_no_colon (s : gostring) : ":"%char ∉ s -> ":"%char ∉ canonicalHeaderKey s.
Proof.
  intros Hn. rewrite canonicalHeaderKey_eq.
  eapply variant_colon; [apply canonical_loop_variant|].
  destruct (TrimSpace_infix s) as (p & t & Hs). rewrite Hs, !not_elem_of_app in Hn. tauto.
Qed.

(** ** The two scanners *)

Lemma indexBytes_inner_spec (haystack needle : gostring) (i j k : nat) :
  (j + k = length needle)%nat ->
  indexBytes_inner haystack needle i j k = HasPrefix (drop (i + j) haystack) (drop j needle).
Proof.
  revert j. induction k as [|k IH]; intros j Hj; cbn [indexBytes_inner].
  - by rewrite (drop_ge needle) by lia.
  - destruct (lookup_lt_is_Some_2 needle j ltac:(lia)) as [b Hb]. rewrite Hb.
    rewrite (drop_S needle b j Hb).
    destruct (haystack !! (i + j)%nat) as [a|] eqn:Ha.
    + rewrite (drop_S haystack a (i + j) Ha). cbn [HasPrefix].
      rewrite IH by lia. rewrite Nat.add_succ_r. unfold ceq. rewrite (Ascii.eqb_sym b a).
      by destruct (Ascii.eqb a b).
    + apply lookup_ge_None in Ha. by rewrite (drop_ge haystack) by lia.
Qed.

Lemma HasPrefix_short (s p : gostring) : (length s < length p)%nat -> HasPrefix s p = false.
Proof.
  intros H. destruct (HasPrefix s p) eqn:E; [|done].
  apply HasPrefix_spec in E as [t ->]. rewrite length_app in H. lia.
Qed.

(** The shape both outer loops share: the first index at which [test]
    holds, among those that leave room for [n] more bytes. *)
Lemma Index_found (s sub : gostring) (i : nat) :
  (forall j, (j < i)%nat -> HasPrefix (drop j s) sub = false) ->
  HasPrefix (drop i s) sub = true -> (i <= length s)%nat -> Index s sub = Some i.
Proof. intros. by apply Index_Some. Qed.

Lemma Index_missing (s sub : gostring) (i : nat) :
  (forall j, (j < i)%nat -> HasPrefix (drop j s) sub = false) ->
  (length s < i + length sub)%nat -> sub <> [] -> Index s sub = None.
Proof.
  intros Hj Hl Hne. assert (0 < length sub)%nat by (destruct sub; [done|simpl; lia]). apply Index_None. intros j _.
  destruct (decide (j < i)%nat) as [?|?]; [by apply Hj|].
  apply HasPrefix_short. rewrite length_drop. lia.
Qed.

Lemma indexBytes_outer_spec (fuel : nat) (haystack needle : gostring) (i : nat) :
  (length haystack < i + fuel)%nat -> needle <> [] ->
  (forall j, (j < i)%nat -> HasPrefix (drop j haystack) needle = false) ->
  indexBytes_outer fuel haystack needle i =
  match Index haystack needle with Some n => Z.of_nat n | None => -1 end%Z.
Proof.
  revert i. induction fuel as [|fuel IH]; intros i Hf Hne Hj; cbn [indexBytes_outer].
  - rewrite (Index_missing haystack needle i); [done|done|lia|done].
  - destruct (i + length needle <=? length haystack)%nat eqn:E; reflect_bool.
    + rewrite indexBytes_inner_spec, Nat.add_0_r, drop_0 by lia.
      destruct (HasPrefix (drop i haystack) needle) eqn:Ep.
      * rewrite (Index_found haystack needle i); [done|done|done|lia].
      * apply IH; [lia|done|]. intros j Hlt.
        destruct (decide (j = i)) as [->|?]; [done|]. apply Hj. lia.
    + by rewrite (Index_missing haystack needle i).
Qed.

Lemma indexBytes_Index (haystack needle : gostring) :
  indexBytes haystack needle =
  match Index haystack needle with Some n => Z.of_nat n | None => -1 end%Z.
Proof.
  unfold indexBytes. destruct needle as [|b needle]; [by destruct haystack|].
  apply indexBytes_outer_spec; [lia|done|lia].
Qed.

Lemma clen_inner_spec (h : gostring) (i j k : nat) :
  (j + k = length content_length_needle)%nat ->
  clen_inner h i j k =
  HasPrefix (drop (i + j) (map lower_byte h)) (drop j content_length_needle).
Proof.
  intros Hj. rewrite <-(indexBytes_inner_spec _ _ _ _ _ Hj). clear Hj. revert j.
  induction k as [|k IH]; intros j; cbn [clen_inner indexBytes_inner]; [done|].
  change (map lower_byte h) with (lower_byte <$> h).
  rewrite list_lookup_fmap. destruct (h !! (i + j)%nat) as [a|]; [|done]. cbn [fmap option_fmap option_map].
  destruct (content_length_needle !! j) as [b|]; [|done].
  by rewrite IH.
Qed.

Lemma clen_value_spec (rest : gostring) :
  clen_value rest =
  (Atoi (TrimSpace (match Index rest CRLF with Some e => take e rest | None => rest end))).1.
Proof.
  unfold clen_value. rewrite indexBytes_Index. destruct (Index rest CRLF) as [e|].
  - destruct (Z.of_nat e <? 0)%Z eqn:E; reflect_bool; [lia|]. by rewrite Nat2Z.id.
  - cbn [Z.ltb Z.compare]. unfold slen. rewrite Nat2Z.id. by rewrite firstn_all.
Qed.

Lemma clen_outer_spec (fuel : nat) (h : gostring) (i : nat) :
  (length h < i + fuel)%nat ->
  (forall j, (j < i)%nat -> HasPrefix (drop j (map lower_byte h)) content_length_needle = false) ->
  clen_outer fuel h i = content_length_spec h.
Proof.
  unfold content_length_spec. revert i.
  induction fuel as [|fuel IH]; intros i Hf Hj; cbn [clen_outer].
  - rewrite (Index_missing _ content_length_needle i); [done|done| |done].
    rewrite length_map. lia.
  - destruct (i + length content_length_needle <=? length h)%nat eqn:E; reflect_bool.
    + rewrite clen_inner_spec, Nat.add_0_r, drop_0 by done.
      destruct (HasPrefix (drop i (map lower_byte h)) content_length_needle) eqn:Ep.
      * rewrite (Index_found _ content_length_needle i);
          [apply clen_value_spec|done|done|rewrite length_map; lia].
      * apply IH; [lia|]. intros j Hlt.
        destruct (decide (j = i)) as [->|?]; [done|]. apply Hj. lia.
    + rewrite (Index_missing _ content_length_needle i); [done|done| |done].
      by rewrite length_map.
Qed.

Lemma parseContentLength_spec (h : gostring) : sharedParseContentLength h = content_length_spec h.
Proof. apply clen_outer_spec; lia. Qed.

Lemma parseContentLength_range (h : gostring) :
  (int64_min <= sharedParseContentLength h <= int64_max)%Z.
Proof.
  rewrite parseContentLength_spec. unfold content_length_spec.
  destruct (Index _ _); [apply Atoi_range|]. unfold int64_min, int64_max. lia.
Qed.

Lemma lineSplit_lone (line rest : gostring) (c : ascii) :
  no_eol line -> c = LF \/ (c = CR /\ head rest <> Some LF) ->
  sharedLineSplit (line ++ c :: rest) = (rest, line).
Proof.
  intros Hn Hc. induction line as [|d line IH].
  - cbn [app sharedLineSplit]. destruct Hc as [->|[-> Hh]].
    + by destruct rest.
    + destruct rest as [|x rest]; [done|]. rewrite ceq_refl. cbn [orb andb].
      rewrite ceq_neq; [done|]. simpl in Hh. congruence.
  - apply no_eol_cons in Hn as (H1 & H2 & Hn). cbn [app sharedLineSplit].
    rewrite eol_tests by done. by rewrite IH.
Qed.

(** ** Properties *)

(** [sharedLineSplit] returns exactly the first line and the rest:
    the line has no line end in it, and the buffer is that line alone, or
    the line followed by CR LF, by a CR not before a LF, or by a LF, and
    then the rest. *)
Theorem sharedLineSplit_spec (buf rest line : gostring) :
  sharedLineSplit buf = (rest, line) <-> split_of buf rest line.
Proof.
  split.
  - intros E. pose proof (lineSplit_decomposes buf) as H. by rewrite E in H.
  - intros [Hn [[-> ->]|[->|[[-> Hh]| ->]]]].
    + by apply lineSplit_last.
    + by apply lineSplit_crlf.
    + apply lineSplit_lone; auto.
    + apply lineSplit_lone; auto.
Qed.

(** Header parsing is a projection: printing a parsed header as
    [Key: value] and parsing it again gives the same key and value, and
    the key it returns is canonical and free of colons. *)
Theorem sharedParseHeader_stable (line key value : gostring) :
  no_eol line -> sharedParseHeader line = Ok (key, value) ->
  canonicalHeaderKey key = key /\ (":"%char ∉ key)
  /\ sharedParseHeader (key ++ str ": " ++ value) = Ok (key, value).
Proof.
  intros Hn. unfold sharedParseHeader at 1.
  destruct (IndexByte line ":"%char) as [i|] eqn:E; [|done].
  intros [= <- <-]. apply IndexByte_Some in E as [_ Hc].
  pose proof (canonical_no_colon _ Hc). split; [apply canonical_idemp|].
  split; [done|]. apply parseHeader_print; [apply canonical_idemp|done|].
  by apply parsed_value_clean, no_eol_drop.
Qed.

Lemma sharedParseHeader_stable_witness :
  sharedParseHeader (str "session" ++ str ":   12;" ++ [TAB] ++ str " timeout=60")
    = Ok (str "Session", str "12;timeout=60")
  /\ sharedParseHeader (str "Session: 12;timeout=60") = Ok (str "Session", str "12;timeout=60").
Proof.
  split; [by vm_compute|].
  destruct (sharedParseHeader_stable
    (str "session" ++ str ":   12;" ++ [TAB] ++ str " timeout=60")
    (str "Session") (str "12;timeout=60")) as (_ & _ & H).
  - apply (bool_decide_unpack _). by vm_compute.
  - by vm_compute.
  - exact H.
Defined.

(** On a header map whose keys are canonical and ASCII (the maps the
    parsers build from ASCII messages) [headerGet] is a case-insensitive
    exact lookup: the value stored under the canonical form of the key,
    and the empty string when there is none, whatever order the fallback
    loop visits the map in. *)
Theorem headerGet_exact `{GoRuntime} (h : header_map) (key : gostring) :
  parsed_keys h -> is_ascii key = true -> TrimSpace key = key ->
  headerGet h key = default [] (h !! canonicalHeaderKey key).
Proof. apply headerGet_canonical. Qed.

Lemma headerGet_exact_witness :
  @headerGet sample_runtime {[ str "Content-Length" := str "4" ]} (str "content-LENGTH") = str "4".
Proof.
  rewrite (@headerGet_exact sample_runtime); [by vm_compute| |by vm_compute|by vm_compute].
  intros k v Hk. apply lookup_singleton_Some in Hk as [<- _]. by vm_compute.
Defined.

(** [indexBytes] returns the least position at which the needle
    occurs, and -1 when it occurs nowhere, for every needle and haystack
    (the reference [Index] is characterised by [Index_Some] and
    [Index_None]). *)
Theorem indexBytes_first_occurrence (haystack needle : gostring) :
  (indexBytes haystack needle = -1 /\ forall a b, haystack <> a ++ needle ++ b)%Z
  \/ exists i b, indexBytes haystack needle = Z.of_nat i
       /\ haystack = take i haystack ++ needle ++ b
       /\ forall a c, haystack = a ++ needle ++ c -> (i <= length a)%nat.
Proof.
  rewrite indexBytes_Index. destruct (Index haystack needle) as [i|] eqn:E.
  - right. apply Index_Some in E as (Hp & Hi & Hj).
    apply HasPrefix_spec in Hp as [b Hb]. exists i, b. split; [done|]. split.
    + rewrite <-Hb. by rewrite take_drop.
    + intros a c Hh. destruct (decide (length a < i)%nat) as [Hlt|?]; [|lia].
      specialize (Hj _ Hlt). rewrite Hh, drop_app_length, HasPrefix_app in Hj. done.
  - left. split; [done|]. intros a b Hh.
    assert (Contains haystack needle = true) as Hc by (apply Contains_spec; eauto).
    unfold Contains in Hc. by rewrite E in Hc.
Qed.

(** C40: the allocation-free scan [sharedParseContentLength] computes its
    reference: the first case-insensitive occurrence of
    [content-length:], and the number on the rest of that line; and the
    result is always an [int] (0 when absent or malformed). *)
Theorem sharedParseContentLength_reference (headerPart : gostring) :
  sharedParseContentLength headerPart = content_length_spec headerPart
  /\ (int64_min <= sharedParseContentLength headerPart <= int64_max)%Z.
Proof. split; [apply parseContentLength_spec|apply parseContentLength_range]. Qed.

(** The scan looks for the needle anywhere, not at the start of a line:
    another header that ends in the same name is taken for it. *)
Example content_length_substring :
  sharedParseContentLength (str "RTSP/1.0 200 OK" ++ CRLF ++ str "X-Content-Length: 7"
                            ++ CRLF ++ str "Content-Length: 4") = 7%Z.
Proof. by vm_compute. Qed.
