(* ===== verification/HeaderBlock.v ===== *)
(** * Header blocks: the loop both parsers run, and the printing loop

    [ParseRequest] and [ParseResponse] share the same [for] loop over
    header lines, and the two [String] methods share the same printing
    loop; both are here once, with the lemma that one inverts the
    other. *)

From stdpp Require Import gmap strings list fin_maps.
From Stdlib Require Import Ascii ZArith Lia.
From S2P Require Import Prelude GoStrings Message.

Local Open Scope go_scope.

(** ** Definitions *)

(** One call per header line; [None] only when the fuel is used up. *)
Fixpoint header_loop (fuel : nat) (next : gostring) (headers : header_map)
  : option (result (header_map * gostring)) :=
  match fuel with
  | O => None
  | S f =>
      let '(next, thisLine) := sharedLineSplit next in
      match thisLine with
      | [] => Some (Ok (headers, next))
      | _ =>
          match sharedParseHeader thisLine with
          | Err e => Some (Err e)
          | Ok (key, value) => header_loop f next (<[key := value]> headers)
          end
      end
  end.

(** The loop with as much fuel as it can use; [header_loop_total] shows
    that the last case is never reached. *)
Definition parse_headers (next : gostring) (headers : header_map) : result (header_map * gostring) :=
  match header_loop (S (length next)) next headers with
  | Some r => r
  | None => Err (ErrText (str "unreachable"))
  end.

(** The printing loop of the [String] methods. *)
Fixpoint print_headers (entries : list (gostring * gostring)) : gostring :=
  match entries with
  | [] => []
  | (key, value) :: es => (key ++ str ": " ++ value ++ CRLF) ++ print_headers es
  end.

(** A token: bytes up to a space or tab, each appended as
    [string(buffer[i])]; returns the token and what is left at [i]. *)
Fixpoint token_loop (buffer : gostring) : gostring * gostring :=
  match buffer with
  | [] => ([], [])
  | c :: t =>
      if (c <>c SP) && (c <>c TAB) then
        let '(tok, rest) := token_loop t in (string_of_byte c ++ tok, rest)
      else ([], buffer)
  end.

(** ** Specifications *)

(** What the parser makes of a value. *)
Definition normal_value (v : gostring) : gostring := value_loop false (skip_blanks v).

(** An entry that prints to one line. *)
Definition line_entry (e : gostring * gostring) : Prop := (":"%char ∉ e.1) /\ no_eol e.1 /\ no_eol e.2.

Definition normal_entry (e : gostring * gostring) : gostring * gostring :=
  (canonicalHeaderKey e.1, normal_value e.2).

(** A header map as the other side reads it. *)
Definition normal_headers (h : header_map) : header_map := list_to_map (map normal_entry (map_to_list h)).

(** Keys that stay apart when they are made canonical. *)
Definition apart (h : header_map) : Prop := NoDup (canonicalHeaderKey <$> (map_to_list h).*1).

(** Headers that come back from the wire, the keys in canonical spelling. *)
Definition header_block_ok (h : header_map) : Prop :=
  map_Forall (fun k v => (":"%char ∉ k) /\ no_eol k /\ is_ascii k = true /\ TrimSpace k = k
                         /\ clean_value v = true) h
  /\ apart h.

#[global] Instance header_block_ok_dec (h : header_map) : Decision (header_block_ok h).
Proof. unfold header_block_ok, apart. apply _. Defined.

(** A word that can stand in a start line. *)
Definition word (s : gostring) : Prop :=
  is_ascii s = true /\ Forall (fun c => c <> SP /\ c <> TAB /\ c <> CR /\ c <> LF) s.

#[global] Instance word_dec (s : gostring) : Decision (word s).
Proof. unfold word. apply _. Defined.

(** ** Termination of the header loop *)

Lemma header_loop_total (fuel : nat) (next : gostring) (headers : header_map) :
  (length next < fuel)%nat -> exists r, header_loop fuel next headers = Some r.
Proof.
  revert next headers. induction fuel as [|fuel IH]; intros next headers Hf; [lia|].
  cbn [header_loop]. pose proof (lineSplit_shorter next) as Hs.
  destruct (sharedLineSplit next) as [rest [|c line]]; [by eexists|].
  destruct (sharedParseHeader (c :: line)) as [[key value]|e]; [|by eexists].
  apply IH. specialize (Hs ltac:(done)). simpl in Hs. lia.
Qed.

(** More fuel does not change a result. *)
Lemma header_loop_mono (f g : nat) (next : gostring) (headers : header_map) r :
  (f <= g)%nat -> header_loop f next headers = Some r -> header_loop g next headers = Some r.
Proof.
  revert g next headers. induction f as [|f IH]; intros g next headers Hg H; [done|].
  destruct g as [|g]; [lia|]. cbn [header_loop] in H |- *.
  destruct (sharedLineSplit next) as [rest [|c line]]; [done|].
  destruct (sharedParseHeader (c :: line)) as [[key value]|e]; [|done].
  apply IH; [lia|done].
Qed.

Lemma parse_headers_unfold (next : gostring) (headers : header_map) :
  parse_headers next headers =
  let '(rest, line) := sharedLineSplit next in
  match line with
  | [] => Ok (headers, rest)
  | _ => match sharedParseHeader line with
         | Err e => Err e
         | Ok (key, value) => parse_headers rest (<[key := value]> headers)
         end
  end.
Proof.
  unfold parse_headers at 1. cbn [header_loop]. pose proof (lineSplit_shorter next) as Hs.
  destruct (sharedLineSplit next) as [rest [|c line]]; [done|].
  destruct (sharedParseHeader (c :: line)) as [[key value]|e]; [|done].
  specialize (Hs ltac:(done)). simpl in Hs.
  destruct (header_loop_total (S (length rest)) rest (<[key:=value]> headers)) as [r Hr]; [lia|].
  unfold parse_headers. rewrite Hr. by rewrite (header_loop_mono _ _ _ _ _ Hs Hr).
Qed.

(** ** Printing, then parsing *)

Lemma parseHeader_line (key value : gostring) :
  ":"%char ∉ key ->
  sharedParseHeader (key ++ str ": " ++ value) = Ok (canonicalHeaderKey key, normal_value value).
Proof.
  intros Hc. unfold sharedParseHeader, normal_value.
  change (str ": ") with [":"%char; SP]. cbn [app].
  rewrite IndexByte_app by done. rewrite take_app_length. do 2 f_equal.
  replace (S (length key)) with (length (key ++ [":"%char])) by (rewrite length_app; simpl; lia).
  replace (key ++ ":"%char :: SP :: value) with ((key ++ [":"%char]) ++ SP :: value)
    by (by rewrite <-app_assoc).
  by rewrite drop_app_length.
Qed.

Lemma normal_clean (v : gostring) : clean_value v = true -> normal_value v = v.
Proof. intros Hv. unfold normal_value. rewrite skip_blanks_clean by done. by apply value_loop_clean, clean_value_from. Qed.

Lemma parse_headers_lines (entries : list (gostring * gostring)) (body : gostring) : forall (headers : header_map),
  Forall line_entry entries ->
  parse_headers (print_headers entries ++ CRLF ++ body) headers
  = Ok (foldl (fun h e => <[e.1 := e.2]> h) headers (map normal_entry entries), body).
Proof.
  induction entries as [|[key value] es IH]; intros headers He; rewrite parse_headers_unfold.
  - cbn [print_headers]. by rewrite (lineSplit_crlf [] body) by apply no_eol_nil.
  - apply Forall_cons in He as [(Hc & Hn & Hv) He]. cbn [fst snd] in *.
    cbn [print_headers]. rewrite <-!app_assoc.
    replace (key ++ str ": " ++ value ++ CRLF ++ print_headers es ++ CRLF ++ body)
      with ((key ++ str ": " ++ value) ++ CRLF ++ (print_headers es ++ CRLF ++ body))
      by (by rewrite <-!app_assoc).
    rewrite lineSplit_crlf.
    + rewrite parseHeader_line by done.
      destruct (key ++ str ": " ++ value) eqn:E; [by destruct key|]. by rewrite IH.
    + rewrite !no_eol_app. split; [done|]. split; [|done]. by apply (bool_decide_unpack _); vm_compute.
Qed.

Lemma foldl_insert_NoDup (entries : list (gostring * gostring)) (h : header_map) :
  NoDup entries.*1 ->
  foldl (fun h e => <[e.1 := e.2]> h) h entries = list_to_map entries ∪ h.
Proof.
  revert h. induction entries as [|[k v] es IH]; intros h Hn; [cbn; by rewrite (left_id_L ∅ (∪))|].
  cbn [foldl fst snd]. apply NoDup_cons in Hn as [Hk Hn]. rewrite IH by done.
  cbn. rewrite <-insert_union_l, <-insert_union_r; [done|].
  by apply not_elem_of_list_to_map_1.
Qed.

(** *** Headers as they are read *)

Lemma normal_entry_keys (l : list (gostring * gostring)) :
  (map normal_entry l).*1 = canonicalHeaderKey <$> l.*1.
Proof. induction l as [|[k v] l IH]; cbn; [done|by rewrite IH]. Qed.

Lemma normal_headers_lookup (h : header_map) (k v : gostring) :
  apart h -> h !! k = Some v -> normal_headers h !! canonicalHeaderKey k = Some (normal_value v).
Proof.
  intros Ha Hv. apply elem_of_list_to_map_1; [by rewrite normal_entry_keys|].
  apply list_elem_of_fmap. exists (k, v). split; [done|]. by apply elem_of_map_to_list.
Qed.

Lemma normal_headers_only (h : header_map) (k v : gostring) :
  normal_headers h !! k = Some v -> exists k0 v0, k = canonicalHeaderKey k0 /\ v = normal_value v0 /\ h !! k0 = Some v0.
Proof.
  intros Hl%elem_of_list_to_map_2. apply list_elem_of_fmap in Hl as ([k0 v0] & [= -> ->] & Hin).
  exists k0, v0. by apply elem_of_map_to_list in Hin.
Qed.

Lemma normal_headers_size (h : header_map) : apart h -> size (normal_headers h) = size h.
Proof.
  intros Ha. unfold normal_headers. rewrite map_size_list_to_map by (by rewrite normal_entry_keys).
  rewrite length_map. apply length_map_to_list.
Qed.

Lemma normal_headers_fixed (h : header_map) :
  map_Forall (fun k v => canonicalHeaderKey k = k /\ clean_value v = true) h -> normal_headers h = h.
Proof.
  intros Hh. unfold normal_headers. transitivity (list_to_map (M := header_map) (map_to_list h));
    [|apply list_to_map_to_list]. f_equal.
  assert (Hl : Forall (fun e => normal_entry e = e) (map_to_list h)).
  { apply Forall_forall. intros [k v] Hin%elem_of_map_to_list. destruct (Hh k v Hin) as [Hk Hv].
    unfold normal_entry. cbn [fst snd]. by rewrite Hk, normal_clean. }
  induction Hl as [|e l He _ IH]; cbn; congruence.
Qed.

Lemma canonical_ascii (k : gostring) :
  is_ascii k = true -> TrimSpace k = k -> is_ascii (canonicalHeaderKey k) = true.
Proof.
  intros Ha Ht. rewrite canonicalHeaderKey_eq, Ht.
  pose proof (canonical_loop_variant true k) as Hv. clear Ht. revert Ha. unfold is_ascii.
  induction Hv as [|c c' l l' Hc _ IH]; [done|]. cbn [forallb]. intros H. reflect_bool.
  rewrite IH by done. rewrite andb_true_r. apply Z.ltb_lt.
  destruct Hc as [->|[Hl _]]; [done|]. apply is_letter_spec in Hl. lia.
Qed.

Lemma normal_parsed_keys (h : header_map) :
  map_Forall (fun k _ => is_ascii (canonicalHeaderKey k) = true) h -> parsed_keys (normal_headers h).
Proof.
  intros Hh k v Hl. apply normal_headers_only in Hl as (k0 & v0 & -> & _ & Hl).
  split; [apply canonical_idemp|by apply (Hh k0 v0)].
Qed.

Lemma header_block_keys (h : header_map) : header_block_ok h -> parsed_keys (normal_headers h).
Proof.
  intros [Hh _]. apply normal_parsed_keys. intros k v Hl. destruct (Hh k v Hl) as (_ & _ & Ha & Ht & _).
  by apply canonical_ascii.
Qed.

Section Printed.
Context `{GoRuntime}.

(** The headers of a message, printed in any order, parse to what
    [normal_headers] says. *)
Lemma parse_printed_map (h : header_map) (body : gostring) :
  map_Forall (fun k v => line_entry (k, v)) h -> apart h ->
  parse_headers (print_headers (map_range h) ++ CRLF ++ body) ∅ = Ok (normal_headers h, body).
Proof.
  intros Hh Ha. pose proof (map_range_perm _ _ _ _ h) as Hp. rewrite parse_headers_lines.
  - assert (Hn : NoDup (map normal_entry (map_range h)).*1).
    { rewrite normal_entry_keys. by rewrite Hp. }
    rewrite foldl_insert_NoDup, (right_id_L ∅ (∪)) by done.
    do 2 f_equal. apply list_to_map_proper; [done|]. by rewrite Hp.
  - apply Forall_forall. intros [k v] Hin. rewrite Hp in Hin.
    apply elem_of_map_to_list in Hin. by apply Hh.
Qed.

(** What a lookup finds on the other side. *)
Lemma header_block_get (h : header_map) (k v : gostring) :
  header_block_ok h -> h !! k = Some v ->
  normal_headers h !! canonicalHeaderKey k = Some v /\ headerGet (normal_headers h) k = v.
Proof.
  intros Hb Hl. destruct (Hb) as [Hh Ha]. destruct (Hh k v Hl) as (_ & _ & Hk & Ht & Hv).
  assert (E : normal_headers h !! canonicalHeaderKey k = Some v)
    by by rewrite (normal_headers_lookup h k v Ha Hl), normal_clean.
  split; [done|]. rewrite headerGet_canonical, E by (done || by apply header_block_keys). done.
Qed.

Lemma parse_header_block (h : header_map) (body : gostring) :
  header_block_ok h ->
  parse_headers (print_headers (map_range h) ++ CRLF ++ body) ∅ = Ok (normal_headers h, body).
Proof.
  intros [Hh Ha]. apply parse_printed_map; [|done]. intros k v Hl.
  destruct (Hh k v Hl) as (Hc & Hn & _ & _ & Hv). split_and!; [done|done|].
  by apply clean_from_no_eol with false, clean_value_from.
Qed.

End Printed.

(** Parsed keys are canonical whatever the input. *)
Lemma parse_headers_canonical (next : gostring) (h h' : header_map) (rest : gostring) :
  map_Forall (fun k _ => canonicalHeaderKey k = k) h ->
  parse_headers next h = Ok (h', rest) ->
  map_Forall (fun k _ => canonicalHeaderKey k = k) h'.
Proof.
  remember (length next) as n eqn:Hn. revert next h Hn.
  induction (lt_wf n) as [n _ IH]. intros next h -> Hh.
  rewrite parse_headers_unfold. pose proof (lineSplit_shorter next) as Hs.
  destruct (sharedLineSplit next) as [next' [|c line]]; [by intros [= <- <-]|].
  destruct (sharedParseHeader (c :: line)) as [[key value]|e] eqn:E; [|done].
  intros Hp. eapply (IH (length next')); [by apply Hs|done| |exact Hp].
  apply map_Forall_insert_2; [|done]. unfold sharedParseHeader in E.
  destruct (IndexByte (c :: line) ":"%char); [|done].
  injection E as <- _. apply canonical_idemp.
Qed.

Lemma parse_headers_rest (next : gostring) (h h' : header_map) (rest : gostring) :
  parse_headers next h = Ok (h', rest) -> (length rest <= length next)%nat.
Proof.
  remember (length next) as n eqn:Hn. revert next h Hn.
  induction (lt_wf n) as [n _ IH]. intros next h ->.
  rewrite parse_headers_unfold. pose proof (lineSplit_shorter next) as Hs.
  pose proof (lineSplit_decomposes next) as [_ Hd].
  destruct (sharedLineSplit next) as [next' [|c line]]; cbn [fst snd] in *.
  - intros [= <- <-]. destruct Hd as [[-> ->]|[->|[[-> _]| ->]]]; simpl; lia.
  - destruct (sharedParseHeader (c :: line)) as [[key value]|e]; [|done].
    intros Hp. specialize (Hs ltac:(done)).
    specialize (IH (length next') Hs next' _ eq_refl Hp). lia.
Qed.

(** ** Tokens *)

(** Appending [string(b)] byte by byte re-encodes every byte above 127. *)
Definition reencode (s : gostring) : gostring := flat_map string_of_byte s.

Lemma reencode_ascii (s : gostring) : is_ascii s = true -> reencode s = s.
Proof.
  unfold is_ascii, reencode. induction s as [|c s IH]; [done|]. cbn [forallb flat_map].
  intros H. reflect_bool. rewrite IH by done. by rewrite string_of_byte_ascii.
Qed.

Lemma reencode_longer (s : gostring) : is_ascii s = false -> (length s < length (reencode s))%nat.
Proof.
  assert (forall t, length t <= length (reencode t))%nat as Hle.
  { unfold reencode. induction t as [|c t IH]; [done|]. cbn [flat_map]. rewrite length_app.
    assert (1 <= length (string_of_byte c))%nat; [|simpl; lia].
    unfold string_of_byte. destruct (byte_val c <? 128)%Z; simpl; lia. }
  unfold is_ascii, reencode. induction s as [|c s IH]; [done|]. cbn [forallb flat_map].
  rewrite length_app. specialize (Hle s). unfold reencode in Hle.
  destruct (byte_val c <? 128)%Z eqn:E; cbn [andb]; reflect_bool.
  - intros Hs. rewrite string_of_byte_ascii by done. specialize (IH Hs). simpl. lia.
  - intros _. rewrite string_of_byte_high by done. simpl. lia.
Qed.

Lemma token_loop_word (s t : gostring) :
  Forall (fun c => c <> SP /\ c <> TAB) s -> (t = [] \/ head t = Some SP \/ head t = Some TAB) ->
  token_loop (s ++ t) = (reencode s, t).
Proof.
  intros Hs Ht. induction Hs as [|c s [H1 H2] Hs IH]; cbn [app token_loop].
  - destruct t as [|d t]; [done|]. cbn [token_loop].
    destruct Ht as [?|[[= ->]|[= ->]]]; done.
  - rewrite !ceq_neq by done. cbn [negb andb]. by rewrite IH.
Qed.

Lemma word_token (s t : gostring) : word s -> token_loop (s ++ SP :: t) = (s, SP :: t).
Proof.
  intros [Ha Hs]. rewrite token_loop_word; [|eapply Forall_impl; [exact Hs|]|]; [|by intros c (? & ? & _)|auto].
  by rewrite reencode_ascii.
Qed.

Lemma word_no_eol (s : gostring) : word s -> no_eol s.
Proof.
  intros [_ Hs]. rewrite Forall_forall in Hs.
  split; intros Hin; destruct (Hs _ Hin) as (_ & _ & H1 & H2); done.
Qed.

#[export] Hint Resolve word_no_eol : gostr.
