(* ===== verification/Response.v ===== *)
(** * RTSP responses (src/rtspproxy/response.go) *)

From stdpp Require Import gmap strings list fin_maps.
From Stdlib Require Import Ascii ZArith Lia.
From S2P Require Import Prelude GoStrings Message HeaderBlock.

Local Open Scope go_scope.

(** ** Definitions *)

Record Response := mkResponse {
  rsp_Status : gostring;
  rsp_ProtocolVersion : gostring;
  rsp_Code : Z;
  rsp_Headers : header_map;
  rsp_Body : gostring
}.

(** [NewResponse(code, args...)]: the optional arguments are the status
    text and the protocol version. *)
Definition NewResponse (code : Z) (args : list gostring) : Response :=
  let status := match args with s :: _ => s | [] => str "OK" end in
  let protocolVersion := match args with _ :: v :: _ => v | _ => str "RTSP/1.0" end in
  mkResponse status protocolVersion code ∅ [].

(** The status text: bytes up to CR or LF. *)
Fixpoint status_loop (buffer : gostring) : gostring :=
  match buffer with
  | [] => []
  | c :: t => if (c <>c CR) && (c <>c LF) then string_of_byte c ++ status_loop t else []
  end.

(** [ParseStatus] writes the fields of the receiver as it goes, so the
    receiver comes back also with an error. *)
Definition ParseStatus (response : Response) (buffer : gostring) : Response * option goerror :=
  let '(version, b1) := token_loop buffer in
  let '(code, b2) := token_loop (drop 1 b1) in
  let '(codeVal, err) :=
    if (length code =? 3)%nat then Atoi code else (0%Z, None) in
  let partial := mkResponse [] version codeVal (rsp_Headers response) (rsp_Body response) in
  match err with
  | Some e => (partial, Some e)
  | None =>
      let status := status_loop (drop 1 b2) in
      let full := mkResponse status version codeVal (rsp_Headers response) (rsp_Body response) in
      if (status =s []) || (codeVal =? 0)%Z || (version =s [])
      then (full, Some (ErrText (str "Status parse error")))
      else (full, None)
  end.

Section Response.
Context `{GoRuntime}.

Definition ParseResponse (response : Response) (buffer : gostring) : result Response :=
  let '(next, thisLine) := sharedLineSplit buffer in
  match ParseStatus response thisLine with
  | (_, Some e) => Err e
  | (response, None) =>
      let? (headers, next) := parse_headers next (rsp_Headers response) in
      let contentLengthRaw := headerGet headers (str "Content-Length") in
      let body :=
        if contentLengthRaw =s [] then rsp_Body response
        else
          let contentLength := (Atoi contentLengthRaw).1 in
          if (0 <? contentLength)%Z then
            if (contentLength <=? slen next)%Z then take (Z.to_nat contentLength) next else next
          else rsp_Body response in
      Ok (mkResponse (rsp_Status response) (rsp_ProtocolVersion response) (rsp_Code response) headers body)
  end.

Definition NewResponseFromBuffer (buffer : gostring) : result Response :=
  let response := NewResponse 400 [str "Bad request"] in
  match buffer with
  | [] => Ok response
  | _ => ParseResponse response buffer
  end.

(** [String]: [Sprintf] of the status line, the headers in range order,
    an empty line, the body. *)
Definition Response_String (response : Response) : gostring :=
  (rsp_ProtocolVersion response ++ str " " ++ Itoa (rsp_Code response) ++ str " "
     ++ rsp_Status response ++ CRLF)
  ++ print_headers (map_range (rsp_Headers response)) ++ CRLF ++ rsp_Body response.

End Response.

(** ** Specification: the responses that survive printing *)

Definition CONTENT_LENGTH : gostring := str "Content-Length".

Record wf_response (r : Response) : Prop := {
  wf_version : rsp_ProtocolVersion r <> [] /\ word (rsp_ProtocolVersion r);
  wf_code : (100 <= rsp_Code r <= 999)%Z;
  wf_status : rsp_Status r <> [] /\ is_ascii (rsp_Status r) = true /\ no_eol (rsp_Status r);
  wf_headers : header_block_ok (rsp_Headers r);
  wf_body : match normal_headers (rsp_Headers r) !! CONTENT_LENGTH with
            | None => rsp_Body r = []
            | Some v => v = Itoa (slen (rsp_Body r)) /\ (slen (rsp_Body r) <= int64_max)%Z
            end
}.

(** A response as the other side reads it: its header keys in canonical
    spelling. *)
Definition as_read (r : Response) : Response :=
  mkResponse (rsp_Status r) (rsp_ProtocolVersion r) (rsp_Code r) (normal_headers (rsp_Headers r)) (rsp_Body r).

(** ** Lemmas *)

Lemma status_loop_line (s : gostring) : no_eol s -> status_loop s = reencode s.
Proof.
  induction s as [|c s IH]; intros Hn; [done|].
  apply no_eol_cons in Hn as (H1 & H2 & Hn). cbn [status_loop].
  rewrite !ceq_neq by done. cbn [negb andb]. by rewrite IH.
Qed.

Lemma digit_word_byte (c : ascii) :
  is_digit c = true -> (byte_val c < 128)%Z /\ c <> SP /\ c <> TAB /\ c <> CR /\ c <> LF.
Proof.
  unfold is_digit. intros H. reflect_bool. split; [lia|].
  repeat split; intros ->; vm_compute in *; done.
Qed.

Lemma Itoa_word (n : Z) : (0 <= n)%Z -> word (Itoa n).
Proof.
  intros Hn. pose proof (Itoa_digits n Hn) as Hd. split.
  - unfold is_ascii. apply forallb_forall. intros c Hc%list_elem_of_In.
    rewrite Forall_forall in Hd. apply Z.ltb_lt. by apply digit_word_byte, Hd.
  - eapply Forall_impl; [exact Hd|]. intros c Hc. by apply digit_word_byte.
Qed.

Lemma Itoa_length3 (n : Z) : (100 <= n <= 999)%Z -> length (Itoa n) = 3%nat.
Proof.
  intros Hn. unfold Itoa. destruct (n <? 0)%Z eqn:E; reflect_bool; [lia|].
  rewrite length_map.
  assert (length (digits_of 10 n) <= 3)%nat as Hle.
  { apply digits_of_length; [lia| |lia]. change (10 ^ Z.of_nat 3)%Z with 1000%Z. lia. }
  pose proof (digits_of_value 10 n ltac:(lia) ltac:(lia)) as Hv.
  pose proof (digits_of_range 10 n ltac:(lia)) as Hr.
  rewrite Forall_forall in Hr.
  destruct (digits_of 10 n) as [|a [|b [|c ds]]]; unfold digits_value in Hv;
    cbn [fold_left] in Hv; cbn [length] in Hle |- *.
  - lia.
  - specialize (Hr a ltac:(repeat constructor)). lia.
  - pose proof (Hr a ltac:(repeat constructor)). specialize (Hr b ltac:(repeat constructor)). lia.
  - destruct ds; [done|simpl in Hle; lia].
Qed.

Definition status_line (version status : gostring) (code : Z) : gostring :=
  version ++ str " " ++ Itoa code ++ str " " ++ status.

Lemma ParseStatus_line (r : Response) (version status : gostring) (code : Z) :
  version <> [] -> word version -> (100 <= code <= 999)%Z -> status <> [] -> no_eol status ->
  ParseStatus r (status_line version status code)
  = (mkResponse (reencode status) version code (rsp_Headers r) (rsp_Body r), None).
Proof.
  intros Hv Hw Hc Hs Hn. unfold ParseStatus, status_line.
  change (str " ") with [SP]. cbn [app].
  rewrite word_token by done. cbn [drop]; rewrite drop_0.
  rewrite word_token by (apply Itoa_word; lia). cbn [drop]; rewrite drop_0.
  rewrite Itoa_length3 by done. cbn [Nat.eqb].
  rewrite Atoi_Itoa by (unfold int64_max; lia). rewrite status_loop_line by done.
  assert (reencode status <> []) as Hr.
  { destruct status as [|c t]; [done|]. unfold reencode. cbn [flat_map].
    unfold string_of_byte. by destruct (byte_val c <? 128)%Z. }
  unfold seq_eqb. rewrite !bool_decide_eq_false_2 by done.
  destruct (code =? 0)%Z eqn:E; reflect_bool; [lia|done].
Qed.

Lemma status_line_no_eol (version status : gostring) (code : Z) :
  word version -> (0 <= code)%Z -> no_eol status -> no_eol (status_line version status code).
Proof.
  intros Hv Hc Hs. unfold status_line. rewrite !no_eol_app.
  assert (no_eol (str " ")) by (apply (bool_decide_unpack _); by vm_compute).
  pose proof (word_no_eol _ Hv). pose proof (word_no_eol _ (Itoa_word _ Hc)). tauto.
Qed.

Section ResponseLemmas.
Context `{GoRuntime}.

(** The body is cut where Content-Length says. *)
Lemma body_cut (raw body tail : gostring) :
  (raw = [] /\ body = []) \/ (raw = Itoa (slen body) /\ (slen body <= int64_max)%Z) ->
  (let next := body ++ tail in
   if raw =s [] then []
   else let n := (Atoi raw).1 in
        if (0 <? n)%Z then if (n <=? slen next)%Z then take (Z.to_nat n) next else next
        else []) = body.
Proof.
  cbn zeta. intros [[-> ->]|[-> Hmax]]; [by rewrite seq_eqb_refl|]. unfold seq_eqb.
  rewrite bool_decide_eq_false_2 by apply Itoa_nonempty.
  rewrite Atoi_Itoa by (split; [apply slen_nonneg|done]). cbn [fst].
  destruct (0 <? slen body)%Z eqn:E; reflect_bool.
  - rewrite slen_app. pose proof (slen_nonneg tail).
    destruct (_ <=? _)%Z eqn:E2; reflect_bool; [|lia].
    unfold slen. by rewrite Nat2Z.id, take_app_length.
  - unfold slen in E. symmetry. apply nil_length_inv. lia.
Qed.

(** A printed response whose headers parse to [h] and whose body is
    announced there. *)
Lemma print_parse (r : Response) (h : header_map) (tail : gostring) :
  rsp_ProtocolVersion r <> [] -> word (rsp_ProtocolVersion r) -> (100 <= rsp_Code r <= 999)%Z ->
  rsp_Status r <> [] -> is_ascii (rsp_Status r) = true -> no_eol (rsp_Status r) ->
  parse_headers (print_headers (map_range (rsp_Headers r)) ++ CRLF ++ (rsp_Body r ++ tail)) ∅
    = Ok (h, rsp_Body r ++ tail) ->
  (let raw := headerGet h CONTENT_LENGTH in
   (raw = [] /\ rsp_Body r = [])
   \/ (raw = Itoa (slen (rsp_Body r)) /\ (slen (rsp_Body r) <= int64_max)%Z)) ->
  NewResponseFromBuffer (Response_String r ++ tail)
  = Ok (mkResponse (rsp_Status r) (rsp_ProtocolVersion r) (rsp_Code r) h (rsp_Body r)).
Proof.
  intros Hv1 Hv2 Hc Hs1 Hs2 Hs3 Hh Hb.
  assert (Response_String r ++ tail =
          status_line (rsp_ProtocolVersion r) (rsp_Status r) (rsp_Code r) ++ CRLF
          ++ (print_headers (map_range (rsp_Headers r)) ++ CRLF ++ (rsp_Body r ++ tail))) as ->.
  { unfold Response_String, status_line. by rewrite <-!app_assoc. }
  unfold NewResponseFromBuffer, ParseResponse.
  destruct (status_line _ _ _ ++ _) as [|c b] eqn:E.
  { unfold status_line in E. destruct (rsp_ProtocolVersion r); done. }
  rewrite <-E. rewrite lineSplit_crlf by (apply status_line_no_eol; [done|lia|done]).
  rewrite ParseStatus_line by done. cbn [rsp_Headers NewResponse]. rewrite Hh.
  cbn [result_bind rsp_Body rsp_Status rsp_ProtocolVersion rsp_Code NewResponse].
  rewrite reencode_ascii by done. do 2 f_equal. by apply (body_cut _ _ tail).
Qed.

Lemma response_print_parse (r : Response) (tail : gostring) :
  wf_response r -> NewResponseFromBuffer (Response_String r ++ tail) = Ok (as_read r).
Proof.
  intros [[Hv1 Hv2] Hc (Hs1 & Hs2 & Hs3) Hh Hb]. apply print_parse; try done; [by apply parse_header_block|].
  cbn zeta. rewrite headerGet_canonical by (done || by apply header_block_keys).
  change (canonicalHeaderKey CONTENT_LENGTH) with CONTENT_LENGTH.
  destruct (normal_headers (rsp_Headers r) !! CONTENT_LENGTH) as [v|]; cbn [from_option id]; [by right|by left].
Qed.

End ResponseLemmas.

(** A number of [k] bytes is below [10 ^ k]. *)
Lemma parse_uint_bound (s : gostring) (n : Z) :
  (0 <= n)%Z -> ((n + 1) * 10 ^ slen s <= 2 ^ 63)%Z ->
  (0 <= (parse_uint_loop s n).1.1 < (n + 1) * 10 ^ slen s)%Z.
Proof.
  revert n. induction s as [|c s IH]; intros n Hn Hb.
  - cbn. unfold slen. simpl. lia.
  - assert (slen (c :: s) = slen s + 1)%Z as Hl by (unfold slen; simpl; lia).
    rewrite Hl, Z.pow_add_r in * by (unfold slen; lia). rewrite Z.pow_1_r in *.
    pose proof (Z.pow_pos_nonneg 10 (slen s) ltac:(lia) (slen_nonneg s)) as Hp.
    cbn [parse_uint_loop]. destruct (is_digit c) eqn:Ed; cbn [negb]; [|simpl; nia].
    unfold is_digit in Ed. reflect_bool. unfold digit_val in *.
    destruct (1844674407370955162 <=? n)%Z eqn:E1; reflect_bool; [nia|].
    destruct (2 ^ 64 - 1 <? _)%Z eqn:E2; reflect_bool; [nia|].
    specialize (IH (n * 10 + (byte_val c - 48))%Z). nia.
Qed.

Lemma Atoi_three (s : gostring) : length s = 3%nat -> (-99 <= (Atoi s).1 <= 999)%Z.
Proof.
  intros Hl.
  assert (forall t, (length t <= 3)%nat -> 0 <= (parse_uint_loop t 0).1.1 < 10 ^ slen t)%Z as Hb.
  { intros t Ht. pose proof (parse_uint_bound t 0 ltac:(lia)) as H.
    rewrite Z.mul_1_l in H. apply H.
    apply Z.le_trans with (10 ^ 3)%Z; [apply Z.pow_le_mono_r; unfold slen; lia|lia]. }
  destruct s as [|c t]; [done|]. unfold Atoi.
  assert (slen t = 2)%Z as Ht by (unfold slen; simpl in Hl; lia).
  assert (forall neg, let '(un, so, _) := parse_uint_loop t 0 in
    -99 <= (if negb so then 0 else if negb neg && (2 ^ 63 <=? un) then int64_max
     else if neg && (2 ^ 63 <? un) then int64_min else if neg then - un else un) <= 999)%Z as Ht2.
  { specialize (Hb t ltac:(simpl in Hl; lia)). rewrite Ht in Hb.
    intros neg. destruct (parse_uint_loop t 0) as [[un so] ro]. cbn [fst] in Hb.
    destruct so; cbn [negb]; [|lia].
    destruct (2 ^ 63 <=? un)%Z eqn:E1; destruct (2 ^ 63 <? un)%Z eqn:E2; reflect_bool;
      destruct neg; cbn [negb andb]; lia. }
  destruct t as [|d t]; [done|].
  destruct (ceq c "-"%char); [|destruct (ceq c "+"%char)].
  - specialize (Ht2 true). destruct (parse_uint_loop (d :: t) 0) as [[un so] ro].
    destruct so; cbn [negb andb] in *; [|simpl; lia]. destruct (2 ^ 63 <? un)%Z; simpl; lia.
  - specialize (Ht2 false). destruct (parse_uint_loop (d :: t) 0) as [[un so] ro].
    destruct so; cbn [negb andb] in *; [|simpl; lia]. destruct (2 ^ 63 <=? un)%Z; simpl; lia.
  - specialize (Hb (c :: d :: t) ltac:(lia)).
    assert (slen (c :: d :: t) = 3)%Z as H3 by (unfold slen; lia). rewrite H3 in Hb.
    destruct (parse_uint_loop (c :: d :: t) 0) as [[un so] ro]. cbn [fst] in Hb.
    destruct so; cbn [negb andb]; [|simpl; lia].
    destruct (2 ^ 63 <=? un)%Z eqn:E; reflect_bool; simpl; lia.
Qed.

Lemma ParseStatus_accepts (r0 r : Response) (line : gostring) :
  ParseStatus r0 line = (r, None) ->
  rsp_ProtocolVersion r <> [] /\ rsp_Status r <> [] /\ (rsp_Code r <> 0)%Z
  /\ (-99 <= rsp_Code r <= 999)%Z
  /\ rsp_Headers r = rsp_Headers r0 /\ rsp_Body r = rsp_Body r0.
Proof.
  unfold ParseStatus. destruct (token_loop line) as [version b1].
  destruct (token_loop (drop 1 b1)) as [code b2].
  destruct (length code =? 3)%nat eqn:El; reflect_bool.
  - pose proof (Atoi_three code El) as Hc. destruct (Atoi code) as [v [e|]]; [done|].
    destruct (_ || _)%bool eqn:E; [done|]. intros [= <-]. reflect_bool. cbn in *. done.
  - destruct (_ || _)%bool eqn:E; [done|]. reflect_bool. done.
Qed.

(** ** Properties *)

(** C29: A printed response is read as it was meant: for every response
    whose fields fit the syntax (the keys may be spelt in any case, as
    [CSeq] and [RTP-Info] are, if no two name one header; the values are
    those the header parser leaves alone), the text [String] produces, in
    whatever order it visits the header map and whatever follows it in the
    buffer, parses to the same version, code, status text and body (cut at
    Content-Length, so trailing bytes are not swallowed), each header comes
    back under its canonical key and is found by a lookup of its name,
    there is no further header, and a response whose keys are canonical
    comes back itself. *)
Theorem response_roundtrip `{GoRuntime} (r : Response) (tail : gostring) :
  wf_response r ->
  exists r', NewResponseFromBuffer (Response_String r ++ tail) = Ok r'
    /\ (rsp_ProtocolVersion r', rsp_Code r', rsp_Status r', rsp_Body r')
       = (rsp_ProtocolVersion r, rsp_Code r, rsp_Status r, rsp_Body r)
    /\ (forall k v, rsp_Headers r !! k = Some v ->
        rsp_Headers r' !! canonicalHeaderKey k = Some v /\ headerGet (rsp_Headers r') k = v)
    /\ size (rsp_Headers r') = size (rsp_Headers r)
    /\ (map_Forall (fun k _ => canonicalHeaderKey k = k) (rsp_Headers r) -> r' = r).
Proof.
  intros Hw. exists (as_read r). split; [by apply response_print_parse|]. split; [done|].
  pose proof (wf_headers _ Hw) as Hb. cbn [as_read rsp_Headers].
  split; [intros k v; by apply header_block_get|].
  split; [by apply normal_headers_size, Hb|].
  intros Hc. unfold as_read. rewrite normal_headers_fixed; [by destruct r|].
  intros k v Hl. split; [by apply (Hc k v)|by apply (proj1 Hb k v Hl)].
Qed.

(** The answer to a DESCRIBE, as [handleDescribe] spells its headers. *)
Definition sample_response : Response :=
  mkResponse (str "OK") (str "RTSP/1.0") 200
    (<[str "Content-Length" := str "4"]> (<[str "CSeq" := str "2"]> ∅)) (str "Body").

Lemma response_roundtrip_witness :
  exists r', @NewResponseFromBuffer sample_runtime (@Response_String sample_runtime sample_response ++ str "X") = Ok r'
    /\ rsp_Body r' = str "Body" /\ rsp_Headers r' !! str "Cseq" = Some (str "2")
    /\ @headerGet sample_runtime (rsp_Headers r') (str "CSeq") = str "2".
Proof.
  destruct (@response_roundtrip sample_runtime sample_response (str "X")) as (r' & E & Hs & Hh & _).
  - split.
    + split; [done|]. apply (bool_decide_unpack _). by vm_compute.
    + cbn. lia.
    + split; [done|]. split; [done|]. apply (bool_decide_unpack _). by vm_compute.
    + apply (bool_decide_unpack _). by vm_compute.
    + by vm_compute.
  - exists r'. split; [exact E|]. split; [by injection Hs|].
    exact (Hh (str "CSeq") (str "2") eq_refl).
Defined.

(** What a successful parse guarantees, for every buffer: a
    non-empty version and status text, a non-zero code between -99 and
    999 (a sign is accepted in the three-byte code field), canonical
    header keys, and a body no longer than the buffer. *)
Theorem parsed_response_sound `{GoRuntime} (buffer : gostring) (r : Response) :
  buffer <> [] -> NewResponseFromBuffer buffer = Ok r ->
  rsp_ProtocolVersion r <> [] /\ rsp_Status r <> [] /\ (rsp_Code r <> 0)%Z
  /\ (-99 <= rsp_Code r <= 999)%Z
  /\ map_Forall (fun k _ => canonicalHeaderKey k = k) (rsp_Headers r)
  /\ (length (rsp_Body r) <= length buffer)%nat.
Proof.
  intros Hne. unfold NewResponseFromBuffer. destruct buffer as [|c b]; [done|].
  unfold ParseResponse. pose proof (lineSplit_shorter (c :: b)) as Hs.
  destruct (sharedLineSplit (c :: b)) as [next line]. cbn [fst snd] in Hs.
  destruct (ParseStatus _ line) as [r1 [e|]] eqn:E; [done|].
  destruct line as [|c' line']; [done|]. specialize (Hs ltac:(done)).
  apply ParseStatus_accepts in E as (H1 & H2 & H3 & H4 & H5 & H6).
  destruct (parse_headers next (rsp_Headers r1)) as [[h rest]|e] eqn:Eh; [|done].
  cbn [result_bind]. intros [= <-]. cbn [rsp_ProtocolVersion rsp_Status rsp_Code rsp_Headers rsp_Body].
  split_and!; try done || lia.
  - eapply parse_headers_canonical; [|exact Eh]. rewrite H5. apply map_Forall_empty.
  - rewrite H6. cbn [rsp_Body NewResponse].
    pose proof (parse_headers_rest next _ _ _ Eh).
    destruct (_ =s []); [simpl; lia|]. destruct (0 <? _)%Z; [|simpl; lia].
    destruct (_ <=? _)%Z; rewrite ?length_take; lia.
Qed.

Lemma parsed_response_sound_witness :
  let b := str "RTSP/1.0 -12 odd" ++ CRLF ++ CRLF in
  (exists r, @NewResponseFromBuffer sample_runtime b = Ok r /\ rsp_Code r = (-12)%Z)
  /\ forall r, @NewResponseFromBuffer sample_runtime b = Ok r -> rsp_Status r <> [].
Proof.
  intros b. split.
  - eexists. split; [by vm_compute|done].
  - intros r Hr. by apply (@parsed_response_sound sample_runtime b r).
Defined.

(** The status text is built with [string(buffer[i])], which encodes
    a byte as a code point: the parsed text is the received text exactly
    when that text is ASCII, and longer otherwise. *)
Theorem ParseStatus_text (r : Response) (version status : gostring) (code : Z) :
  version <> [] -> word version -> (100 <= code <= 999)%Z -> status <> [] -> no_eol status ->
  let parsed := (ParseStatus r (status_line version status code)).1 in
  rsp_Code parsed = code /\ rsp_ProtocolVersion parsed = version
  /\ (rsp_Status parsed = status <-> is_ascii status = true)
  /\ (is_ascii status = false -> length status < length (rsp_Status parsed))%nat.
Proof.
  intros Hv Hw Hc Hs Hn. cbn zeta. rewrite ParseStatus_line by done. cbn [fst rsp_Code rsp_ProtocolVersion rsp_Status].
  split_and!; [done|done| |apply reencode_longer]. split.
  - intros E. destruct (is_ascii status) eqn:Ea; [done|].
    apply reencode_longer in Ea. rewrite E in Ea. lia.
  - apply reencode_ascii.
Qed.

Lemma ParseStatus_text_witness :
  let r := NewResponse 400 [] in
  rsp_Status (ParseStatus r (status_line (str "RTSP/1.0") ["233"%char] 404)).1 <> ["233"%char].
Proof.
  intros r H. destruct (ParseStatus_text r (str "RTSP/1.0") ["233"%char] 404) as (_ & _ & Hiff & _).
  - done.
  - apply (bool_decide_unpack _). by vm_compute.
  - lia.
  - done.
  - apply (bool_decide_unpack _). by vm_compute.
  - apply Hiff in H. done.
Defined.
