(* ===== verification/Request.v ===== *)
(** * RTSP requests (src/rtspproxy/request.go) *)

From stdpp Require Import gmap strings list fin_maps.
From Stdlib Require Import Ascii ZArith Lia.
From S2P Require Import Prelude GoStrings Message HeaderBlock.

Local Open Scope go_scope.

(** ** Definitions *)

(** [url.URL]: the fields the proxy reads or sets; the remaining ones
    (query, fragment, raw path) are carried along unread. *)
Record URL := mkURL {
  Scheme : gostring;
  User : option (gostring * option gostring);
  Host : gostring;
  Path : gostring;
  url_rest : gostring
}.

(** [net/url] as the proxy uses it: a parser and a printer. *)
Class NetURL := {
  url_Parse : gostring -> result URL;
  URL_String : URL -> gostring
}.

Record Request := mkRequest {
  req_Method : gostring;
  req_RawURL : gostring;
  req_URL : option URL;
  req_ProtocolVersion : gostring;
  req_Headers : header_map;
  req_Body : gostring;
  req_Attempts : Z;
  req_Subscriptions : list nat
}.

(** [NewRequest(method, URL, args...)]. *)
Definition NewRequest (method : gostring) (u : option URL) (args : list gostring) : Request :=
  let protocolVersion :=
    match args with
    | a :: _ => if a =s [] then str "RTSP/1.0" else a
    | [] => str "RTSP/1.0"
    end in
  mkRequest method [] u protocolVersion ∅ [] 0 [].

(** The longest prefix of bytes satisfying [p], and the rest. *)
Fixpoint span (p : ascii -> bool) (s : gostring) : gostring * gostring :=
  match s with
  | c :: t => if p c then let '(a, b) := span p t in (c :: a, b) else ([], s)
  | [] => ([], [])
  end.

(** The optional group [(:?[:]\d+)?] of the proxy-URL expression followed
    by what comes behind it: one or two colons and digits. *)
Definition match_port (s : gostring) : option gostring :=
  let digits_after t :=
    match span is_digit t with ([], _) => None | (_, t') => Some t' end in
  match s with
  | c :: t =>
      if c =c ":"%char then
        match t with
        | d :: t' => if d =c ":"%char then digits_after t' else digits_after t
        | [] => None
        end
      else Some s
  | [] => Some s
  end.

(** [ReplaceAllString] with the expression of [ParseCommand]: scheme,
    proxy host, optional port, [/rtsp/], and everything up to a line
    feed; the replacement is [rtsp://] and the last group.  [match_port]
    has one way to match because neither [[^:/]+] nor [\d+] can give back
    a byte that what follows them accepts. *)
Definition proxy_rewrite (raw : gostring) : gostring :=
  if HasPrefix raw (str "rtsp://") then
    let '(host, after) := span (fun c => (c <>c ":"%char) && (c <>c "/"%char)) (drop 7 raw) in
    match host, match_port after with
    | _ :: _, Some t =>
        if HasPrefix t (str "/rtsp/") then
          let '(group3, tail) := span (fun c => c <>c LF) (drop 6 t) in
          str "rtsp://" ++ group3 ++ tail
        else raw
    | _, _ => raw
    end
  else raw.

Section Request.
Context `{GoRuntime, NetURL}.

Definition ParseCommand (request : Request) (buffer : gostring) : result Request :=
  let '(method, b1) := token_loop buffer in
  let '(rawURL, b2) := token_loop (drop 1 b1) in
  let '(version, _) := token_loop (drop 1 b2) in
  if (method =s []) || (rawURL =s []) || (version =s [])
  then Err (ErrText (str "Method parse error"))
  else
    let? u := url_Parse (proxy_rewrite rawURL) in
    Ok (mkRequest method rawURL (Some u) version (req_Headers request) (req_Body request)
          (req_Attempts request) (req_Subscriptions request)).

Definition ParseRequest (request : Request) (buffer : gostring) : result Request :=
  let '(next, thisLine) := sharedLineSplit buffer in
  let? request := ParseCommand request thisLine in
  let? (headers, _) := parse_headers next (req_Headers request) in
  Ok (mkRequest (req_Method request) (req_RawURL request) (req_URL request)
        (req_ProtocolVersion request) headers (req_Body request)
        (req_Attempts request) (req_Subscriptions request)).

Definition NewRequestFromBuffer (buffer : gostring) : result Request :=
  let request := mkRequest [] [] None [] ∅ [] 0 [] in
  match buffer with
  | [] => Ok request
  | _ => ParseRequest request buffer
  end.

(** [GetURL] copies the URL without user info and without the default
    port; it dereferences [request.URL]. *)
Definition strip_default_port (host : gostring) : gostring :=
  match Split host ":"%char with
  | h0 :: h1 :: _ => if h1 =s str "554" then h0 else host
  | _ => host
  end.

Definition GetURL (request : Request) : outcome URL :=
  match req_URL request with
  | None => Panic NilDeref
  | Some u => Done (mkURL (Scheme u) None (strip_default_port (Host u)) (Path u) (url_rest u))
  end.

Definition Request_String (request : Request) : outcome gostring :=
  let! u := GetURL request in
  Done ((req_Method request ++ str " " ++ URL_String u ++ str " "
           ++ req_ProtocolVersion request ++ CRLF)
        ++ print_headers (map_range (req_Headers request)) ++ CRLF).

End Request.

(** ** Specification *)

(** A request whose printed form stays within the syntax. *)
Record wf_request `{NetURL} (r : Request) (u : URL) : Prop := {
  wfr_method : req_Method r <> [] /\ word (req_Method r);
  wfr_url : GetURL r = Done u /\ URL_String u <> [] /\ word (URL_String u);
  wfr_version : req_ProtocolVersion r <> [] /\ word (req_ProtocolVersion r);
  wfr_headers : header_block_ok (req_Headers r)
}.

(** What the proxy relies on [net/url] for: a printed URL parses back. *)
Definition url_roundtrips `{NetURL} (u : URL) : Prop := url_Parse (URL_String u) = Ok u.

(** ** Lemmas *)

Lemma span_app (p : ascii -> bool) (s t : gostring) :
  Forall (fun c => p c = true) s -> match t with c :: _ => p c = false | [] => True end ->
  span p (s ++ t) = (s, t).
Proof.
  intros Hs Ht. induction Hs as [|c s Hc Hs IH]; cbn [app span].
  - destruct t as [|d t]; [done|]. cbn [span]. by rewrite Ht.
  - by rewrite Hc, IH.
Qed.

Lemma span_all (p : ascii -> bool) (s : gostring) : (span p s).1 ++ (span p s).2 = s.
Proof.
  induction s as [|c s IH]; [done|]. cbn [span]. destruct (p c); [|done].
  destruct (span p s). simpl in *. by rewrite IH.
Qed.

(** What can stand between the proxy's host and [/rtsp/]. *)
Definition port_part (s : gostring) : Prop :=
  s = [] \/ exists colons digits, s = colons ++ digits /\ (colons = str ":" \/ colons = str "::")
    /\ digits <> [] /\ Forall (fun c => is_digit c = true) digits.

Lemma match_port_spec (port t : gostring) :
  port_part port -> head t = Some "/"%char -> match_port (port ++ t) = Some t.
Proof.
  intros Hp Ht. destruct t as [|x t]; [done|]. injection Ht as ->.
  destruct Hp as [->|(colons & digits & -> & Hcol & Hne & Hd)]; [done|].
  assert (span is_digit (digits ++ "/"%char :: t) = (digits, "/"%char :: t)) as Hsp
    by (by apply span_app).
  destruct digits as [|d ds]; [done|]. pose proof (Forall_inv Hd) as Hd0.
  assert (ceq d ":"%char = false) as Hdc by (apply ceq_neq; intros ->; done).
  destruct Hcol as [->| ->]; cbn in Hsp |- *; rewrite ?Hdc; by rewrite Hsp.
Qed.

Lemma proxy_rewrite_form (host port rest : gostring) :
  host <> [] -> ":"%char ∉ host -> "/"%char ∉ host -> port_part port ->
  proxy_rewrite (str "rtsp://" ++ host ++ port ++ str "/rtsp/" ++ rest) = str "rtsp://" ++ rest.
Proof.
  intros Hne Hc Hs Hp. unfold proxy_rewrite. rewrite HasPrefix_app.
  rewrite (drop_app_length' (str "rtsp://")) by done.
  rewrite (span_app _ host).
  - destruct host as [|h0 host]; [done|].
    rewrite match_port_spec by done. rewrite HasPrefix_app.
    rewrite (drop_app_length' (str "/rtsp/")) by done.
    pose proof (span_all (fun c => c <>c LF) rest) as Ha.
    destruct (span _ rest) as [g tl]. simpl in Ha. by rewrite Ha.
  - apply Forall_forall. intros c Hin. rewrite !ceq_neq; [done| |]; congruence.
  - destruct Hp as [->|(colons & digits & -> & [->| ->] & _)]; done.
Qed.

Section RequestLemmas.
Context `{GoRuntime, NetURL}.

Lemma ParseCommand_line (r : Request) (method raw version : gostring) :
  method <> [] -> word method -> raw <> [] -> word raw -> version <> [] -> word version ->
  ParseCommand r (method ++ str " " ++ raw ++ str " " ++ version)
  = result_bind (url_Parse (proxy_rewrite raw)) (fun u =>
      Ok (mkRequest method raw (Some u) version (req_Headers r) (req_Body r)
            (req_Attempts r) (req_Subscriptions r))).
Proof.
  intros Hm1 Hm2 Hr1 Hr2 Hv1 Hv2. unfold ParseCommand. change (str " ") with [SP]. cbn [app].
  rewrite word_token by done. cbn [drop]; rewrite drop_0.
  rewrite word_token by done. cbn [drop]; rewrite drop_0.
  assert (token_loop version = (version, [])) as ->.
  { destruct Hv2 as [Ha Hw]. rewrite <-(app_nil_r version) at 1. rewrite token_loop_word.
    - by rewrite reencode_ascii.
    - eapply Forall_impl; [exact Hw|]. by intros c (? & ? & _).
    - by left. }
  unfold seq_eqb. by rewrite !bool_decide_eq_false_2.
Qed.

Lemma request_print_parse (r : Request) (u u' : URL) (text : gostring) :
  wf_request r u -> Request_String r = Done text ->
  url_Parse (proxy_rewrite (URL_String u)) = Ok u' ->
  NewRequestFromBuffer text
  = Ok (mkRequest (req_Method r) (URL_String u) (Some u') (req_ProtocolVersion r)
          (normal_headers (req_Headers r)) [] 0 []).
Proof.
  intros [[Hm1 Hm2] (Hu & Hu1 & Hu2) [Hv1 Hv2] Hh]. unfold Request_String. rewrite Hu.
  cbn [outcome_bind]. intros [= <-] Hp.
  set (line := req_Method r ++ str " " ++ URL_String u ++ str " " ++ req_ProtocolVersion r).
  assert (forall x, (req_Method r ++ str " " ++ URL_String u ++ str " "
                     ++ req_ProtocolVersion r ++ CRLF) ++ x = line ++ CRLF ++ x) as ->
    by (intros x; unfold line; by rewrite <-!app_assoc).
  unfold NewRequestFromBuffer, ParseRequest.
  destruct (line ++ _) as [|c b] eqn:E.
  { apply app_eq_nil in E as [[E _]%app_eq_nil _]. done. }
  rewrite <-E.
  rewrite lineSplit_crlf.
  - unfold line. rewrite ParseCommand_line by done. rewrite Hp.
    cbn [result_bind req_Headers].
    rewrite <-(app_nil_r CRLF). rewrite parse_header_block by done. done.
  - unfold line. rewrite !no_eol_app.
    assert (no_eol (str " ")) by (apply (bool_decide_unpack _); by vm_compute).
    pose proof (word_no_eol _ Hm2). pose proof (word_no_eol _ Hu2).
    pose proof (word_no_eol _ Hv2). tauto.
Qed.

End RequestLemmas.

(** ** Properties *)

(** The proxy URL form of the README is peeled off exactly:
    [rtsp://proxy[:port]/rtsp/REST] becomes [rtsp://REST], for every
    proxy host without colon or slash, every port (with one colon or two)
    and every rest, credentials and nested proxy hops included. *)
Theorem proxy_url_peeled (host port rest : gostring) :
  host <> [] -> ":"%char ∉ host -> "/"%char ∉ host -> port_part port ->
  proxy_rewrite (str "rtsp://" ++ host ++ port ++ str "/rtsp/" ++ rest) = str "rtsp://" ++ rest.
Proof. apply proxy_rewrite_form. Qed.

Lemma proxy_url_peeled_witness :
  proxy_rewrite (str "rtsp://" ++ str "127.0.0.1" ++ str ":8554" ++ str "/rtsp/"
                 ++ str "admin:pw@10.0.0.2:554/Streaming/Channels/101")
  = str "rtsp://admin:pw@10.0.0.2:554/Streaming/Channels/101".
Proof.
  rewrite proxy_url_peeled; [done|done| | |].
  - apply (bool_decide_unpack _). by vm_compute.
  - apply (bool_decide_unpack _). by vm_compute.
  - right. exists (str ":"), (str "8554"). split_and!; [done|by left|done|].
    apply (bool_decide_unpack _). by vm_compute.
Defined.

(** C30: A printed request is read as it was meant: method, protocol
    version and headers (keys in any case, as [CSeq] is; each comes back
    under its canonical key, is found by a lookup of its name, and there
    is no other) come back, and so does the URL that was printed, which is
    the request's own without user info and without the default port, if
    [net/url] parses what it prints and the URL is not itself of the form
    the proxy peels.  So credentials in a URL are never on the wire. *)
Theorem request_roundtrip `{GoRuntime, NetURL} (r : Request) (u0 u : URL) :
  req_URL r = Some u0 -> wf_request r u -> url_roundtrips u ->
  proxy_rewrite (URL_String u) = URL_String u ->
  u = mkURL (Scheme u0) None (strip_default_port (Host u0)) (Path u0) (url_rest u0)
  /\ exists text r', Request_String r = Done text /\ NewRequestFromBuffer text = Ok r'
    /\ (req_Method r', req_URL r', req_RawURL r', req_ProtocolVersion r', req_Body r')
       = (req_Method r, Some u, URL_String u, req_ProtocolVersion r, [])
    /\ (forall k v, req_Headers r !! k = Some v ->
        req_Headers r' !! canonicalHeaderKey k = Some v /\ headerGet (req_Headers r') k = v)
    /\ size (req_Headers r') = size (req_Headers r).
Proof.
  intros Hu0 Hw Hu Hp. destruct (Hw) as [_ (Hg & _) _ Hh].
  split; [unfold GetURL in Hg; rewrite Hu0 in Hg; by injection Hg|].
  assert (Ht : exists text, Request_String r = Done text)
    by (unfold Request_String; rewrite Hg; by eexists).
  destruct Ht as [text Ht]. exists text, (mkRequest (req_Method r) (URL_String u) (Some u)
    (req_ProtocolVersion r) (normal_headers (req_Headers r)) [] 0 []).
  split; [done|]. split; [apply request_print_parse; [done|done|by rewrite Hp]|]. split; [done|].
  cbn [req_Headers]. split; [intros k v; by apply header_block_get|by apply normal_headers_size, Hh].
Qed.

(** A toy [net/url] (scheme rtsp, host, path) for the witnesses. *)
Definition sample_neturl : NetURL := {|
  url_Parse := fun s =>
    if HasPrefix s (str "rtsp://") then
      let '(host, path) := span (fun c => c <>c "/"%char) (drop 7 s) in
      Ok (mkURL (str "rtsp") None host path [])
    else Err (ErrURL s);
  URL_String := fun u => Scheme u ++ str "://" ++ Host u ++ Path u
|}.

Lemma request_roundtrip_witness :
  let u0 := mkURL (str "rtsp") (Some (str "admin", Some (str "pw"))) (str "cam:554") (str "/a") [] in
  let r := mkRequest (str "PLAY") [] (Some u0) (str "RTSP/1.0") {[str "CSeq" := str "3"]} [] 0 [] in
  exists text r',
    @Request_String sample_runtime sample_neturl r = Done text /\ @NewRequestFromBuffer sample_neturl text = Ok r'
    /\ req_URL r' = Some (mkURL (str "rtsp") None (str "cam") (str "/a") [])
    /\ @headerGet sample_runtime (req_Headers r') (str "CSeq") = str "3".
Proof.
  intros u0 r. destruct (@request_roundtrip sample_runtime sample_neturl r u0
    (mkURL (str "rtsp") None (str "cam") (str "/a") [])) as (_ & text & r' & Et & Ep & Hs & Hh & _).
  - reflexivity.
  - split.
    + split; [done|]. apply (bool_decide_unpack _). by vm_compute.
    + split; [by vm_compute|]. split; [done|]. apply (bool_decide_unpack _). by vm_compute.
    + split; [done|]. apply (bool_decide_unpack _). by vm_compute.
    + apply (bool_decide_unpack _). by vm_compute.
  - by vm_compute.
  - by vm_compute.
  - exists text, r'. split; [exact Et|]. split; [exact Ep|]. split; [by injection Hs|].
    apply (Hh (str "CSeq") (str "3")). by vm_compute.
Defined.

(** [GetURL] panics exactly on a request without URL; otherwise it
    keeps scheme and path, drops the user info, and drops the port of
    [host:554] while any other [host:port] is kept. *)
Theorem GetURL_spec (r : Request) :
  (req_URL r = None <-> GetURL r = Panic NilDeref)
  /\ forall u, req_URL r = Some u -> exists v, GetURL r = Done v
       /\ Scheme v = Scheme u /\ Path v = Path u /\ User v = None
       /\ (forall h, ":"%char ∉ h -> Host u = h ++ str ":554" -> Host v = h)
       /\ (forall h p, ":"%char ∉ h -> ":"%char ∉ p -> p <> str "554" ->
           Host u = h ++ ":"%char :: p -> Host v = Host u)
       /\ (":"%char ∉ Host u -> Host v = Host u).
Proof.
  unfold GetURL. destruct (req_URL r) as [u|]; [|by split].
  split; [done|]. intros u' [= <-]. eexists. split; [done|].
  cbn [Scheme Path User Host]. unfold strip_default_port. split_and!; [done|done|done| | |].
  - intros h Hh ->. change (h ++ str ":554") with (h ++ ":"%char :: str "554").
    rewrite Split_app by done. by vm_compute.
  - intros h p Hh Hp Hne ->. rewrite Split_app, Split_no_sep by done.
    unfold seq_eqb. by rewrite bool_decide_eq_false_2.
  - intros Hn. by rewrite Split_no_sep.
Qed.
