(* ===== verification/Config.v ===== *)
(** * Configuration (src/rtspproxy/config.go, the flags of src/cmd/main.go) *)

From stdpp Require Import base list.
From Stdlib Require Import ZArith Lia.
From S2P Require Import Prelude.

Local Open Scope Z_scope.

(** ** Definitions *)

(** [time.Duration] counts nanoseconds. *)
Definition Second : Z := 1000000000.

Record Config := mkConfig {
  DialTimeout : Z;
  ReadTimeout : Z;
  WriteTimeout : Z;
  KeepaliveInt : Z;
  IdleTimeout : Z;
  ReconnectBackoff : list Z;
  PacketQueueSize : Z;
  BufferSize : Z;
  MetricsPort : Z
}.

Definition DefaultConfig : Config := {|
  DialTimeout := 5 * Second;
  ReadTimeout := 1 * Second;
  WriteTimeout := 5 * Second;
  KeepaliveInt := 55 * Second;
  IdleTimeout := 20 * Second;
  ReconnectBackoff := [1 * Second; 2 * Second; 5 * Second; 10 * Second; 30 * Second];
  PacketQueueSize := 1000;
  BufferSize := 65536;
  MetricsPort := 0
|}.

(** [Validate] repairs the receiver field by field and returns [nil]. *)
Definition Validate (c : Config) : Config := {|
  DialTimeout := if DialTimeout c <=? 0 then 5 * Second else DialTimeout c;
  ReadTimeout := if ReadTimeout c <=? 0 then 1 * Second else ReadTimeout c;
  WriteTimeout := if WriteTimeout c <=? 0 then 5 * Second else WriteTimeout c;
  KeepaliveInt := KeepaliveInt c;
  IdleTimeout := IdleTimeout c;
  ReconnectBackoff := ReconnectBackoff c;
  PacketQueueSize := if PacketQueueSize c <=? 0 then 1000 else PacketQueueSize c;
  BufferSize := if BufferSize c <? 4096 then 65536 else BufferSize c;
  MetricsPort := MetricsPort c
|}.

(** The command-line flags that override the global configuration in
    [main]; the overrides are not validated. *)
Record Flags := mkFlags {
  idleTimeout : Z;
  packetQueueSize : Z;
  bufferSize : Z;
  dialTimeout : Z;
  metricsPort : Z
}.

Definition apply_flags (cfg : Config) (f : Flags) : Config := {|
  DialTimeout := dialTimeout f;
  ReadTimeout := ReadTimeout cfg;
  WriteTimeout := WriteTimeout cfg;
  KeepaliveInt := KeepaliveInt cfg;
  IdleTimeout := idleTimeout f;
  ReconnectBackoff := ReconnectBackoff cfg;
  PacketQueueSize := packetQueueSize f;
  BufferSize := bufferSize f;
  MetricsPort := metricsPort f
|}.

(** ** Specification: the bounds the rest of the proxy relies on *)

Definition valid (c : Config) : bool :=
  (0 <? DialTimeout c) && (0 <? ReadTimeout c) && (0 <? WriteTimeout c)
  && (0 <? PacketQueueSize c) && (4096 <=? BufferSize c).

(** ** Properties *)

Lemma Validate_valid (c : Config) : valid (Validate c) = true.
Proof.
  unfold valid, Validate, Second. cbn.
  repeat match goal with |- context [if ?b then _ else _] => destruct b eqn:? end;
    reflect_bool; repeat (apply andb_true_intro; split);
    first [apply Z.ltb_lt | apply Z.leb_le]; lia.
Qed.

Lemma Validate_id (c : Config) : valid c = true -> Validate c = c.
Proof.
  unfold valid, Validate. destruct c; cbn. intros H. reflect_bool.
  repeat match goal with |- context [if ?b then _ else _] => destruct b eqn:? end;
    reflect_bool; lia || done.
Qed.

(** [Validate] turns every configuration into one within the bounds
    (positive timeouts and queue size, a buffer of at least 4096 bytes),
    changes nothing in a configuration already within them, hence is
    idempotent, leaves the fields it does not check alone, and the
    defaults are within the bounds. *)
Theorem Validate_spec (c : Config) :
  valid (Validate c) = true
  /\ (valid c = true <-> Validate c = c)
  /\ Validate (Validate c) = Validate c
  /\ KeepaliveInt (Validate c) = KeepaliveInt c
  /\ IdleTimeout (Validate c) = IdleTimeout c
  /\ ReconnectBackoff (Validate c) = ReconnectBackoff c
  /\ valid DefaultConfig = true.
Proof.
  pose proof (Validate_valid c) as Hv. split_and!; try done.
  - split; [apply Validate_id|]. by intros <-.
  - by apply Validate_id.
Qed.

(** The configuration [main] runs with is whatever the flags say. *)
Example unchecked_flags : valid (apply_flags DefaultConfig (mkFlags 0 (-1) 2 0 0)) = false.
Proof. reflexivity. Qed.
