(* ===== verification/Metrics.v ===== *)
(** * Process-wide counters and their exposition: src/rtspproxy/metrics.go

    [Metrics] with its counters at their width, the text the [/metrics]
    handler serves, and the start and stop of the HTTP server as a state
    machine over the package variables. *)

From stdpp Require Import gmap strings list fin_maps.
From Stdlib Require Import Ascii ZArith Lia.
From S2P Require Import Prelude GoStrings.

Local Open Scope go_scope.

(** ** Definitions *)

(** [atomic.Uint64] and [atomic.Int64] counters. *)
Record Metrics := mkMetrics {
  m_PacketsForwarded : Z;
  m_PacketsDropped : Z;
  m_BytesForwarded : Z;
  m_Reconnects : Z;
  m_ActiveStreams : Z;
  m_ActiveClients : Z;
  m_AuthFailures : Z;
  m_ConnectErrors : Z
}.

Definition metrics_zero : Metrics := mkMetrics 0 0 0 0 0 0 0 0.

Definition add_ConnectErrors (m : Metrics) (n : Z) : Metrics :=
  mkMetrics (m_PacketsForwarded m) (m_PacketsDropped m) (m_BytesForwarded m) (m_Reconnects m)
    (m_ActiveStreams m) (m_ActiveClients m) (m_AuthFailures m) (uint64_wrap (m_ConnectErrors m + n)).

Definition add_AuthFailures (m : Metrics) (n : Z) : Metrics :=
  mkMetrics (m_PacketsForwarded m) (m_PacketsDropped m) (m_BytesForwarded m) (m_Reconnects m)
    (m_ActiveStreams m) (m_ActiveClients m) (uint64_wrap (m_AuthFailures m + n)) (m_ConnectErrors m).

Definition add_ActiveClients (m : Metrics) (n : Z) : Metrics :=
  mkMetrics (m_PacketsForwarded m) (m_PacketsDropped m) (m_BytesForwarded m) (m_Reconnects m)
    (m_ActiveStreams m) (int64_wrap (m_ActiveClients m + n)) (m_AuthFailures m) (m_ConnectErrors m).

Definition add_ActiveStreams (m : Metrics) (n : Z) : Metrics :=
  mkMetrics (m_PacketsForwarded m) (m_PacketsDropped m) (m_BytesForwarded m) (m_Reconnects m)
    (int64_wrap (m_ActiveStreams m + n)) (m_ActiveClients m) (m_AuthFailures m) (m_ConnectErrors m).

Definition add_Reconnects (m : Metrics) (n : Z) : Metrics :=
  mkMetrics (m_PacketsForwarded m) (m_PacketsDropped m) (m_BytesForwarded m)
    (uint64_wrap (m_Reconnects m + n))
    (m_ActiveStreams m) (m_ActiveClients m) (m_AuthFailures m) (m_ConnectErrors m).

Definition nl : gostring := [LF].

(** The three [Fprintf]s of one metric. *)
Definition expose (name help kind value : gostring) : gostring :=
  (str "# HELP " ++ name ++ str " " ++ help ++ nl)
  ++ (str "# TYPE " ++ name ++ str " " ++ kind ++ nl)
  ++ (name ++ str " " ++ value ++ nl).

(** The metrics in the order they are written: name, help text, kind and
    value; [uptime] is the uptime in seconds formatted with [%.1f]. *)
Definition exposition_rows (m : Metrics) (uptime : gostring)
  : list (gostring * gostring * gostring * gostring) :=
  [ (str "rtsp_proxy_uptime_seconds", str "Time since process start.", str "gauge", uptime);
    (str "rtsp_proxy_packets_forwarded_total", str "RTP packets forwarded to clients.",
     str "counter", Itoa (m_PacketsForwarded m));
    (str "rtsp_proxy_packets_dropped_total", str "RTP packets dropped (slow clients).",
     str "counter", Itoa (m_PacketsDropped m));
    (str "rtsp_proxy_bytes_forwarded_total", str "Bytes of RTP data forwarded.",
     str "counter", Itoa (m_BytesForwarded m));
    (str "rtsp_proxy_reconnects_total", str "Upstream reconnect attempts.",
     str "counter", Itoa (m_Reconnects m));
    (str "rtsp_proxy_active_streams", str "Currently active streams.",
     str "gauge", Itoa (m_ActiveStreams m));
    (str "rtsp_proxy_active_clients", str "Currently connected clients.",
     str "gauge", Itoa (m_ActiveClients m));
    (str "rtsp_proxy_auth_failures_total", str "Authentication failures.",
     str "counter", Itoa (m_AuthFailures m));
    (str "rtsp_proxy_connect_errors_total", str "Upstream connect/dial errors.",
     str "counter", Itoa (m_ConnectErrors m)) ].

Definition Handler (m : Metrics) (uptime : gostring) : gostring :=
  concat (map (fun r => match r with (n, h, k, v) => expose n h k v end) (exposition_rows m uptime)).

(** The package variable [metricsServer] (nil or a running server), with
    the ports whose listener is still open. *)
Record metrics_server := mkMetricsServer {
  ms_server : option Z;
  ms_listening : gset Z
}.

(** [can_listen] is what [net.Listen] finds. *)
Definition StartMetricsServer (ms : metrics_server) (can_listen : bool) (port : Z)
  : metrics_server * option goerror :=
  if (port <=? 0)%Z then (ms, None)
  else match ms_server ms with
       | Some _ => (ms, None)
       | None =>
           if can_listen then (mkMetricsServer (Some port) ({[port]} ∪ ms_listening ms), None)
           else (ms, Some (ErrText (str "metrics listen")))
       end.

(** [http.Server.Shutdown] closes the server's listeners before it waits
    for the connections. *)
Definition ShutdownMetricsServer (ms : metrics_server) : metrics_server :=
  match ms_server ms with
  | None => ms
  | Some port => mkMetricsServer None (ms_listening ms ∖ {[port]})
  end.

(** ** Specification: reading the exposition back *)

(** The value of the sample line [name value]: the first line that starts
    with the name and a blank. *)
Fixpoint scrape_lines (name : gostring) (lines : list gostring) : option gostring :=
  match lines with
  | [] => None
  | l :: ls => if HasPrefix l (name ++ str " ") then Some (drop (S (length name)) l)
               else scrape_lines name ls
  end.

Definition scrape (name text : gostring) : option gostring := scrape_lines name (Split text LF).

(** ** Lemmas *)

(** The lines of an exposition whose parts hold no line feed. *)
Definition row_lines (r : gostring * gostring * gostring * gostring) : list gostring :=
  match r with
  | (n, h, k, v) =>
      [str "# HELP " ++ n ++ str " " ++ h; str "# TYPE " ++ n ++ str " " ++ k; n ++ str " " ++ v]
  end.

Definition row_clean (r : gostring * gostring * gostring * gostring) : Prop :=
  Forall (fun l => LF ∉ l) (row_lines r).

Lemma expose_lines (n h k v t : gostring) :
  expose n h k v ++ t
  = (str "# HELP " ++ n ++ str " " ++ h) ++ LF :: (str "# TYPE " ++ n ++ str " " ++ k) ++ LF ::
    (n ++ str " " ++ v) ++ LF :: t.
Proof. unfold expose, nl. by rewrite <-!app_assoc. Qed.

Lemma Split_rows (rows : list (gostring * gostring * gostring * gostring)) :
  Forall row_clean rows ->
  Split (concat (map (fun r => match r with (n, h, k, v) => expose n h k v end) rows)) LF
  = concat (map row_lines rows) ++ [[]].
Proof.
  induction 1 as [|[[[n h] k] v] rows Hr Hrs IH]; [done|].
  inversion Hr as [|? ? H1 Hr1]; subst. inversion Hr1 as [|? ? H2 Hr2]; subst.
  inversion Hr2 as [|? ? H3 _]; subst.
  cbn [map concat row_lines]. rewrite expose_lines, !Split_app by done. by rewrite IH.
Qed.

Lemma Itoa_no_LF (n : Z) : LF ∉ Itoa n.
Proof.
  assert (Hd : forall k, (0 <= k)%Z -> LF ∉ map digit_char (digits_of 10 k)).
  { intros k Hk Hin. pose proof (Itoa_digits k Hk) as HF. unfold Itoa in HF.
    rewrite (proj2 (Z.ltb_ge k 0) Hk) in HF.
    rewrite Forall_forall in HF. apply HF in Hin. by vm_compute in Hin. }
  unfold Itoa. destruct (n <? 0)%Z eqn:E; reflect_bool.
  - apply not_elem_of_cons. split; [done|]. apply Hd. lia.
  - by apply Hd.
Qed.

Lemma LF_app (s t : gostring) : LF ∉ s -> LF ∉ t -> LF ∉ s ++ t.
Proof. intros Hs Ht. rewrite elem_of_app. tauto. Qed.

(** A row whose name and texts are fixed strings. *)
Lemma row_clean_intro (n h k v : gostring) :
  (LF ∉ n) -> (LF ∉ h) -> (LF ∉ k) -> (LF ∉ v) -> row_clean (n, h, k, v).
Proof.
  intros Hn Hh Hk Hv. unfold row_clean, row_lines.
  assert (Hsp : LF ∉ str " ") by (apply (bool_decide_unpack _); by vm_compute).
  assert (Hhelp : LF ∉ str "# HELP ") by (apply (bool_decide_unpack _); by vm_compute).
  assert (Htype : LF ∉ str "# TYPE ") by (apply (bool_decide_unpack _); by vm_compute).
  repeat apply Forall_cons_2; try apply Forall_nil_2; repeat apply LF_app; done.
Qed.

Lemma exposition_clean (m : Metrics) (uptime : gostring) :
  LF ∉ uptime -> Forall row_clean (exposition_rows m uptime).
Proof.
  intros Hu. unfold exposition_rows.
  repeat (apply Forall_cons_2;
    [apply row_clean_intro;
       [apply (bool_decide_unpack _); by vm_compute..|first [done | apply Itoa_no_LF]]|]).
  apply Forall_nil_2.
Qed.

(** ** Properties *)

(** A scraper that looks up a metric by name in the text the handler
    serves finds exactly the value of that metric, for every metric of
    the exposition and every state of the counters: no metric name is a
    prefix of another one's sample, and comment lines never shadow a
    sample. *)
Theorem exposition_scrapes (m : Metrics) (uptime name help kind value : gostring) :
  LF ∉ uptime -> (name, help, kind, value) ∈ exposition_rows m uptime ->
  scrape name (Handler m uptime) = Some value.
Proof.
  intros Hu Hin. unfold scrape, Handler.
  rewrite Split_rows by by apply exposition_clean.
  unfold exposition_rows in Hin |- *.
  repeat match type of Hin with context [Itoa ?x] =>
    let v := fresh "v" in set (v := Itoa x) in *; clearbody v end.
  repeat (apply elem_of_cons in Hin as [[= -> -> -> ->]|Hin]; [by vm_compute|]).
  by apply elem_of_nil in Hin.
Qed.

Lemma exposition_scrapes_witness :
  scrape (str "rtsp_proxy_active_clients") (Handler (mkMetrics 10 0 9 0 1 (-2) 0 3) (str "3.5"))
  = Some (str "-2").
Proof.
  apply (exposition_scrapes (mkMetrics 10 0 9 0 1 (-2) 0 3) (str "3.5")
           (str "rtsp_proxy_active_clients") (str "Currently connected clients.") (str "gauge")).
  - apply (bool_decide_unpack _); by vm_compute.
  - apply (bool_decide_unpack _); by vm_compute.
Defined.
