(* ===== verification/Digest.v ===== *)
(** * Digest authentication (src/rtspproxy/digest.go)

    The client side of HTTP Digest: the response computation with its
    nonce count, the challenge parser (its regular expressions translated
    to matchers over bytes), and the Authorization-line parser. *)

From stdpp Require Import gmap strings list fin_maps.
From Stdlib Require Import Ascii ZArith Lia.
From S2P Require Import Prelude GoStrings.

Local Open Scope go_scope.

(** ** Definitions *)

Record Digest := mkDigest {
  Realm : gostring;
  Nonce : gostring;
  Username : gostring;
  Password : gostring;
  Qop : gostring;
  Opaque : gostring;
  Algorithm : gostring;
  Nc : Z                         (* uint32 *)
}.

Definition NewDigest : Digest := mkDigest [] [] [] [] [] [] [] 0.

(** [crypto/md5]: the digest of a byte string. *)
Class Crypto := { md5_sum : gostring -> gostring }.

Section Digest.
Context `{Crypto}.

Definition md5Hex (data : gostring) : gostring := hex_encode (md5_sum data).

(** [RandomNonce] with the eight random bytes [buf] and the global
    counter, a [uint64] it increments first. *)
Definition RandomNonce (d : Digest) (nonceCounter : Z) (buf : gostring) : Digest * Z :=
  let n := uint64_wrap (nonceCounter + 1) in
  let seed := hex_encode buf ++ Itoa n in
  (mkDigest (Realm d) (md5Hex seed) (Username d) (Password d) (Qop d) (Opaque d)
     (Algorithm d) (Nc d), n).

Definition randomCnonce (buf : gostring) : gostring := hex_encode buf.

Definition join_colon (parts : list gostring) : gostring := Join parts (str ":").

(** [NcString], also inlined in [ComputeResponse]. *)
Definition NcString (nc : Z) : gostring := hex08 nc.

(** [ComputeResponse]; [buf] are the random bytes of the client nonce.
    The nonce count of the receiver is a [uint32] and wraps. *)
Definition ComputeResponse (d : Digest) (cmd uri buf : gostring)
  : Digest * (gostring * gostring * gostring) :=
  let ha1 := md5Hex (join_colon [Username d; Realm d; Password d]) in
  let ha2 := md5Hex (join_colon [cmd; uri]) in
  if EqualFold (Qop d) (str "auth") then
    let nc := uint32_wrap (Nc d + 1) in
    let d' := mkDigest (Realm d) (Nonce d) (Username d) (Password d) (Qop d) (Opaque d)
                (Algorithm d) nc in
    let ncStr := NcString nc in
    let cnonce := randomCnonce buf in
    (d', (md5Hex (join_colon [ha1; Nonce d; ncStr; cnonce; str "auth"; ha2]), ncStr, cnonce))
  else (d, (md5Hex (join_colon [ha1; Nonce d; ha2]), [], [])).

End Digest.

(** *** [ParseAuthorizationHeader] *)

Record AuthorizationHeader := mkAuthorizationHeader {
  ah_URI : gostring;
  ah_Realm : gostring;
  ah_Nonce : gostring;
  ah_Username : gostring;
  ah_Response : gostring
}.

(** The two [fmt.Sscanf] calls.  Package [fmt] has no scan set verb: on
    any input the first directive of both formats fails as a bad verb
    before an operand is stored, so both calls return 0. *)
Definition sscanf_pair (fields : gostring) : nat * gostring * gostring := (0%nat, [], []).
Definition sscanf_empty (fields : gostring) : nat * gostring := (0%nat, []).

Definition is_sep (c : ascii) : bool := (c =c SP) || (c =c ","%char).

Fixpoint skip_seps (s : gostring) : gostring :=
  match s with
  | c :: t => if is_sep c then skip_seps t else s
  | [] => []
  end.

Section Authorization.
Context `{GoRuntime}.

(** The field loop; every completed pass removes at least three bytes. *)
Fixpoint auth_fields (fuel : nat) (fields : gostring) (h : AuthorizationHeader)
  : AuthorizationHeader :=
  match fuel, fields with
  | O, _ | _, [] => h
  | S f, _ =>
      let '(n1, parameter, value) := sscanf_pair fields in
      let '(n2, parameter2) := sscanf_empty fields in
      let parameter := if (0 <? n2)%nat then parameter2 else parameter in
      if negb (n1 =? 2)%nat && negb (n2 =? 1)%nat then h
      else
        let p := ToLower parameter in
        let h :=
          if p =s str "username" then
            mkAuthorizationHeader (ah_URI h) (ah_Realm h) (ah_Nonce h) value (ah_Response h)
          else if p =s str "realm" then
            mkAuthorizationHeader (ah_URI h) value (ah_Nonce h) (ah_Username h) (ah_Response h)
          else if p =s str "nonce" then
            mkAuthorizationHeader (ah_URI h) (ah_Realm h) value (ah_Username h) (ah_Response h)
          else if p =s str "uri" then
            mkAuthorizationHeader value (ah_Realm h) (ah_Nonce h) (ah_Username h) (ah_Response h)
          else if p =s str "response" then
            mkAuthorizationHeader (ah_URI h) (ah_Realm h) (ah_Nonce h) (ah_Username h) value
          else h in
        let advance := (length parameter + 2 + length value + 1)%nat in
        if (length fields <? advance)%nat then h
        else
          let fields := skip_seps (drop advance fields) in
          match fields with
          | [] => h
          | c :: _ => if (c =c CR) || (c =c LF) then h else auth_fields f fields h
          end
  end.

Definition ParseAuthorizationHeader (buf : gostring) : option AuthorizationHeader :=
  match buf with
  | [] => None
  | _ =>
      match Index buf (str "Authorization: Digest ") with
      | None => None
      | Some index =>
          let fields := drop (index + 22) buf in
          Some (auth_fields (length fields) fields (mkAuthorizationHeader [] [] [] [] []))
      end
  end.

End Authorization.

(** *** The regular expressions of the challenge parser *)

(** One literal letter under [(?i)]: both cases, and the long s U+017F
    and Kelvin sign U+212A that fold to s and k. *)
Definition match_char_ci (c : ascii) (s : gostring) : option gostring :=
  match s with
  | b :: t =>
      if lower_byte b =c lower_byte c then Some t
      else if (lower_byte c =c "s"%char) && HasPrefix s ["197"%char; "191"%char]
           then Some (drop 2 s)
      else if (lower_byte c =c "k"%char) && HasPrefix s ["226"%char; "132"%char; "170"%char]
           then Some (drop 3 s)
      else None
  | [] => None
  end.

Fixpoint match_lit_ci (lit s : gostring) : option gostring :=
  match lit with
  | [] => Some s
  | c :: lit' => s' ← match_char_ci c s; match_lit_ci lit' s'
  end.

(** [\s]. *)
Definition is_re_space (c : ascii) : bool :=
  (c =c TAB) || (c =c LF) || (c =c "012"%char) || (c =c CR) || (c =c SP).

(** A greedy repetition of a byte class that cannot give bytes back. *)
Fixpoint take_class (p : ascii -> bool) (s : gostring) : gostring * gostring :=
  match s with
  | c :: t => if p c then let '(a, b) := take_class p t in (c :: a, b) else ([], s)
  | [] => ([], [])
  end.

(** The leftmost match of a matcher. *)
Fixpoint find_first {A} (m : gostring -> option A) (s : gostring) : option A :=
  match m s with
  | Some r => Some r
  | None => match s with [] => None | _ :: t => find_first m t end
  end.

(** [name] followed by an equals sign, a quote, any bytes but a quote
    (captured), and a quote. *)
Definition match_quoted (name : gostring) (s : gostring) : option gostring :=
  t ← match_lit_ci (name ++ ["="%char; DQ]) s;
  let '(v, rest) := take_class (fun c => c <>c DQ) t in
  match rest with _ :: _ => Some v | [] => None end.

(** [name], an equals sign, and one or more bytes that are neither a
    comma nor white space (captured). *)
Definition match_unquoted (name : gostring) (s : gostring) : option gostring :=
  t ← match_lit_ci (name ++ ["="%char]) s;
  match (take_class (fun c => (c <>c ","%char) && negb (is_re_space c)) t).1 with
  | [] => None
  | v => Some v
  end.

Definition match_digest (s : gostring) : option gostring :=
  t ← match_lit_ci (str "Digest") s;
  match (take_class is_re_space t).1 with [] => None | v => Some v end.

Definition match_basic (s : gostring) : option gostring :=
  t ← match_lit_ci (str "Basic") s;
  let '(blanks, t) := take_class is_re_space t in
  match blanks with
  | [] => None
  | _ =>
      t ← match_lit_ci (str "realm=" ++ [DQ]) t;
      let '(v, rest) := take_class (fun c => c <>c DQ) t in
      match v, rest with
      | _ :: _, _ :: _ => Some v
      | _, _ => None
      end
  end.

Definition extractParam (name s : gostring) : gostring :=
  match find_first (match_quoted name) s with
  | Some v => v
  | None => match find_first (match_unquoted name) s with
            | Some v => v
            | None => []
            end
  end.

(** The selection of [auth] from a list of protection qualities. *)
Fixpoint pick_auth (parts : list gostring) (qop : gostring) : gostring :=
  match parts with
  | [] => qop
  | part :: ps => if TrimSpace part =s str "auth" then str "auth" else pick_auth ps qop
  end.

Definition select_qop (qop : gostring) : gostring :=
  if Contains qop (str ",") then pick_auth (Split qop ","%char) qop else qop.

Record Challenge := mkChallenge {
  ch_realm : gostring;
  ch_nonce : gostring;
  ch_qop : gostring;
  ch_opaque : gostring;
  ch_algorithm : gostring;
  ch_isDigest : bool
}.

Definition ParseWWWAuthenticate (paramsStr : gostring) : Challenge :=
  match paramsStr with
  | [] => mkChallenge [] [] [] [] [] false
  | _ =>
      match find_first match_digest paramsStr with
      | None =>
          mkChallenge (default [] (find_first match_basic paramsStr)) [] [] [] [] false
      | Some _ =>
          let algorithm := extractParam (str "algorithm") paramsStr in
          mkChallenge
            (extractParam (str "realm") paramsStr)
            (extractParam (str "nonce") paramsStr)
            (select_qop (extractParam (str "qop") paramsStr))
            (extractParam (str "opaque") paramsStr)
            (if algorithm =s [] then str "MD5" else algorithm)
            true
      end
  end.

(** ** Specifications *)

(** RFC 2617 section 3.2.2.1 with [qop=auth], and the RFC 2069 form
    without. *)
Definition kd_2617 `{Crypto} (user realm pass nonce nc cnonce method uri : gostring) : gostring :=
  md5Hex (join_colon [md5Hex (join_colon [user; realm; pass]); nonce; nc; cnonce; str "auth";
                      md5Hex (join_colon [method; uri])]).

Definition kd_2069 `{Crypto} (user realm pass nonce method uri : gostring) : gostring :=
  md5Hex (join_colon [md5Hex (join_colon [user; realm; pass]); nonce;
                      md5Hex (join_colon [method; uri])]).

(** The nonce-count strings of a run of requests against one challenge. *)
Fixpoint nc_run `{Crypto} (d : Digest) (reqs : list (gostring * gostring * gostring)) : list gostring :=
  match reqs with
  | [] => []
  | (cmd, uri, buf) :: rs =>
      let '(d', (_, nc, _)) := ComputeResponse d cmd uri buf in nc :: nc_run d' rs
  end.

(** ** Lemmas *)

Lemma nc_run_counts `{Crypto} (d : Digest) reqs :
  EqualFold (Qop d) (str "auth") = true -> (0 <= Nc d)%Z ->
  (Nc d + slen reqs < 2 ^ 32)%Z ->
  nc_run d reqs = map (fun i => NcString (Nc d + 1 + Z.of_nat i)) (seq 0 (length reqs)).
Proof.
  intros Hq. revert d Hq. induction reqs as [|[[cmd uri] buf] rs IH]; intros d Hq H0 Hb; [done|].
  assert (slen ((cmd, uri, buf) :: rs) = slen rs + 1)%Z as Hl by (unfold slen; simpl; lia).
  pose proof (slen_nonneg rs). cbn [nc_run]. unfold ComputeResponse. rewrite Hq.
  unfold uint32_wrap. rewrite Z.mod_small by lia. cbn [length seq map]. f_equal.
  { f_equal. lia. }
  rewrite IH; cbn [Nc Qop]; [|done|lia|lia]. rewrite <-seq_shift, map_map.
  apply map_ext. intros i. f_equal. lia.
Qed.

Lemma lower_byte_nonletter (b c : ascii) :
  is_lower c = false -> is_upper c = false -> lower_byte b = lower_byte c -> b = c.
Proof.
  intros Hl Hu. unfold lower_byte. rewrite Hu. destruct (is_upper b) eqn:Eb; [|done].
  intros <-. unfold is_lower, is_upper in *. reflect_bool.
  rewrite byte_val_to_byte, Z.mod_small in Hl by lia.
  apply andb_false_iff in Hl as [Hl|Hl]; reflect_bool; lia.
Qed.

(** Letters without a non-ASCII folding. *)
Definition plain_lit (lit : gostring) : Prop :=
  Forall (fun c => lower_byte c <> "s"%char /\ lower_byte c <> "k"%char) lit.

Lemma match_char_ci_plain (c : ascii) (s : gostring) :
  lower_byte c <> "s"%char -> lower_byte c <> "k"%char ->
  match_char_ci c s = match s with
                      | b :: t => if lower_byte b =c lower_byte c then Some t else None
                      | [] => None
                      end.
Proof.
  intros H1 H2. unfold match_char_ci. destruct s as [|b t]; [done|].
  by rewrite (ceq_neq _ _ H1), (ceq_neq _ _ H2).
Qed.

Lemma match_lit_ci_self (lit s : gostring) : plain_lit lit -> match_lit_ci lit (lit ++ s) = Some s.
Proof.
  induction 1 as [|c lit [H1 H2] Hlit IH]; [done|]. cbn [match_lit_ci app].
  rewrite match_char_ci_plain by done. rewrite ceq_refl. exact IH.
Qed.

Lemma match_lit_ci_lookup (lit s t : gostring) (k : nat) (c : ascii) :
  plain_lit lit -> match_lit_ci lit s = Some t -> lit !! k = Some c ->
  exists b, s !! k = Some b /\ lower_byte b = lower_byte c.
Proof.
  intros Hp. revert s k. induction Hp as [|x lit [H1 H2] Hlit IH]; intros s k Hm Hk; [done|].
  cbn [match_lit_ci] in Hm. rewrite match_char_ci_plain in Hm by done.
  destruct s as [|b s]; [done|]. destruct (ceq _ _) eqn:E in Hm; [|done]. reflect_bool.
  destruct k as [|k].
  - injection Hk as ->. by exists b.
  - apply (IH s k); done.
Qed.

Lemma match_quoted_fail_at (name s : gostring) :
  plain_lit name -> s !! length name <> Some "="%char -> match_quoted name s = None.
Proof.
  intros Hp Hs. unfold match_quoted.
  destruct (match_lit_ci _ s) as [t|] eqn:E; [|done]. exfalso.
  apply (match_lit_ci_lookup _ _ _ (length name) "="%char) in E as (b & Hb & Hl).
  - apply Hs. rewrite Hb. f_equal. by apply lower_byte_nonletter.
  - apply Forall_app. split; [done|]. apply (bool_decide_unpack _). by vm_compute.
  - rewrite lookup_app_r by lia. by rewrite Nat.sub_diag.
Qed.

Lemma match_quoted_fail_head (n b : ascii) (name s : gostring) :
  plain_lit (n :: name) -> lower_byte b <> lower_byte n -> match_quoted (n :: name) (b :: s) = None.
Proof.
  intros Hp Hb. unfold match_quoted. apply Forall_inv in Hp as [H1 H2]. cbn [app match_lit_ci].
  rewrite match_char_ci_plain by done. by rewrite ceq_neq.
Qed.

Lemma find_first_skip {A} (m : gostring -> option A) (P s : gostring) :
  (forall P1 c P2, P = P1 ++ c :: P2 -> m (c :: P2 ++ s) = None) ->
  find_first m (P ++ s) = find_first m s.
Proof.
  induction P as [|c P IH]; intros Hm; [done|]. cbn [app find_first].
  rewrite (Hm [] c P) by done. apply IH. intros P1 d P2 ->. by apply (Hm (c :: P1) d P2).
Qed.

(** Text without an equals sign in front of a parameter is skipped. *)
Lemma skip_no_equals (name P s : gostring) :
  plain_lit name -> "="%char ∉ name -> "="%char ∉ P ->
  find_first (match_quoted name) (P ++ name ++ s) = find_first (match_quoted name) (name ++ s).
Proof.
  intros Hp Hn HP. apply find_first_skip. intros P1 c P2 ->.
  apply match_quoted_fail_at; [done|]. intros Hl.
  assert ((c :: P2) ++ name ++ s = (c :: P2 ++ name) ++ s) as He by (by rewrite app_assoc).
  change (c :: P2 ++ name ++ s) with ((c :: P2) ++ name ++ s) in Hl. rewrite He in Hl.
  rewrite lookup_app_l in Hl by (simpl; rewrite length_app; lia).
  apply list_elem_of_lookup_2 in Hl. set_solver.
Qed.

Lemma take_class_stop (p : ascii -> bool) (v : gostring) (d : ascii) (rest : gostring) :
  Forall (fun c => p c = true) v -> p d = false -> take_class p (v ++ d :: rest) = (v, d :: rest).
Proof.
  intros Hv Hd. induction Hv as [|c v Hc Hv IH]; cbn [app take_class]; [by rewrite Hd|].
  by rewrite Hc, IH.
Qed.

Lemma match_quoted_here (name v rest : gostring) :
  plain_lit name -> DQ ∉ v ->
  find_first (match_quoted name) (name ++ "="%char :: DQ :: v ++ DQ :: rest) = Some v.
Proof.
  intros Hp Hv.
  assert (match_quoted name (name ++ "="%char :: DQ :: v ++ DQ :: rest) = Some v) as Hm.
  { unfold match_quoted.
    change (name ++ "="%char :: DQ :: v ++ DQ :: rest)
      with (name ++ ["="%char; DQ] ++ (v ++ DQ :: rest)). rewrite app_assoc.
    rewrite match_lit_ci_self.
    - cbn [mbind option_bind]. rewrite take_class_stop; [done| |done].
      apply Forall_forall. intros c Hc. rewrite ceq_neq; [done|]. congruence.
    - apply Forall_app. split; [done|]. apply (bool_decide_unpack _). by vm_compute. }
  destruct (name ++ _); cbn [find_first]; by rewrite Hm.
Qed.

(** The usual shape of a challenge. *)
Definition challenge_text (realm nonce rest : gostring) : gostring :=
  str "Digest realm" ++ "="%char :: DQ :: realm ++ DQ :: str ", nonce"
    ++ "="%char :: DQ :: nonce ++ DQ :: rest.

Lemma find_realm (realm nonce rest : gostring) :
  DQ ∉ realm ->
  find_first (match_quoted (str "realm")) (challenge_text realm nonce rest) = Some realm.
Proof.
  intros Hr. unfold challenge_text.
  change (str "Digest realm") with (str "Digest " ++ str "realm"). rewrite <-app_assoc.
  rewrite skip_no_equals by (apply (bool_decide_unpack _); by vm_compute).
  apply match_quoted_here; [|done]. apply (bool_decide_unpack _). by vm_compute.
Qed.

Lemma find_nonce (realm nonce rest : gostring) :
  "="%char ∉ realm -> DQ ∉ nonce ->
  find_first (match_quoted (str "nonce")) (challenge_text realm nonce rest) = Some nonce.
Proof.
  intros Hr Hn. unfold challenge_text.
  assert (forall x, str "Digest realm" ++ "="%char :: x = str "Digest realm=" ++ x) as -> by done.
  rewrite find_first_skip.
  - assert (forall x, DQ :: realm ++ DQ :: str ", nonce" ++ x
                      = (DQ :: realm ++ DQ :: str ", ") ++ str "nonce" ++ x) as ->.
    { intros x. simpl. by rewrite <-app_assoc. }
    rewrite skip_no_equals.
    + apply match_quoted_here; [|done]. apply (bool_decide_unpack _). by vm_compute.
    + apply (bool_decide_unpack _). by vm_compute.
    + apply (bool_decide_unpack _). by vm_compute.
    + rewrite not_elem_of_cons, not_elem_of_app. split; [done|]. split; [done|].
      apply (bool_decide_unpack _). by vm_compute.
  - intros P1 c P2 HP. apply match_quoted_fail_head.
    + apply (bool_decide_unpack _). by vm_compute.
    + assert (c ∈ str "Digest realm=") as Hc by (rewrite HP; set_solver).
      assert (Forall (fun c => lower_byte c <> lower_byte "n"%char) (str "Digest realm=")) as Hf
        by (apply (bool_decide_unpack _); by vm_compute).
      rewrite Forall_forall in Hf. by apply Hf.
Qed.

Lemma challenge_fields (realm nonce rest : gostring) :
  DQ ∉ realm -> "="%char ∉ realm -> DQ ∉ nonce ->
  let c := ParseWWWAuthenticate (challenge_text realm nonce rest) in
  ch_isDigest c = true /\ ch_realm c = realm /\ ch_nonce c = nonce /\ ch_algorithm c <> [].
Proof.
  intros Hr He Hn. cbn zeta. unfold ParseWWWAuthenticate.
  assert (exists v, find_first match_digest (challenge_text realm nonce rest) = Some v) as [v Hv].
  { unfold challenge_text. cbn. by eexists. }
  destruct (challenge_text realm nonce rest) as [|c0 s0] eqn:E; [done|]. rewrite <-E in *.
  rewrite Hv. cbn [ch_isDigest ch_realm ch_nonce ch_algorithm]. unfold extractParam at 1 2.
  rewrite find_realm, find_nonce by done. split_and!; [done|done|done|].
  destruct (_ =s []) eqn:Ea; [done|]. by reflect_bool.
Qed.

Lemma pick_auth_spec (parts : list gostring) (qop : gostring) :
  (Exists (fun p => TrimSpace p = str "auth") parts /\ pick_auth parts qop = str "auth")
  \/ (Forall (fun p => TrimSpace p <> str "auth") parts /\ pick_auth parts qop = qop).
Proof.
  induction parts as [|p ps IH]; [right; by split|]. cbn [pick_auth].
  destruct (TrimSpace p =s str "auth") eqn:E; reflect_bool.
  - left. split; [by left|done].
  - destruct IH as [[? ?]|[? ?]]; [left|right]; split; try done; by constructor.
Qed.

Lemma auth_fields_blind `{GoRuntime} (fuel : nat) (fields : gostring) (h : AuthorizationHeader) :
  auth_fields fuel fields h = h.
Proof. destruct fuel as [|f]; [done|]. by destruct fields. Qed.

(** ** Properties *)

(** The nonce counts of consecutive requests against one challenge
    (count 0, [qop=auth]) are the eight-digit strings of 1, 2, 3, ...; no
    two of them are equal before the 32-bit counter wraps, so no request
    reuses a nonce count. *)
Theorem nonce_counts_fresh `{Crypto} (d : Digest) (reqs : list (gostring * gostring * gostring)) :
  EqualFold (Qop d) (str "auth") = true -> Nc d = 0%Z -> (slen reqs < 2 ^ 32)%Z ->
  nc_run d reqs = map (fun i => NcString (1 + Z.of_nat i)) (seq 0 (length reqs))
  /\ NoDup (nc_run d reqs) /\ Forall (fun s => length s = 8%nat) (nc_run d reqs).
Proof.
  intros Hq H0 Hb. rewrite nc_run_counts by (done || lia). rewrite H0. cbn [Z.add].
  unfold slen in Hb. split; [done|]. split.
  - apply NoDup_fmap_2_strong; [|apply NoDup_ListNoDup, seq_NoDup].
    intros i j Hi Hj E. unfold NcString in E. apply hex08_inj in E; lia.
  - apply Forall_fmap, Forall_forall. intros i Hi. apply elem_of_seq in Hi.
    cbn. unfold NcString. apply hex08_length. lia.
Qed.

Definition sample_crypto : Crypto := {| md5_sum := fun s => s |}.

Lemma nonce_counts_fresh_witness :
  let d := mkDigest (str "r") (str "n") (str "u") (str "p") (str "AUTH") [] [] 0 in
  let q := (str "PLAY", str "rtsp://cam/a", str "abcdefgh") in
  NoDup (@nc_run sample_crypto d [q; q; q])
  /\ @nc_run sample_crypto d [q; q; q] = [str "00000001"; str "00000002"; str "00000003"].
Proof.
  intros d q.
  destruct (@nonce_counts_fresh sample_crypto d [q; q; q]) as (H1 & H2 & _);
    [by vm_compute|done|by vm_compute|].
  split; [exact H2|]. rewrite H1. by vm_compute.
Defined.

(** The response is RFC 2617's with the next nonce count when the
    challenge offered [auth] (in any letter case), and RFC 2069's, with
    the digest state unchanged, otherwise; nothing but the nonce count
    ever changes. *)
Theorem ComputeResponse_rfc `{Crypto} (d : Digest) (cmd uri buf : gostring) :
  let '(d', (response, nc, cnonce)) := ComputeResponse d cmd uri buf in
  (EqualFold (Qop d) (str "auth") = true ->
     response = kd_2617 (Username d) (Realm d) (Password d) (Nonce d)
                  (NcString (uint32_wrap (Nc d + 1))) (hex_encode buf) cmd uri
     /\ nc = NcString (Nc d') /\ cnonce = hex_encode buf
     /\ Nc d' = uint32_wrap (Nc d + 1))
  /\ (EqualFold (Qop d) (str "auth") = false ->
     response = kd_2069 (Username d) (Realm d) (Password d) (Nonce d) cmd uri
     /\ nc = [] /\ cnonce = [] /\ d' = d)
  /\ (Realm d', Nonce d', Username d', Password d', Qop d', Opaque d', Algorithm d')
     = (Realm d, Nonce d, Username d, Password d, Qop d, Opaque d, Algorithm d).
Proof.
  unfold ComputeResponse. destruct (EqualFold (Qop d) (str "auth")) eqn:E; by split_and!.
Qed.

(** A challenge of the usual shape is read back: from
    [Digest realm="R", nonce="N"] and any further parameters, the parser
    returns [R] and [N] and reports a digest challenge, for every [R]
    without quote or equals sign and every [N] without quote (base64
    padding included). *)
Theorem challenge_parsed (realm nonce rest : gostring) :
  DQ ∉ realm -> "="%char ∉ realm -> DQ ∉ nonce ->
  let c := ParseWWWAuthenticate (challenge_text realm nonce rest) in
  ch_isDigest c = true /\ ch_realm c = realm /\ ch_nonce c = nonce /\ ch_algorithm c <> [].
Proof. apply challenge_fields. Qed.

Lemma challenge_parsed_witness :
  ch_nonce (ParseWWWAuthenticate
    (challenge_text (str "IP Camera(C1)") (str "NzE5MA==") (str ", stale=FALSE"))) = str "NzE5MA==".
Proof.
  apply (challenge_parsed (str "IP Camera(C1)") (str "NzE5MA==") (str ", stale=FALSE"));
    apply (bool_decide_unpack _); by vm_compute.
Defined.

(** From a list of protection qualities the parser takes [auth]
    exactly when one of the comma-separated items, trimmed, is [auth];
    any other value is passed on unchanged, and [auth] alone stays. *)
Theorem select_qop_spec (qop : gostring) :
  (","%char ∈ qop -> Exists (fun p => TrimSpace p = str "auth") (Split qop ","%char) ->
     select_qop qop = str "auth")
  /\ ((","%char ∉ qop \/ Forall (fun p => TrimSpace p <> str "auth") (Split qop ","%char)) ->
     select_qop qop = qop).
Proof.
  unfold select_qop.
  assert (Contains qop (str ",") = true <-> ","%char ∈ qop) as Hc.
  { rewrite Contains_spec. split.
    - intros (a & b & ->). apply elem_of_app. right. by left.
    - intros Hin. apply list_elem_of_split in Hin as (a & b & ->). by exists a, b. }
  destruct (pick_auth_spec (Split qop ","%char) qop) as [[He Hp]|[Hf Hp]].
  - split.
    + intros Hin _. by rewrite (proj2 Hc Hin).
    + destruct (Contains qop (str ",")); [|done]. intros [Hn|Hf].
      * destruct Hn. by apply Hc.
      * exfalso. apply Exists_exists in He as (p & Hin & Ht).
        rewrite Forall_forall in Hf. by destruct (Hf p Hin).
  - split.
    + intros _ He. exfalso. apply Exists_exists in He as (p & Hin & Ht).
      rewrite Forall_forall in Hf. by destruct (Hf p Hin).
    + intros _. by destruct (Contains qop (str ",")).
Qed.

(** [ParseAuthorizationHeader] extracts nothing: for every input it
    returns nil or a header whose five fields are all empty, because the
    scan-set verbs of its two [Sscanf] formats do not exist in Go. *)
Theorem ParseAuthorizationHeader_blind `{GoRuntime} (buf : gostring) :
  ParseAuthorizationHeader buf = None
  \/ ParseAuthorizationHeader buf = Some (mkAuthorizationHeader [] [] [] [] []).
Proof.
  unfold ParseAuthorizationHeader. destruct buf as [|c b]; [by left|].
  destruct (Index _ _); [right|by left]. by rewrite auth_fields_blind.
Qed.
