(* ===== verification/Framing.v ===== *)
(** * Framing of the upstream connection

    [Stream.readLoop] (src/rtspproxy/stream.go) cuts the byte stream of
    the camera into interleaved packets and RTSP messages;
    [Remote.SendBinary] (src/rtspproxy/remote.go) writes interleaved
    packets.  The contents of [buffer[:length]] is a list of bytes; the
    stale bytes behind [length] are never read. *)

From stdpp Require Import gmap strings list fin_maps.
From Stdlib Require Import Ascii ZArith Lia.
From S2P Require Import Prelude GoStrings Message.

Local Open Scope go_scope.

(** ** Definitions *)

Definition DOLLAR : ascii := "$"%char.
Definition CRLFCRLF : gostring := CRLF ++ CRLF.

(** [(int(hi) << 8) | int(lo)]. *)
Definition be16 (hi lo : ascii) : Z := Z.lor (Z.shiftl (byte_val hi) 8) (byte_val lo).

(** What the loop hands on: [s.dispatch(channel, packet)] or
    [s.remote.HandleUpstreamResponse(msg)]. *)
Inductive frame_event : Type :=
| EvDispatch (channel : Z) (packet : gostring)
| EvResponse (msg : gostring).

(** One pass of the inner loop: break for more data, hand on an item and
    shift the buffer, or panic in [buffer[:totalMsgLen]]. *)
Inductive frame_step : Type :=
| NeedMore
| Frame (ev : frame_event) (rest : gostring)
| FramePanic.

Definition frame_next (buf : gostring) : frame_step :=
  match buf with
  | [] => NeedMore
  | b0 :: t =>
      if b0 =c DOLLAR then
        match t with
        | b1 :: b2 :: b3 :: _ =>
            let pktLen := be16 b2 b3 in
            if (slen buf <? 4 + pktLen)%Z then NeedMore
            else Frame (EvDispatch (byte_val b1) (take (Z.to_nat (4 + pktLen)) buf))
                       (drop (Z.to_nat (4 + pktLen)) buf)
        | _ => NeedMore
        end
      else
        match Index buf CRLFCRLF with
        | None => NeedMore
        | Some eol =>
            let contentLength := sharedParseContentLength (take eol buf) in
            let totalMsgLen := int64_wrap (Z.of_nat eol + 4 + contentLength) in
            if (slen buf <? totalMsgLen)%Z then NeedMore
            else if (totalMsgLen <? 0)%Z then FramePanic
            else Frame (EvResponse (take (Z.to_nat totalMsgLen) buf))
                       (drop (Z.to_nat totalMsgLen) buf)
        end
  end.

(** The inner loop: [None] while it is still running after [fuel]
    passes; the flag says whether it panicked. *)
Fixpoint drain (fuel : nat) (buf : gostring) : option (list frame_event * gostring * bool) :=
  match fuel with
  | O => None
  | S f =>
      match frame_next buf with
      | NeedMore => Some ([], buf, false)
      | FramePanic => Some ([], buf, true)
      | Frame ev rest =>
          match drain f rest with
          | Some (evs, b, p) => Some (ev :: evs, b, p)
          | None => None
          end
      end
  end.

(** [S (length buf)] passes are enough unless it never ends
    ([drain_None]). *)
Definition drain_buffer (buf : gostring) : option (list frame_event * gostring * bool) :=
  drain (S (length buf)) buf.

(** What an iteration of the outer loop meets: a cancelled context, [k]
    bytes ready on the socket, a read timeout, or a read error. *)
Inductive iteration : Type :=
| CtxDone
| Ready (k : nat)
| Timeout
| ReadErr.

Inductive read_exit : Type :=
| Reading (buf input : gostring)     (* the schedule is used up *)
| Returned (err : option goerror)
| Crashed
| Spinning.

(** [readLoop] with a buffer of [cap] bytes, on the bytes [input] the
    camera sends. *)
Fixpoint readLoop (cap : nat) (its : list iteration) (buf input : gostring)
  : list frame_event * read_exit :=
  match its with
  | [] => ([], Reading buf input)
  | CtxDone :: _ => ([], Returned None)
  | it :: its' =>
      match drain_buffer buf with
      | None => ([], Spinning)
      | Some (evs, _, true) => (evs, Crashed)
      | Some (evs, b, false) =>
          let b := if (length b =? cap)%nat then [] else b in
          match it with
          | ReadErr => (evs, Returned (Some ErrIO))
          | Timeout | CtxDone =>
              let '(evs', e) := readLoop cap its' b input in (evs ++ evs', e)
          | Ready k =>
              let n := Nat.min k (cap - length b) in
              let '(evs', e) := readLoop cap its' (b ++ take n input) (drop n input) in
              (evs ++ evs', e)
          end
      end
  end.

(** The bytes [SendBinary] writes for a packet: header, then data. *)
Definition SendBinary_bytes (channel : Z) (data : gostring) : gostring :=
  [DOLLAR; to_byte channel; to_byte (Z.shiftr (Z.land (slen data) 65280) 8);
   to_byte (Z.land (slen data) 255)] ++ data.

(** ** Specification: what the camera means to send *)

Inductive wire_frame : Type :=
| WPacket (channel : ascii) (payload : gostring)
| WMessage (header body : gostring).

(** RFC 2326 section 10.12: a dollar sign, the channel, and the length in
    network byte order; a message is a header block, an empty line and a
    body. *)
Definition encode (f : wire_frame) : gostring :=
  match f with
  | WPacket ch p => DOLLAR :: ch :: to_byte (slen p / 256) :: to_byte (slen p) :: p
  | WMessage h b => h ++ CRLFCRLF ++ b
  end.

Definition event_of (f : wire_frame) : frame_event :=
  match f with
  | WPacket ch p => EvDispatch (byte_val ch) (encode f)
  | WMessage h b => EvResponse (encode f)
  end.

Definition valid_frame (f : wire_frame) : Prop :=
  match f with
  | WPacket _ p => (slen p < 65536)%Z
  | WMessage h b =>
      head h <> Some DOLLAR
      /\ Index (h ++ CRLFCRLF) CRLFCRLF = Some (length h)
      /\ sharedParseContentLength h = slen b
      /\ (slen (encode f) <= int64_max)%Z
  end.

#[global] Instance valid_frame_dec f : Decision (valid_frame f).
Proof. destruct f; simpl; apply _. Defined.

Definition wire (fs : list wire_frame) : gostring := concat (map encode fs).

(** ** Lemmas: one frame *)

Lemma be16_split (n : Z) :
  (0 <= n < 65536)%Z -> be16 (to_byte (n / 256)) (to_byte n) = n.
Proof.
  intros Hn. unfold be16. rewrite !byte_val_to_byte.
  rewrite (Z.mod_small (n / 256)) by (split; [apply Z.div_pos|apply Z.div_lt_upper_bound]; lia).
  rewrite Z.shiftl_mul_pow2 by lia. change (2 ^ 8)%Z with 256%Z.
  pose proof (Z.add_lor_land (n / 256 * 256) (n mod 256)) as Hadd.
  assert (Z.land (n / 256 * 256) (n mod 256) = 0)%Z as Hland;
    [|pose proof (Z.div_mod n 256); lia].
  change 256%Z with (2 ^ 8)%Z. rewrite <-Z.shiftl_mul_pow2 by lia.
  rewrite <-(Z.land_ones n 8) by lia. apply Z.bits_inj'. intros i Hi.
  rewrite !Z.land_spec, Z.shiftl_spec, Z.bits_0 by lia.
  destruct (Z.lt_ge_cases i 8).
  - by rewrite (Z.testbit_neg_r _ (i - 8)) by lia.
  - rewrite Z.ones_spec_high by lia. by rewrite !andb_false_r.
Qed.

Lemma slen_encode_packet (ch : ascii) (p : gostring) :
  slen (encode (WPacket ch p)) = (4 + slen p)%Z.
Proof. unfold slen. cbn [encode length]. lia. Qed.

Lemma encode_nonempty (f : wire_frame) : encode f <> [].
Proof. destruct f as [|[|c h] b]; done. Qed.

Lemma take_app_slen {A} (s t : list A) (n : Z) : n = slen s -> take (Z.to_nat n) (s ++ t) = s.
Proof. intros ->. unfold slen. rewrite Nat2Z.id. apply take_app_length. Qed.

Lemma drop_app_slen {A} (s t : list A) (n : Z) : n = slen s -> drop (Z.to_nat n) (s ++ t) = t.
Proof. intros ->. unfold slen. rewrite Nat2Z.id. apply drop_app_length. Qed.

(** The branch for interleaved packets, once the header is there. *)
Lemma frame_next_dollar (b1 b2 b3 : ascii) (t : gostring) :
  let buf := DOLLAR :: b1 :: b2 :: b3 :: t in
  frame_next buf =
  if (slen buf <? 4 + be16 b2 b3)%Z then NeedMore
  else Frame (EvDispatch (byte_val b1) (take (Z.to_nat (4 + be16 b2 b3)) buf))
             (drop (Z.to_nat (4 + be16 b2 b3)) buf).
Proof. reflexivity. Qed.

(** A buffer that starts with a packet yields that packet. *)
Lemma frame_next_packet (ch : ascii) (p rest : gostring) :
  (slen p < 65536)%Z ->
  frame_next (encode (WPacket ch p) ++ rest) = Frame (event_of (WPacket ch p)) rest.
Proof.
  intros Hp. pose proof (slen_nonneg p). pose proof (slen_nonneg rest).
  pose proof (slen_encode_packet ch p) as Hl.
  change (encode (WPacket ch p) ++ rest)
    with (DOLLAR :: ch :: to_byte (slen p / 256) :: to_byte (slen p) :: (p ++ rest)).
  rewrite frame_next_dollar, be16_split by lia.
  change (DOLLAR :: ch :: to_byte (slen p / 256) :: to_byte (slen p) :: (p ++ rest))
    with (encode (WPacket ch p) ++ rest).
  rewrite slen_app. destruct (_ <? _)%Z eqn:E; reflect_bool; [lia|].
  rewrite take_app_slen, drop_app_slen by lia. done.
Qed.

Lemma message_head (h b : gostring) :
  head h <> Some DOLLAR -> exists c t, h ++ CRLFCRLF ++ b = c :: t /\ c <> DOLLAR.
Proof.
  intros Hh. destruct h as [|c h]; [by eexists _, _|].
  exists c, (h ++ CRLFCRLF ++ b). split; [done|]. simpl in Hh. congruence.
Qed.

Lemma message_Index (h b rest : gostring) :
  Index (h ++ CRLFCRLF) CRLFCRLF = Some (length h) ->
  Index ((h ++ CRLFCRLF ++ b) ++ rest) CRLFCRLF = Some (length h).
Proof.
  intros Hi. replace ((h ++ CRLFCRLF ++ b) ++ rest) with ((h ++ CRLFCRLF) ++ (b ++ rest))
    by (by rewrite <-!app_assoc). by apply Index_app.
Qed.

Lemma slen_message (h b : gostring) : slen (h ++ CRLFCRLF ++ b) = (slen h + 4 + slen b)%Z.
Proof. rewrite !slen_app. change (slen CRLFCRLF) with 4%Z. lia. Qed.

(** The branch for messages, once the end of the header is known. *)
Lemma frame_next_eol (buf : gostring) (c : ascii) (t : gostring) (eol : nat) :
  buf = c :: t -> c <> DOLLAR -> Index buf CRLFCRLF = Some eol ->
  frame_next buf =
  let total := int64_wrap (Z.of_nat eol + 4 + sharedParseContentLength (take eol buf)) in
  if (slen buf <? total)%Z then NeedMore
  else if (total <? 0)%Z then FramePanic
  else Frame (EvResponse (take (Z.to_nat total) buf)) (drop (Z.to_nat total) buf).
Proof.
  intros Hb Hc Hi. unfold frame_next. rewrite Hb at 1. rewrite ceq_neq by done. by rewrite Hi.
Qed.

Lemma frame_next_message (h b rest : gostring) :
  valid_frame (WMessage h b) ->
  frame_next (encode (WMessage h b) ++ rest) = Frame (event_of (WMessage h b)) rest.
Proof.
  intros (Hh & Hi & Hc & Hm). cbn [encode event_of] in *. rewrite slen_message in Hm.
  destruct (message_head h b Hh) as (c & t & Ht & Hc0).
  pose proof (slen_nonneg h). pose proof (slen_nonneg b). pose proof (slen_nonneg rest).
  rewrite (frame_next_eol _ c (t ++ rest) (length h));
    [|by rewrite Ht|done|by apply message_Index].
  replace (take (length h) _) with h
    by (rewrite <-app_assoc; by rewrite take_app_length).
  rewrite Hc. fold (slen h). cbn zeta.
  rewrite int64_wrap_small by (unfold int64_min; lia).
  rewrite slen_app, slen_message.
  destruct (_ <? _)%Z eqn:E; reflect_bool; [lia|].
  destruct (_ <? 0)%Z eqn:E2; reflect_bool; [lia|].
  by rewrite take_app_slen, drop_app_slen by (by rewrite slen_message).
Qed.

Lemma frame_next_complete (f : wire_frame) (rest : gostring) :
  valid_frame f -> frame_next (encode f ++ rest) = Frame (event_of f) rest.
Proof. destruct f; [apply frame_next_packet|apply frame_next_message]. Qed.

Lemma frame_next_prefix_packet (ch : ascii) (payload p q : gostring) :
  (slen payload < 65536)%Z -> encode (WPacket ch payload) = p ++ q -> q <> [] ->
  frame_next p = NeedMore.
Proof.
  intros Hl He Hq. cbn [encode] in He.
  destruct p as [|x0 [|x1 [|x2 [|x3 p]]]]; try done;
    try (injection He as <-; done).
  injection He as <- <- <- <- He.
  rewrite frame_next_dollar, be16_split by (pose proof (slen_nonneg payload); lia).
  destruct (_ <? _)%Z eqn:E; [done|]. reflect_bool. exfalso.
  apply (f_equal slen) in He. rewrite slen_app in He.
  assert (0 < slen q)%Z by (destruct q; [done|unfold slen; simpl; lia]).
  unfold slen in *. cbn [length] in E. lia.
Qed.

Lemma frame_next_prefix_message (h b p q : gostring) :
  valid_frame (WMessage h b) -> encode (WMessage h b) = p ++ q -> q <> [] ->
  frame_next p = NeedMore.
Proof.
  intros (Hh & Hi & Hc & Hm) He Hq. cbn [encode] in *.
  destruct (message_head h b Hh) as (c & t & Ht & Hc0).
  destruct p as [|x p]; [done|].
  assert (x = c) as -> by (rewrite Ht in He; by injection He).
  destruct (Index (c :: p) CRLFCRLF) as [eol|] eqn:Ei.
  - rewrite (frame_next_eol _ c p eol) by done.
    pose proof (Index_bound _ _ _ Ei) as Hb. change (length CRLFCRLF) with 4%nat in Hb.
    apply (Index_app _ q) in Ei. rewrite <-He in Ei.
    pose proof (message_Index h b [] Hi) as Hi2. rewrite app_nil_r in Hi2.
    assert (eol = length h) as -> by congruence.
    assert (take (length h) (c :: p) = h) as ->.
    { rewrite <-(take_app_le (c :: p) q) by lia. rewrite <-He. apply take_app_length. }
    rewrite Hc. fold (slen h). rewrite slen_message in Hm.
    pose proof (slen_nonneg h). pose proof (slen_nonneg b). cbn zeta.
    rewrite int64_wrap_small by (unfold int64_min; lia).
    apply (f_equal slen) in He. rewrite slen_message, slen_app in He.
    assert (0 < slen q)%Z by (destruct q; [done|unfold slen; simpl; lia]).
    destruct (_ <? _)%Z eqn:E; [done|]. reflect_bool. lia.
  - unfold frame_next. rewrite ceq_neq by done. by rewrite Ei.
Qed.

(** A strict prefix of a frame is kept for more data. *)
Lemma frame_next_partial (f : wire_frame) (p q : gostring) :
  valid_frame f -> encode f = p ++ q -> q <> [] -> frame_next p = NeedMore.
Proof. destruct f; [apply frame_next_prefix_packet|apply frame_next_prefix_message]. Qed.

(** ** Lemmas: the inner loop *)

Lemma frame_next_rest (buf rest : gostring) (ev : frame_event) :
  frame_next buf = Frame ev rest -> buf <> [] /\ exists k, rest = drop k buf.
Proof.
  unfold frame_next. destruct buf as [|b0 t]; [done|]. intros H. split; [done|].
  destruct (ceq b0 DOLLAR).
  - destruct t as [|b1 [|b2 [|b3 t]]]; try done.
    destruct (_ <? _)%Z; [done|]. injection H as _ <-. by eexists.
  - destruct (Index _ _); [|done]. destruct (_ <? _)%Z; [done|].
    destruct (_ <? 0)%Z; [done|]. injection H as _ <-. by eexists.
Qed.

Lemma drain_stuck (buf : gostring) (ev : frame_event) :
  frame_next buf = Frame ev buf -> forall fuel, drain fuel buf = None.
Proof.
  intros H fuel. induction fuel as [|fuel IH]; [done|]. cbn [drain]. by rewrite H, IH.
Qed.

(** Running out of the default fuel means running forever. *)
Lemma drain_None_all (n : nat) (buf : gostring) :
  (length buf < n)%nat -> drain n buf = None -> forall m, drain m buf = None.
Proof.
  revert buf. induction n as [|n IH]; intros buf Hl Hd; [lia|].
  cbn [drain] in Hd. destruct (frame_next buf) as [|ev rest|] eqn:Ef; [done| |done].
  destruct (frame_next_rest _ _ _ Ef) as [Hne [k Hk]].
  destruct (decide (length rest < length buf)%nat) as [Hlt|Hge].
  - assert (drain n rest = None) as Hr by (destruct (drain n rest) as [[[? ?] ?]|]; done).
    intros [|m]; [done|]. cbn [drain]. rewrite Ef. by rewrite (IH rest) by (lia || done).
  - apply (drain_stuck buf ev). rewrite Ef. f_equal. rewrite Hk in Hge |- *.
    rewrite length_drop in Hge. assert (0 < length buf)%nat by (destruct buf; [done|simpl; lia]).
    by replace k with 0%nat by lia.
Qed.

Lemma drain_frames (fs : list wire_frame) (partial : gostring) (fuel : nat) :
  Forall valid_frame fs -> frame_next partial = NeedMore -> (length fs < fuel)%nat ->
  drain fuel (wire fs ++ partial) = Some (map event_of fs, partial, false).
Proof.
  intros Hv Hp. revert fuel. induction Hv as [|f fs Hf Hfs IH]; intros fuel Hl;
    (destruct fuel as [|fuel]; [simpl in Hl; lia|]).
  - cbn [wire map concat app drain]. by rewrite Hp.
  - unfold wire. cbn [map concat]. rewrite <-app_assoc. cbn [drain].
    rewrite frame_next_complete by done. fold (wire fs).
    rewrite IH by (simpl in Hl; lia). done.
Qed.

Lemma wire_length (fs : list wire_frame) : (length fs <= length (wire fs))%nat.
Proof.
  unfold wire. induction fs as [|f fs IH]; [done|]. cbn [map concat length].
  rewrite length_app. pose proof (encode_nonempty f).
  assert (0 < length (encode f))%nat by (destruct (encode f); [done|simpl; lia]). lia.
Qed.

Lemma drain_buffer_frames (fs : list wire_frame) (partial : gostring) :
  Forall valid_frame fs -> frame_next partial = NeedMore ->
  drain_buffer (wire fs ++ partial) = Some (map event_of fs, partial, false).
Proof.
  intros Hv Hp. unfold drain_buffer. apply drain_frames; [done|done|].
  rewrite length_app. pose proof (wire_length fs). lia.
Qed.

(** Any prefix of the wire is whole frames and a strict prefix of the
    next one. *)
Lemma wire_prefix (fs : list wire_frame) (buf input : gostring) :
  Forall valid_frame fs -> buf ++ input = wire fs ->
  exists done todo partial,
    fs = done ++ todo /\ buf = wire done ++ partial /\ partial ++ input = wire todo
    /\ frame_next partial = NeedMore
    /\ (partial = [] \/ exists f q, f ∈ todo /\ encode f = partial ++ q /\ q <> []).
Proof.
  intros Hv. revert buf. induction Hv as [|f fs Hf Hfs IH]; intros buf Hb.
  - apply app_eq_nil in Hb as [-> ->]. by exists [], [], []; eauto 6.
  - unfold wire in Hb. cbn [map concat] in Hb. fold (wire fs) in Hb.
    destruct (decide (length (encode f) <= length buf)%nat) as [Hle|Hgt].
    + assert (exists b', buf = encode f ++ b') as [b' ->].
      { exists (drop (length (encode f)) buf).
        assert (take (length (encode f)) buf = encode f) as Ht.
        { rewrite <-(take_app_le buf input) by done. rewrite Hb. apply take_app_length. }
        rewrite <-Ht at 1. by rewrite take_drop. }
      rewrite <-app_assoc in Hb. apply app_inv_head in Hb.
      destruct (IH b' Hb) as (done & todo & partial & -> & -> & H1 & H2 & H3).
      exists (f :: done), todo, partial. split; [done|]. split; [|done].
      unfold wire. cbn [map concat]. by rewrite <-app_assoc.
    + exists [], (f :: fs), buf. split; [done|]. split; [done|]. split; [done|].
      assert (encode f = buf ++ drop (length buf) (encode f)) as He.
      { assert (take (length buf) (encode f) = buf) as Ht.
        { rewrite <-(take_app_le (encode f) (wire fs)) by lia. rewrite <-Hb. apply take_app_length. }
        rewrite <-Ht at 1. by rewrite take_drop. }
      assert (drop (length buf) (encode f) <> []) as Hq.
      { intros E. apply (f_equal length) in E. rewrite length_drop in E. simpl in E. lia. }
      split; [by apply (frame_next_partial f buf _ Hf He)|].
      right. exists f, (drop (length buf) (encode f)). split; [left|done].
Qed.

(** ** Lemmas: the outer loop *)

(** The schedules on which the loop keeps reading. *)
Definition live (it : iteration) : bool :=
  match it with Ready _ | Timeout => true | CtxDone | ReadErr => false end.

Lemma readLoop_live (cap : nat) (its : list iteration) (fs : list wire_frame) (buf input : gostring) :
  (0 < cap)%nat -> Forall (fun it => live it = true) its ->
  Forall valid_frame fs -> Forall (fun f => length (encode f) <= cap)%nat fs ->
  buf ++ input = wire fs ->
  exists handed todo buf' input',
    fs = handed ++ todo
    /\ readLoop cap its buf input = (map event_of handed, Reading buf' input')
    /\ buf' ++ input' = wire todo.
Proof.
  intros Hcap Hl. revert fs buf input.
  induction Hl as [|it its Hit Hl IH]; intros fs buf input Hv Hc Hb.
  { exists [], fs, buf, input. done. }
  destruct (wire_prefix fs buf input Hv Hb) as (d0 & t0 & partial & -> & -> & Hp & Hn & Hs).
  apply Forall_app in Hv as [Hvd Hvt]. apply Forall_app in Hc as [_ Hct].
  assert (length partial <> cap) as Hlen.
  { destruct Hs as [->|(f & q & Hin & He & Hq)]; [simpl; lia|].
    rewrite Forall_forall in Hct. specialize (Hct f Hin). rewrite He, length_app in Hct.
    assert (0 < length q)%nat by (destruct q; [done|simpl; lia]). lia. }
  pose proof (drain_buffer_frames d0 partial Hvd Hn) as Hd.
  assert (forall n, exists handed todo buf' input',
    t0 = handed ++ todo
    /\ readLoop cap its (partial ++ take n input) (drop n input)
       = (map event_of handed, Reading buf' input')
    /\ buf' ++ input' = wire todo) as Hstep.
  { intros n. apply IH; [done|done|]. by rewrite <-app_assoc, take_drop. }
  cbn [readLoop]. rewrite Hd. rewrite (proj2 (Nat.eqb_neq _ _) Hlen).
  destruct it as [|k| |]; try done.
  - destruct (Hstep (Nat.min k (cap - length partial))) as (h & t & b & i & -> & -> & Hw).
    exists (d0 ++ h), t, b, i. rewrite map_app, app_assoc. done.
  - destruct (Hstep 0%nat) as (h & t & b & i & -> & E & Hw).
    rewrite take_0, drop_0, app_nil_r in E. rewrite E.
    exists (d0 ++ h), t, b, i. rewrite map_app, app_assoc. done.
Qed.

Lemma readLoop_flushed (fs : list wire_frame) (buf : gostring) :
  Forall valid_frame fs -> buf = wire fs -> drain_buffer buf = Some (map event_of fs, [], false).
Proof.
  intros Hv ->. rewrite <-(app_nil_r (wire fs)). by apply drain_buffer_frames.
Qed.

Lemma SendBinary_bytes_encode (channel : Z) (data : gostring) :
  (slen data < 65536)%Z -> SendBinary_bytes channel data = encode (WPacket (to_byte channel) data).
Proof.
  intros Hd. unfold SendBinary_bytes. cbn [encode app]. pose proof (slen_nonneg data).
  do 2 f_equal. f_equal; [|f_equal].
  - f_equal. change 65280%Z with (Z.shiftl (Z.ones 8) 8).
    rewrite Z.shiftr_land, Z.shiftr_shiftl_l by lia. rewrite Z.sub_diag, Z.shiftl_0_r.
    rewrite Z.land_ones by lia. rewrite Z.shiftr_div_pow2 by lia. change (2 ^ 8)%Z with 256%Z.
    apply Z.mod_small. split; [apply Z.div_pos|apply Z.div_lt_upper_bound]; lia.
  - unfold to_byte. do 2 f_equal. change 255%Z with (Z.ones 8). rewrite Z.land_ones by lia.
    change (2 ^ 8)%Z with 256%Z. by rewrite Z.mod_mod.
Qed.

(** ** Properties *)

(** C1: reassembly. Whatever the camera's frames (packets below 64 KiB,
    messages whose Content-Length is their body's), each no larger than
    the buffer, and however the bytes arrive (any number of bytes per
    read, any timeouts in between), [readLoop] hands on exactly the
    frames sent, in order and byte for byte: what it has handed on is an
    initial segment of them, what is still in the buffer or on the socket
    is the rest, and once every byte has arrived the next pass hands on
    all that is left and empties the buffer.  It never returns, crashes,
    spins or clears the buffer. *)
Theorem readLoop_reassembles (cap : nat) (its : list iteration) (fs : list wire_frame) :
  (0 < cap)%nat -> Forall (fun it => live it = true) its ->
  Forall valid_frame fs -> Forall (fun f => length (encode f) <= cap)%nat fs ->
  exists handed todo buf input,
    fs = handed ++ todo
    /\ readLoop cap its [] (wire fs) = (map event_of handed, Reading buf input)
    /\ buf ++ input = wire todo
    /\ (input = [] -> drain_buffer buf = Some (map event_of todo, [], false)).
Proof.
  intros Hcap Hl Hv Hc.
  destruct (readLoop_live cap its fs [] (wire fs)) as (handed & todo & buf & input & -> & E & Hw);
    [done..|].
  exists handed, todo, buf, input. split; [done|]. split; [done|]. split; [done|].
  intros ->. rewrite app_nil_r in Hw. apply readLoop_flushed; [|done].
  by apply Forall_app in Hv as [_ ?].
Qed.

Definition sample_frames : list wire_frame :=
  [WPacket "000"%char (str "$RTP"); WMessage (str "RTSP/1.0 200 OK" ++ CRLF ++ str "Content-Length: 2") (str "ok");
   WPacket "001"%char []].

Lemma readLoop_reassembles_witness :
  Forall valid_frame sample_frames
  /\ readLoop 64 [Ready 3; Timeout; Ready 40; Ready 1; Ready 100; Timeout] [] (wire sample_frames)
     = (map event_of sample_frames, Reading [] []).
Proof.
  assert (Forall valid_frame sample_frames) as Hv by (apply (bool_decide_unpack _); by vm_compute).
  split; [exact Hv|].
  destruct (readLoop_reassembles 64 [Ready 3; Timeout; Ready 40; Ready 1; Ready 100; Timeout]
              sample_frames) as (handed & todo & buf & input & _).
  - lia.
  - apply (bool_decide_unpack _). by vm_compute.
  - exact Hv.
  - apply (bool_decide_unpack _). by vm_compute.
  - by vm_compute.
Defined.

(** Forwarding a packet to the camera and framing agree: the bytes
    [SendBinary] writes for up to 65535 bytes of data are one valid
    interleaved frame, which the framing loop of a peer reads back as one
    packet with the channel's low byte and the same data, whatever
    follows. *)
Theorem SendBinary_roundtrip (channel : Z) (data rest : gostring) :
  (slen data < 65536)%Z ->
  frame_next (SendBinary_bytes channel data ++ rest)
  = Frame (EvDispatch (channel mod 256) (SendBinary_bytes channel data)) rest
  /\ drop 4 (SendBinary_bytes channel data) = data.
Proof.
  intros Hd. split; [|done]. rewrite SendBinary_bytes_encode by done.
  rewrite frame_next_packet by done. cbn [event_of]. by rewrite byte_val_to_byte.
Qed.

Lemma SendBinary_roundtrip_witness :
  frame_next (SendBinary_bytes 259 (str "abc") ++ str "$")
  = Frame (EvDispatch 3 (SendBinary_bytes 259 (str "abc"))) (str "$").
Proof. apply (SendBinary_roundtrip 259 (str "abc") (str "$")). by vm_compute. Defined.

(** The last message length that does not overflow, for a header of
    [eol] bytes. *)
Definition max_content_length (eol : nat) : Z := (int64_max - (Z.of_nat eol + 4))%Z.

(** A cut inside the header. *)
Lemma header_cut (buf : gostring) (header : nat) (m : Z) :
  (0 < m < Z.of_nat header)%Z -> (header <= length buf)%nat ->
  exists msg tail, Frame (EvResponse (take (Z.to_nat m) buf)) (drop (Z.to_nat m) buf)
      = Frame (EvResponse msg) (tail ++ drop header buf)
    /\ take header buf = msg ++ tail /\ slen msg = m /\ tail <> [].
Proof.
  intros Hm Hl. exists (take (Z.to_nat m) buf), (drop (Z.to_nat m) (take header buf)).
  assert (Ht : take (Z.to_nat m) buf = take (Z.to_nat m) (take header buf)) by (rewrite take_take; f_equal; lia).
  split_and!.
  - do 2 f_equal. rewrite <- (take_drop header buf) at 1. rewrite drop_app_le; [done|].
    rewrite length_take. lia.
  - by rewrite Ht, take_drop.
  - unfold slen. rewrite length_take. lia.
  - intros Hn. apply (f_equal length) in Hn. rewrite length_drop, length_take in Hn. cbn in Hn. lia.
Qed.

(** C36: what the Content-Length of a complete header (any buffer that
    does not start with a dollar sign and holds an empty line at [eol])
    does to the loop: within 0 and the largest length that does not
    overflow, a pass waits for the body or consumes the message, at least
    the header; exactly the negated header length makes every pass hand
    on an empty message and consume nothing; a negative length above it
    cuts the message off inside its own header, and the rest of the header
    stays in front of what is read next as if it were a message; anything
    lower, or so high that the sum overflows, panics.  These are all the
    values an int can take. *)
Theorem frame_next_content_length (buf : gostring) (c : ascii) (t : gostring) (eol : nat) :
  buf = c :: t -> c <> DOLLAR -> Index buf CRLFCRLF = Some eol ->
  (slen buf <= max_content_length 0)%Z ->
  let n := sharedParseContentLength (take eol buf) in
  let header := (Z.of_nat eol + 4)%Z in
  ((0 <= n <= max_content_length eol)%Z ->
     (slen buf < header + n)%Z /\ frame_next buf = NeedMore
     \/ exists msg rest, frame_next buf = Frame (EvResponse msg) rest
          /\ buf = msg ++ rest /\ slen msg = (header + n)%Z)
  /\ (n = (- header)%Z -> frame_next buf = Frame (EvResponse []) buf
       /\ forall fuel, drain fuel buf = None)
  /\ ((- header < n < 0)%Z -> exists msg tail, frame_next buf = Frame (EvResponse msg) (tail ++ drop (eol + 4) buf)
       /\ take (eol + 4) buf = msg ++ tail /\ slen msg = (header + n)%Z /\ tail <> [])
  /\ ((n < - header \/ max_content_length eol < n)%Z -> frame_next buf = FramePanic).
Proof.
  intros Hb Hc Hi Hl. cbn zeta. pose proof (parseContentLength_range (take eol buf)) as Hr.
  pose proof (Index_bound _ _ _ Hi) as Hbd. change (length CRLFCRLF) with 4%nat in Hbd.
  rewrite (frame_next_eol buf c t eol) by done. cbn zeta.
  set (n := sharedParseContentLength (take eol buf)) in *.
  unfold max_content_length, int64_max in *. pose proof (slen_nonneg buf) as H0.
  assert (Z.of_nat eol + 4 <= slen buf)%Z as Hel by (unfold slen; lia).
  split_and!.
  - intros Hn. rewrite int64_wrap_small by (unfold int64_min, int64_max; lia).
    destruct (slen buf <? Z.of_nat eol + 4 + n)%Z eqn:E; reflect_bool; [left; split; [lia|done]|].
    right. destruct (_ <? 0)%Z eqn:E2; reflect_bool; [lia|].
    eexists _, _. split; [done|]. rewrite take_drop. split; [done|].
    unfold slen in *. rewrite length_take. lia.
  - intros Hn. rewrite Hn. rewrite int64_wrap_small by (unfold int64_min, int64_max; lia).
    replace (Z.of_nat eol + 4 + - (Z.of_nat eol + 4))%Z with 0%Z by lia.
    destruct (slen buf <? 0)%Z eqn:E; reflect_bool; [lia|]. cbn [Z.ltb Z.compare].
    change (Z.to_nat 0) with 0%nat. rewrite take_0, drop_0. split; [done|].
    apply (drain_stuck buf (EvResponse [])). rewrite (frame_next_eol buf c t eol) by done.
    fold n. rewrite Hn. cbn zeta. rewrite int64_wrap_small by (unfold int64_min, int64_max; lia).
    replace (Z.of_nat eol + 4 + - (Z.of_nat eol + 4))%Z with 0%Z by lia.
    destruct (slen buf <? 0)%Z eqn:E2; reflect_bool; [lia|]. cbn [Z.ltb Z.compare].
    change (Z.to_nat 0) with 0%nat. by rewrite take_0, drop_0.
  - intros Hn. rewrite int64_wrap_small by (unfold int64_min, int64_max; lia).
    destruct (slen buf <? _)%Z eqn:E; reflect_bool; [lia|]. destruct (_ <? 0)%Z eqn:E2; reflect_bool; [lia|].
    apply (header_cut buf (eol + 4) (Z.of_nat eol + 4 + n)); unfold slen in *; lia.
  - intros Hn.
    assert (int64_wrap (Z.of_nat eol + 4 + n) < 0)%Z as Hneg.
    { unfold int64_min in Hr. destruct Hn as [Hn|Hn].
      - rewrite <-(Z.add_0_r (Z.of_nat eol + 4 + n)).
        destruct (Z.le_gt_cases (- 2 ^ 63) (Z.of_nat eol + 4 + n)) as [Hge|Hlt]; [|lia].
        rewrite int64_wrap_small; unfold int64_min, int64_max; lia.
      - unfold int64_wrap.
        replace (Z.of_nat eol + 4 + n + 2 ^ 63)%Z
          with (Z.of_nat eol + 4 + n - 2 ^ 63 + 1 * 2 ^ 64)%Z by lia.
        rewrite Z.mod_add by lia. rewrite Z.mod_small; lia. }
    destruct (slen buf <? _)%Z eqn:E; reflect_bool; [lia|].
    destruct (_ <? 0)%Z eqn:E2; reflect_bool; [done|lia].
Qed.

(** A header whose Content-Length is the negated header length. *)
Definition stalling_header : gostring := str "X" ++ CRLF ++ str "Content-Length: -26" ++ CRLFCRLF.

Lemma frame_next_content_length_witness :
  frame_next stalling_header = Frame (EvResponse []) stalling_header
  /\ (forall fuel, drain fuel stalling_header = None)
  /\ frame_next (str "X" ++ CRLF ++ str "Content-Length: -25" ++ CRLFCRLF)
     = Frame (EvResponse (str "X")) (CRLF ++ str "Content-Length: -25" ++ CRLFCRLF)
  /\ frame_next (str "X" ++ CRLF ++ str "Content-Length: -99" ++ CRLFCRLF) = FramePanic
  /\ frame_next (str "X" ++ CRLF ++ str "Content-Length: 9223372036854775807" ++ CRLFCRLF) = FramePanic.
Proof.
  destruct (frame_next_content_length stalling_header "X"%char
              (CRLF ++ str "Content-Length: -26" ++ CRLFCRLF) 22) as (_ & H & _);
    [done|done|by vm_compute|by vm_compute|].
  destruct H as [H1 H2]; [by vm_compute|]. split; [exact H1|]. split; [exact H2|].
  split; [by vm_compute|]. split; by vm_compute.
Defined.

(** When the buffer holds a full frame's worth of bytes and no frame
    (a packet announced as larger than the buffer, or an endless header),
    the next pass discards it and reading goes on with an empty buffer:
    the loop does not stop, but what follows is cut at an arbitrary
    point. *)
Theorem readLoop_overflow_clears (cap k : nat) (its : list iteration) (buf input : gostring) :
  length buf = cap -> frame_next buf = NeedMore ->
  readLoop cap (Ready k :: its) buf input
  = readLoop cap its (take (Nat.min k cap) input) (drop (Nat.min k cap) input).
Proof.
  intros Hl Hn. cbn [readLoop]. unfold drain_buffer. cbn [drain]. rewrite Hn, Hl, Nat.eqb_refl.
  cbn [length app]. rewrite Nat.sub_0_r. by destruct (readLoop _ _ _ _).
Qed.

Lemma readLoop_overflow_clears_witness :
  let buf := DOLLAR :: "000"%char :: "255"%char :: "255"%char :: str "abcd" in
  readLoop 8 [Ready 5] buf (str "efghij") = ([], Reading (str "efghi") (str "j")).
Proof.
  intros buf. rewrite (readLoop_overflow_clears 8 5 [] buf (str "efghij")); by vm_compute.
Defined.
