(* ===== verification/Session.v ===== *)
(** * Upstream sessions: src/rtspproxy/session.go, transport.go, substream.go

    Transports live in exactly one session's list and substreams in
    exactly one transport's map, so both are held by value there; the
    back pointers are the owner's session identifier.  The keep-alive
    goroutines of a session are a step relation. *)

From stdpp Require Import gmap strings list fin_maps.
From Stdlib Require Import Ascii ZArith Lia.
From S2P Require Import Prelude GoStrings Config.

Local Open Scope go_scope.

(** ** Definitions *)

Record Substream := mkSubstream {
  sub_name : gostring;
  sub_Port : Z;
  sub_Channel : Z;
  sub_Host : gostring;
  sub_Seq : Z;
  sub_RTPTime : Z
}.

Definition NewSubstream (substreamName : gostring) : Substream :=
  mkSubstream substreamName 0 (-1) [] 0 0.

Record Transport := mkTransport {
  SubstreamName : gostring;
  tr_Session : gostring;          (* the owning session's identifier *)
  Protocol : gostring;
  ComType : gostring;
  Ssrc : gostring;
  Substreams : gmap Z Substream
}.

Definition NewTransport (session substreamName protocol comType : gostring) : Transport :=
  mkTransport substreamName session protocol comType [] ∅.

Record Session := mkSession {
  sess_Session : gostring;
  sess_Timeout : Z;
  sess_Transports : list Transport;
  sess_started : bool
}.

Definition NewSession (session : gostring) (timeout : Z) : Session :=
  mkSession session timeout [] false.

(** The key both [LookupTransport]s compare. *)
Definition transport_matches (substreamName protocol comType : gostring) (t : Transport) : bool :=
  (SubstreamName t =s substreamName) && (Protocol t =s protocol) && (ComType t =s comType).

(** [Session.LookupTransport]: the index of the transport in the list,
    which grows at the back when there is none yet. *)
Fixpoint find_transport (p : Transport -> bool) (ts : list Transport) : option (nat * Transport) :=
  match ts with
  | [] => None
  | t :: ts' => if p t then Some (0%nat, t)
                else match find_transport p ts' with
                     | Some (i, t') => Some (S i, t')
                     | None => None
                     end
  end.

Definition Session_LookupTransport (session : Session) (substreamName protocol comType : gostring)
  : Session * nat * Transport :=
  match find_transport (transport_matches substreamName protocol comType) (sess_Transports session) with
  | Some (i, t) => (session, i, t)
  | None =>
      let t := NewTransport (sess_Session session) substreamName protocol comType in
      (mkSession (sess_Session session) (sess_Timeout session)
         (sess_Transports session ++ [t]) (sess_started session),
       length (sess_Transports session), t)
  end.

(** The keep-alive period of [StartUpstream]: five seconds before the
    session times out, in 64-bit arithmetic. *)
Definition keepalive_interval (timeout : Z) : Z :=
  let t := int64_wrap (timeout - 5) in
  let t := if (t <? 0)%Z then 1%Z else t in
  int64_wrap (t * Second).

(** [StartUpstream] as seen by its caller: nothing when the session is
    started, a panic of [time.NewTicker] on a non-positive period,
    otherwise the session is started. *)
Definition StartUpstream (session : Session) : outcome Session :=
  if sess_started session then Done session
  else if (keepalive_interval (sess_Timeout session) <=? 0)%Z then Panic NonPositiveTicker
  else Done (mkSession (sess_Session session) (sess_Timeout session)
               (sess_Transports session) true).

Definition Session_Stop (session : Session) : Session :=
  mkSession (sess_Session session) (sess_Timeout session) (sess_Transports session) false.

(** *** The keep-alive goroutines

    The flag [started], the field [quit], the channels closed so far and
    the goroutines running, each named by the channel it was started
    with.  A step is a call of [StartUpstream] or [Stop], or the exit of
    a goroutine: on its closed channel, on the cancelled stream context,
    or, at a tick, when the stream has no remote; its deferred
    [started.Store(false)] is part of the exit. *)
Record keepers := mkKeepers {
  k_started : bool;
  k_quit : option nat;
  k_closed : gset nat;
  k_running : gset nat;
  k_next : nat
}.

Definition keepers_init : keepers := mkKeepers false None ∅ ∅ 0.

Definition k_start (k : keepers) : keepers :=
  if k_started k then k
  else mkKeepers true (Some (k_next k)) (k_closed k) ({[k_next k]} ∪ k_running k) (S (k_next k)).

(** [close] of a closed channel panics. *)
Definition k_stop (k : keepers) : outcome keepers :=
  if k_started k then
    match k_quit k with
    | Some q =>
        if decide (q ∈ k_closed k) then Panic CloseOfClosed
        else Done (mkKeepers false None ({[q]} ∪ k_closed k) (k_running k) (k_next k))
    | None => Done (mkKeepers false None (k_closed k) (k_running k) (k_next k))
    end
  else Done k.

Definition k_exit (k : keepers) (q : nat) : keepers :=
  mkKeepers false (k_quit k) (k_closed k) (k_running k ∖ {[q]}) (k_next k).

Inductive k_step (no_remote : bool) (ctx_done : bool) : keepers -> keepers -> Prop :=
| KStart k : k_step no_remote ctx_done k (k_start k)
| KStop k k' : k_stop k = Done k' -> k_step no_remote ctx_done k k'
| KExit k q : q ∈ k_running k -> (q ∈ k_closed k \/ ctx_done = true \/ no_remote = true) ->
    k_step no_remote ctx_done k (k_exit k q).

Inductive k_reach : keepers -> Prop :=
| KInit : k_reach keepers_init
| KMore k k' no_remote ctx_done : k_reach k -> k_step no_remote ctx_done k k' -> k_reach k'.

(** ** Lemmas *)

Lemma find_transport_Some (p : Transport -> bool) (ts : list Transport) (i : nat) (t : Transport) :
  find_transport p ts = Some (i, t) -> ts !! i = Some t /\ p t = true.
Proof.
  revert i. induction ts as [|x ts IH]; intros i; simpl; [done|].
  destruct (p x) eqn:E; [by intros [= <- <-]|].
  destruct (find_transport p ts) as [[j u]|]; [|done].
  intros [= <- <-]. by apply IH.
Qed.

Lemma find_transport_None (p : Transport -> bool) (ts : list Transport) :
  find_transport p ts = None <-> Forall (fun t => p t = false) ts.
Proof.
  induction ts as [|x ts IH]; simpl; [by split|]. rewrite Forall_cons.
  destruct (p x) eqn:E; [by split; [|intros []]|].
  destruct (find_transport p ts) as [[j u]|]; rewrite <-IH; by split; [|intros []].
Qed.

Definition transport_key (t : Transport) : gostring * gostring * gostring :=
  (SubstreamName t, Protocol t, ComType t).

Lemma transport_matches_key (n p c : gostring) (t : Transport) :
  transport_matches n p c t = true <-> transport_key t = (n, p, c).
Proof.
  unfold transport_matches, transport_key, seq_eqb.
  rewrite !andb_true_iff, !bool_decide_eq_true. split; [by intros [[-> ->] ->]|by intros [= -> -> ->]].
Qed.

(** The transports of a session have distinct keys and belong to it. *)
Definition session_ok (s : Session) : Prop :=
  NoDup (transport_key <$> sess_Transports s)
  /\ Forall (fun t => tr_Session t = sess_Session s) (sess_Transports s).

Lemma LookupTransport_ok (s : Session) (n p c : gostring) :
  session_ok s -> session_ok (Session_LookupTransport s n p c).1.1.
Proof.
  intros [Hd Ho]. unfold Session_LookupTransport.
  destruct (find_transport _ _) as [[i t]|] eqn:E; [done|].
  apply find_transport_None in E. split; cbn [fst sess_Transports sess_Session].
  - rewrite fmap_app. apply NoDup_app. split; [done|]. split; [|apply NoDup_singleton].
    intros k Hk Hk'. apply list_elem_of_singleton in Hk'. subst k.
    apply list_elem_of_fmap in Hk as (t & Ht & Hin). rewrite Forall_forall in E.
    specialize (E t Hin). destruct (transport_matches n p c t) eqn:Em; [done|].
    assert (transport_matches n p c t = true); [|congruence].
    apply transport_matches_key. by rewrite <-Ht.
  - apply Forall_app. split; [done|]. by constructor.
Qed.

Lemma LookupTransport_found (s : Session) (n p c : gostring) :
  let '(s', i, t) := Session_LookupTransport s n p c in
  sess_Transports s' !! i = Some t /\ transport_key t = (n, p, c)
  /\ Session_LookupTransport s' n p c = (s', i, t).
Proof.
  unfold Session_LookupTransport.
  destruct (find_transport _ (sess_Transports s)) as [[i t]|] eqn:E.
  - apply find_transport_Some in E as E'. destruct E' as [Hi Hm].
    rewrite E. split; [done|]. split; [by apply transport_matches_key|done].
  - cbn [sess_Transports]. rewrite lookup_app_r, Nat.sub_diag by lia. split; [done|]. split; [done|].
    apply find_transport_None in E.
    assert (forall q ts j, Forall (fun t => q t = false) ts -> q j = true ->
      find_transport q (ts ++ [j]) = Some (length ts, j)) as Hf.
    { clear. intros q ts j Hts Hj. induction Hts as [|x ts Hx Hts IH]; simpl; [by rewrite Hj|].
      by rewrite Hx, IH. }
    rewrite Hf; [done|done|]. by apply transport_matches_key.
Qed.

Lemma keepalive_normal (timeout : Z) :
  (5 <= timeout <= 9223372036 + 5)%Z -> keepalive_interval timeout = ((timeout - 5) * Second)%Z.
Proof.
  intros H. unfold keepalive_interval, Second.
  rewrite (int64_wrap_small (timeout - 5)) by (unfold int64_min, int64_max; lia).
  destruct (_ <? 0)%Z eqn:E; reflect_bool; [lia|].
  apply int64_wrap_small. unfold int64_min, int64_max. lia.
Qed.

Lemma keepalive_short (timeout : Z) :
  (int64_min + 5 <= timeout < 5)%Z -> keepalive_interval timeout = Second.
Proof.
  intros H. unfold keepalive_interval.
  rewrite (int64_wrap_small (timeout - 5)) by (unfold int64_min, int64_max in *; lia).
  destruct (_ <? 0)%Z eqn:E; reflect_bool; [done|lia].
Qed.

(** What holds of the keep-alive state in every reachable state. *)
Definition keepers_inv (k : keepers) : Prop :=
  (forall q, k_quit k = Some q -> q ∉ k_closed k)
  /\ (forall q, q ∈ k_closed k \/ q ∈ k_running k \/ k_quit k = Some q -> q < k_next k)%nat
  /\ (k_started k = true -> exists q, k_quit k = Some q).

Lemma keepers_inv_reach (k : keepers) : k_reach k -> keepers_inv k.
Proof.
  induction 1 as [|k k' nr cd _ IH Hs].
  - split_and!; cbn; [done| |done]. intros q [Hq|[Hq|Hq]]; [set_solver|set_solver|done].
  - destruct IH as (H1 & H2 & H3). destruct Hs as [k|k k' Hk|k q Hq _].
    + unfold k_start. destruct (k_started k) eqn:Es; [exact (conj H1 (conj H2 (fun _ => H3 eq_refl)))|].
      split_and!; cbn [k_quit k_closed k_running k_next k_started].
      * intros q [= <-] Hc. specialize (H2 (k_next k) (or_introl Hc)). lia.
      * intros q Hq. destruct (decide (q = k_next k)) as [->|Hne]; [lia|].
        assert (q < k_next k)%nat; [|lia]. apply H2.
        destruct Hq as [?|[Hq|[= ?]]]; [by left| |congruence].
        right; left. set_solver.
      * eauto.
    + unfold k_stop in Hk. destruct (k_started k) eqn:Es.
      2: { injection Hk as <-. split_and!; [done|done|congruence]. }
      destruct (k_quit k) as [q|] eqn:Eq.
      * destruct (decide _) as [?|Hn]; [done|]. injection Hk as <-.
        split_and!; cbn [k_quit k_closed k_running k_next k_started]; [done| |done].
        intros q' [Hq|[Hq|?]]; [|by apply H2; auto|done].
        apply elem_of_union in Hq as [->%elem_of_singleton|Hq]; apply H2; auto.
      * injection Hk as <-. split_and!; cbn; [done| |done].
        intros q' [Hq|[Hq|?]]; [apply H2; auto..|done].
    + unfold k_exit. split_and!; cbn; [done| |done].
      intros q' [Hq'|[Hq'|Hq']]; apply H2; auto. right; left. set_solver.
Qed.

(** ** Properties *)

(** [LookupTransport] is find-or-create: the transport it returns has
    the requested name, protocol and type, sits in the session's list at
    the returned position, a second call returns the same one and changes
    nothing, and the keys of a session's transports stay distinct and
    owned by it. *)
Theorem LookupTransport_find_or_create (s : Session) (n p c : gostring) :
  session_ok s ->
  let '(s', i, t) := Session_LookupTransport s n p c in
  session_ok s' /\ sess_Transports s' !! i = Some t /\ transport_key t = (n, p, c)
  /\ Session_LookupTransport s' n p c = (s', i, t)
  /\ forall j t', sess_Transports s' !! j = Some t' -> transport_key t' = (n, p, c) -> j = i.
Proof.
  intros Hs. pose proof (LookupTransport_ok s n p c Hs) as Hok.
  pose proof (LookupTransport_found s n p c) as Hf.
  destruct (Session_LookupTransport s n p c) as [[s' i] t]. destruct Hf as (Hi & Hk & Hagain).
  split_and!; [done..|]. intros j t' Hj Hk'. destruct Hok as [Hd _].
  apply (NoDup_lookup _ _ _ _ Hd (list_lookup_fmap_Some_2 _ _ _ _ Hj)).
  rewrite Hk', <-Hk. by apply list_lookup_fmap_Some_2.
Qed.

Lemma LookupTransport_find_or_create_witness :
  let s := NewSession (str "1234") 60 in
  let '(s', i, t) := Session_LookupTransport s (str "track1") (str "RTP/AVP/TCP") (str "unicast") in
  i = 0%nat /\ length (sess_Transports s') = 1%nat
  /\ Session_LookupTransport s' (str "track1") (str "RTP/AVP/TCP") (str "unicast") = (s', i, t).
Proof.
  pose proof (LookupTransport_find_or_create (NewSession (str "1234") 60)
    (str "track1") (str "RTP/AVP/TCP") (str "unicast")) as H.
  cbn zeta. cbn [Session_LookupTransport NewSession sess_Transports find_transport] in *.
  split; [done|]. split; [done|].
  apply H. split; [constructor|constructor].
Defined.

(** The keep-alive period: for every session timeout that fits a
    duration, a stopped session starts unless the timeout is exactly 5,
    in which case [NewTicker] panics; the period is five seconds less
    than the timeout, and one second for timeouts below five. *)
Theorem StartUpstream_period (s : Session) :
  sess_started s = false -> (int64_min + 5 <= sess_Timeout s <= 9223372036 + 5)%Z ->
  (StartUpstream s = Panic NonPositiveTicker <-> sess_Timeout s = 5%Z)
  /\ (sess_Timeout s <> 5%Z ->
      exists s', StartUpstream s = Done s' /\ sess_started s' = true
        /\ sess_Transports s' = sess_Transports s /\ sess_Session s' = sess_Session s
        /\ keepalive_interval (sess_Timeout s)
           = (if (sess_Timeout s <? 5)%Z then Second else (sess_Timeout s - 5) * Second)%Z).
Proof.
  intros Hs Hr. unfold StartUpstream. rewrite Hs.
  destruct (sess_Timeout s <? 5)%Z eqn:E; reflect_bool.
  - rewrite keepalive_short by lia. cbn. split; [split; [done|lia]|].
    intros _. eexists. split; [done|]. done.
  - rewrite keepalive_normal by lia.
    destruct (_ <=? 0)%Z eqn:E2; reflect_bool; unfold Second in *.
    + split; [split; [lia|done]|lia].
    + split; [split; [done|lia]|]. intros _. eexists. split; [done|]. done.
Qed.

Lemma StartUpstream_period_witness :
  StartUpstream (NewSession (str "7") 5) = Panic NonPositiveTicker
  /\ keepalive_interval 60 = (55 * Second)%Z.
Proof.
  split.
  - apply (StartUpstream_period (NewSession (str "7") 5)); [done|by vm_compute|done].
  - destruct (proj2 (StartUpstream_period (NewSession (str "7") 60) eq_refl
        ltac:(vm_compute; split; congruence)) ltac:(done)) as (s' & _ & _ & _ & _ & H).
    exact H.
Defined.

(** However calls of [StartUpstream] and [Stop] and exits of
    keep-alive goroutines interleave, [Stop] never closes a closed
    channel: no reachable state panics. *)
Theorem keepalive_no_double_close (k : keepers) :
  k_reach k -> exists k', k_stop k = Done k' /\ k_started k' = false.
Proof.
  intros Hk. destruct (keepers_inv_reach k Hk) as (H1 & _ & _). unfold k_stop.
  destruct (k_started k) eqn:Es; [|by eexists].
  destruct (k_quit k) as [q|]; [|by eexists].
  destruct (decide _) as [Hc|_]; [|by eexists]. by destruct (H1 q eq_refl).
Qed.

Lemma keepalive_no_double_close_witness :
  exists k', k_stop (k_start keepers_init) = Done k' /\ k_started k' = false.
Proof.
  apply (keepalive_no_double_close (k_start keepers_init)).
  eapply (KMore _ _ false false); constructor.
Defined.

(** The deferred [started.Store(false)] of an old goroutine can
    disarm a newer one: start, stop, start again, and then the first
    goroutine's exit leave the second one running with its channel open
    while the session counts as stopped, so that [Stop] returns without
    closing the channel and the goroutine lives until the stream's
    context ends. *)
Theorem keepalive_leak :
  exists k q, k_reach k /\ (q ∈ k_running k) /\ (q ∉ k_closed k) /\ k_quit k = Some q
    /\ k_started k = false /\ k_stop k = Done k.
Proof.
  set (k1 := k_start keepers_init).
  set (k2 := mkKeepers false None {[0%nat]} {[0%nat]} 1).
  set (k3 := mkKeepers true (Some 1%nat) {[0%nat]} {[1%nat; 0%nat]} 2).
  exists (k_exit k3 0), 1%nat.
  assert (k_reach (k_exit k3 0)) as Hr.
  { apply (KMore k3 _ false false); [|apply KExit; [set_solver|left; set_solver]].
    apply (KMore k2 _ false false); [|apply KStart].
    apply (KMore k1 _ false false); [|apply KStop; by vm_compute].
    apply (KMore keepers_init _ false false); [constructor|apply KStart]. }
  split_and!; [done|by vm_compute; set_solver|by vm_compute; set_solver|done|done|done].
Qed.
