(* ===== verification/Remote.v ===== *)
(** * The upstream connection: src/rtspproxy/remote.go, first half

    [Remote] and the operations on its socket: dialling, disconnecting,
    sending requests with their sequence number and credentials, sending
    interleaved data, and the [Transport] header parser.  What the network
    does (whether the server is shutting down, what dialling yields,
    whether a write succeeds) is an argument of each operation, and what
    it writes to the socket is part of its result.  Requests waiting for a
    response are named by numbers, standing for the pointers kept in
    [requests]. *)

From stdpp Require Import gmap strings list fin_maps.
From Stdlib Require Import Ascii ZArith Lia.
From S2P Require Import Prelude GoStrings Message HeaderBlock Request Digest Framing Metrics.

Local Open Scope go_scope.

(** ** Definitions *)

Record Remote := mkRemote {
  r_Host : gostring;
  r_conn : bool;                  (* [RemoteConn] is not nil *)
  r_localAddr : gostring;
  r_localPort : gostring;
  r_remoteAddr : gostring;
  r_remotePort : gostring;
  r_currentCSeq : Z;
  r_requests : list nat;
  r_digest : Digest
}.

Definition r_set_requests (r : Remote) (q : list nat) : Remote :=
  mkRemote (r_Host r) (r_conn r) (r_localAddr r) (r_localPort r) (r_remoteAddr r) (r_remotePort r)
    (r_currentCSeq r) q (r_digest r).

Definition r_set_digest (r : Remote) (d : Digest) : Remote :=
  mkRemote (r_Host r) (r_conn r) (r_localAddr r) (r_localPort r) (r_remoteAddr r) (r_remotePort r)
    (r_currentCSeq r) (r_requests r) d.

Definition r_set_cseq (r : Remote) (n : Z) : Remote :=
  mkRemote (r_Host r) (r_conn r) (r_localAddr r) (r_localPort r) (r_remoteAddr r) (r_remotePort r)
    n (r_requests r) (r_digest r).

(** The nonce and its count cleared, realm and credentials kept. *)
Definition clear_nonce (d : Digest) : Digest :=
  mkDigest (Realm d) [] (Username d) (Password d) (Qop d) (Opaque d) (Algorithm d) 0.

(** [NewRemote]: nil when the host does not resolve. *)
Definition NewRemote (resolves : gostring -> bool) (host username password : gostring)
  : option Remote :=
  if resolves host then
    let d := if username =s [] then NewDigest
             else mkDigest [] [] username password [] [] [] 0 in
    Some (mkRemote host false [] [] [] [] 0 [] d)
  else None.

(** What one operation meets on the network. *)
Record NetEnv := mkNetEnv {
  ne_shutdown : bool;                            (* the server context is done *)
  ne_dial : result (gostring * gostring);        (* local and remote address *)
  ne_write : bool                                (* the write succeeds *)
}.

Definition disconnectLocked (r : Remote) : Remote :=
  if r_conn r then
    mkRemote (r_Host r) false (r_localAddr r) (r_localPort r) (r_remoteAddr r) (r_remotePort r)
      0 [] (clear_nonce (r_digest r))
  else r.

Definition Disconnect (r : Remote) : Remote := disconnectLocked r.

Definition Remote_Destroy (r : Remote) : Remote := Disconnect r.

Definition dialLocked (env : NetEnv) (r : Remote) (mt : Metrics)
  : outcome (Remote * Metrics * option goerror) :=
  if ne_shutdown env then Done (r, mt, Some (ErrText (str "server is shutting down")))
  else match ne_dial env with
       | Err _ => Done (r, add_ConnectErrors mt 1, Some (ErrText (str "failed to connect")))
       | Ok (local, remote) =>
           match Split local ":"%char, Split remote ":"%char with
           | l0 :: l1 :: _, r0 :: r1 :: _ =>
               Done (mkRemote (r_Host r) true l0 l1 r0 r1 0 (r_requests r) (r_digest r), mt, None)
           | _, _ => Panic SliceBounds
           end
       end.

Definition Dial (env : NetEnv) (r : Remote) (mt : Metrics)
  : outcome (Remote * Metrics * option goerror) := dialLocked env r mt.

Definition set_header (request : Request) (k v : gostring) : Request :=
  mkRequest (req_Method request) (req_RawURL request) (req_URL request)
    (req_ProtocolVersion request) (<[k := v]> (req_Headers request)) (req_Body request)
    (req_Attempts request) (req_Subscriptions request).

(** [name="value"]. *)
Definition quoted (name value : gostring) : gostring := name ++ str "=" ++ [DQ] ++ value ++ [DQ].

Definition comma : gostring := str ", ".

Section Remote.
Context `{GoRuntime, NetURL, Crypto}.

(** The Digest credentials, in the order they are written. *)
Definition digest_credentials (d : Digest) (uri response ncStr cnonce : gostring) : gostring :=
  str "Digest " ++ quoted (str "username") (Username d) ++ comma ++ quoted (str "realm") (Realm d)
  ++ comma ++ quoted (str "nonce") (Nonce d) ++ comma ++ quoted (str "uri") uri
  ++ comma ++ quoted (str "response") response
  ++ (if Qop d =s [] then []
      else comma ++ str "qop=" ++ Qop d ++ comma ++ str "nc=" ++ ncStr ++ comma
           ++ quoted (str "cnonce") cnonce)
  ++ (if Opaque d =s [] then [] else comma ++ quoted (str "opaque") (Opaque d))
  ++ (if negb (Algorithm d =s []) && negb (EqualFold (Algorithm d) (str "MD5"))
      then comma ++ str "algorithm=" ++ Algorithm d else []).

Definition basic_credentials (d : Digest) : gostring :=
  str "Basic " ++ base64_encode (Username d ++ str ":" ++ Password d).

(** [createAuthenticatorStr]; [buf] are the random bytes of the client
    nonce. *)
Definition createAuthenticatorStr (r : Remote) (request : Request) (buf : gostring)
  : outcome (Remote * Request) :=
  let d := r_digest r in
  if (Realm d =s []) || (Username d =s []) || (Password d =s []) then Done (r, request)
  else
    let! u := GetURL request in
    let uri := URL_String u in
    if negb (Nonce d =s []) then
      let '(d', (response, ncStr, cnonce)) := ComputeResponse d (req_Method request) uri buf in
      Done (r_set_digest r d',
            set_header request (str "Authorization") (digest_credentials d' uri response ncStr cnonce))
    else Done (r, set_header request (str "Authorization") (basic_credentials d)).

(** [SendRequest] with the bytes it writes to the socket. *)
Definition SendRequest (env : NetEnv) (buf : gostring) (r : Remote) (request : Request) (mt : Metrics)
  : outcome (Remote * Request * Metrics * gostring * option goerror) :=
  let! (r, mt, err) := (if r_conn r then Done (r, mt, None) else dialLocked env r mt) in
  match err with
  | Some e => Done (r, request, mt, [], Some e)
  | None =>
      let r := r_set_cseq r (int64_wrap (r_currentCSeq r + 1)) in
      let request := set_header request (str "CSeq") (Itoa (r_currentCSeq r)) in
      let! (r, request) := createAuthenticatorStr r request buf in
      let! raw := Request_String request in
      if ne_write env then Done (r, request, mt, raw, None)
      else Done (disconnectLocked r, request, mt, [], Some (ErrText (str "failed to write to remote")))
  end.

(** The URL the proxy builds for a path on the camera. *)
Definition rtsp_url (host path : gostring) : option URL := Some (mkURL (str "rtsp") None host path []).

Definition SendTeardown (env : NetEnv) (buf : gostring) (r : Remote) (path sessionID : gostring)
    (mt : Metrics) : outcome (Remote * Metrics * gostring * option goerror) :=
  let request := set_header (NewRequest (str "TEARDOWN") (rtsp_url (r_Host r) path) [])
                   (str "Session") sessionID in
  let! (r, _, mt, raw, err) := SendRequest env buf r request mt in
  Done (r, mt, raw, err).

End Remote.

(** [SendBinary] with the outcome of its two writes. *)
Definition SendBinary (header_ok data_ok : bool) (r : Remote) (channel : Z) (data : gostring)
  : Remote * gostring * option goerror :=
  if r_conn r then
    let wire := SendBinary_bytes channel data in
    if header_ok then
      if data_ok then (r, wire, None)
      else (disconnectLocked r, take 4 wire, Some (ErrText (str "failed to write binary data")))
    else (disconnectLocked r, [], Some (ErrText (str "failed to write binary header")))
  else (r, [], Some (ErrText (str "remote connection is closed"))).

Definition handleAuthenticationFailure (r : Remote) (paramsStr : gostring) : Remote * bool :=
  let d := r_digest r in
  if paramsStr =s [] then (r, false)
  else if (Username d =s []) || (Password d =s []) then (r, false)
  else
    let ch := ParseWWWAuthenticate paramsStr in
    if ch_isDigest ch then
      (r_set_digest r (mkDigest (ch_realm ch) (ch_nonce ch) (Username d) (Password d) (ch_qop ch)
                         (ch_opaque ch) (ch_algorithm ch) 0), true)
    else if negb (ch_realm ch =s []) then
      (r_set_digest r (mkDigest (ch_realm ch) [] (Username d) (Password d) (Qop d) (Opaque d)
                         (Algorithm d) (Nc d)), true)
    else (r, false).

(** *** The Transport header *)

(** The loops that collect [key=value] elements into a map, the last
    value of a key winning; elements without an equals sign are skipped. *)
Fixpoint collect_params (elements : list gostring) (params : gmap gostring gostring)
  : gmap gostring gostring :=
  match elements with
  | [] => params
  | element :: es =>
      match SplitN element "="%char 2 with
      | [k; v] => collect_params es (<[k := v]> params)
      | _ => collect_params es params
      end
  end.

Definition parseTransport (transportStr : gostring)
  : gostring * gostring * gmap gostring gostring :=
  if transportStr =s [] then ([], [], ∅)
  else match Split transportStr ";"%char with
       | protocol :: [] => (protocol, str "unicast", ∅)
       | protocol :: comType :: rest => (protocol, comType, collect_params rest ∅)
       | [] => ([], [], ∅)
       end.

(** A map lookup that yields the zero value of a missing key. *)
Definition map_get (params : gmap gostring gostring) (k : gostring) : gostring :=
  default [] (params !! k).

(** ** Specifications *)

Section RemoteSpec.
Context `{GoRuntime, NetURL, Crypto}.

(** A run of [SendRequest]s on one [Remote]: for each the request as sent
    and the bytes written, or [None] when it returned an error. *)
Fixpoint sends (ops : list (NetEnv * gostring * Request)) (r : Remote) (mt : Metrics)
  : outcome (Remote * Metrics * list (option (Request * gostring))) :=
  match ops with
  | [] => Done (r, mt, [])
  | (env, buf, request) :: ops' =>
      let! (r, request', mt, raw, err) := SendRequest env buf r request mt in
      let! (r, mt, trace) := sends ops' r mt in
      Done (r, mt, (match err with Some _ => None | None => Some (request', raw) end) :: trace)
  end.

(** The sequence numbers of such a run: consecutive on one connection,
    starting over at 1 on the connection opened after a failure. *)
Fixpoint numbered (n : Z) (trace : list (option (Request * gostring))) : Prop :=
  match trace with
  | [] => True
  | Some (request, raw) :: t =>
      req_Headers request !! str "CSeq" = Some (Itoa (n + 1))
      /\ Request_String request = Done raw /\ numbered (n + 1) t
  | None :: t => numbered 0 t
  end.

(** Addresses as [net] prints them, and requests with a URL. *)
Definition dial_ok (env : NetEnv) : Prop :=
  match ne_dial env with
  | Ok (local, remote) => (":"%char ∈ local) /\ (":"%char ∈ remote)
  | Err _ => True
  end.

(** The network lets a request through. *)
Definition reaches_wire (env : NetEnv) : bool :=
  negb (ne_shutdown env) && ne_write env && match ne_dial env with Ok _ => true | Err _ => false end.

(** The text of a TEARDOWN of one session of the camera. *)
Definition teardown_of (host path id raw : gostring) : Prop :=
  exists q, req_Method q = str "TEARDOWN" /\ req_URL q = rtsp_url host path
    /\ req_Headers q !! str "Session" = Some id /\ Request_String q = Done raw.

Definition send_ok (op : NetEnv * gostring * Request) : Prop :=
  dial_ok op.1.1 /\ req_URL op.2 <> None.

End RemoteSpec.

(** Whether the digest state carries usable credentials. *)
Definition has_credentials (d : Digest) : Prop :=
  Realm d <> [] /\ Username d <> [] /\ Password d <> [].

(** An Authorization header in the Digest scheme as RFC 2617 (3.2.2) has
    it: a list of fields, in which the nonce count and the client nonce
    are the ones the response was computed with; without the quality of
    protection "auth" the response is RFC 2069's and there are none. *)
Definition digest_header `{Crypto} (d : Digest) (count : Z) (cnonce method uri : gostring) : gostring :=
  let qop_auth := EqualFold (Qop d) (str "auth") in
  let nc := if qop_auth then NcString count else [] in
  let cn := if qop_auth then cnonce else [] in
  let response := if qop_auth
    then kd_2617 (Username d) (Realm d) (Password d) (Nonce d) nc cn method uri
    else kd_2069 (Username d) (Realm d) (Password d) (Nonce d) method uri in
  let field name value := name ++ str "=" ++ value in
  let in_quotes value := [DQ] ++ value ++ [DQ] in
  str "Digest " ++ Join
    ([field (str "username") (in_quotes (Username d)); field (str "realm") (in_quotes (Realm d));
      field (str "nonce") (in_quotes (Nonce d)); field (str "uri") (in_quotes uri);
      field (str "response") (in_quotes response)]
     ++ (if Qop d =s [] then []
         else [field (str "qop") (Qop d); field (str "nc") nc; field (str "cnonce") (in_quotes cn)])
     ++ (if Opaque d =s [] then [] else [field (str "opaque") (in_quotes (Opaque d))])
     ++ (if (Algorithm d =s []) || EqualFold (Algorithm d) (str "MD5") then []
         else [field (str "algorithm") (Algorithm d)])) (str ", ").

Definition basic_header (d : Digest) : gostring :=
  str "Basic " ++ base64_encode (Username d ++ str ":" ++ Password d).

Definition print_transport (protocol comType : gostring) (ps : list (gostring * gostring)) : gostring :=
  Join (protocol :: comType :: map (fun kv => kv.1 ++ str "=" ++ kv.2) ps) (str ";").

(** ** Lemmas *)

Lemma Split_two (s : gostring) (sep : ascii) :
  sep ∈ s -> exists a b l, Split s sep = a :: b :: l.
Proof.
  intros Hin. apply list_elem_of_split_l in Hin as (l1 & l2 & -> & Hn).
  rewrite Split_app by done.
  destruct (Split_cons l2 sep) as (w & ws & ->). eauto.
Qed.

Lemma dialLocked_spec (env : NetEnv) (r : Remote) (mt : Metrics) :
  dial_ok env ->
  exists r' mt' err, dialLocked env r mt = Done (r', mt', err)
    /\ match err with
       | Some _ => r' = r
       | None => r_conn r' = true /\ r_currentCSeq r' = 0%Z /\ r_digest r' = r_digest r
                 /\ r_requests r' = r_requests r /\ r_Host r' = r_Host r
       end.
Proof.
  intros Hd. unfold dialLocked. destruct (ne_shutdown env); [eexists _, _, _; split; [done|]; by cbn|].
  unfold dial_ok in Hd. destruct (ne_dial env) as [[l rm]|e]; [|eexists _, _, _; split; [done|]; by cbn].
  destruct Hd as [Hl Hr].
  destruct (Split_two _ _ Hl) as (? & ? & ? & ->).
  destruct (Split_two _ _ Hr) as (? & ? & ? & ->). eexists _, _, _; split; [done|]; by cbn.
Qed.

Lemma disconnectLocked_conn (r : Remote) : r_conn (disconnectLocked r) = false.
Proof. unfold disconnectLocked. by destruct (r_conn r) eqn:E. Qed.

Section RemoteLemmas.
Context `{GoRuntime, NetURL, Crypto}.

Lemma createAuthenticatorStr_total (r : Remote) (request : Request) (buf : gostring) :
  req_URL request <> None ->
  exists r' request', createAuthenticatorStr r request buf = Done (r', request')
    /\ r_conn r' = r_conn r /\ r_currentCSeq r' = r_currentCSeq r
    /\ r_requests r' = r_requests r
    /\ req_URL request' = req_URL request /\ req_Method request' = req_Method request
    /\ r_Host r' = r_Host r
    /\ forall k, k <> str "Authorization" -> req_Headers request' !! k = req_Headers request !! k.
Proof.
  intros Hu. unfold createAuthenticatorStr. destruct (_ || _)%bool; [by eauto 12|].
  unfold GetURL. destruct (req_URL request) as [u|] eqn:EU; [|done].
  cbn [outcome_bind]. destruct (negb _).
  - destruct (ComputeResponse _ _ _ _) as [d' [[resp nc] cn]].
    eexists _, _. split; [done|]. repeat split; [done|].
    cbn. intros k Hk. by rewrite lookup_insert_ne by congruence.
  - eexists _, _. split; [done|]. repeat split; [done|].
    cbn. intros k Hk. by rewrite lookup_insert_ne by congruence.
Qed.

Lemma Request_String_total (request : Request) :
  req_URL request <> None -> exists raw, Request_String request = Done raw.
Proof.
  unfold Request_String, GetURL. destruct (req_URL request); [|done]. intros _. by eexists.
Qed.

Lemma SendRequest_total (env : NetEnv) (buf : gostring) (r : Remote) (request : Request) (mt : Metrics) :
  send_ok (env, buf, request) -> exists x, SendRequest env buf r request mt = Done x.
Proof.
  intros [Hd Hu]. cbn [fst snd] in Hd, Hu. unfold SendRequest.
  assert (Hopen : exists r1 mt1 err,
    (if r_conn r then Done (r, mt, None) else dialLocked env r mt) = Done (r1, mt1, err)).
  { destruct (r_conn r); [by eexists _, _, _|].
    destruct (dialLocked_spec env r mt Hd) as (? & ? & ? & -> & _). by eexists _, _, _. }
  destruct Hopen as (r1 & mt1 & [e|] & ->); cbn [outcome_bind]; [by eexists|].
  edestruct createAuthenticatorStr_total as (r2 & rq' & -> & _ & _ & _ & Hu2 & _); [exact Hu|].
  cbn [outcome_bind]. destruct (Request_String_total rq') as [raw ->]; [by rewrite Hu2|].
  cbn [outcome_bind]. destruct (ne_write env); by eexists.
Qed.

(** One send: the connection it leaves, the number it used. *)
Lemma SendRequest_step (env : NetEnv) (buf : gostring) (r : Remote) (request : Request) (mt : Metrics) :
  send_ok (env, buf, request) ->
  let n := if r_conn r then r_currentCSeq r else 0%Z in
  (0 <= n < int64_max)%Z ->
  exists r' request' mt' raw err,
    SendRequest env buf r request mt = Done (r', request', mt', raw, err)
    /\ match err with
       | Some _ => r_conn r' = false
       | None => r_conn r' = true /\ r_currentCSeq r' = (n + 1)%Z
                 /\ req_Headers request' !! str "CSeq" = Some (Itoa (n + 1))
                 /\ Request_String request' = Done raw
       end.
Proof.
  intros [Hd Hu] n Hn. cbn [fst snd] in Hd, Hu. unfold SendRequest.
  assert (Hopen : exists r1 mt1 err,
    (if r_conn r then Done (r, mt, None) else dialLocked env r mt) = Done (r1, mt1, err)
    /\ match err with Some _ => r_conn r1 = false
       | None => r_conn r1 = true /\ r_currentCSeq r1 = n end).
  { subst n. destruct (r_conn r) eqn:Ec; [by eexists _, _, _|].
    destruct (dialLocked_spec env r mt Hd) as (r1 & mt1 & err & -> & He).
    exists r1, mt1, err. split; [done|]. destruct err; [by subst|]. naive_solver. }
  destruct Hopen as (r1 & mt1 & err & -> & He). cbn [outcome_bind].
  destruct err as [e|]; [by eexists _, _, _, _, _|]. destruct He as [Hc1 Hn1].
  rewrite Hn1, int64_wrap_small by (unfold int64_min, int64_max in *; lia).
  set (rq := set_header _ _ _).
  destruct (createAuthenticatorStr_total (r_set_cseq r1 (n + 1)) rq buf)
    as (r2 & rq' & -> & Hc2 & Hn2 & _ & Hu2 & _ & _ & Hh2); [done|].
  cbn [outcome_bind].
  destruct (Request_String_total rq') as [raw Hraw]; [by rewrite Hu2|].
  rewrite Hraw. cbn [outcome_bind]. destruct (ne_write env).
  - eexists _, _, _, _, _. split; [done|]. cbv match. rewrite Hc2, Hn2, Hh2 by done. repeat split; [done| |done].
    subst rq. cbn. by rewrite lookup_insert_eq.
  - eexists _, _, _, _, _. split; [done|]. cbn. apply disconnectLocked_conn.
Qed.

(** One TEARDOWN: when the network lets it through the camera gets the text
    for that session, otherwise nothing. *)
Lemma SendTeardown_spec (env : NetEnv) (buf : gostring) (r : Remote) (path id : gostring) (mt : Metrics) :
  dial_ok env ->
  exists r' mt' raw err, SendTeardown env buf r path id mt = Done (r', mt', raw, err)
    /\ r_Host r' = r_Host r
    /\ (raw = [] \/ teardown_of (r_Host r) path id raw)
    /\ (reaches_wire env = true -> teardown_of (r_Host r) path id raw).
Proof.
  intros Hd. unfold SendTeardown, SendRequest.
  assert (Hopen : exists r1 mt1 err,
    (if r_conn r then Done (r, mt, None) else dialLocked env r mt) = Done (r1, mt1, err)
    /\ r_Host r1 = r_Host r /\ (err <> None -> reaches_wire env = false)).
  { destruct (r_conn r); [by eexists _, _, _|]. unfold dialLocked, reaches_wire.
    destruct (ne_shutdown env); [by eexists _, _, _|]. unfold dial_ok in Hd.
    destruct (ne_dial env) as [[l rm]|e]; [|eexists _, _, _; rewrite andb_false_r; by split_and!].
    destruct Hd as [Hl Hr]. destruct (Split_two _ _ Hl) as (? & ? & ? & ->).
    destruct (Split_two _ _ Hr) as (? & ? & ? & ->). by eexists _, _, _. }
  destruct Hopen as (r1 & mt1 & err & -> & Hh & He). cbn [outcome_bind].
  destruct err as [e|].
  { eexists _, _, _, _. split; [done|]. split; [done|]. split; [by left|]. by rewrite He. }
  set (rq := set_header _ (str "CSeq") _).
  destruct (createAuthenticatorStr_total (r_set_cseq r1 (int64_wrap (r_currentCSeq r1 + 1))) rq buf)
    as (r2 & rq' & -> & _ & _ & _ & Hu2 & Hm2 & Hh2 & Hk2); [done|].
  cbn [outcome_bind]. destruct (Request_String_total rq') as [raw Hraw]; [by rewrite Hu2|].
  rewrite Hraw. cbn [outcome_bind].
  assert (Ht : teardown_of (r_Host r) path id raw).
  { exists rq'. rewrite Hm2, Hu2, Hk2 by done. by split_and!. }
  destruct (ne_write env) eqn:Ew; cbn [outcome_bind]; (eexists _, _, _, _; split; [done|]).
  - rewrite Hh2. cbn. auto.
  - split; [|split; [by left|]].
    + unfold disconnectLocked. destruct (r_conn r2); by rewrite Hh2.
    + unfold reaches_wire. by rewrite Ew, andb_false_r.
Qed.

Lemma sends_numbered (ops : list (NetEnv * gostring * Request)) (r : Remote) (mt : Metrics) :
  Forall send_ok ops ->
  let n := if r_conn r then r_currentCSeq r else 0%Z in
  (0 <= n)%Z -> (n + slen ops <= int64_max)%Z ->
  exists r' mt' trace, sends ops r mt = Done (r', mt', trace)
    /\ length trace = length ops /\ numbered n trace.
Proof.
  intros Hops. revert r mt. induction Hops as [|[[env buf] request] ops Hop Hops IH];
    intros r mt n Hn0 Hn1; cbn [sends]; [by eexists _, _, _|].
  unfold slen in Hn1. cbn [length] in Hn1.
  destruct (SendRequest_step env buf r request mt Hop) as (r1 & rq1 & mt1 & raw & err & -> & He).
  { fold n. lia. }
  cbn [outcome_bind]. fold n in He.
  destruct (IH r1 mt1) as (r2 & mt2 & trace & -> & Hl & Hnum).
  { destruct err; [by rewrite He|]. destruct He as (-> & -> & _). lia. }
  { unfold slen. destruct err; [rewrite He; lia|]. destruct He as (-> & -> & _). lia. }
  cbn [outcome_bind]. eexists _, _, _. split; [done|]. cbn. split; [by rewrite Hl|].
  destruct err as [e|].
  - by rewrite He in Hnum.
  - destruct He as (Hc & Hs & Hh & Hr). rewrite Hc, Hs in Hnum. done.
Qed.

End RemoteLemmas.

(** Joining fields is writing a comma before all but the first. *)
Lemma Join_comma (x : gostring) (xs : list gostring) :
  Join (x :: xs) comma = x ++ concat (map (fun f => comma ++ f) xs).
Proof.
  revert x. induction xs as [|y ys IH]; intros x; [cbn; by rewrite app_nil_r|].
  change (Join (x :: y :: ys) comma) with (x ++ comma ++ Join (y :: ys) comma). rewrite IH.
  cbn [map concat]. by rewrite <- !app_assoc.
Qed.

Lemma concat_optional (b : bool) (fs : list gostring) :
  concat (map (fun f => comma ++ f) (if b then [] else fs))
  = if b then [] else concat (map (fun f => comma ++ f) fs).
Proof. by destruct b. Qed.

(** [ComputeResponse] and the header written from its results. *)
Lemma digest_credentials_header `{Crypto} (d : Digest) (method uri buf : gostring) :
  let '(d', (response, nc, cnonce)) := ComputeResponse d method uri buf in
  digest_credentials d' uri response nc cnonce
  = digest_header d (uint32_wrap (Nc d + 1)) (hex_encode buf) method uri.
Proof.
  unfold ComputeResponse, digest_header, digest_credentials, quoted, randomCnonce.
  destruct (EqualFold (Qop d) (str "auth")) eqn:Eq; cbn [Username Realm Nonce Qop Opaque Algorithm];
    rewrite <- negb_orb; clear Eq; change (str ", ") with comma; cbn [app];
    rewrite Join_comma; cbn [map concat]; rewrite !map_app, !concat_app;
    rewrite !concat_optional; cbn [negb map concat]; rewrite ?if_negb, ?app_nil_r; cbn [concat];
    do 4 (rewrite <- ?app_assoc, ?app_nil_r; cbn [app]); reflexivity.
Qed.

Lemma collect_params_list (ps : list (gostring * gostring)) (m : gmap gostring gostring) :
  Forall (fun kv => "="%char ∉ kv.1) ps ->
  collect_params (map (fun kv => kv.1 ++ str "=" ++ kv.2) ps) m
  = foldl (fun m kv => <[kv.1 := kv.2]> m) m ps.
Proof.
  intros Hp. revert m. induction Hp as [|[k v] ps Hk Hp IH]; intros m; [done|].
  cbn [map collect_params fst snd foldl].
  change (k ++ str "=" ++ v) with (k ++ "="%char :: v).
  rewrite SplitN2_app by done. by rewrite IH.
Qed.

Lemma Split_Join_id (w : gostring) (ws : list gostring) (sep : ascii) :
  Forall (fun w => sep ∉ w) (w :: ws) -> Split (Join (w :: ws) [sep]) sep = w :: ws.
Proof.
  revert w. induction ws as [|w2 ws IH]; intros w HF; inversion HF; subst; cbn [Join].
  - by apply Split_no_sep.
  - cbn [app]. rewrite Split_app by done. f_equal. by apply IH.
Qed.

(** ** Properties *)

(** C27: Whatever the network does, a run of requests on one [Remote]
    never panics, every request that is reported as sent was written in
    full with its own CSeq, and the CSeq values are consecutive on one
    connection and start over at 1 on the connection that is opened after
    a failed dial or write. *)
Theorem SendRequest_cseq `{GoRuntime, NetURL, Crypto} (ops : list (NetEnv * gostring * Request))
    (r : Remote) (mt : Metrics) :
  Forall send_ok ops -> r_conn r = false -> (slen ops <= int64_max)%Z ->
  exists r' mt' trace, sends ops r mt = Done (r', mt', trace)
    /\ length trace = length ops /\ numbered 0 trace.
Proof.
  intros Hops Hc Hl. pose proof (sends_numbered ops r mt Hops) as Hs. rewrite Hc in Hs.
  apply Hs; lia.
Qed.

Definition sample_remote (d : Digest) : Remote := mkRemote (str "cam:554") false [] [] [] [] 0 [] d.

Definition sample_request : Request := NewRequest (str "OPTIONS") (rtsp_url (str "cam:554") (str "/s")) [].

Definition sample_env (write : bool) : NetEnv :=
  mkNetEnv false (Ok (str "10.0.0.2:40000", str "10.0.0.9:554")) write.

Lemma SendRequest_cseq_witness :
  exists r' mt' trace,
    @sends sample_runtime sample_neturl sample_crypto
      [(sample_env true, [], sample_request); (sample_env false, [], sample_request);
       (sample_env true, [], sample_request)] (sample_remote NewDigest) metrics_zero
    = Done (r', mt', trace)
    /\ length trace = 3%nat /\ @numbered sample_runtime sample_neturl 0 trace.
Proof.
  apply (@SendRequest_cseq sample_runtime sample_neturl sample_crypto
    [(sample_env true, [], sample_request); (sample_env false, [], sample_request);
       (sample_env true, [], sample_request)] (sample_remote NewDigest) metrics_zero).
  - repeat apply Forall_cons_2; try apply Forall_nil_2;
      (split; [split; apply (bool_decide_unpack _); by vm_compute|done]).
  - done.
  - by vm_compute.
Defined.


Definition nonce_digest : Digest :=
  mkDigest (str "R") (str "N") (str "u") (str "p") (str "auth") [] (str "MD5") 4.


(** The header of that request, spelt out (the sample hash is the
    identity, so the hashed text can be read in the response). *)
Example digest_header_text :
    @digest_header sample_crypto nonce_digest 5 (str "7a") (str "OPTIONS") (str "rtsp://cam/s")
    = str "Digest username=" ++ [DQ] ++ str "u" ++ [DQ] ++ str ", realm=" ++ [DQ] ++ str "R" ++ [DQ]
      ++ str ", nonce=" ++ [DQ] ++ str "N" ++ [DQ] ++ str ", uri=" ++ [DQ] ++ str "rtsp://cam/s" ++ [DQ]
      ++ str ", response=" ++ [DQ]
      ++ @kd_2617 sample_crypto (str "u") (str "R") (str "p") (str "N") (str "00000005") (str "7a")
           (str "OPTIONS") (str "rtsp://cam/s") ++ [DQ]
      ++ str ", qop=auth, nc=00000005, cnonce=" ++ [DQ] ++ str "7a" ++ [DQ].
Proof. vm_compute. reflexivity. Qed.

(** The Transport header parser inverts the printer: from
    [protocol;type;k1=v1;...] it returns the protocol, the type and every
    parameter, the last one of a repeated key, for all parts free of
    separators. *)
Theorem parseTransport_print (protocol comType : gostring) (ps : list (gostring * gostring)) :
  protocol <> [] ->
  Forall (fun w => ";"%char ∉ w) (protocol :: comType :: map (fun kv => kv.1 ++ str "=" ++ kv.2) ps) ->
  Forall (fun kv => "="%char ∉ kv.1) ps ->
  parseTransport (print_transport protocol comType ps)
  = (protocol, comType, list_to_map (reverse ps)).
Proof.
  intros Hp Hsep Heq. unfold parseTransport, print_transport.
  unfold seq_eqb. rewrite bool_decide_eq_false_2 by (destruct protocol; done).
  change (str ";") with [";"%char]. rewrite Split_Join_id by done.
  f_equal. rewrite collect_params_list by done.
  clear Hsep Heq. rewrite <-(reverse_involutive ps) at 1.
  generalize (reverse ps) as l. clear ps. induction l as [|[k v] l IH]; [done|].
  rewrite reverse_cons, foldl_app. cbn. by rewrite IH.
Qed.

Lemma parseTransport_print_witness :
  parseTransport (str "RTP/AVP/TCP;unicast;interleaved=0-1;ssrc=1A")
  = (str "RTP/AVP/TCP", str "unicast",
     list_to_map [(str "ssrc", str "1A"); (str "interleaved", str "0-1")]).
Proof.
  apply (parseTransport_print (str "RTP/AVP/TCP") (str "unicast")
           [(str "interleaved", str "0-1"); (str "ssrc", str "1A")]).
  - done.
  - apply (bool_decide_unpack _); by vm_compute.
  - apply (bool_decide_unpack _); by vm_compute.
Defined.
