(* ===== verification/Fanout.v ===== *)
(** * Fan-out: client sessions and packet dispatch

    src/rtspproxy/client_session.go, [Stream.dispatch] and
    [Stream.MapChannel] of src/rtspproxy/stream.go, and the path of a
    packet through [ClientSession.run] and [Client.writer]
    (src/rtspproxy/client.go).  Clients are named by numbers, standing for
    the pointers the map [clients] is keyed by. *)

From stdpp Require Import gmap strings list fin_maps.
From Stdlib Require Import Ascii ZArith Lia.
From S2P Require Import Prelude GoStrings Framing.

Local Open Scope go_scope.

(** ** Definitions *)

Record ClientSession := mkClientSession {
  cs_sessionID : gostring;
  cs_queue : list gostring;          (* the buffered channel [queue] *)
  cs_cap : nat;                      (* its capacity *)
  cs_active : bool;
  cs_quit : bool;                    (* whether [quit] is closed *)
  cs_channels : gmap Z Z             (* upstream channel -> client channel *)
}.

(** [make(chan []byte, n)] panics on a negative size. *)
Definition NewClientSession (packetQueueSize : Z) (sessionID : gostring) : outcome ClientSession :=
  if (packetQueueSize <? 0)%Z then Panic NegativeChanSize
  else Done (mkClientSession sessionID [] (Z.to_nat packetQueueSize) false false ∅).

Definition cs_Start (cs : ClientSession) : ClientSession :=
  if cs_active cs then cs
  else mkClientSession (cs_sessionID cs) (cs_queue cs) (cs_cap cs) true (cs_quit cs) (cs_channels cs).

Definition cs_Stop (cs : ClientSession) : outcome ClientSession :=
  if cs_active cs then
    if cs_quit cs then Panic CloseOfClosed
    else Done (mkClientSession (cs_sessionID cs) (cs_queue cs) (cs_cap cs) false true (cs_channels cs))
  else Done cs.

(** [Push]: a send that never blocks; [false] when the queue is full.
    This is the send when the forwarder is not already waiting at the
    channel.  When it is, the queue is empty and Go hands the packet over
    directly: with room in the queue that is the same as queueing it and
    having it taken at once, and with a capacity of 0 it is the only way
    in.  That hand-over is a step of its own, [PHandOver] below and
    [RHandOver] of the relay. *)
Definition Push (cs : ClientSession) (packet : gostring) : ClientSession * bool :=
  if (length (cs_queue cs) <? cs_cap cs)%nat then
    (mkClientSession (cs_sessionID cs) (cs_queue cs ++ [packet]) (cs_cap cs) (cs_active cs)
       (cs_quit cs) (cs_channels cs), true)
  else (cs, false).

Definition QueueDepth (cs : ClientSession) : Z := slen (cs_queue cs).

Definition cs_map (cs : ClientSession) (upstreamChan clientChan : Z) : ClientSession :=
  mkClientSession (cs_sessionID cs) (cs_queue cs) (cs_cap cs) (cs_active cs) (cs_quit cs)
    (<[upstreamChan := clientChan]> (cs_channels cs)).

(** [MapChannel] on the stream's client map. *)
Definition MapChannel (clients : gmap nat ClientSession) (client : nat) (upstreamChan clientChan : Z)
  : gmap nat ClientSession :=
  match clients !! client with
  | Some cs => <[client := cs_map cs upstreamChan clientChan]> clients
  | None => clients
  end.

(** The per-stream counters, [uint64] values updated atomically. *)
Record Stats := mkStats {
  PacketsForwarded : Z;
  PacketsDropped : Z;
  BytesForwarded : Z;
  SessionBytesForwarded : Z
}.

(** [buf[:len(packet)]], the copy, and the channel byte: the pool's
    buffers have [bufferSize] bytes. *)
Definition client_packet (bufferSize : nat) (packet : gostring) (clientChannel : Z) : outcome gostring :=
  if (bufferSize <? length packet)%nat then Panic SliceBounds
  else match packet with
       | b0 :: _ :: rest => Done (b0 :: to_byte clientChannel :: rest)
       | _ => Panic SliceBounds
       end.

(** The snapshot of delivery points taken under the lock. *)
Fixpoint target_snapshot (entries : list (nat * ClientSession)) (channel : Z)
  : list (nat * Z) :=
  match entries with
  | [] => []
  | (client, cs) :: es =>
      match cs_channels cs !! channel with
      | None => target_snapshot es channel
      | Some clientChannel => (client, clientChannel) :: target_snapshot es channel
      end
  end.

(** One delivery of the loop; [dropped] counts the packets refused. *)
Definition deliver_one (bufferSize : nat) (packet : gostring) (target : nat * Z)
    (clients : gmap nat ClientSession) (dropped : Z) : outcome (gmap nat ClientSession * Z) :=
  let! clientPacket := client_packet bufferSize packet target.2 in
  match clients !! target.1 with
  | None => Done (clients, dropped)
  | Some cs =>
      let '(cs', ok) := Push cs clientPacket in
      Done (<[target.1 := cs']> clients, if ok then dropped else uint64_wrap (dropped + 1))
  end.

Fixpoint deliver (bufferSize : nat) (packet : gostring) (targets : list (nat * Z))
    (clients : gmap nat ClientSession) (dropped : Z) : outcome (gmap nat ClientSession * Z) :=
  match targets with
  | [] => Done (clients, dropped)
  | t :: ts =>
      let! (clients, dropped) := deliver_one bufferSize packet t clients dropped in
      deliver bufferSize packet ts clients dropped
  end.

(** [dispatch] up to the unlock: the counters and the snapshot. *)
Definition dispatch_begin `{GoRuntime} (clients : gmap nat ClientSession) (st : Stats) (channel : Z)
    (packet : gostring) : list (nat * Z) * Stats :=
  let n := slen packet in
  (target_snapshot (map_range clients) channel,
   mkStats (uint64_wrap (PacketsForwarded st + 1)) (PacketsDropped st)
     (uint64_wrap (BytesForwarded st + n)) (uint64_wrap (SessionBytesForwarded st + n))).

Definition with_dropped (st : Stats) (dropped : Z) : Stats :=
  mkStats (PacketsForwarded st) dropped (BytesForwarded st) (SessionBytesForwarded st).

(** The whole call, nobody else moving between the unlock and the last
    push; the relay takes the two parts and every push as separate steps. *)
Definition dispatch `{GoRuntime} (bufferSize : nat) (clients : gmap nat ClientSession) (st : Stats)
    (channel : Z) (packet : gostring) : outcome (gmap nat ClientSession * Stats) :=
  let '(targets, st) := dispatch_begin clients st channel packet in
  let! (clients, dropped) := deliver bufferSize packet targets clients (PacketsDropped st) in
  Done (clients, with_dropped st dropped).

(** *** One client's pipeline

    The queue of its session, the packet its forwarder holds, the client's
    write channel, the packet its writer holds, what the writer has
    written to the socket, and (a ghost) every packet [Push] accepted.
    [p_run] and [p_writer] say whether the two goroutines still serve. *)
Definition write_chan_size : nat := 200.

Record pipe := mkPipe {
  p_cap : nat;
  p_queue : list gostring;
  p_fwd : option gostring;
  p_chan : list gostring;
  p_wr : option gostring;
  p_written : list gostring;
  p_accepted : list gostring;
  p_run : bool;
  p_writer : bool
}.

Definition pipe_init (cap : nat) : pipe := mkPipe cap [] None [] None [] [] true true.

(** The packet a goroutine holds, as a list. *)
Definition in_hand (h : option gostring) : list gostring :=
  match h with Some x => [x] | None => [] end.

Inductive p_step : pipe -> pipe -> Prop :=
| PPush cap q f c w out acc r wr pkt :          (* Push, room in the queue *)
    (length q < cap)%nat ->
    p_step (mkPipe cap q f c w out acc r wr) (mkPipe cap (q ++ [pkt]) f c w out (acc ++ [pkt]) r wr)
| PHandOver cap c w out acc wr pkt :            (* Push, run waits at the channel *)
    p_step (mkPipe cap [] None c w out acc true wr) (mkPipe cap [] (Some pkt) c w out (acc ++ [pkt]) true wr)
| PTake cap pkt q c w out acc wr :              (* run: from the queue *)
    p_step (mkPipe cap (pkt :: q) None c w out acc true wr) (mkPipe cap q (Some pkt) c w out acc true wr)
| PSend cap q pkt c w out acc wr :              (* run: to the write channel *)
    (length c < write_chan_size)%nat ->
    p_step (mkPipe cap q (Some pkt) c w out acc true wr) (mkPipe cap q None (c ++ [pkt]) w out acc true wr)
| PSlow cap q pkt c w out acc wr :              (* run: 100 ms passed; drop it, Destroy the client *)
    p_step (mkPipe cap q (Some pkt) c w out acc true wr) (mkPipe cap q None c None out acc false false)
| PQuit cap q c w out acc wr :                  (* run: quit closed or server shutdown *)
    p_step (mkPipe cap q None c w out acc true wr) (mkPipe cap q None c w out acc false wr)
| PDrainQueue cap pkt q f c w out acc wr :      (* run's deferred drain *)
    p_step (mkPipe cap (pkt :: q) f c w out acc false wr) (mkPipe cap q f c w out acc false wr)
| PFetch cap q f pkt c out acc r :              (* writer: from the write channel *)
    p_step (mkPipe cap q f (pkt :: c) None out acc r true) (mkPipe cap q f c (Some pkt) out acc r true)
| PWrite cap q f c pkt out acc r :              (* writer: a successful write *)
    p_step (mkPipe cap q f c (Some pkt) out acc r true) (mkPipe cap q f c None (out ++ [pkt]) acc r true)
| PWriteErr cap q f c pkt out acc r :           (* writer: a failed write, it returns *)
    p_step (mkPipe cap q f c (Some pkt) out acc r true) (mkPipe cap q f c None out acc r false)
| PWriterStop cap q f c out acc r :             (* writer: channel closed or shutdown *)
    p_step (mkPipe cap q f c None out acc r true) (mkPipe cap q f c None out acc r false)
| PDrainChan cap q f pkt c w out acc r :        (* the writer's deferred drain *)
    p_step (mkPipe cap q f (pkt :: c) w out acc r false) (mkPipe cap q f c w out acc r false).

(** The steps of the two goroutines at work: nothing is pushed and
    neither of them gives up. *)
Definition p_work (p p' : pipe) : Prop :=
  p_step p p' /\ p_accepted p' = p_accepted p
  /\ p_run p = true /\ p_writer p = true /\ p_run p' = true /\ p_writer p' = true.

(** What is on the way to the socket, the oldest first. *)
Definition in_flight (p : pipe) : list gostring :=
  in_hand (p_wr p) ++ p_chan p ++ in_hand (p_fwd p) ++ p_queue p.

(** Moves left until nothing is in flight. *)
Definition p_moves (p : pipe) : nat :=
  length (in_hand (p_wr p)) + 2 * length (p_chan p) + 3 * length (in_hand (p_fwd p)) + 4 * length (p_queue p).

Inductive p_reach (cap : nat) : pipe -> Prop :=
| PInit : p_reach cap (pipe_init cap)
| PMore p p' : p_reach cap p -> p_step p p' -> p_reach cap p'.

(** ** Specification of dispatch: what happens to one client *)

(** The packet a client gets: the same bytes with its own channel. *)
Definition remapped (packet : gostring) (clientChannel : Z) : gostring :=
  match packet with
  | b0 :: _ :: rest => b0 :: to_byte clientChannel :: rest
  | _ => packet
  end.

Definition dispatch_one (channel : Z) (packet : gostring) (cs : ClientSession) : ClientSession :=
  match cs_channels cs !! channel with
  | None => cs
  | Some clientChannel => (Push cs (remapped packet clientChannel)).1
  end.

(** Whether a client is mapped for the channel and has no room. *)
Definition refuses (channel : Z) (cs : ClientSession) : bool :=
  match cs_channels cs !! channel with
  | None => false
  | Some _ => (cs_cap cs <=? length (cs_queue cs))%nat
  end.

Definition refusals (channel : Z) (clients : gmap nat ClientSession) : nat :=
  length (filter (fun e => refuses channel e.2 = true) (map_to_list clients)).

(** ** Lemmas *)

Lemma client_packet_ok (bufferSize : nat) (packet : gostring) (c : Z) :
  (2 <= length packet <= bufferSize)%nat ->
  client_packet bufferSize packet c = Done (remapped packet c).
Proof.
  intros Hl. unfold client_packet. destruct (_ <? _)%nat eqn:E; reflect_bool; [lia|].
  destruct packet as [|a [|b rest]]; [simpl in Hl; lia..|done].
Qed.

Lemma uint64_wrap_add (a b : Z) : uint64_wrap (uint64_wrap a + b) = uint64_wrap (a + b).
Proof. unfold uint64_wrap. by rewrite Z.add_mod_idemp_l by lia. Qed.

Lemma Push_one (channel : Z) (packet : gostring) (cs : ClientSession) (c : Z) :
  cs_channels cs !! channel = Some c ->
  Push cs (remapped packet c) = (dispatch_one channel packet cs, negb (refuses channel cs)).
Proof.
  intros Hc. unfold dispatch_one, refuses. rewrite Hc. unfold Push.
  destruct (length (cs_queue cs) <? cs_cap cs)%nat eqn:E; reflect_bool; cbn [fst].
  - by rewrite (proj2 (Nat.leb_gt _ _) E).
  - by rewrite (proj2 (Nat.leb_le _ _) E).
Qed.

(** The loop over any list of entries of the map with distinct clients. *)
Lemma deliver_entries (bufferSize : nat) (packet : gostring) (channel : Z)
    (es : list (nat * ClientSession)) (clients : gmap nat ClientSession) (dropped : Z) :
  (2 <= length packet <= bufferSize)%nat ->
  NoDup es.*1 -> (forall k cs, (k, cs) ∈ es -> clients !! k = Some cs) ->
  exists clients',
    deliver bufferSize packet (target_snapshot es channel) clients (uint64_wrap dropped)
    = Done (clients', uint64_wrap (dropped
        + Z.of_nat (length (filter (fun e => refuses channel e.2 = true) es))))
    /\ (forall k, k ∈ es.*1 -> clients' !! k = dispatch_one channel packet <$> clients !! k)
    /\ (forall k, k ∉ es.*1 -> clients' !! k = clients !! k).
Proof.
  intros Hl. revert clients dropped.
  induction es as [|[k cs] es IH]; intros clients dropped Hn He.
  { exists clients. cbn. rewrite Z.add_0_r. split; [done|]. split; [|done].
    intros k Hk. by apply elem_of_nil in Hk. }
  cbn [fmap list_fmap fst] in Hn. apply NoDup_cons in Hn as [Hk Hn].
  assert (clients !! k = Some cs) as Hcs by (apply He; left).
  cbn [target_snapshot]. destruct (cs_channels cs !! channel) as [c|] eqn:Ec.
  - cbn [deliver]. unfold deliver_one. cbn [fst snd]. rewrite client_packet_ok by done. cbn [outcome_bind].
    rewrite Hcs, (Push_one channel) by done. cbn [outcome_bind].
    destruct (IH (<[k := dispatch_one channel packet cs]> clients)
                 (if negb (refuses channel cs) then dropped else dropped + 1)%Z) as (cl & Hd & H1 & H2).
    { done. }
    { intros k' cs' Hin. rewrite lookup_insert_ne; [apply He; by right|].
      intros ->. apply Hk. apply list_elem_of_fmap. by exists (k', cs'). }
    exists cl. split; [|split].
    + rewrite filter_cons. cbn [snd]. destruct (refuses channel cs); cbn [negb] in *.
      * rewrite uint64_wrap_add, Hd, decide_True by done. cbn [length]. do 3 f_equal. lia.
      * by rewrite Hd, decide_False by done.
    + intros k' Hk'. cbn [fmap list_fmap fst] in Hk'. destruct (decide (k' = k)) as [->|Hne].
      * rewrite H2 by done. by rewrite lookup_insert_eq, Hcs.
      * rewrite H1 by (apply elem_of_cons in Hk' as [?|?]; done).
        by rewrite lookup_insert_ne.
    + intros k' Hk'. cbn [fmap list_fmap fst] in Hk'. apply not_elem_of_cons in Hk' as [Hne Hk'].
      rewrite H2 by done. by rewrite lookup_insert_ne.
  - destruct (IH clients dropped Hn) as (cl & Hd & H1 & H2).
    { intros k' cs' Hin. apply He. by right. }
    assert (refuses channel cs = false) as Hr by (unfold refuses; by rewrite Ec).
    exists cl. split; [|split].
    + rewrite Hd. rewrite filter_cons, decide_False; [done|]. cbn [snd]. congruence.
    + intros k' Hk'. cbn [fmap list_fmap fst] in Hk'. apply elem_of_cons in Hk' as [->|Hk'].
      * rewrite H2 by done. rewrite Hcs. cbn. f_equal. unfold dispatch_one. by rewrite Ec.
      * by apply H1.
    + intros k' Hk'. cbn [fmap list_fmap fst] in Hk'. apply not_elem_of_cons in Hk' as [Hne Hk'].
      by apply H2.
Qed.

Section Dispatch.
Context `{GoRuntime}.

Lemma refusals_perm (channel : Z) (clients : gmap nat ClientSession) :
  length (filter (fun e => refuses channel e.2 = true) (map_range clients))
  = refusals channel clients.
Proof. unfold refusals. apply Permutation_length. by rewrite map_range_perm. Qed.

Lemma dispatch_fmap (bufferSize : nat) (clients : gmap nat ClientSession) (st : Stats)
    (channel : Z) (packet : gostring) :
  (2 <= length packet <= bufferSize)%nat -> (0 <= PacketsDropped st < 2 ^ 64)%Z ->
  dispatch bufferSize clients st channel packet
  = Done (dispatch_one channel packet <$> clients,
          mkStats (uint64_wrap (PacketsForwarded st + 1))
            (uint64_wrap (PacketsDropped st + Z.of_nat (refusals channel clients)))
            (uint64_wrap (BytesForwarded st + slen packet))
            (uint64_wrap (SessionBytesForwarded st + slen packet))).
Proof.
  intros Hl Hd. unfold dispatch, dispatch_begin. cbn [PacketsDropped].
  assert (forall k cs, (k, cs) ∈ map_range clients -> clients !! k = Some cs) as He.
  { intros k cs Hin. rewrite map_range_perm in Hin. by apply elem_of_map_to_list in Hin. }
  destruct (deliver_entries bufferSize packet channel (map_range clients) clients
              (PacketsDropped st)) as (cl & Hdel & H1 & H2); [done| |done|].
  { rewrite map_range_perm. apply NoDup_fst_map_to_list. }
  unfold uint64_wrap in Hdel at 1. rewrite Z.mod_small in Hdel by done.
  rewrite Hdel, refusals_perm. cbn [outcome_bind]. do 2 f_equal.
  apply map_eq. intros k. rewrite lookup_fmap.
  destruct (decide (k ∈ (map_range clients).*1)) as [Hk|Hk]; [by apply H1|].
  rewrite H2 by done. destruct (clients !! k) as [cs|] eqn:E; [|done].
  exfalso. apply Hk. rewrite map_range_perm. apply list_elem_of_fmap.
  exists (k, cs). split; [done|]. by apply elem_of_map_to_list.
Qed.

End Dispatch.

(** Packets of the framing loop fit the pool's buffers. *)
Lemma framed_packet_length (buf rest packet : gostring) (channel : Z) :
  frame_next buf = Frame (EvDispatch channel packet) rest ->
  (4 <= length packet <= length buf)%nat /\ (0 <= channel < 256)%Z.
Proof.
  unfold frame_next. destruct buf as [|b0 t]; [done|]. destruct (ceq b0 DOLLAR).
  - destruct t as [|b1 [|b2 [|b3 t]]]; try done.
    destruct (_ <? _)%Z eqn:E; [done|]. intros [= <- <- <-]. reflect_bool.
    split; [|apply byte_val_range]. rewrite length_take.
    assert (0 <= be16 b2 b3)%Z.
    { unfold be16. apply Z.lor_nonneg. pose proof (byte_val_range b2).
      pose proof (byte_val_range b3). split; [apply Z.shiftl_nonneg|]; lia. }
    unfold slen in E. lia.
  - destruct (Index _ _); [|done]. destruct (_ <? _)%Z; [done|]. by destruct (_ <? 0)%Z.
Qed.

(** *** The pipeline invariant *)

Definition pipe_inv (p : pipe) : Prop :=
  (length (p_queue p) <= p_cap p)%nat
  /\ (length (p_chan p) <= write_chan_size)%nat
  /\ (exists lost, p_accepted p = p_written p ++ lost)
  /\ (p_writer p = true -> exists lost, p_accepted p = p_written p ++ in_hand (p_wr p) ++ p_chan p ++ lost)
  /\ (p_writer p = true -> p_run p = true -> p_accepted p = p_written p ++ in_flight p).

Lemma pipe_inv_step (p p' : pipe) : pipe_inv p -> p_step p p' -> pipe_inv p'.
Proof.
  intros (Hq & Hc & [l1 Hl] & Hw & Hr) Hs.
  destruct Hs; unfold pipe_inv, in_flight in *; cbn in *;
    (split; [rewrite ?length_app; cbn; lia|]); (split; [rewrite ?length_app; cbn; lia|]).
  - subst acc. split_and!.
    + exists (l1 ++ [pkt]). by rewrite <- app_assoc.
    + intros W. destruct (Hw W) as [l2 ->]. exists (l2 ++ [pkt]). by rewrite <- !app_assoc.
    + intros W R. rewrite (Hr W R). by rewrite <- !app_assoc.
  - subst acc. split_and!.
    + exists (l1 ++ [pkt]). by rewrite <- app_assoc.
    + intros W. destruct (Hw W) as [l2 ->]. exists (l2 ++ [pkt]). by rewrite <- !app_assoc.
    + intros W R. rewrite (Hr W R), !app_nil_r. by rewrite <- !app_assoc.
  - split_and!; [eauto..|]. intros W R. by rewrite (Hr W R).
  - split_and!; [eauto| |]; intros W.
    + exists q. rewrite (Hr W eq_refl). by rewrite <- !app_assoc.
    + intros R. rewrite (Hr W R). by rewrite <- !app_assoc.
  - by split_and!; [eauto|..].
  - by split_and!; [eauto|eauto|].
  - by split_and!; [eauto|eauto|].
  - by split_and!; [eauto|eauto|].
  - specialize (Hw eq_refl) as [l2 ->]. split_and!.
    + exists (c ++ l2). by rewrite <- !app_assoc.
    + intros _. exists l2. by rewrite <- !app_assoc.
    + intros _ R. rewrite (Hr eq_refl R). by rewrite <- !app_assoc.
  - by split_and!; [eauto|..].
  - by split_and!; [eauto|..].
  - by split_and!; [eauto|..].
Qed.

Lemma pipe_inv_reach (cap : nat) (p : pipe) : p_reach cap p -> pipe_inv p.
Proof.
  induction 1 as [|p p' _ IH Hs]; [|by eapply pipe_inv_step].
  split_and!; cbn; [lia|unfold write_chan_size; lia|by exists []|by exists []|done].
Qed.

(** Forwarder and writer at work keep all that is in flight and shorten its
    way. *)
Lemma p_work_spec (p p' : pipe) :
  p_work p p' ->
  p_written p' ++ in_flight p' = p_written p ++ in_flight p /\ (p_moves p' < p_moves p)%nat
  /\ p_cap p' = p_cap p.
Proof.
  intros (Hs & Ha & R & W & R' & W').
  destruct Hs; cbn in *; simplify_eq; unfold in_flight, p_moves; cbn; rewrite ?length_app; cbn;
    try (by apply (f_equal length) in Ha; rewrite length_app in Ha; cbn in Ha; lia);
    (split; [by rewrite <- ?app_assoc|split; [lia|done]]).
Qed.

(** While something is in flight one of them can move. *)
Lemma p_work_enabled (p : pipe) :
  p_run p = true -> p_writer p = true -> in_flight p <> [] -> exists p', p_work p p'.
Proof.
  destruct p as [cap q f c w out acc r wr]. unfold in_flight. cbn. intros -> -> Hne.
  destruct w as [x|]; [eexists; split; [apply PWrite|done]|].
  destruct c as [|x c]; [|eexists; split; [apply PFetch|done]].
  destruct f as [x|]; [eexists; split; [apply PSend; cbn; unfold write_chan_size; lia|done]|].
  destruct q as [|x q]; [done|]. eexists. split; [apply PTake|done].
Qed.

Lemma pipe_cap_reach (cap : nat) (p : pipe) : p_reach cap p -> p_cap p = cap.
Proof. induction 1 as [|p p' _ IH Hs]; [done|]. by destruct Hs. Qed.

(** ** Properties *)

(** C2: fan-out. For every packet of a size the framing loop produces
    and whatever order the client map is visited in, [dispatch] does to
    every client exactly what it would do to that client alone: a client
    not mapped for the channel is untouched, a mapped one with room gets
    one copy at the back of its queue, equal to the packet but for its
    own channel byte, and a mapped one without room is untouched; so a
    slow client changes nothing for the others.  The forwarded, byte and
    drop counters move by one, the packet length and the number of
    refusing clients. *)
Theorem dispatch_fanout `{GoRuntime} (bufferSize : nat) (clients : gmap nat ClientSession)
    (st : Stats) (channel : Z) (packet : gostring) :
  (2 <= length packet <= bufferSize)%nat -> (0 <= PacketsDropped st < 2 ^ 64)%Z ->
  exists clients' st',
    dispatch bufferSize clients st channel packet = Done (clients', st')
    /\ (forall k, clients' !! k = dispatch_one channel packet <$> clients !! k)
    /\ PacketsForwarded st' = uint64_wrap (PacketsForwarded st + 1)
    /\ BytesForwarded st' = uint64_wrap (BytesForwarded st + slen packet)
    /\ PacketsDropped st' = uint64_wrap (PacketsDropped st + Z.of_nat (refusals channel clients)).
Proof.
  intros Hl Hd. rewrite dispatch_fmap by done. eexists _, _. split; [done|].
  split; [|done]. intros k. apply lookup_fmap.
Qed.

Lemma dispatch_fanout_witness :
  let fast := mkClientSession [] [] 2 true false {[0%Z := 4%Z]} in
  let slow := mkClientSession [] [str "x"] 1 true false {[0%Z := 0%Z]} in
  exists clients' st',
    @dispatch sample_runtime 65536 (<[1%nat := fast]> {[2%nat := slow]}) (mkStats 0 0 0 0) 0
      (str "$0abcd") = Done (clients', st')
    /\ clients' !! 1%nat = Some (mkClientSession [] [DOLLAR :: "004"%char :: str "abcd"] 2 true false {[0%Z := 4%Z]})
    /\ clients' !! 2%nat = Some slow /\ PacketsDropped st' = 1%Z.
Proof.
  intros fast slow.
  destruct (@dispatch_fanout sample_runtime 65536 (<[1%nat := fast]> {[2%nat := slow]})
              (mkStats 0 0 0 0) 0 (str "$0abcd")) as (c & s & Hd & Hc & _ & _ & Hp).
  - split; [by vm_compute; lia|apply Nat.leb_le; by vm_compute].
  - cbn. lia.
  - exists c, s. split; [exact Hd|]. split; [rewrite Hc; by vm_compute|].
    split; [rewrite Hc; by vm_compute|]. rewrite Hp. by vm_compute.
Defined.

(** Every packet the framing loop takes from a buffer no larger than
    the pool's buffers is dispatched without panic: the copy
    [buf[:len(packet)]] and the channel byte are in bounds. *)
Theorem framed_packets_dispatch `{GoRuntime} (bufferSize : nat) (clients : gmap nat ClientSession)
    (st : Stats) (buf rest packet : gostring) (channel : Z) :
  (length buf <= bufferSize)%nat -> (0 <= PacketsDropped st < 2 ^ 64)%Z ->
  frame_next buf = Frame (EvDispatch channel packet) rest ->
  exists r, dispatch bufferSize clients st channel packet = Done r.
Proof.
  intros Hb Hd Hf. apply framed_packet_length in Hf as [Hl _].
  rewrite dispatch_fmap by (lia || done). by eexists.
Qed.

Lemma framed_packets_dispatch_witness :
  exists r, @dispatch sample_runtime 16 ∅ (mkStats 0 0 0 0) 1 (encode (WPacket "001"%char (str "ab"))) = Done r.
Proof.
  apply (@framed_packets_dispatch sample_runtime 16 ∅ (mkStats 0 0 0 0)
           (encode (WPacket "001"%char (str "ab")) ++ str "RT") (str "RT")).
  - by vm_compute; lia.
  - cbn; lia.
  - by vm_compute.
Defined.

(** C16: per-client order. However pushes, hand-overs, forwards, writes,
    slow-client timeouts, write errors and shutdowns interleave, what has
    been written to a client's socket is always an initial segment of the
    packets accepted for it, in order and without gaps; while both
    goroutines serve, nothing accepted is lost (written, held by the
    writer, in the write channel, held by the forwarder, or in the queue,
    in that order); and the queue and write channel never exceed their
    capacities. *)
Theorem pipeline_fifo (cap : nat) (p : pipe) :
  p_reach cap p ->
  (exists rest, p_accepted p = p_written p ++ rest)
  /\ (p_run p = true -> p_writer p = true ->
      p_accepted p
      = p_written p ++ in_hand (p_wr p) ++ p_chan p ++ in_hand (p_fwd p) ++ p_queue p)
  /\ (length (p_queue p) <= cap)%nat /\ (length (p_chan p) <= write_chan_size)%nat.
Proof.
  intros Hp. pose proof (pipe_cap_reach cap p Hp) as Hc.
  destruct (pipe_inv_reach cap p Hp) as (H1 & H2 & H3 & H4 & H5).
  split_and!; [done| |lia|done]. intros R W. exact (H5 W R).
Qed.

(** The first packet written, the second in the forwarder's hand, the
    third in the queue. *)
Definition sample_pipe : pipe :=
  mkPipe 2 [str "c"] (Some (str "b")) [] None [str "a"] [str "a"; str "b"; str "c"] true true.

Lemma sample_pipe_reach : p_reach 2 sample_pipe.
Proof.
  eapply PMore; [|apply (PPush 2 [] (Some (str "b")) [] None [str "a"] [str "a"; str "b"] true true (str "c")); cbn; lia].
  eapply PMore; [|apply (PTake 2 (str "b") [])].
  eapply PMore; [|apply (PPush 2 [] None [] None [str "a"] [str "a"] true true (str "b")); cbn; lia].
  eapply PMore; [|apply (PWrite 2 [] None [] (str "a") [])].
  eapply PMore; [|apply PFetch].
  eapply PMore; [|apply (PSend 2 [] (str "a") [] None [] [str "a"]); cbn; unfold write_chan_size; lia].
  eapply PMore; [|apply (PHandOver 2 [] None [] [] true (str "a"))].
  constructor.
Qed.

Lemma pipeline_fifo_witness :
  p_reach 2 sample_pipe
  /\ p_accepted sample_pipe = [str "a"] ++ [] ++ [] ++ [str "b"] ++ [str "c"].
Proof.
  split; [exact sample_pipe_reach|]. apply (pipeline_fifo 2 sample_pipe sample_pipe_reach); reflexivity.
Defined.
