(* ===== verification/Stream.v ===== *)
(** * The stream: src/rtspproxy/stream.go, state and operations

    [Stream] with its state machine, the two signal channels clients wait
    on, the client and session tables, the idle timer and the connect-loop
    flag.  Each operation that runs under the stream's lock is one
    function; [Stop] and [Destroy], which release the lock in between, are
    compositions of such functions.  Channels are named by numbers, a
    fresh one per [make]; a channel is closed when it is in [ch_closed].
    [now] arguments are what [time.Now] returns, in nanoseconds, 0 being
    the zero time. *)

From stdpp Require Import gmap strings list fin_maps.
From Stdlib Require Import Ascii ZArith Lia.
From S2P Require Import Prelude GoStrings Request Digest Metrics Remote Session Fanout.

Local Open Scope go_scope.

(** ** Definitions *)

Inductive StreamState : Type :=
| StateDisconnected
| StateConnecting
| StateReady
| StatePlaying
| StateReconnecting
| StateStopping
| StateDestroyed.

#[global] Instance StreamState_eq_dec : EqDecision StreamState.
Proof. solve_decision. Defined.

Definition state_eqb (a b : StreamState) : bool := bool_decide (a = b).
Infix "=st" := state_eqb (at level 70, no associativity) : go_scope.

Definition StreamState_String (s : StreamState) : gostring :=
  match s with
  | StateDisconnected => str "Disconnected"
  | StateConnecting => str "Connecting"
  | StateReady => str "Ready"
  | StatePlaying => str "Playing"
  | StateReconnecting => str "Reconnecting"
  | StateStopping => str "Stopping"
  | StateDestroyed => str "Destroyed"
  end.

Record Ident := mkIdent {
  id_Host : gostring;
  id_Username : gostring;
  id_Password : gostring;
  id_Path : gostring;
  id_IdleTimeout : Z
}.

Record Meta := mkMeta {
  SDP : gostring;
  Options : gostring;
  Server : gostring
}.

Record Chans := mkChans {
  readyCh : nat;
  sdpReadyCh : nat;
  ch_closed : gset nat;
  ch_next : nat
}.

Record Reconn := mkReconn {
  ReconnectCount : Z;
  LastReconnect : Z;
  ReconnectTotal : Z
}.

Record Times := mkTimes {
  StartTime : Z;
  SessionStartTime : Z;
  LastPktTime : Z
}.

Record Stream := mkStream {
  st_ident : Ident;
  st_meta : Meta;                     (* what the camera announced *)
  st_state : StreamState;
  st_chans : Chans;                   (* readyCh and sdpReadyCh *)
  st_remote : option Remote;
  st_clients : gmap nat ClientSession;
  st_sessions : gmap gostring Session;
  st_timer : option bool;             (* idleTimer: nil, stopped or armed *)
  st_lastClient : Z;
  st_loop : bool;                     (* loopStarted *)
  st_loops : nat;                     (* connectLoop goroutines running *)
  st_stats : Stats;
  st_reconn : Reconn;
  st_times : Times;
  st_done : bool                      (* the context is cancelled *)
}.

Definition with_meta (s : Stream) (m : Meta) : Stream :=
  mkStream (st_ident s) m (st_state s) (st_chans s) (st_remote s) (st_clients s)
    (st_sessions s) (st_timer s) (st_lastClient s) (st_loop s) (st_loops s) (st_stats s)
    (st_reconn s) (st_times s) (st_done s).

Definition with_state (s : Stream) (x : StreamState) : Stream :=
  mkStream (st_ident s) (st_meta s) x (st_chans s) (st_remote s) (st_clients s)
    (st_sessions s) (st_timer s) (st_lastClient s) (st_loop s) (st_loops s) (st_stats s)
    (st_reconn s) (st_times s) (st_done s).

Definition with_chans (s : Stream) (c : Chans) : Stream :=
  mkStream (st_ident s) (st_meta s) (st_state s) c (st_remote s) (st_clients s)
    (st_sessions s) (st_timer s) (st_lastClient s) (st_loop s) (st_loops s) (st_stats s)
    (st_reconn s) (st_times s) (st_done s).

Definition with_remote (s : Stream) (r : option Remote) : Stream :=
  mkStream (st_ident s) (st_meta s) (st_state s) (st_chans s) r (st_clients s)
    (st_sessions s) (st_timer s) (st_lastClient s) (st_loop s) (st_loops s) (st_stats s)
    (st_reconn s) (st_times s) (st_done s).

Definition with_clients (s : Stream) (cs : gmap nat ClientSession) : Stream :=
  mkStream (st_ident s) (st_meta s) (st_state s) (st_chans s) (st_remote s) cs
    (st_sessions s) (st_timer s) (st_lastClient s) (st_loop s) (st_loops s) (st_stats s)
    (st_reconn s) (st_times s) (st_done s).

Definition with_sessions (s : Stream) (ss : gmap gostring Session) : Stream :=
  mkStream (st_ident s) (st_meta s) (st_state s) (st_chans s) (st_remote s) (st_clients s)
    ss (st_timer s) (st_lastClient s) (st_loop s) (st_loops s) (st_stats s) (st_reconn s)
    (st_times s) (st_done s).

Definition with_timer (s : Stream) (t : option bool) : Stream :=
  mkStream (st_ident s) (st_meta s) (st_state s) (st_chans s) (st_remote s) (st_clients s)
    (st_sessions s) t (st_lastClient s) (st_loop s) (st_loops s) (st_stats s) (st_reconn
    s) (st_times s) (st_done s).

Definition with_lastClient (s : Stream) (now : Z) : Stream :=
  mkStream (st_ident s) (st_meta s) (st_state s) (st_chans s) (st_remote s) (st_clients s)
    (st_sessions s) (st_timer s) now (st_loop s) (st_loops s) (st_stats s) (st_reconn s)
    (st_times s) (st_done s).

Definition with_loop (s : Stream) (b : bool) (n : nat) : Stream :=
  mkStream (st_ident s) (st_meta s) (st_state s) (st_chans s) (st_remote s) (st_clients s)
    (st_sessions s) (st_timer s) (st_lastClient s) b n (st_stats s) (st_reconn s)
    (st_times s) (st_done s).

Definition with_stats (s : Stream) (x : Stats) : Stream :=
  mkStream (st_ident s) (st_meta s) (st_state s) (st_chans s) (st_remote s) (st_clients s)
    (st_sessions s) (st_timer s) (st_lastClient s) (st_loop s) (st_loops s) x (st_reconn
    s) (st_times s) (st_done s).

Definition with_reconn (s : Stream) (x : Reconn) : Stream :=
  mkStream (st_ident s) (st_meta s) (st_state s) (st_chans s) (st_remote s) (st_clients s)
    (st_sessions s) (st_timer s) (st_lastClient s) (st_loop s) (st_loops s) (st_stats s) x
    (st_times s) (st_done s).

Definition with_times (s : Stream) (x : Times) : Stream :=
  mkStream (st_ident s) (st_meta s) (st_state s) (st_chans s) (st_remote s) (st_clients s)
    (st_sessions s) (st_timer s) (st_lastClient s) (st_loop s) (st_loops s) (st_stats s)
    (st_reconn s) x (st_done s).

Definition with_done (s : Stream) (b : bool) : Stream :=
  mkStream (st_ident s) (st_meta s) (st_state s) (st_chans s) (st_remote s) (st_clients s)
    (st_sessions s) (st_timer s) (st_lastClient s) (st_loop s) (st_loops s) (st_stats s)
    (st_reconn s) (st_times s) b.

Definition NewStream (host username password path : gostring) (idleTimeout now : Z) (done : bool)
  : Stream :=
  mkStream (mkIdent host username password path idleTimeout) (mkMeta [] [] []) StateDisconnected
    (mkChans 0 1 ∅ 2) None ∅ ∅ None 0 false 0 (mkStats 0 0 0 0) (mkReconn 0 0 0)
    (mkTimes now 0 0) done.

Definition GetState (s : Stream) : StreamState := st_state s.
Definition GetSDP (s : Stream) : gostring := SDP (st_meta s).
Definition GetOptions (s : Stream) : gostring := Options (st_meta s).
Definition ReadyCh (s : Stream) : nat := readyCh (st_chans s).
Definition SDPReadyCh (s : Stream) : nat := sdpReadyCh (st_chans s).

(** Whether a receive on the channel returns at once. *)
Definition is_closed (s : Stream) (ch : nat) : bool := bool_decide (ch ∈ ch_closed (st_chans s)).

(** [select { case <-ch: default: close(ch) }]. *)
Definition close_if_open (c : Chans) (ch : nat) : Chans :=
  if bool_decide (ch ∈ ch_closed c) then c
  else mkChans (readyCh c) (sdpReadyCh c) ({[ch]} ∪ ch_closed c) (ch_next c).

(** Both channels closed. *)
Definition close_both (c : Chans) : Chans := close_if_open (close_if_open c (readyCh c)) (sdpReadyCh c).

(** Both replaced by fresh ones. *)
Definition make_both (c : Chans) : Chans :=
  mkChans (ch_next c) (S (ch_next c)) (ch_closed c) (S (S (ch_next c))).

Definition zero_session_bytes (x : Stats) : Stats :=
  mkStats (PacketsForwarded x) (PacketsDropped x) (BytesForwarded x) 0.

Definition unsafeSetState (now : Z) (state : StreamState) (s : Stream) : Stream :=
  if st_state s =st StateDestroyed then s
  else if st_state s =st state then s
  else
    let s :=
      if ((st_state s =st StateDisconnected) || (st_state s =st StateReconnecting))
         && (state =st StateConnecting)
      then with_chans s (make_both (close_both (st_chans s)))
      else s in
    let s :=
      if state =st StatePlaying then
        let s := with_times s (mkTimes (StartTime (st_times s)) now (LastPktTime (st_times s))) in
        let s := with_stats s (zero_session_bytes (st_stats s)) in
        with_chans s (close_if_open (st_chans s) (readyCh (st_chans s)))
      else s in
    let s := with_state s state in
    if state =st StateDestroyed then with_chans s (close_both (st_chans s)) else s.

Definition setState (now : Z) (state : StreamState) (s : Stream) : Stream := unsafeSetState now state s.

Definition valid_transition (from to : StreamState) : bool :=
  match from with
  | StateDisconnected => (to =st StateConnecting) || (to =st StateDestroyed)
  | StateConnecting =>
      (to =st StatePlaying) || (to =st StateReconnecting) || (to =st StateStopping)
      || (to =st StateDestroyed) || (to =st StateConnecting)
  | StatePlaying =>
      (to =st StateReconnecting) || (to =st StateStopping) || (to =st StateDestroyed)
      || (to =st StatePlaying)
  | StateReconnecting =>
      (to =st StatePlaying) || (to =st StateDisconnected) || (to =st StateStopping)
      || (to =st StateDestroyed) || (to =st StateConnecting) || (to =st StateReconnecting)
  | StateStopping =>
      (to =st StateDisconnected) || (to =st StateDestroyed) || (to =st StateStopping)
  | _ => false
  end.

Definition transition (now : Z) (to : StreamState) (s : Stream) : Stream * option goerror :=
  if st_state s =st StateDestroyed then (s, Some (ErrText (str "stream is destroyed")))
  else if valid_transition (st_state s) to then (unsafeSetState now to s, None)
  else (s, Some (ErrText (str "invalid state transition: " ++ StreamState_String (st_state s)
                           ++ str " -> " ++ StreamState_String to))).

(** [loopStarted.Swap(true)] and the goroutine. *)
Definition startConnectLoop (s : Stream) : Stream :=
  if st_loop s then s else with_loop s true (S (st_loops s)).

(** The deferred calls at the end of that goroutine. *)
Definition endConnectLoop (s : Stream) : Stream := with_loop s false (pred (st_loops s)).

Definition resetIdleTimer (s : Stream) : Stream := with_timer s (Some true).

Definition stopIdleTimer (s : Stream) : Stream :=
  match st_timer s with
  | None => s
  | Some _ => with_timer s (Some false)
  end.

(** The condition the timer's callback checks before it calls [Stop]. *)
Definition idle_expired (s : Stream) : bool :=
  bool_decide (st_clients s = ∅) && negb (st_state s =st StateDestroyed).

Definition AddClient (packetQueueSize : Z) (client : nat) (sessionID : gostring) (s : Stream)
  : outcome (Stream * ClientSession) :=
  let s := stopIdleTimer s in
  match st_clients s !! client with
  | Some cs => Done (s, cs)
  | None =>
      let! cs := NewClientSession packetQueueSize sessionID in
      let cs := cs_Start cs in
      let s := with_clients s (<[client := cs]> (st_clients s)) in
      let s := if st_state s =st StateDisconnected then startConnectLoop s else s in
      Done (s, cs)
  end.

Definition RemoveClient (now : Z) (client : nat) (s : Stream) : outcome Stream :=
  let! s := match st_clients s !! client with
            | Some cs =>
                let! _ := cs_Stop cs in
                Done (with_clients s (delete client (st_clients s)))
            | None => Done s
            end in
  if bool_decide (st_clients s = ∅) && negb (st_state s =st StateDestroyed)
  then Done (resetIdleTimer (with_lastClient s now))
  else Done s.

Definition Start (now : Z) (s : Stream) : Stream :=
  if negb (st_state s =st StateDisconnected) then s
  else
    let s := if bool_decide (st_clients s = ∅) then resetIdleTimer s else s in
    startConnectLoop (unsafeSetState now StateConnecting s).

(** [Stream.MapChannel]. *)
Definition Stream_MapChannel (client : nat) (upstreamChan clientChan : Z) (s : Stream) : Stream :=
  with_clients s (MapChannel (st_clients s) client upstreamChan clientChan).

(** [LookupSession(sessionID, args...)]. *)
Definition LookupSession (sessionID : gostring) (args : list Z) (s : Stream) : Stream * Session :=
  let timeout := match args with t :: _ => t | [] => 60%Z end in
  match st_sessions s !! sessionID with
  | Some session => (s, session)
  | None =>
      let session := NewSession sessionID timeout in
      (with_sessions s (<[sessionID := session]> (st_sessions s)), session)
  end.

(** The SDP of a finished DESCRIBE, published by [doConnectSequence]. *)
Definition publish_sdp (sdp : gostring) (s : Stream) : Stream :=
  let s := with_meta s (mkMeta sdp (Options (st_meta s)) (Server (st_meta s))) in
  with_chans s (close_if_open (st_chans s) (sdpReadyCh (st_chans s))).

(** [dispatch] on the stream's tables: the part under the lock, which
    returns the snapshot of delivery points, and one delivery. *)
Definition Stream_dispatch_begin `{GoRuntime} (now channel : Z) (packet : gostring) (s : Stream)
  : Stream * list (nat * Z) :=
  let '(targets, stats) := dispatch_begin (st_clients s) (st_stats s) channel packet in
  let s := with_times s (mkTimes (StartTime (st_times s)) (SessionStartTime (st_times s)) now) in
  (with_stats s stats, targets).

Definition Stream_deliver (bufferSize : nat) (packet : gostring) (target : nat * Z) (s : Stream)
  : outcome Stream :=
  let! (clients, dropped) :=
    deliver_one bufferSize packet target (st_clients s) (PacketsDropped (st_stats s)) in
  Done (with_stats (with_clients s clients) (with_dropped (st_stats s) dropped)).

Section StreamIO.
Context `{GoRuntime, NetURL, Crypto}.

(** The transport both [LookupTransport]s return: the first match in the
    sessions, visited in the order the run time ranges over the map. *)
Fixpoint transport_in (entries : list (gostring * Session)) (p : Transport -> bool)
  : option (gostring * nat * Transport) :=
  match entries with
  | [] => None
  | (id, session) :: es =>
      match find_transport p (sess_Transports session) with
      | Some (i, t) => Some (id, i, t)
      | None => transport_in es p
      end
  end.

Definition LookupTransport (substreamName protocol comType : gostring) (s : Stream)
  : option (gostring * nat * Transport) :=
  match st_remote s with
  | None => None
  | Some _ => transport_in (map_range (st_sessions s)) (transport_matches substreamName protocol comType)
  end.

(** The [SendTeardown] loop of [Stop] and [Destroy]: errors are ignored;
    [env i] and [buf i] are what the [i]-th send meets. *)
Fixpoint teardown_all (env : nat -> NetEnv) (buf : nat -> gostring) (i : nat) (path : gostring)
    (ids : list gostring) (r : Remote) (mt : Metrics) : outcome (Remote * Metrics * list gostring) :=
  match ids with
  | [] => Done (r, mt, [])
  | id :: ids' =>
      let! (r, mt, raw, _) := SendTeardown (env i) (buf i) r path id mt in
      let! (r, mt, raws) := teardown_all env buf (S i) path ids' r mt in
      Done (r, mt, raw :: raws)
  end.

(** [if remote != nil { for id := range sessions {...}; remote.Disconnect() }]. *)
Definition hang_up (env : nat -> NetEnv) (buf : nat -> gostring) (path : gostring)
    (sessions : gmap gostring Session) (remote : option Remote) (mt : Metrics)
  : outcome (option Remote * Metrics * list gostring) :=
  match remote with
  | None => Done (None, mt, [])
  | Some r =>
      let! (r, mt, raws) := teardown_all env buf 0 path (map fst (map_range sessions)) r mt in
      Done (Some (Disconnect r), mt, raws)
  end.

(** The lock section of [Stop]: the sessions are taken. *)
Definition Stop_take (s : Stream) : Stream * gmap gostring Session := (with_sessions s ∅, st_sessions s).

(** [Stop] up to the release of the lock, run without interference;
    [None] when the transition is refused. *)
Definition Stop_begin (now : Z) (s : Stream) : option (Stream * gmap gostring Session) :=
  match transition now StateStopping s with
  | (_, Some _) => None
  | (s, None) => Some (Stop_take s)
  end.

Definition Stop_end (now : Z) (s : Stream) : Stream := (transition now StateDisconnected s).1.

(** [Stop] run without interference: the stream, the requests written and
    the sessions stopped. *)
Definition Stop (env : nat -> NetEnv) (buf : nat -> gostring) (now : Z) (s : Stream) (mt : Metrics)
  : outcome (Stream * Metrics * list gostring * list Session) :=
  match Stop_begin now s with
  | None => Done (s, mt, [], [])
  | Some (s, sessions) =>
      let! (r, mt, raws) := hang_up env buf (id_Path (st_ident s)) sessions (st_remote s) mt in
      let s := with_remote s r in
      Done (Stop_end now s, mt, raws, map (fun e => Session_Stop e.2) (map_range sessions))
  end.

(** [cs.Stop()] on every client session. *)
Fixpoint stop_clients (entries : list (nat * ClientSession)) : outcome (list ClientSession) :=
  match entries with
  | [] => Done []
  | (_, cs) :: es =>
      let! cs := cs_Stop cs in
      let! rest := stop_clients es in
      Done (cs :: rest)
  end.

(** The lock section of [Destroy]. *)
Definition Destroy_take (s : Stream) : Stream :=
  stopIdleTimer (with_sessions (with_clients (with_remote s None) ∅) ∅).

(** [Destroy] up to the release of the lock, run without interference:
    the transition, the cancelled context, the lock section. *)
Definition Destroy_begin (now : Z) (s : Stream) : Stream :=
  Destroy_take (with_done (transition now StateDestroyed s).1 true).

(** What [Destroy] has done besides: the connection it hung up, the
    requests written, the sessions stopped. *)
Record released := mkReleased {
  rel_remote : option Remote;
  rel_raws : list gostring;
  rel_clients : list ClientSession;
  rel_sessions : list Session
}.

(** [Destroy] up to its last two calls: [onDestroy], which the manager
    supplies ([StreamManager.destroy_stream]), and [s.wg.Wait()]. *)
Definition Destroy (env : nat -> NetEnv) (buf : nat -> gostring) (now : Z) (s : Stream) (mt : Metrics)
  : outcome (Stream * Metrics * released) :=
  let s' := Destroy_begin now s in
  let! (r, mt, raws) := hang_up env buf (id_Path (st_ident s)) (st_sessions s) (st_remote s) mt in
  let! stopped := stop_clients (map_range (st_clients s)) in
  Done (s', mt, mkReleased r raws stopped (map (fun e => Session_Stop e.2) (map_range (st_sessions s)))).

(** Whether [s.wg.Wait()] returns: the connect loop is the only goroutine
    the group counts. *)
Definition Destroy_returns (s : Stream) : bool := (st_loops s =? 0)%nat.

(** *** The operations as steps

    Every way the state, the channels, the tables, the timer and the
    connect-loop flag of a stream change, each under the lock in the code:
    [queue] is the configured queue size. *)
Inductive st_step (queue : Z) : Stream -> Stream -> Prop :=
| StTransition now to s : st_step queue s (transition now to s).1
| StStart now s : st_step queue s (Start now s)
| StAddClient client id s s' cs :
    AddClient queue client id s = Done (s', cs) -> st_step queue s s'
| StRemoveClient now client s s' :
    RemoveClient now client s = Done s' -> st_step queue s s'
| StMapChannel client u c s : st_step queue s (Stream_MapChannel client u c s)
| StDispatch now channel packet s : st_step queue s (Stream_dispatch_begin now channel packet s).1
| StDeliver bufferSize packet target s s' :
    Stream_deliver bufferSize packet target s = Done s' -> st_step queue s s'
| StLookupSession id args s : st_step queue s (LookupSession id args s).1
| StSessions ss s : st_step queue s (with_sessions s ss)
| StRemote r s : st_step queue s (with_remote s r)
| StMeta m s : st_step queue s (with_meta s m)
| StReconn x s : st_step queue s (with_reconn s x)
| StPublish sdp s : st_step queue s (publish_sdp sdp s)
| StTimerFires s : st_timer s = Some true -> st_step queue s (with_timer s (Some false))
| StLoopEnd s : (0 < st_loops s)%nat -> st_step queue s (endConnectLoop s)
| StCancel s : st_step queue s (with_done s true)
| StDestroyTake s : st_step queue s (Destroy_take s).

Inductive st_steps (queue : Z) : Stream -> Stream -> Prop :=
| StRefl s : st_steps queue s s
| StMore s s' s'' : st_steps queue s s' -> st_step queue s' s'' -> st_steps queue s s''.

(** The streams a run can reach: from [NewStream]. *)
Definition st_reach (queue : Z) (s : Stream) : Prop :=
  exists host user pass path idle now done,
    st_steps queue (NewStream host user pass path idle now done) s.

End StreamIO.

(** ** Invariant *)

(** Channels are numbered below [ch_next], and every one that is no longer
    current is closed. *)
Record chans_inv (c : Chans) : Prop := {
  ci_ready : (readyCh c < ch_next c)%nat;
  ci_sdp : (sdpReadyCh c < ch_next c)%nat;
  ci_apart : readyCh c <> sdpReadyCh c;
  ci_old : forall ch, (ch < ch_next c)%nat ->
    ch = readyCh c \/ ch = sdpReadyCh c \/ ch ∈ ch_closed c
}.

(** A registered client session is started and not stopped. *)
Definition registered (cs : ClientSession) : Prop := cs_active cs = true /\ cs_quit cs = false.

Record stream_inv (s : Stream) : Prop := {
  si_chans : chans_inv (st_chans s);
  si_playing : st_state s = StatePlaying -> readyCh (st_chans s) ∈ ch_closed (st_chans s);
  si_destroyed : st_state s = StateDestroyed ->
    forall ch, (ch < ch_next (st_chans s))%nat -> ch ∈ ch_closed (st_chans s);
  si_ready : st_state s <> StateReady;
  si_loop : st_loops s = (if st_loop s then 1 else 0)%nat;
  si_clients : map_Forall (fun _ => registered) (st_clients s)
}.

(** How the channels of two moments of a run relate. *)
Record chans_later (c c' : Chans) : Prop := {
  cl_closed : ch_closed c ⊆ ch_closed c';
  cl_next : (ch_next c <= ch_next c')%nat
}.

(** ** Lemmas *)

#[global] Instance chans_later_preorder : PreOrder chans_later.
Proof.
  split; [by split|]. intros c1 c2 c3 [H1 H2] [H3 H4]. split; [set_solver|lia].
Qed.

Lemma state_eqb_true (a b : StreamState) : state_eqb a b = true <-> a = b.
Proof. apply bool_decide_eq_true. Qed.

Lemma state_eqb_false (a b : StreamState) : state_eqb a b = false <-> a <> b.
Proof. apply bool_decide_eq_false. Qed.

Lemma close_if_open_closed (c : Chans) (ch : nat) :
  ch_closed (close_if_open c ch) = {[ch]} ∪ ch_closed c.
Proof. unfold close_if_open. case_bool_decide; [set_solver|done]. Qed.

Lemma close_if_open_fields (c : Chans) (ch : nat) :
  readyCh (close_if_open c ch) = readyCh c /\ sdpReadyCh (close_if_open c ch) = sdpReadyCh c
  /\ ch_next (close_if_open c ch) = ch_next c.
Proof. unfold close_if_open. by case_bool_decide. Qed.

Lemma close_both_spec (c : Chans) :
  readyCh (close_both c) = readyCh c /\ sdpReadyCh (close_both c) = sdpReadyCh c
  /\ ch_next (close_both c) = ch_next c
  /\ ch_closed (close_both c) = {[sdpReadyCh c]} ∪ ({[readyCh c]} ∪ ch_closed c).
Proof.
  unfold close_both.
  destruct (close_if_open_fields c (readyCh c)) as (E1 & E2 & E3).
  destruct (close_if_open_fields (close_if_open c (readyCh c)) (sdpReadyCh c)) as (F1 & F2 & F3).
  rewrite F1, F2, F3, E1, E2, E3, !close_if_open_closed. done.
Qed.

Lemma close_if_open_inv (c : Chans) (ch : nat) : chans_inv c -> chans_inv (close_if_open c ch).
Proof.
  intros [H1 H2 H3 H4]. destruct (close_if_open_fields c ch) as (E1 & E2 & E3).
  split; rewrite ?E1, ?E2, ?E3; [done..|].
  intros x Hx. rewrite close_if_open_closed. destruct (H4 x Hx) as [?|[?|?]]; set_solver.
Qed.

Lemma close_both_inv (c : Chans) : chans_inv c -> chans_inv (close_both c).
Proof. intros Hc. by apply close_if_open_inv, close_if_open_inv. Qed.

Lemma close_both_all (c : Chans) (ch : nat) :
  chans_inv c -> (ch < ch_next c)%nat -> ch ∈ ch_closed (close_both c).
Proof.
  intros [_ _ _ H4] Hch. destruct (close_both_spec c) as (_ & _ & _ & ->).
  destruct (H4 ch Hch) as [?|[?|?]]; set_solver.
Qed.

Lemma renew_inv (c : Chans) : chans_inv c -> chans_inv (make_both (close_both c)).
Proof.
  intros Hc. destruct (close_both_spec c) as (E1 & E2 & E3 & _).
  split; cbn; try lia. intros ch Hch. rewrite E3 in *.
  destruct (decide (ch < ch_next c)%nat) as [Hlt|Hge].
  - right. right. by apply close_both_all.
  - lia.
Qed.

Lemma close_if_open_later (c : Chans) (ch : nat) : chans_later c (close_if_open c ch).
Proof.
  destruct (close_if_open_fields c ch) as (_ & _ & E3).
  split; [rewrite close_if_open_closed; set_solver|lia].
Qed.

Lemma close_both_later (c : Chans) : chans_later c (close_both c).
Proof. unfold close_both. etrans; apply close_if_open_later. Qed.

Lemma renew_later (c : Chans) : chans_later c (make_both (close_both c)).
Proof.
  etrans; [apply close_both_later|]. split; cbn; [done|lia].
Qed.

(** What [unsafeSetState] leaves alone. *)
Lemma unsafeSetState_frame (now : Z) (to : StreamState) (s : Stream) :
  let s' := unsafeSetState now to s in
  st_clients s' = st_clients s /\ st_loop s' = st_loop s /\ st_loops s' = st_loops s
  /\ st_remote s' = st_remote s /\ st_sessions s' = st_sessions s /\ st_timer s' = st_timer s
  /\ st_done s' = st_done s /\ st_ident s' = st_ident s /\ st_meta s' = st_meta s.
Proof. unfold unsafeSetState. case_if; by cbn. Qed.

(** The state [unsafeSetState] leads to. *)
Lemma unsafeSetState_state (now : Z) (to : StreamState) (s : Stream) :
  st_state (unsafeSetState now to s)
  = (if st_state s =st StateDestroyed then StateDestroyed else to).
Proof.
  unfold unsafeSetState. destruct (st_state s =st StateDestroyed) eqn:E1.
  - by apply state_eqb_true in E1.
  - destruct (st_state s =st to) eqn:E2; [by apply state_eqb_true in E2|].
    case_if; by cbn.
Qed.

Lemma unsafeSetState_later (now : Z) (to : StreamState) (s : Stream) :
  chans_later (st_chans s) (st_chans (unsafeSetState now to s)).
Proof.
  unfold unsafeSetState. case_if; cbn;
    repeat (first [reflexivity | apply renew_later | apply close_if_open_later
                  | apply close_both_later
                  | etrans; [|apply close_if_open_later] | etrans; [|apply close_both_later]]).
Qed.

Lemma unsafeSetState_chans_inv (now : Z) (to : StreamState) (s : Stream) :
  chans_inv (st_chans s) -> chans_inv (st_chans (unsafeSetState now to s)).
Proof.
  intros Hc. unfold unsafeSetState. case_if; cbn;
    repeat (first [done | apply close_both_inv | apply close_if_open_inv | apply renew_inv]).
Qed.

Lemma unsafeSetState_inv (now : Z) (to : StreamState) (s : Stream) :
  to <> StateReady -> stream_inv s -> stream_inv (unsafeSetState now to s).
Proof.
  intros Hto [Hc Hp Hd Hr Hl Hcl].
  destruct (unsafeSetState_frame now to s) as (E1 & E2 & E3 & _).
  pose proof (unsafeSetState_state now to s) as Es.
  split.
  - by apply unsafeSetState_chans_inv.
  - intros HP. rewrite HP in Es. unfold unsafeSetState in *.
    destruct (st_state s =st StateDestroyed) eqn:D1; [done|]. subst to.
    destruct (st_state s =st StatePlaying) eqn:D2; [apply state_eqb_true in D2; auto|].
    change (StatePlaying =st StateConnecting) with false. rewrite andb_false_r.
    change (StatePlaying =st StatePlaying) with true.
    change (StatePlaying =st StateDestroyed) with false.
    cbn [with_state with_chans with_stats with_times st_chans].
    destruct (close_if_open_fields (st_chans s) (readyCh (st_chans s))) as (-> & _ & _).
    rewrite close_if_open_closed. set_solver.
  - intros HD. rewrite HD in Es. unfold unsafeSetState in *.
    destruct (st_state s =st StateDestroyed) eqn:D1; [by apply Hd, state_eqb_true|]. subst to.
    rewrite D1. change (StateDestroyed =st StateConnecting) with false. rewrite andb_false_r.
    change (StateDestroyed =st StatePlaying) with false.
    change (StateDestroyed =st StateDestroyed) with true.
    cbn [with_state with_chans st_chans].
    intros ch Hch. destruct (close_both_spec (st_chans s)) as (_ & _ & E & _). rewrite E in Hch.
    by apply close_both_all.
  - rewrite Es. by destruct (_ =st _).
  - by rewrite E2, E3.
  - by rewrite E1.
Qed.

(** The invariant looks at the state, the channels, the loop and the
    clients only. *)
Lemma stream_inv_frame (s s' : Stream) :
  st_state s' = st_state s -> st_chans s' = st_chans s -> st_loop s' = st_loop s ->
  st_loops s' = st_loops s -> st_clients s' = st_clients s -> stream_inv s -> stream_inv s'.
Proof.
  intros E1 E2 E3 E4 E5 [? ? ? ? ? ?]. split; rewrite ?E1, ?E2, ?E3, ?E4, ?E5; done.
Qed.

Lemma transition_cases (now : Z) (to : StreamState) (s : Stream) :
  (transition now to s).1 = s \/
  (valid_transition (st_state s) to = true /\ (transition now to s).1 = unsafeSetState now to s).
Proof.
  unfold transition. destruct (_ =st _); [by left|].
  destruct (valid_transition _ _) eqn:E; [by right|by left].
Qed.

Lemma valid_not_ready (from to : StreamState) : valid_transition from to = true -> to <> StateReady.
Proof. intros H ->. by destruct from. Qed.

Lemma transition_inv (now : Z) (to : StreamState) (s : Stream) :
  stream_inv s -> stream_inv (transition now to s).1.
Proof.
  intros Hs. destruct (transition_cases now to s) as [->|[Hv ->]]; [done|].
  apply unsafeSetState_inv; [by eapply valid_not_ready|done].
Qed.

Lemma startConnectLoop_inv (s : Stream) : stream_inv s -> stream_inv (startConnectLoop s).
Proof.
  intros [? ? ? ? Hl ?]. unfold startConnectLoop. destruct (st_loop s) eqn:E; [by split; rewrite ?E|].
  split; try done. cbn. by rewrite Hl.
Qed.

Lemma stopIdleTimer_inv (s : Stream) : stream_inv s -> stream_inv (stopIdleTimer s).
Proof. intros Hs. unfold stopIdleTimer. destruct (st_timer s); [|done]. by apply (stream_inv_frame s). Qed.

Lemma with_clients_inv (s : Stream) (m : gmap nat ClientSession) :
  map_Forall (fun _ => registered) m -> stream_inv s -> stream_inv (with_clients s m).
Proof. intros Hm [? ? ? ? ? ?]. by split. Qed.

Lemma Start_inv (now : Z) (s : Stream) : stream_inv s -> stream_inv (Start now s).
Proof.
  intros Hs. unfold Start. destruct (negb _); [done|].
  apply startConnectLoop_inv, unsafeSetState_inv; [done|].
  case_bool_decide; [by apply (stream_inv_frame s)|done].
Qed.

(** What [AddClient] does to the tables, the loop and the timer. *)
Lemma AddClient_spec (queue : Z) (client : nat) (id : gostring) (s : Stream) :
  (0 <= queue)%Z ->
  exists s' cs, AddClient queue client id s = Done (s', cs)
    /\ match st_clients s !! client with
       | Some cs0 => cs = cs0 /\ s' = stopIdleTimer s
       | None => cs = mkClientSession id [] (Z.to_nat queue) true false ∅
                 /\ s' = (let s1 := with_clients (stopIdleTimer s) (<[client := cs]> (st_clients s)) in
                          if st_state s =st StateDisconnected then startConnectLoop s1 else s1)
       end.
Proof.
  intros Hq. unfold AddClient.
  assert (E : st_clients (stopIdleTimer s) = st_clients s /\ st_state (stopIdleTimer s) = st_state s)
    by (unfold stopIdleTimer; by destruct (st_timer s)).
  destruct E as [-> E2]. destruct (st_clients s !! client) as [cs0|] eqn:E; [by eexists _, _|].
  unfold NewClientSession. rewrite (proj2 (Z.ltb_ge queue 0) Hq). cbn [outcome_bind].
  cbn. rewrite E2. by eexists _, _.
Qed.

Lemma AddClient_inv (queue : Z) (client : nat) (id : gostring) (s s' : Stream) (cs : ClientSession) :
  AddClient queue client id s = Done (s', cs) -> stream_inv s -> stream_inv s'.
Proof.
  intros Ha Hs. destruct (decide (0 <= queue)%Z) as [Hq|Hq].
  - destruct (AddClient_spec queue client id s Hq) as (s1 & cs1 & E & Hsp).
    rewrite Ha in E. injection E as <- <-.
    destruct (st_clients s !! client) as [cs0|] eqn:El.
    + destruct Hsp as [_ ->]. by apply stopIdleTimer_inv.
    + destruct Hsp as [-> ->].
      assert (Hm : stream_inv (with_clients (stopIdleTimer s)
        (<[client := mkClientSession id [] (Z.to_nat queue) true false ∅]> (st_clients s)))).
      { apply with_clients_inv; [|by apply stopIdleTimer_inv].
        apply map_Forall_insert_2; [done|]. by destruct Hs. }
      cbn zeta. destruct (_ =st _); [by apply startConnectLoop_inv|done].
  - unfold AddClient in Ha.
    destruct (st_clients (stopIdleTimer s) !! client); [injection Ha as <- <-; by apply stopIdleTimer_inv|].
    unfold NewClientSession in Ha. by rewrite (proj2 (Z.ltb_lt queue 0)) in Ha by lia.
Qed.

(** [RemoveClient] never meets a session whose channel is closed. *)
Lemma RemoveClient_spec (now : Z) (client : nat) (s : Stream) :
  stream_inv s ->
  let s1 := with_clients s (delete client (st_clients s)) in
  RemoveClient now client s
  = Done (if bool_decide (delete client (st_clients s) = ∅) && negb (st_state s =st StateDestroyed)
          then resetIdleTimer (with_lastClient s1 now) else s1).
Proof.
  intros Hs s1. unfold RemoveClient. destruct (st_clients s !! client) as [cs|] eqn:El.
  - destruct (si_clients s Hs client cs El) as [Ha Hq].
    unfold cs_Stop. rewrite Ha, Hq. cbn. by destruct (_ && _)%bool.
  - cbn [outcome_bind]. subst s1. rewrite (delete_id _ _ El).
    destruct (_ && _)%bool; by destruct s.
Qed.

Lemma RemoveClient_inv (now : Z) (client : nat) (s s' : Stream) :
  RemoveClient now client s = Done s' -> stream_inv s -> stream_inv s'.
Proof.
  intros Hr Hs. rewrite (RemoveClient_spec now client s Hs) in Hr. injection Hr as <-.
  assert (H1 : stream_inv (with_clients s (delete client (st_clients s)))).
  { apply with_clients_inv; [|done]. apply map_Forall_delete. by destruct Hs. }
  destruct (_ && _)%bool; [|done].
  by apply (stream_inv_frame (with_clients s (delete client (st_clients s)))).
Qed.

Lemma MapChannel_registered (m : gmap nat ClientSession) (client : nat) (u c : Z) :
  map_Forall (fun _ => registered) m -> map_Forall (fun _ => registered) (MapChannel m client u c).
Proof.
  intros Hm. unfold MapChannel. destruct (m !! client) as [cs|] eqn:E; [|done].
  apply map_Forall_insert_2; [|done]. by apply (Hm client cs).
Qed.

Lemma deliver_registered (bufferSize : nat) (packet : gostring) (target : nat * Z)
    (m m' : gmap nat ClientSession) (d d' : Z) :
  deliver_one bufferSize packet target m d = Done (m', d') ->
  map_Forall (fun _ => registered) m -> map_Forall (fun _ => registered) m'.
Proof.
  destruct target as [client c]. unfold deliver_one. cbn [fst snd].
  destruct (client_packet _ _ _) as [p|]; [|done]. cbn [outcome_bind].
  destruct (m !! client) as [cs|] eqn:E; [|by intros [= <- _]].
  destruct (Push cs p) as [cs' ok] eqn:Ep. intros [= <- _] Hm.
  apply map_Forall_insert_2; [|done].
  pose proof (Hm client cs E) as [Ha Hq]. unfold Push in Ep.
  destruct (_ <? _)%nat; injection Ep as <- _; by split.
Qed.

Lemma Stream_deliver_inv (bufferSize : nat) (packet : gostring) (target : nat * Z) (s s' : Stream) :
  Stream_deliver bufferSize packet target s = Done s' -> stream_inv s -> stream_inv s'.
Proof.
  unfold Stream_deliver. intros Hd Hs.
  destruct (deliver_one _ _ _ _ _) as [[m d]|] eqn:E; [|done]. injection Hd as <-.
  destruct Hs as [? ? ? ? ? Hc]. split; cbn; try done. by eapply deliver_registered.
Qed.

Lemma Destroy_take_inv (s : Stream) : stream_inv s -> stream_inv (Destroy_take s).
Proof.
  intros Hs. unfold Destroy_take. apply stopIdleTimer_inv.
  apply (stream_inv_frame (with_clients s ∅)); try done.
  by apply with_clients_inv; [apply map_Forall_empty|].
Qed.

Lemma Destroy_begin_inv (now : Z) (s : Stream) : stream_inv s -> stream_inv (Destroy_begin now s).
Proof.
  intros Hs. unfold Destroy_begin. apply Destroy_take_inv.
  apply (stream_inv_frame (transition now StateDestroyed s).1); try done. by apply transition_inv.
Qed.

Lemma NewStream_inv (host user pass path : gostring) (idle now : Z) (done : bool) :
  stream_inv (NewStream host user pass path idle now done).
Proof.
  split; try by cbn.
  - split; cbn; [lia|lia|lia|]. intros ch. rewrite elem_of_empty. lia.
Qed.

Lemma st_step_inv `{GoRuntime} (queue : Z) (s s' : Stream) :
  st_step queue s s' -> stream_inv s -> stream_inv s'.
Proof.
  intros Hstep Hs. destruct Hstep.
  - by apply transition_inv.
  - by apply Start_inv.
  - by eapply AddClient_inv.
  - by eapply RemoveClient_inv.
  - apply with_clients_inv; [|done]. apply MapChannel_registered. by destruct Hs.
  - by apply (stream_inv_frame s).
  - by eapply Stream_deliver_inv.
  - unfold LookupSession. destruct (_ !! _); [done|]. by apply (stream_inv_frame s).
  - by apply (stream_inv_frame s).
  - by apply (stream_inv_frame s).
  - by apply (stream_inv_frame s).
  - by apply (stream_inv_frame s).
  - destruct Hs as [Hc Hp Hd Hr Hl Hcl]. unfold publish_sdp.
    destruct (close_if_open_fields (st_chans s) (sdpReadyCh (st_chans s))) as (E1 & _ & E3).
    split; cbn; try done.
    + by apply close_if_open_inv.
    + intros HP. rewrite E1, close_if_open_closed. set_solver.
    + intros HD ch. rewrite E3, close_if_open_closed. set_solver.
  - by apply (stream_inv_frame s).
  - destruct Hs as [Hc Hp Hd Hr Hl Hcl]. split; cbn; try done.
    destruct (st_loop s); lia.
  - by apply (stream_inv_frame s).
  - by apply Destroy_take_inv.
Qed.

Lemma st_steps_inv `{GoRuntime} (queue : Z) (s s' : Stream) :
  st_steps queue s s' -> stream_inv s -> stream_inv s'.
Proof. induction 1; [done|]. eauto using st_step_inv. Qed.

Lemma st_reach_inv `{GoRuntime} (queue : Z) (s : Stream) : st_reach queue s -> stream_inv s.
Proof. intros (? & ? & ? & ? & ? & ? & ? & Hs). eapply st_steps_inv; [done|]. apply NewStream_inv. Qed.

Lemma transition_later (now : Z) (to : StreamState) (s : Stream) :
  chans_later (st_chans s) (st_chans (transition now to s).1).
Proof.
  destruct (transition_cases now to s) as [->|[_ ->]]; [reflexivity|apply unsafeSetState_later].
Qed.

Lemma startConnectLoop_frame (s : Stream) :
  st_chans (startConnectLoop s) = st_chans s /\ st_state (startConnectLoop s) = st_state s.
Proof. unfold startConnectLoop. by destruct (st_loop s). Qed.

Lemma stopIdleTimer_frame (s : Stream) :
  st_chans (stopIdleTimer s) = st_chans s /\ st_state (stopIdleTimer s) = st_state s
  /\ st_clients (stopIdleTimer s) = st_clients s /\ st_sessions (stopIdleTimer s) = st_sessions s
  /\ st_remote (stopIdleTimer s) = st_remote s /\ st_done (stopIdleTimer s) = st_done s.
Proof. unfold stopIdleTimer. by destruct (st_timer s). Qed.

Lemma stopIdleTimer_unarmed (s : Stream) : st_timer (stopIdleTimer s) <> Some true.
Proof. unfold stopIdleTimer. destruct (st_timer s) as [b|] eqn:E; [done|]. by rewrite E. Qed.

(** The client operations touch neither the state nor the channels. *)
Lemma AddClient_frame (queue : Z) (client : nat) (id : gostring) (s s' : Stream) (cs : ClientSession) :
  AddClient queue client id s = Done (s', cs) ->
  st_chans s' = st_chans s /\ st_state s' = st_state s.
Proof.
  unfold AddClient. destruct (stopIdleTimer_frame s) as (E1 & E2 & _).
  destruct (_ !! client); [intros [= <- <-]; auto|].
  destruct (NewClientSession queue id); [|done]. cbn [outcome_bind]. intros [= <- <-].
  destruct (_ =st _); [|by rewrite <-E1, <-E2].
  match goal with |- context [startConnectLoop ?x] => destruct (startConnectLoop_frame x) as [-> ->] end.
  by rewrite <-E1, <-E2.
Qed.

Lemma RemoveClient_frame (now : Z) (client : nat) (s s' : Stream) :
  RemoveClient now client s = Done s' -> st_chans s' = st_chans s /\ st_state s' = st_state s.
Proof.
  unfold RemoveClient. destruct (_ !! client) as [cs|].
  - destruct (cs_Stop cs); [|done]. cbn [outcome_bind]. by case_if; intros [= <-].
  - cbn [outcome_bind]. by case_if; intros [= <-].
Qed.

Lemma Stream_deliver_frame (bufferSize : nat) (packet : gostring) (target : nat * Z) (s s' : Stream) :
  Stream_deliver bufferSize packet target s = Done s' ->
  st_chans s' = st_chans s /\ st_state s' = st_state s.
Proof.
  unfold Stream_deliver. destruct (deliver_one _ _ _ _ _) as [[m d]|]; [|done].
  by intros [= <-].
Qed.

Lemma Start_cases (now : Z) (s : Stream) :
  Start now s = s \/
  (st_state s = StateDisconnected /\ st_state (Start now s) = StateConnecting
   /\ chans_later (st_chans s) (st_chans (Start now s))).
Proof.
  unfold Start. destruct (st_state s =st StateDisconnected) eqn:E; [right|by left].
  apply state_eqb_true in E. cbn [negb]. split; [done|].
  set (s1 := if bool_decide _ then _ else _).
  assert (Hs1 : st_state s1 = StateDisconnected /\ st_chans s1 = st_chans s)
    by (subst s1; by case_bool_decide).
  destruct Hs1 as [E1 E2].
  destruct (startConnectLoop_frame (unsafeSetState now StateConnecting s1)) as [-> ->].
  rewrite unsafeSetState_state, E1, <-E2. split; [done|]. apply unsafeSetState_later.
Qed.

(** What the lock section of [Destroy] empties and what it keeps. *)
Lemma Destroy_take_frame (s : Stream) :
  let s' := Destroy_take s in
  st_chans s' = st_chans s /\ st_state s' = st_state s /\ st_done s' = st_done s
  /\ st_loop s' = st_loop s /\ st_loops s' = st_loops s
  /\ st_clients s' = ∅ /\ st_sessions s' = ∅ /\ st_remote s' = None /\ st_timer s' <> Some true.
Proof. unfold Destroy_take, stopIdleTimer. cbn. destruct (st_timer s) eqn:E; cbn; rewrite ?E; by split_and!. Qed.

Lemma Destroy_begin_chans (now : Z) (s : Stream) :
  st_chans (Destroy_begin now s) = st_chans (transition now StateDestroyed s).1
  /\ st_state (Destroy_begin now s) = st_state (transition now StateDestroyed s).1.
Proof. unfold Destroy_begin. by destruct (Destroy_take_frame (with_done (transition now StateDestroyed s).1 true)) as (-> & -> & _). Qed.

(** The states a step can lead to. *)
Definition edge (from to : StreamState) : Prop :=
  to = from \/ (from <> StateDestroyed /\ valid_transition from to = true).

Lemma st_step_edge `{GoRuntime} (queue : Z) (s s' : Stream) :
  st_step queue s s' ->
  chans_later (st_chans s) (st_chans s') /\ edge (st_state s) (st_state s').
Proof.
  assert (Htr : forall now to s0, chans_later (st_chans s0) (st_chans (transition now to s0).1)
    /\ edge (st_state s0) (st_state (transition now to s0).1)).
  { intros now to s0. split; [apply transition_later|].
    destruct (transition_cases now to s0) as [->|[Hv ->]]; [by left|].
    rewrite unsafeSetState_state. destruct (_ =st _) eqn:E.
    - apply state_eqb_true in E. rewrite E in Hv. done.
    - right. by apply state_eqb_false in E. }
  assert (Hsame : forall s0 s1 : Stream, st_chans s1 = st_chans s0 -> st_state s1 = st_state s0 ->
    chans_later (st_chans s0) (st_chans s1) /\ edge (st_state s0) (st_state s1)).
  { intros s0 s1 -> ->. split; [reflexivity|by left]. }
  intros Hstep. destruct Hstep; try by apply Hsame.
  - apply Htr.
  - destruct (Start_cases now s) as [->|(E & E' & Hl)]; [by apply Hsame|].
    split; [done|]. rewrite E, E'. by right.
  - apply Hsame; by eapply AddClient_frame.
  - apply Hsame; by eapply RemoveClient_frame.
  - apply Hsame; by eapply Stream_deliver_frame.
  - unfold LookupSession. destruct (_ !! _); by apply Hsame.
  - split; [apply close_if_open_later|by left].
  - destruct (Destroy_take_frame s) as (E1 & E2 & _). by apply Hsame.
Qed.

Lemma st_steps_later `{GoRuntime} (queue : Z) (s s' : Stream) :
  st_steps queue s s' -> chans_later (st_chans s) (st_chans s')
  /\ (st_state s = StateDestroyed -> st_state s' = StateDestroyed).
Proof.
  induction 1 as [s|s s' s'' _ [IH1 IH2] Hstep]; [split; [reflexivity|done]|].
  apply st_step_edge in Hstep as [Hl He]. split; [by etrans|].
  intros HD. specialize (IH2 HD). rewrite IH2 in He. destruct He as [?|[? _]]; done.
Qed.

(** One request per session, in this order: the TEARDOWN of that session
    wherever the network lets it through, and never anything else. *)
Fixpoint torn_down `{GoRuntime, NetURL} (env : nat -> NetEnv) (i : nat) (host path : gostring)
    (ids raws : list gostring) : Prop :=
  match ids, raws with
  | [], [] => True
  | id :: ids', raw :: raws' =>
      (raw = [] \/ teardown_of host path id raw)
      /\ (reaches_wire (env i) = true -> teardown_of host path id raw)
      /\ torn_down env (S i) host path ids' raws'
  | _, _ => False
  end.

(** What [hang_up] did: nothing without a connection; with one, every
    session of the camera torn down once and the connection closed. *)
Definition hung_up `{GoRuntime, NetURL} (env : nat -> NetEnv) (path : gostring)
    (sessions : gmap gostring Session) (remote r' : option Remote) (raws : list gostring) : Prop :=
  match remote with
  | None => r' = None /\ raws = []
  | Some r =>
      (exists ids, ids ≡ₚ (map_to_list sessions).*1 /\ torn_down env 0 (r_Host r) path ids raws)
      /\ exists r1, r' = Some r1 /\ r_conn r1 = false
  end.

Section TeardownLemmas.
Context `{GoRuntime, NetURL, Crypto}.

Lemma teardown_all_spec (env : nat -> NetEnv) (buf : nat -> gostring) (i : nat) (path : gostring)
    (ids : list gostring) (r : Remote) (mt : Metrics) :
  (forall i, dial_ok (env i)) ->
  exists r' mt' raws, teardown_all env buf i path ids r mt = Done (r', mt', raws)
    /\ torn_down env i (r_Host r) path ids raws.
Proof.
  intros Hd. revert i r mt. induction ids as [|id ids IH]; intros i r mt; cbn [teardown_all];
    [by eexists _, _, _|].
  destruct (SendTeardown_spec (env i) (buf i) r path id mt (Hd i)) as (r1 & mt1 & raw & err & -> & Hh & H1' & H2').
  cbn [outcome_bind].
  destruct (IH (S i) r1 mt1) as (r2 & mt2 & raws & -> & Ht). cbn [outcome_bind].
  eexists _, _, _. split; [done|]. cbn. rewrite Hh in Ht. done.
Qed.

Lemma hang_up_total (env : nat -> NetEnv) (buf : nat -> gostring) (path : gostring)
    (sessions : gmap gostring Session) (remote : option Remote) (mt : Metrics) :
  (forall i, dial_ok (env i)) ->
  exists r' mt' raws, hang_up env buf path sessions remote mt = Done (r', mt', raws)
    /\ hung_up env path sessions remote r' raws.
Proof.
  intros Hd. unfold hang_up, hung_up. destruct remote as [r|]; [|by eexists _, _, _].
  destruct (teardown_all_spec env buf 0 path (map fst (map_range sessions)) r mt Hd)
    as (r1 & mt1 & raws & -> & Ht). cbn [outcome_bind].
  eexists _, _, _. split; [done|]. split.
  - exists (map fst (map_range sessions)). split; [|done].
    by rewrite (map_range_perm _ _ _ _ sessions).
  - eexists. split; [done|]. apply disconnectLocked_conn.
Qed.

Lemma stop_clients_total (es : list (nat * ClientSession)) :
  Forall (fun e => registered e.2) es ->
  exists stopped, stop_clients es = Done stopped /\ length stopped = length es
    /\ Forall (fun cs => cs_active cs = false /\ cs_quit cs = true) stopped.
Proof.
  induction 1 as [|[k cs] es [Ha Hq] Hes (stopped & E & El & HF)]; cbn [stop_clients]; [by eexists|].
  cbn [snd] in Ha, Hq. unfold cs_Stop at 1. rewrite Ha, Hq. cbn [outcome_bind]. rewrite E. cbn [outcome_bind].
  eexists. split; [done|]. cbn. split; [by rewrite El|]. by apply Forall_cons_2.
Qed.

End TeardownLemmas.

Lemma transition_destroyed (now : Z) (s : Stream) :
  st_state s <> StateReady -> st_state (transition now StateDestroyed s).1 = StateDestroyed.
Proof.
  intros Hr. unfold transition. destruct (st_state s =st StateDestroyed) eqn:E.
  - by apply state_eqb_true in E.
  - apply state_eqb_false in E.
    replace (valid_transition (st_state s) StateDestroyed) with true by by destruct (st_state s).
    cbn [fst]. by rewrite unsafeSetState_state, (proj2 (state_eqb_false _ _) E).
Qed.

(** The states in which [Stop] acts. *)
Definition stoppable (st : StreamState) : bool :=
  match st with
  | StateConnecting | StatePlaying | StateReconnecting | StateStopping => true
  | _ => false
  end.

Lemma stoppable_enters (now : Z) (s : Stream) :
  stoppable (st_state s) = true ->
  transition now StateStopping s = (unsafeSetState now StateStopping s, None)
  /\ st_state (unsafeSetState now StateStopping s) = StateStopping.
Proof.
  intros Hs. unfold transition. rewrite unsafeSetState_state. by destruct (st_state s).
Qed.

Lemma Stop_end_stopping (now : Z) (s : Stream) :
  st_state s = StateStopping -> Stop_end now s = unsafeSetState now StateDisconnected s.
Proof. intros E. unfold Stop_end, transition. by rewrite E. Qed.

Lemma sessions_ended `{GoRuntime} (ss : gmap gostring Session) :
  map (fun e => Session_Stop e.2) (map_range ss) ≡ₚ map (fun e => Session_Stop e.2) (map_to_list ss)
  /\ Forall (fun x => sess_started x = false) (map (fun e => Session_Stop e.2) (map_range ss)).
Proof.
  split; [by rewrite (map_range_perm _ _ _ _ ss)|]. by apply Forall_fmap, Forall_true.
Qed.

Lemma Stop_result `{GoRuntime, NetURL, Crypto} (env : nat -> NetEnv) (buf : nat -> gostring)
    (now : Z) (s : Stream) (mt : Metrics) :
  (forall i, dial_ok (env i)) -> stoppable (st_state s) = true ->
  exists s' mt' raws stopped, Stop env buf now s mt = Done (s', mt', raws, stopped)
    /\ st_state s' = StateDisconnected /\ st_sessions s' = ∅
    /\ hung_up env (id_Path (st_ident s)) (st_sessions s) (st_remote s) (st_remote s') raws
    /\ stopped = map (fun e => Session_Stop e.2) (map_range (st_sessions s))
    /\ st_clients s' = st_clients s.
Proof.
  intros Hd Hst. destruct (stoppable_enters now s Hst) as [Ht Es]. unfold Stop, Stop_begin, Stop_take.
  rewrite Ht. destruct (unsafeSetState_frame now StateStopping s)
    as (E1 & E2 & E3 & E4 & E5 & E6 & E7 & E8 & E9).
  set (s1 := with_sessions _ ∅).
  assert (Er1 : st_remote s1 = st_remote s) by done.
  assert (Ei1 : st_ident s1 = st_ident s) by done. rewrite Er1, Ei1, E5.
  destruct (hang_up_total env buf (id_Path (st_ident s)) (st_sessions s) (st_remote s) mt Hd)
    as (r' & mt' & raws & -> & Hr). cbn [outcome_bind].
  eexists _, _, _, _. split; [done|]. rewrite Stop_end_stopping by done.
  destruct (unsafeSetState_frame now StateDisconnected (with_remote s1 r'))
    as (F1 & F2 & F3 & F4 & F5 & F6 & F7 & F8 & F9).
  rewrite unsafeSetState_state, F1, F4, F5. cbn [with_remote st_state st_sessions st_remote st_clients].
  assert (Es1 : st_state s1 = StateStopping) by done. rewrite Es1. by split_and!.
Qed.

(** ** Properties *)

(** C7: No client waits on a channel for ever because the stream moved on.
    A channel a client got from [ReadyCh] or [SDPReadyCh] at some point of
    a run is, at every later point, closed or still the current channel;
    in the Playing state the current ready channel is closed, and once
    the stream is destroyed every channel ever handed out is closed, and
    stays so. *)
Theorem waiters_released `{GoRuntime} (queue : Z) (s s' : Stream) (ch : nat) :
  st_reach queue s -> st_steps queue s s' -> (ch = ReadyCh s \/ ch = SDPReadyCh s) ->
  (is_closed s' ch = true \/ ch = ReadyCh s' \/ ch = SDPReadyCh s')
  /\ (is_closed s ch = true -> is_closed s' ch = true)
  /\ (GetState s' = StatePlaying -> is_closed s' (ReadyCh s') = true)
  /\ (GetState s' = StateDestroyed -> is_closed s' ch = true).
Proof.
  intros Hr Hs Hch. pose proof (st_reach_inv _ _ Hr) as Hi.
  pose proof (st_steps_inv _ _ _ Hs Hi) as Hi'.
  destruct (st_steps_later _ _ _ Hs) as [[Hcl Hnx] _].
  assert (Hlt : (ch < ch_next (st_chans s'))%nat).
  { pose proof (ci_ready _ (si_chans _ Hi)). pose proof (ci_sdp _ (si_chans _ Hi)).
    unfold ReadyCh, SDPReadyCh in Hch. destruct Hch as [-> | ->]; lia. }
  unfold is_closed, ReadyCh, SDPReadyCh, GetState in *. rewrite !bool_decide_eq_true.
  split_and!.
  - destruct (ci_old _ (si_chans _ Hi') ch Hlt) as [?|[?|?]]; auto.
  - set_solver.
  - apply (si_playing _ Hi').
  - intros HD. by apply (si_destroyed _ Hi' HD).
Qed.

(** A run: connect, play, lose the camera, reconnect, destroy. *)
Definition fresh_stream : Stream := NewStream (str "cam:554") [] [] (str "/s") 60 0 false.

Lemma waiters_released_witness :
  let run := fold_right (fun to s => (transition 5 to s).1) in
  let s' := run (Start 5 fresh_stream)
              [StateDestroyed; StateConnecting; StateReconnecting; StatePlaying] in
  GetState s' = StateDestroyed /\ is_closed s' (SDPReadyCh fresh_stream) = true.
Proof.
  split; [done|].
  apply (@waiters_released sample_runtime 100 fresh_stream); [| |by right|done].
  - eexists _, _, _, _, _, _, _. apply StRefl.
  - cbn [fold_right]. do 4 (eapply StMore; [|apply StTransition]).
    eapply StMore; [apply StRefl|apply StStart].
Defined.

(** C15: The state machine, for every operation and interleaving: a step
    leaves the state or follows an edge of [transition]'s table, the
    unused state Ready is never entered, Destroyed is never left, a
    stream becomes Disconnected only from Reconnecting or Stopping (so
    the requests for it from Connecting or Playing change nothing), and
    at most one connect loop runs, exactly when the flag is set. *)
Theorem state_edges `{GoRuntime} (queue : Z) (s s' : Stream) :
  st_reach queue s -> st_step queue s s' ->
  edge (st_state s) (st_state s')
  /\ st_state s' <> StateReady
  /\ (st_state s = StateDestroyed -> st_state s' = StateDestroyed)
  /\ (st_state s' = StateDisconnected ->
      st_state s = StateDisconnected \/ st_state s = StateReconnecting \/ st_state s = StateStopping)
  /\ (forall now, st_state s = StateConnecting \/ st_state s = StatePlaying ->
      (transition now StateDisconnected s).1 = s /\ (transition now StateDisconnected s).2 <> None)
  /\ st_loops s' = (if st_loop s' then 1 else 0)%nat.
Proof.
  intros Hr Hstep. pose proof (st_step_inv _ _ _ Hstep (st_reach_inv _ _ Hr)) as Hi'.
  apply st_step_edge in Hstep as [_ He]. split_and!; [done|apply Hi'| | | |apply Hi'].
  - intros HD. destruct He as [->|[? _]]; done.
  - intros HD. rewrite HD in He. destruct He as [<-|[_ Hv]]; [auto|].
    destruct (st_state s); (by discriminate Hv) || auto.
  - intros now [E|E]; unfold transition; by rewrite E.
Qed.

Lemma state_edges_witness :
  let s := Start 5 fresh_stream in
  let s' := (transition 6 StatePlaying s).1 in
  edge (st_state s) (st_state s') /\ st_loops s' = 1%nat.
Proof.
  intros s s'.
  destruct (@state_edges sample_runtime 100 s s') as (H1 & _ & _ & _ & _ & H2).
  - eexists _, _, _, _, _, _, _. econstructor; [apply StRefl|apply StStart].
  - apply StTransition.
  - by split.
Defined.

(** C14: [Destroy] on any reachable stream runs to its final wait without
    a panic (in particular no session's channel is closed twice): it
    writes, where the network lets it, one TEARDOWN per upstream session,
    carrying that session's identifier, closes the connection, stops every
    client session and the keep-alive of every upstream session, and
    leaves a stream without clients, sessions, connection, armed timer or
    live context, in the state Destroyed; the wait is for at most one
    goroutine, the connect loop; and whatever happens afterwards, the
    stream stays destroyed and every channel it ever handed out stays
    closed. *)
Theorem Destroy_final `{GoRuntime, NetURL, Crypto} (queue : Z) (env : nat -> NetEnv)
    (buf : nat -> gostring) (now : Z) (s : Stream) (mt : Metrics) :
  st_reach queue s -> (forall i, dial_ok (env i)) ->
  exists s' mt' rel, Destroy env buf now s mt = Done (s', mt', rel)
    /\ (st_clients s', st_sessions s', st_remote s', st_done s', st_state s')
       = (∅, ∅, None, true, StateDestroyed)
    /\ st_timer s' <> Some true
    /\ hung_up env (id_Path (st_ident s)) (st_sessions s) (st_remote s) (rel_remote rel) (rel_raws rel)
    /\ length (rel_clients rel) = size (st_clients s)
    /\ Forall (fun cs => cs_active cs = false /\ cs_quit cs = true) (rel_clients rel)
    /\ rel_sessions rel ≡ₚ map (fun e => Session_Stop e.2) (map_to_list (st_sessions s))
    /\ Forall (fun x => sess_started x = false) (rel_sessions rel)
    /\ (st_loops s' <= 1)%nat /\ Destroy_returns s' = negb (st_loop s')
    /\ forall s'', st_steps queue s' s'' ->
       st_state s'' = StateDestroyed
       /\ forall ch, (ch < ch_next (st_chans s''))%nat -> is_closed s'' ch = true.
Proof.
  intros Hr Hd. pose proof (st_reach_inv _ _ Hr) as Hi. unfold Destroy.
  destruct (hang_up_total env buf (id_Path (st_ident s)) (st_sessions s) (st_remote s) mt Hd)
    as (r' & mt' & raws & -> & Hh). cbn [outcome_bind].
  destruct (stop_clients_total (map_range (st_clients s))) as (stopped & -> & El & HF).
  { rewrite (map_range_perm _ _ _ _ (st_clients s)). apply Forall_forall.
    intros [k cs] Hin%elem_of_map_to_list. by apply (si_clients s Hi k cs). }
  cbn [outcome_bind].
  assert (HD : st_state (Destroy_begin now s) = StateDestroyed).
  { destruct (Destroy_begin_chans now s) as [_ ->]. apply transition_destroyed, Hi. }
  pose proof (Destroy_begin_inv now s Hi) as Hi'. pose proof (si_loop _ Hi') as Hl.
  destruct (Destroy_take_frame (with_done (transition now StateDestroyed s).1 true))
    as (_ & _ & T3 & _ & _ & T6 & T7 & T8 & T9).
  destruct (sessions_ended (st_sessions s)) as [S1 S2].
  eexists _, _, _. split; [done|]. cbn [rel_remote rel_raws rel_clients rel_sessions]. split_and!; try done.
  - rewrite HD. unfold Destroy_begin. by rewrite T3, T6, T7, T8.
  - rewrite El, (map_range_perm _ _ _ _ (st_clients s)). apply length_map_to_list.
  - rewrite Hl. destruct (st_loop _); lia.
  - unfold Destroy_returns. rewrite Hl. by destruct (st_loop _).
  - intros s'' Hs. destruct (st_steps_later _ _ _ Hs) as [_ HD'].
    specialize (HD' HD). split; [done|]. intros ch Hch. apply bool_decide_eq_true.
    apply (si_destroyed s''); [|done..]. by eapply st_steps_inv.
Qed.

(** A stream with a connection and one session of the camera. *)
Definition session_stream : Stream :=
  with_remote (LookupSession (str "A1") [] (Start 5 fresh_stream)).1 (Some (sample_remote NewDigest)).

Lemma session_stream_reach : @st_reach sample_runtime 100 session_stream.
Proof.
  eexists _, _, _, _, _, _, _. eapply StMore; [eapply StMore; [eapply StMore; [apply StRefl|apply StStart]
    |apply StLookupSession]|apply StRemote].
Qed.

Lemma session_stream_ids : (map_to_list (st_sessions session_stream)).*1 = [str "A1"].
Proof. vm_compute. reflexivity. Qed.

Lemma sample_dials : forall _ : nat, dial_ok (sample_env true).
Proof. intros _. split; apply (bool_decide_unpack _); by vm_compute. Qed.

Lemma Destroy_final_witness :
  exists s' mt' rel raw,
    @Destroy sample_runtime sample_neturl sample_crypto (fun _ => sample_env true) (fun _ => [])
      7 session_stream metrics_zero = Done (s', mt', rel)
    /\ st_state s' = StateDestroyed /\ is_closed s' (ReadyCh s') = true
    /\ rel_raws rel = [raw] /\ @teardown_of sample_runtime sample_neturl (str "cam:554") (str "/s") (str "A1") raw.
Proof.
  destruct (@Destroy_final sample_runtime sample_neturl sample_crypto 100 (fun _ => sample_env true)
    (fun _ => []) 7 session_stream metrics_zero session_stream_reach sample_dials)
    as (s' & mt' & rel & E & _ & _ & [(ids & Hp & Ht) _] & _ & _ & _ & _ & _ & _ & Hf).
  destruct (Hf s' (StRefl _ _)) as [HD Hc].
  rewrite session_stream_ids in Hp. apply Permutation_singleton_r in Hp as Hids.
  rewrite Hids in Ht. destruct (rel_raws rel) as [|raw [|]] eqn:Er; [destruct Ht| |destruct Ht as (_ & _ & Ht); destruct Ht].
  exists s', mt', rel, raw. split; [exact E|]. split; [exact HD|]. split; [|split; [exact Er|exact (proj1 (proj2 Ht) eq_refl)]].
  apply Hc. vm_compute in E. injection E as <- _ _. vm_compute. lia.
Defined.

(** C31: [Stop] on a stream that is connecting, playing, reconnecting or
    already stopping finishes without a panic whatever the network does:
    it writes, where the network lets it, one TEARDOWN per session of the
    camera carrying that session's identifier, stops the keep-alive of
    each, closes the connection, forgets the sessions, keeps the clients
    and ends in the state Disconnected; in the other states (Disconnected,
    Destroyed and the unused Ready) it does nothing at all. *)
Theorem Stop_spec `{GoRuntime, NetURL, Crypto} (env : nat -> NetEnv) (buf : nat -> gostring)
    (now : Z) (s : Stream) (mt : Metrics) :
  (forall i, dial_ok (env i)) ->
  exists s' mt' raws stopped, Stop env buf now s mt = Done (s', mt', raws, stopped)
  /\ if bool_decide (st_state s = StateConnecting \/ st_state s = StatePlaying
                     \/ st_state s = StateReconnecting \/ st_state s = StateStopping)
     then st_state s' = StateDisconnected /\ st_sessions s' = ∅ /\ st_clients s' = st_clients s
          /\ hung_up env (id_Path (st_ident s)) (st_sessions s) (st_remote s) (st_remote s') raws
          /\ stopped ≡ₚ map (fun e => Session_Stop e.2) (map_to_list (st_sessions s))
          /\ Forall (fun x => sess_started x = false) stopped
     else s' = s /\ raws = [] /\ stopped = [] /\ mt' = mt.
Proof.
  intros Hd. case_bool_decide as Hst.
  - destruct (Stop_result env buf now s mt Hd) as (s' & mt' & raws & stopped & E & Q1 & Q2 & Q3 & Q4 & Q5).
    { by destruct Hst as [-> |[-> |[-> | ->]]]. }
    destruct (sessions_ended (st_sessions s)) as [S1 S2].
    exists s', mt', raws, stopped. split; [done|]. rewrite Q4. by split_and!.
  - exists s, mt, [], []. split; [|done]. unfold Stop, Stop_begin, transition.
    destruct (st_state s); tauto || done.
Qed.

Lemma Stop_spec_witness :
  exists s' mt' raw stopped,
    @Stop sample_runtime sample_neturl sample_crypto (fun _ => sample_env true) (fun _ => [])
      7 session_stream metrics_zero = Done (s', mt', [raw], stopped)
    /\ st_state s' = StateDisconnected /\ length stopped = 1%nat
    /\ @teardown_of sample_runtime sample_neturl (str "cam:554") (str "/s") (str "A1") raw.
Proof.
  destruct (@Stop_spec sample_runtime sample_neturl sample_crypto (fun _ => sample_env true)
    (fun _ => []) 7 session_stream metrics_zero sample_dials) as (s' & mt' & raws & stopped & E & H).
  rewrite bool_decide_eq_true_2 in H by (left; reflexivity).
  destruct H as (H1 & _ & _ & [(ids & Hp & Ht) _] & H6 & _).
  rewrite session_stream_ids in Hp. apply Permutation_singleton_r in Hp as Hids.
  rewrite Hids in Ht. destruct raws as [|raw [|]]; [destruct Ht| |destruct Ht as (_ & _ & Ht); destruct Ht].
  exists s', mt', raw, stopped. split; [exact E|]. split; [exact H1|]. split; [rewrite H6; reflexivity|exact (proj1 (proj2 Ht) eq_refl)].
Defined.
