(* ===== verification/Relay.v ===== *)
(** * From the camera to the clients: the relay as one system

    The reading loop of a stream (src/rtspproxy/stream.go), its packet
    dispatch, and for every client the forwarder of its session
    (src/rtspproxy/client_session.go) and the writer of its connection
    (src/rtspproxy/client.go), composed: the parts are the definitions of
    [Framing] and [Fanout].  [Broadcast] is the abstract service they
    implement, in which there are packets and subscribers and neither
    bytes nor buffers nor two queues; [Relay] is the composition, and the
    simulation relates the two. *)

From stdpp Require Import gmap strings list fin_maps.
From Stdlib Require Import Ascii ZArith Lia.
From S2P Require Import Prelude GoStrings Message Framing Digest Metrics Remote Session Fanout Stream.

Local Open Scope go_scope.

(** ** The abstract service *)

Module Broadcast.

(** An interleaved packet: channel and payload. *)
Definition packet : Type := ascii * gostring.

Record subscriber := mkSubscriber {
  sb_map : gmap Z Z;             (* channel of the camera -> its own channel *)
  sb_maps : list (Z * Z);        (* history: all the mappings it asked for *)
  sb_joined : bool;              (* packets are being collected for it *)
  sb_open : bool;                (* it can still be delivered to *)
  sb_pending : list packet;      (* collected, to be delivered *)
  sb_got : list packet;          (* delivered *)
  sb_wanted : list packet;       (* history: all published on its channels *)
  sb_whole : bool                (* history: never refused, left or cut off *)
}.

Record state := mkState {
  bc_log : list packet;          (* history: all packets published *)
  bc_subs : gmap nat subscriber
}.

(** The packet as this subscriber is to see it, if at all. *)
Definition translate (m : gmap Z Z) (p : packet) : option packet :=
  (fun c => (to_byte c, p.2)) <$> m !! byte_val p.1.

Definition new_subscriber : subscriber := mkSubscriber ∅ [] false true [] [] [] true.

(** What publishing does to one subscriber: a packet it wants is collected
    at the end of its backlog, or lost when nothing is collected for it
    any more. *)
Definition offer (p : packet) (sb : subscriber) : subscriber :=
  match translate (sb_map sb) p with
  | None => sb
  | Some q =>
      let take := sb_joined sb && sb_open sb in
      mkSubscriber (sb_map sb) (sb_maps sb) (sb_joined sb) (sb_open sb)
        (if take then sb_pending sb ++ [q] else sb_pending sb) (sb_got sb)
        (sb_wanted sb ++ [q]) (sb_whole sb && take)
  end.

Inductive step : state -> state -> Prop :=
| Connect k b : bc_subs b !! k = None ->
    step b (mkState (bc_log b) (<[k := new_subscriber]> (bc_subs b)))
| Join k sb b : bc_subs b !! k = Some sb -> sb_joined sb = false ->
    step b (mkState (bc_log b) (<[k := mkSubscriber ∅ (sb_maps sb) true (sb_open sb) (sb_pending sb)
                                     (sb_got sb) (sb_wanted sb) (sb_whole sb)]> (bc_subs b)))
| Subscribe k sb u c b : bc_subs b !! k = Some sb ->
    step b (mkState (bc_log b) (<[k := mkSubscriber (<[u := c]> (sb_map sb)) (sb_maps sb ++ [(u, c)])
                                     (sb_joined sb) (sb_open sb) (sb_pending sb) (sb_got sb)
                                     (sb_wanted sb) (sb_whole sb)]> (bc_subs b)))
| Publish p b :
    step b (mkState (bc_log b ++ [p]) (offer p <$> bc_subs b))
| Refuse k sb ps q b : bc_subs b !! k = Some sb -> sb_pending sb = ps ++ [q] ->   (* the newest is dropped *)
    step b (mkState (bc_log b) (<[k := mkSubscriber (sb_map sb) (sb_maps sb) (sb_joined sb) (sb_open sb) ps
                                     (sb_got sb) (sb_wanted sb) false]> (bc_subs b)))
| Deliver k sb p ps b : bc_subs b !! k = Some sb -> sb_open sb = true -> sb_pending sb = p :: ps ->
    step b (mkState (bc_log b) (<[k := mkSubscriber (sb_map sb) (sb_maps sb) (sb_joined sb) true ps
                                     (sb_got sb ++ [p]) (sb_wanted sb) (sb_whole sb)]> (bc_subs b)))
| Leave k sb (gone : bool) n b : bc_subs b !! k = Some sb ->     (* the end of the backlog may be lost *)
    step b (mkState (bc_log b) (<[k := mkSubscriber (if gone then ∅ else sb_map sb) (sb_maps sb) false
                                     (sb_open sb) (take n (sb_pending sb))
                                     (sb_got sb) (sb_wanted sb) false]> (bc_subs b)))
| Cut k sb b : bc_subs b !! k = Some sb ->           (* nothing more is delivered *)
    step b (mkState (bc_log b) (<[k := mkSubscriber (sb_map sb) (sb_maps sb) (sb_joined sb) false []
                                     (sb_got sb) (sb_wanted sb) false]> (bc_subs b))).

Definition init : state := mkState [] ∅.

Inductive reach : state -> Prop :=
| reach_init : reach init
| reach_step b b' : reach b -> step b b' -> reach b'.

Lemma reach_rtc (b b' : state) : reach b -> rtc step b b' -> reach b'.
Proof. intros Hr Hs. induction Hs; [done|]. by apply IHHs, (reach_step x). Qed.

(** [q] is the published packet [p] on a channel the subscriber asked for. *)
Definition renders (maps : list (Z * Z)) (q p : packet) : Prop :=
  exists c, (byte_val p.1, c) ∈ maps /\ q = (to_byte c, p.2).

(** What a subscriber has and will get is part, in order, of what it
    wanted, and that is part, in order, of what was published, each packet
    on a channel it asked for. *)
Record sub_inv (log : list packet) (sb : subscriber) : Prop := {
  bi_order : (sb_got sb ++ sb_pending sb) `sublist_of` sb_wanted sb;
  bi_log : exists src, src `sublist_of` log /\ Forall2 (renders (sb_maps sb)) (sb_wanted sb) src;
  bi_maps : forall u c, sb_map sb !! u = Some c -> (u, c) ∈ sb_maps sb;
  bi_whole : sb_whole sb = true -> sb_got sb ++ sb_pending sb = sb_wanted sb;
  bi_shut : sb_open sb = false -> sb_pending sb = []
}.

Lemma renders_more (maps more : list (Z * Z)) (l src : list packet) :
  Forall2 (renders maps) l src -> Forall2 (renders (maps ++ more)) l src.
Proof.
  intros Hf. eapply Forall2_impl; [exact Hf|]. intros q p (c & Hc & ->). exists c.
  split; [apply elem_of_app; by left|done].
Qed.

Lemma offer_inv (log : list packet) (p : packet) (sb : subscriber) :
  sub_inv log sb -> sub_inv (log ++ [p]) (offer p sb).
Proof.
  intros [Ho (src & Hsrc & Hl) Hm Hw Hs]. unfold offer, translate.
  destruct (sb_map sb !! byte_val p.1) as [c|] eqn:Ec; cbn [fmap option_fmap option_map].
  - split; cbn.
    + destruct (_ && _); [|by apply sublist_inserts_r].
      rewrite app_assoc. by apply sublist_app.
    + exists (src ++ [p]). split; [by apply sublist_app|]. apply Forall2_app; [done|].
      apply Forall2_cons. split; [|done]. exists c. split; [by apply Hm|done].
    + done.
    + destruct (sb_joined sb && sb_open sb); [|by rewrite andb_false_r].
      rewrite andb_true_r. intros Hh. by rewrite app_assoc, Hw.
    + intros E. rewrite E, andb_false_r. by apply Hs.
  - split; [done| |done|done|done]. exists src. split; [by apply sublist_inserts_r|done].
Qed.

Lemma step_inv (b b' : state) :
  step b b' -> map_Forall (fun _ => sub_inv (bc_log b)) (bc_subs b) ->
  map_Forall (fun _ => sub_inv (bc_log b')) (bc_subs b').
Proof.
  intros Hs Hi.
  destruct Hs as [k b Hk|k sb b Hk Hj|k sb u c b Hk|p b|k sb ps q b Hk Hp|k sb p ps b Hk Ho Hp
                 |k sb gone n b Hk|k sb b Hk]; cbn [bc_log bc_subs].
  4:{ intros k sb'. rewrite lookup_fmap. destruct (bc_subs b !! k) as [sb|] eqn:E; [|done].
      intros [= <-]. by apply offer_inv, (Hi k). }
  all: apply map_Forall_insert_2; [|done].
  1: { split; cbn; try done; [exists []; split; [apply sublist_nil_l|by constructor]]. }
  all: destruct (Hi k sb Hk) as [Hor (src & Hsrc & Hl) Hm Hw Hsh]; split; cbn; try done; try (by exists src).
  - exists src. split; [done|by apply renders_more].
  - intros u' c' Hu. apply elem_of_app. destruct (decide (u' = u)) as [->|Hne].
    + rewrite lookup_insert_eq in Hu. injection Hu as <-. right. by apply list_elem_of_singleton.
    + rewrite lookup_insert_ne in Hu by done. left. by apply Hm.
  - etrans; [|exact Hor]. rewrite Hp. apply sublist_app; [done|by apply sublist_inserts_r].
  - intros E. specialize (Hsh E). rewrite Hsh in Hp. by destruct ps.
  - rewrite Hp in Hor. by rewrite <- app_assoc.
  - intros Hh. rewrite <- (Hw Hh), Hp. by rewrite <- app_assoc.
  - etrans; [|exact Hor]. apply sublist_app; [done|apply sublist_take].
  - destruct gone; [done|exact Hm].
  - intros E. by rewrite (Hsh E), take_nil.
  - etrans; [|exact Hor]. apply sublist_app; [done|apply sublist_nil_l].
Qed.

Lemma reach_inv (b : state) : reach b -> map_Forall (fun _ => sub_inv (bc_log b)) (bc_subs b).
Proof. induction 1 as [|b b' _ IH Hs]; [apply map_Forall_empty|by eapply step_inv]. Qed.

End Broadcast.

(** ** The composition *)

(** A client connection: the packet the forwarder of its session holds,
    its write channel, the packet its writer holds, what the writer has
    written, and whether the two still serve. *)
Record endpoint := mkEndpoint {
  ep_fwd : option gostring;
  ep_chan : list gostring;
  ep_wr : option gostring;
  ep_out : list gostring;
  ep_run : bool;
  ep_writer : bool
}.

Record relay := mkRelay {
  rl_buf : gostring;                      (* buffer[:length] of readLoop *)
  rl_input : gostring;                    (* what the camera has still to send *)
  rl_packet : gostring;                   (* the packet [dispatch] is delivering *)
  rl_targets : list (option nat * Z);     (* its delivery points still to come *)
  rl_clients : gmap nat ClientSession;
  rl_stats : Stats;
  rl_ends : gmap nat endpoint;
  rl_maps : list (nat * Z * Z)            (* history: every mapping made, by client *)
}.

(** One client's pipeline, without the history of [Fanout]. *)
Definition pipe_of (cs : ClientSession) (ep : endpoint) : pipe :=
  mkPipe (cs_cap cs) (cs_queue cs) (ep_fwd ep) (ep_chan ep) (ep_wr ep) (ep_out ep) [] (ep_run ep) (ep_writer ep).

Definition session_of (cs : ClientSession) (p : pipe) : ClientSession :=
  mkClientSession (cs_sessionID cs) (p_queue p) (cs_cap cs) (cs_active cs) (cs_quit cs) (cs_channels cs).

Definition endpoint_of (p : pipe) : endpoint :=
  mkEndpoint (p_fwd p) (p_chan p) (p_wr p) (p_written p) (p_run p) (p_writer p).

(** One client's session and connection replaced. *)
Definition with_client (rl : relay) (k : nat) (cs : ClientSession) (ep : endpoint) : relay :=
  mkRelay (rl_buf rl) (rl_input rl) (rl_packet rl) (rl_targets rl) (<[k := cs]> (rl_clients rl)) (rl_stats rl)
    (<[k := ep]> (rl_ends rl)) (rl_maps rl).

(** The delivery points of a snapshot name session objects: when a client
    leaves, the snapshot still holds its old session, which no longer
    belongs to any client. *)
Definition live (targets : list (nat * Z)) : list (option nat * Z) := (fun t => (Some t.1, t.2)) <$> targets.

Definition forget (k : nat) (targets : list (option nat * Z)) : list (option nat * Z) :=
  (fun t => (if decide (t.1 = Some k) then None else t.1, t.2)) <$> targets.

(** Without a session there is a writer and no queue. *)
Definition no_session : ClientSession := mkClientSession [] [] 0 false false ∅.

(** The buffer when [readLoop] is about to read: full means cleared. *)
Definition read_room (cap : nat) (buf : gostring) : gostring :=
  if (length buf =? cap)%nat then [] else buf.

(** [Stream.readLoop] with the checks in front of its loop. *)
Definition Stream_readLoop (cap : nat) (its : list iteration) (input : gostring) (s : Stream)
  : list frame_event * read_exit :=
  match st_remote s with
  | None => ([], Returned (Some (ErrText (str "remote not connected"))))
  | Some r => if r_conn r then readLoop cap its [] input
              else ([], Returned (Some (ErrText (str "remote connection is nil"))))
  end.

Section Relay.
Context `{GoRuntime}.
Variable cap : nat.          (* GlobalConfig.BufferSize *)
Variable queueSize : Z.      (* GlobalConfig.PacketQueueSize *)

Inductive rl_step : relay -> relay -> Prop :=
| RRead n buf input pkt0 clients stats ends maps :      (* readLoop: a read, or a time-out *)
    frame_next buf = NeedMore -> (n <= cap - length (read_room cap buf))%nat ->
    rl_step (mkRelay buf input pkt0 [] clients stats ends maps)
      (mkRelay (read_room cap buf ++ take n input) (drop n input) pkt0 [] clients stats ends maps)
| RMessage msg rest buf input pkt0 clients stats ends maps :   (* readLoop: a message, for the remote *)
    frame_next buf = Frame (EvResponse msg) rest ->
    rl_step (mkRelay buf input pkt0 [] clients stats ends maps)
      (mkRelay rest input pkt0 [] clients stats ends maps)
| RPacket channel pkt rest targets stats' buf input pkt0 clients stats ends maps :
    (* readLoop: a packet; dispatch up to the release of the lock *)
    frame_next buf = Frame (EvDispatch channel pkt) rest ->
    dispatch_begin clients stats channel pkt = (targets, stats') ->
    rl_step (mkRelay buf input pkt0 [] clients stats ends maps)
      (mkRelay rest input pkt (live targets) clients stats' ends maps)
| RPush k c ts clients' dropped buf input pkt clients stats ends maps :   (* dispatch: one Push *)
    deliver_one cap pkt (k, c) clients (PacketsDropped stats) = Done (clients', dropped) ->
    rl_step (mkRelay buf input pkt ((Some k, c) :: ts) clients stats ends maps)
      (mkRelay buf input pkt ts clients' (with_dropped stats dropped) ends maps)
| RHandOver k c ts x cs ep buf input pkt clients stats ends maps :  (* a Push to a waiting forwarder *)
    client_packet cap pkt c = Done x -> clients !! k = Some cs -> cs_queue cs = [] ->
    ends !! k = Some ep -> ep_run ep = true -> ep_fwd ep = None ->
    rl_step (mkRelay buf input pkt ((Some k, c) :: ts) clients stats ends maps)
      (mkRelay buf input pkt ts clients stats
         (<[k := mkEndpoint (Some x) (ep_chan ep) (ep_wr ep) (ep_out ep) true (ep_writer ep)]> ends) maps)
| RPushGone c ts dropped buf input pkt clients stats ends maps :    (* a Push to a session that has left *)
    dropped = PacketsDropped stats \/ dropped = uint64_wrap (PacketsDropped stats + 1) ->
    rl_step (mkRelay buf input pkt ((None, c) :: ts) clients stats ends maps)
      (mkRelay buf input pkt ts clients (with_dropped stats dropped) ends maps)
| RConnect k rl :                         (* a client connects *)
    rl_ends rl !! k = None ->
    rl_step rl (mkRelay (rl_buf rl) (rl_input rl) (rl_packet rl) (rl_targets rl) (rl_clients rl) (rl_stats rl)
                  (<[k := mkEndpoint None [] None [] false true]> (rl_ends rl)) (rl_maps rl))
| RJoin k sid cs ep rl :                  (* AddClient *)
    rl_ends rl !! k = Some ep -> rl_clients rl !! k = None ->
    NewClientSession queueSize sid = Done cs ->
    rl_step rl (with_client rl k (cs_Start cs)
                  (mkEndpoint (ep_fwd ep) (ep_chan ep) (ep_wr ep) (ep_out ep) true (ep_writer ep)))
| RMap k u c cs rl :                      (* MapChannel of a registered client *)
    rl_clients rl !! k = Some cs ->
    rl_step rl (mkRelay (rl_buf rl) (rl_input rl) (rl_packet rl) (rl_targets rl)
                  (MapChannel (rl_clients rl) k u c) (rl_stats rl) (rl_ends rl) (rl_maps rl ++ [(k, u, c)]))
| RLeave k ep rl :                        (* RemoveClient: Stop waits for the forwarder *)
    rl_ends rl !! k = Some ep -> ep_fwd ep = None ->
    rl_step rl (mkRelay (rl_buf rl) (rl_input rl) (rl_packet rl) (forget k (rl_targets rl))
                  (delete k (rl_clients rl)) (rl_stats rl)
                  (<[k := mkEndpoint None (ep_chan ep) (ep_wr ep) (ep_out ep) false (ep_writer ep)]> (rl_ends rl))
                  (rl_maps rl))
| RServe k cs ep p rl :                   (* forwarder and writer *)
    rl_clients rl !! k = Some cs -> rl_ends rl !! k = Some ep ->
    p_step (pipe_of cs ep) p -> p_accepted p = [] ->
    rl_step rl (with_client rl k (session_of cs p) (endpoint_of p))
| RWriter k ep p rl :                     (* the writer, between sessions *)
    rl_clients rl !! k = None -> rl_ends rl !! k = Some ep ->
    p_step (pipe_of no_session ep) p -> p_accepted p = [] ->
    rl_step rl (mkRelay (rl_buf rl) (rl_input rl) (rl_packet rl) (rl_targets rl) (rl_clients rl) (rl_stats rl)
                  (<[k := endpoint_of p]> (rl_ends rl)) (rl_maps rl)).

(** A stream that has just been connected: the camera will send [fs]. *)
Definition relay_init (fs : list wire_frame) : relay :=
  mkRelay [] (wire fs) [] [] ∅ (mkStats 0 0 0 0) ∅ [].

Inductive rl_reach (fs : list wire_frame) : relay -> Prop :=
| rl_reach_init : rl_reach fs (relay_init fs)
| rl_reach_step rl rl' : rl_reach fs rl -> rl_step rl rl' -> rl_reach fs rl'.

End Relay.

(** ** The simulation relation *)

Import Broadcast.

Definition enc (p : packet) : gostring := encode (WPacket p.1 p.2).
#[global] Arguments enc : simpl never.

(** The packets among the frames the camera sends. *)
Definition packets (fs : list wire_frame) : list packet :=
  omap (fun f => match f with WPacket ch p => Some (ch, p) | WMessage _ _ => None end) fs.

(** The copy of the current packet a client has still to be pushed. *)
Definition awaiting (pkt : gostring) (targets : list (option nat * Z)) (k : nat) : list gostring :=
  omap (fun t => if decide (t.1 = Some k) then Some (remapped pkt t.2) else None) targets.

(** A client and its subscriber.  The backlog is what is on the way to the
    writer; [next] is what it is about to be pushed. *)
Record sub_rel (next : list gostring) (cs : option ClientSession) (ep : endpoint) (sb : subscriber) : Prop := {
  sr_map : sb_map sb = default ∅ (cs_channels <$> cs);
  sr_joined : sb_joined sb = ep_run ep;
  sr_open : sb_open sb = ep_writer ep;
  sr_out : ep_out ep = enc <$> sb_got sb;
  sr_pending : ep_writer ep = true ->
    in_hand (ep_wr ep) ++ ep_chan ep
    ++ (if ep_run ep then in_hand (ep_fwd ep) ++ default [] (cs_queue <$> cs) ++ next else [])
    = enc <$> sb_pending sb;
  sr_idle : ep_run ep = false -> ep_fwd ep = None;
  sr_session : ep_run ep = true -> is_Some cs
}.

(** The clients and the subscribers. *)
Definition subs_rel (next : nat -> list gostring) (clients : gmap nat ClientSession)
    (ends : gmap nat endpoint) (subs : gmap nat subscriber) : Prop :=
  forall k, match ends !! k, subs !! k with
            | Some ep, Some sb => sub_rel (next k) (clients !! k) ep sb
            | None, None => clients !! k = None
            | _, _ => False
            end.

(** The current packet and its delivery points: each client at most once,
    and only clients that have a session. *)
Record targets_ok (cap : nat) (pkt : gostring) (targets : list (option nat * Z))
    (clients : gmap nat ClientSession) : Prop := {
  tk_packet : targets <> [] -> (2 <= length pkt <= cap)%nat;
  tk_once : NoDup (omap fst targets);
  tk_clients : forall k, k ∈ omap fst targets -> is_Some (clients !! k)
}.

(** The reading loop: what is still to be read are whole frames, and the
    packets before them are the ones published. *)
Record relay_rel (cap : nat) (fs : list wire_frame) (rl : relay) (b : state) : Prop := {
  rr_frames : exists handed todo, fs = handed ++ todo /\ bc_log b = packets handed
    /\ rl_buf rl ++ rl_input rl = wire todo;
  rr_buf : (length (rl_buf rl) <= cap)%nat;
  rr_drops : (0 <= PacketsDropped (rl_stats rl) < 2 ^ 64)%Z;
  rr_targets : targets_ok cap (rl_packet rl) (rl_targets rl) (rl_clients rl);
  rr_subs : subs_rel (awaiting (rl_packet rl) (rl_targets rl)) (rl_clients rl) (rl_ends rl) (bc_subs b);
  rr_maps : forall k sb u c, bc_subs b !! k = Some sb -> (u, c) ∈ sb_maps sb -> (k, u, c) ∈ rl_maps rl
}.

(** ** The simulation *)

(** One client moves. *)
Lemma subs_rel_update (k : nat) (next next' : nat -> list gostring) (clients clients' : gmap nat ClientSession)
    (ends : gmap nat endpoint) (subs : gmap nat subscriber) (ep : endpoint) (sb : subscriber) :
  subs_rel next clients ends subs ->
  (forall j, j <> k -> clients' !! j = clients !! j) -> (forall j, j <> k -> next' j = next j) ->
  sub_rel (next' k) (clients' !! k) ep sb -> subs_rel next' clients' (<[k := ep]> ends) (<[k := sb]> subs).
Proof.
  intros Hr Hc Hn Hs j. destruct (decide (j = k)) as [->|Hj]; [by rewrite !lookup_insert_eq|].
  rewrite !lookup_insert_ne, Hc, Hn by done. apply Hr.
Qed.

Lemma subs_rel_lookup (k : nat) (next : nat -> list gostring) (clients : gmap nat ClientSession)
    (ends : gmap nat endpoint) (subs : gmap nat subscriber) (ep : endpoint) :
  subs_rel next clients ends subs -> ends !! k = Some ep ->
  exists sb, subs !! k = Some sb /\ sub_rel (next k) (clients !! k) ep sb.
Proof.
  intros Hr He. specialize (Hr k). rewrite He in Hr. destruct (subs !! k) as [sb|]; [|done]. by exists sb.
Qed.

(** Forwarder and writer: at most a departure and a cut, or a delivery. *)
Lemma serve_sim (k : nat) (next : list gostring) (cs : ClientSession) (ep : endpoint) (p : pipe)
    (sb : subscriber) (b : state) :
  bc_subs b !! k = Some sb -> sub_rel next (Some cs) ep sb ->
  p_step (pipe_of cs ep) p -> p_accepted p = [] ->
  exists b' sb', rtc step b b' /\ bc_log b' = bc_log b /\ bc_subs b' = <[k := sb']> (bc_subs b)
    /\ sb_maps sb' = sb_maps sb /\ sub_rel next (Some (session_of cs p)) (endpoint_of p) sb'.
Proof.
  intros Hk Hrel Hstep Hacc. destruct cs as [sid qu cp act qt chs], ep as [f c w out r wr].
  destruct Hrel as [Hm Hj Ho Hout Hp Hi Hs].
  assert (Hstutter : sub_rel next (Some (session_of (mkClientSession sid qu cp act qt chs) p)) (endpoint_of p) sb ->
    exists b' sb', rtc step b b' /\ bc_log b' = bc_log b /\ bc_subs b' = <[k := sb']> (bc_subs b)
      /\ sb_maps sb' = sb_maps sb
      /\ sub_rel next (Some (session_of (mkClientSession sid qu cp act qt chs) p)) (endpoint_of p) sb').
  { intros Hr'. exists b, sb. by rewrite insert_id. }
  unfold pipe_of in Hstep. cbn in Hstep. revert Hm Hj Ho Hout Hp Hi Hs Hstutter Hacc.
  inversion Hstep; subst; intros Hm Hj Ho Hout Hp Hi Hs Hstutter Hacc; cbn in *; try done.
  - (* take *) apply Hstutter. split; cbn; done.
  - (* send *) apply Hstutter. split; cbn; try done. intros W. rewrite <- Hp by done. by rewrite <- !app_assoc.
  - (* slow *) eexists _, _. split; [|split; [|split; [|split]]].
    + eapply rtc_l; [by apply (Leave k sb false 0)|]. eapply rtc_once, Cut. cbn. by rewrite lookup_insert_eq.
    + done.
    + cbn. by rewrite insert_insert_eq.
    + done.
    + by split.
  - (* quit *) eexists _, _. split; [|split; [|split; [|split]]].
    + apply rtc_once. by apply (Leave k sb false (length (in_hand w ++ c))).
    + done.
    + done.
    + done.
    + split; cbn; try done. intros W. rewrite fmap_take, <- Hp by done.
      by rewrite app_nil_r, app_assoc, take_app_length.
  - (* drain of the queue *) apply Hstutter. split; cbn; done.
  - (* fetch *) apply Hstutter. split; cbn; done.
  - (* write *) specialize (Hp eq_refl).
    destruct (sb_pending sb) as [|x xs] eqn:Ep; [done|]. cbn in Hp. injection Hp as -> Hp.
    eexists _, _. split; [apply rtc_once; by apply (Deliver k sb x xs)|]. split_and!; try done.
    split; cbn; try done. by rewrite Hout, fmap_app.
  - (* failed write *) eexists _, _. split; [by apply rtc_once, (Cut k sb)|]. by split_and!.
  - (* writer stops *) eexists _, _. split; [by apply rtc_once, (Cut k sb)|]. by split_and!.
  - (* drain of the channel *) apply Hstutter. split; cbn; done.
Qed.

(** Between sessions only the writer moves. *)
Lemma writer_sim (k : nat) (next : list gostring) (ep : endpoint) (p : pipe) (sb : subscriber) (b : state) :
  bc_subs b !! k = Some sb -> sub_rel next None ep sb ->
  p_step (pipe_of no_session ep) p -> p_accepted p = [] ->
  exists b' sb', rtc step b b' /\ bc_log b' = bc_log b /\ bc_subs b' = <[k := sb']> (bc_subs b)
    /\ sb_maps sb' = sb_maps sb /\ sub_rel next None (endpoint_of p) sb'.
Proof.
  intros Hk Hr Hp Hacc.
  assert (Hrun : ep_run ep = false).
  { destruct (ep_run ep) eqn:E; [|done]. destruct (sr_session _ _ _ _ Hr E); done. }
  assert (Hrun' : p_run p = false) by (inversion Hp; subst; cbn in *; congruence).
  destruct (serve_sim k next no_session ep p sb b Hk) as (b' & sb' & Hst & Hl & Hsu & Hma & Hr'); [|done|done|].
  { destruct Hr as [Hm Hj Ho Hout Hpe Hi _]. rewrite Hrun in *. by split; rewrite ?Hrun. }
  exists b', sb'. split_and!; [done..|]. destruct Hr' as [Hm Hj Ho Hout Hpe Hi _]. cbn in *. rewrite Hrun' in *.
  by split; cbn; rewrite ?Hrun'.
Qed.

(** *** Delivery points *)

Lemma awaiting_cons (pkt : gostring) (k : nat) (c : Z) (ts : list (option nat * Z)) (j : nat) :
  awaiting pkt ((Some k, c) :: ts) j
  = if decide (j = k) then remapped pkt c :: awaiting pkt ts j else awaiting pkt ts j.
Proof. unfold awaiting. cbn. by destruct (decide (Some k = Some j)), (decide (j = k)); simplify_eq. Qed.

Lemma awaiting_none (pkt : gostring) (ts : list (option nat * Z)) (k : nat) :
  k ∉ omap fst ts -> awaiting pkt ts k = [].
Proof.
  induction ts as [|[[j|] c] ts IH]; intros Hk; cbn in Hk; [done| |by apply IH].
  apply not_elem_of_cons in Hk as [Hj Hk]. rewrite awaiting_cons, decide_False by done. by apply IH.
Qed.

Lemma awaiting_forget (pkt : gostring) (k j : nat) (ts : list (option nat * Z)) :
  awaiting pkt (forget k ts) j = if decide (j = k) then [] else awaiting pkt ts j.
Proof.
  unfold awaiting, forget. induction ts as [|[o c] ts IH]; cbn in *; [by destruct (decide _)|].
  rewrite IH. by repeat destruct (decide _); simplify_eq.
Qed.

Lemma forget_fst (k : nat) (ts : list (option nat * Z)) :
  omap fst (forget k ts) = filter (fun j => j <> k) (omap fst ts).
Proof.
  induction ts as [|[[j|] c] ts IH]; [done| |exact IH].
  change (omap fst ((Some j, c) :: ts)) with (j :: omap fst ts). rewrite filter_cons, <- IH.
  unfold forget. cbn. destruct (decide (j = k)) as [->|Hne].
  - by rewrite decide_True, decide_False by naive_solver.
  - by rewrite decide_False, decide_True by naive_solver.
Qed.

Lemma live_fst (ts : list (nat * Z)) : omap fst (live ts) = ts.*1.
Proof. unfold live. induction ts as [|[k c] ts IH]; [done|]. cbn in *. by rewrite IH. Qed.

Lemma snapshot_fst (es : list (nat * ClientSession)) (channel : Z) :
  (target_snapshot es channel).*1 `sublist_of` es.*1.
Proof.
  induction es as [|[k cs] es IH]; [done|]. cbn.
  destruct (cs_channels cs !! channel); cbn; by constructor.
Qed.

(** What the snapshot holds for one client. *)
Definition wants (pkt : gostring) (channel : Z) (cs : ClientSession) : list gostring :=
  match cs_channels cs !! channel with Some c => [remapped pkt c] | None => [] end.

Lemma snapshot_awaiting (pkt : gostring) (channel : Z) (es : list (nat * ClientSession)) (k : nat)
    (cs : ClientSession) :
  NoDup es.*1 -> (k, cs) ∈ es -> awaiting pkt (live (target_snapshot es channel)) k = wants pkt channel cs.
Proof.
  assert (Hout : forall es, k ∉ es.*1 -> awaiting pkt (live (target_snapshot es channel)) k = []).
  { intros es0 Hk. apply awaiting_none. rewrite live_fst. intros Hin. apply Hk.
    eapply elem_of_submseteq; [exact Hin|apply sublist_submseteq, snapshot_fst]. }
  induction es as [|[j cj] es IH]; intros Hn Hin; [by apply elem_of_nil in Hin|].
  cbn in Hn. apply NoDup_cons in Hn as [Hj Hn]. apply elem_of_cons in Hin as [[= -> ->]|Hin].
  - cbn [target_snapshot]. unfold wants. destruct (cs_channels cj !! channel) as [c|]; [|by apply Hout].
    change (live ((j, c) :: ?x)) with ((Some j, c) :: live x). rewrite awaiting_cons, decide_True by done.
    by rewrite Hout.
  - assert (Hne : k <> j) by (intros ->; apply Hj, list_elem_of_fmap; by exists (j, cs)).
    cbn [target_snapshot]. destruct (cs_channels cj !! channel) as [c|]; [|by apply IH].
    change (live ((j, c) :: ?x)) with ((Some j, c) :: live x). rewrite awaiting_cons, decide_False by done.
    by apply IH.
Qed.

(** The reading loop hands on the next frame of the camera. *)
Lemma frame_of_wire (todo : list wire_frame) (buf input rest : gostring) (ev : frame_event) :
  Forall valid_frame todo -> buf ++ input = wire todo -> frame_next buf = Frame ev rest ->
  exists f todo', todo = f :: todo' /\ ev = event_of f /\ rest ++ input = wire todo' /\ buf = encode f ++ rest.
Proof.
  intros Hv Hw Hf. destruct (wire_prefix todo buf input Hv Hw) as ([|f d] & t & partial & -> & -> & Hp & Hn & _).
  { cbn in Hf. congruence. }
  apply Forall_app in Hv as [Hv _]. apply Forall_cons in Hv as [Hvf _].
  unfold wire in Hf. cbn [map concat] in Hf. rewrite <- app_assoc, frame_next_complete in Hf by done.
  injection Hf as <- <-. exists f, (d ++ t). split; [done|]. split; [done|].
  fold (wire d). split; [|unfold wire; cbn [map concat]; by rewrite <- app_assoc].
  rewrite <- app_assoc, Hp. unfold wire. by rewrite map_app, concat_app.
Qed.

Lemma remapped_enc (p : packet) (c : Z) : remapped (enc p) c = enc (to_byte c, p.2).
Proof. by destruct p. Qed.

(** Publishing: the snapshot holds for each client what [offer] adds to the
    backlog of its subscriber. *)
Lemma offer_rel (p : packet) (cs : option ClientSession) (ep : endpoint) (sb : subscriber) :
  sub_rel [] cs ep sb ->
  sub_rel (default [] (wants (enc p) (byte_val p.1) <$> cs)) cs ep (offer p sb).
Proof.
  intros [Hm Hj Ho Hout Hp Hi Hs]. unfold offer, translate. rewrite Hm.
  destruct cs as [cs|]; cbn in *; [|by split; rewrite ?Hm].
  unfold wants. destruct (cs_channels cs !! byte_val p.1) as [c|] eqn:Ec; cbn; [|by split; rewrite ?Hm].
  rewrite remapped_enc, Hj, Ho. split; cbn; try done.
  intros W. rewrite W in *. destruct (ep_run ep); cbn; [|by apply Hp].
  rewrite fmap_app, <- Hp by done. by rewrite app_nil_r, <- !app_assoc.
Qed.

(** A push that is accepted. *)
Lemma push_rel (x : gostring) (cs : ClientSession) (ep : endpoint) (sb : subscriber) :
  sub_rel [x] (Some cs) ep sb -> (length (cs_queue cs) < cs_cap cs)%nat ->
  sub_rel [] (Some (Push cs x).1) ep sb.
Proof.
  intros [Hm Hj Ho Hout Hp Hi Hs] Hl. unfold Push. apply Nat.ltb_lt in Hl. rewrite Hl.
  split; cbn in *; try done. intros W. rewrite <- Hp by done.
  destruct (ep_run ep); [|done]. by rewrite app_nil_r.
Qed.

(** A push that is refused: the newest of the backlog is dropped, if there
    is one. *)
Lemma refuse_sim (k : nat) (x : gostring) (cs : ClientSession) (ep : endpoint) (sb : subscriber) (b : state) :
  bc_subs b !! k = Some sb -> sub_rel [x] (Some cs) ep sb ->
  exists b' sb', rtc step b b' /\ bc_log b' = bc_log b /\ bc_subs b' = <[k := sb']> (bc_subs b)
    /\ sb_maps sb' = sb_maps sb /\ sub_rel [] (Some cs) ep sb'.
Proof.
  intros Hk [Hm Hj Ho Hout Hp Hi Hs]. destruct (ep_run ep && ep_writer ep) eqn:E.
  - apply andb_true_iff in E as [R W]. rewrite R, W in *. specialize (Hp eq_refl).
    rewrite !app_assoc in Hp. symmetry in Hp. apply fmap_app_inv in Hp as (ps & qs & E1 & E2 & Hps).
    destruct qs as [|q [|]]; try done. eexists _, _. split; [by apply rtc_once, (Refuse k sb ps q)|].
    split_and!; try done. split; cbn; try done; [by rewrite R|by rewrite W| |by rewrite R].
    intros _. rewrite R, <- E1. cbn. by rewrite app_nil_r, <- !app_assoc.
  - exists b, sb. rewrite insert_id by done. split_and!; try done. split; try done.
    intros W. rewrite W, andb_true_r in E. rewrite E in *. by apply Hp.
Qed.

Lemma enc_length (p : packet) : (4 <= length (enc p))%nat.
Proof. destruct p. unfold enc. cbn. lia. Qed.

(** A buffer in which the loop finds no frame is not full. *)
Lemma partial_not_full (cap : nat) (todo : list wire_frame) (buf input : gostring) :
  (0 < cap)%nat -> Forall valid_frame todo -> Forall (fun f => length (encode f) <= cap)%nat todo ->
  buf ++ input = wire todo -> frame_next buf = NeedMore -> read_room cap buf = buf.
Proof.
  intros Hcap Hv Hc Hw Hn. unfold read_room. destruct (_ =? _)%nat eqn:E; [|done]. apply Nat.eqb_eq in E.
  destruct (wire_prefix todo buf input Hv Hw) as ([|f d] & t & partial & -> & -> & Hp & Hn' & Hs).
  - cbn in E. destruct Hs as [->|(f & q & Hin & He & Hq)]; [done|].
    cbn [app] in Hc. rewrite Forall_forall in Hc. specialize (Hc f Hin). rewrite He, length_app in Hc.
    destruct q; [done|]. cbn in Hc. lia.
  - apply Forall_app in Hv as [Hv _]. apply Forall_cons in Hv as [Hvf _].
    unfold wire in Hn. cbn [map concat] in Hn. by rewrite <- app_assoc, frame_next_complete in Hn.
Qed.

Section Simulation.
Context `{GoRuntime}.
Variables (cap : nat) (queueSize : Z) (fs : list wire_frame).
Hypothesis Hcap : (0 < cap)%nat.
Hypothesis Hvalid : Forall valid_frame fs.
Hypothesis Hfit : Forall (fun f => length (encode f) <= cap)%nat fs.

(** The frames still to come are valid and fit. *)
Lemma todo_valid (handed todo : list wire_frame) :
  fs = handed ++ todo -> Forall valid_frame todo /\ Forall (fun f => length (encode f) <= cap)%nat todo.
Proof.
  intros E. pose proof Hvalid as H1. pose proof Hfit as H2. rewrite E in H1, H2.
  by apply Forall_app in H1 as [_ ?]; apply Forall_app in H2 as [_ ?].
Qed.

Lemma packet_sim (rl : relay) (b : state) (channel : Z) (pkt rest : gostring)
    (targets : list (nat * Z)) (stats : Stats) :
  relay_rel cap fs rl b -> rl_targets rl = [] -> frame_next (rl_buf rl) = Frame (EvDispatch channel pkt) rest ->
  dispatch_begin (rl_clients rl) (rl_stats rl) channel pkt = (targets, stats) ->
  exists b', step b b' /\ relay_rel cap fs (mkRelay rest (rl_input rl) pkt (live targets) (rl_clients rl) stats
                                             (rl_ends rl) (rl_maps rl)) b'.
Proof.
  intros [(handed & todo & Hfs & Hlog & Hw) Hb Hd Ht Hs Hm] Hnil Hf [= <- <-].
  destruct (todo_valid handed todo Hfs) as [Hv _].
  destruct (frame_of_wire todo _ _ _ _ Hv Hw Hf) as ([ch p|h m] & todo' & -> & Hev & Hw' & Hbuf); [|done].
  assert (Hpkt : channel = byte_val ch /\ pkt = enc (ch, p)) by by injection Hev.
  destruct Hpkt as [-> ->]. pose proof (enc_length (ch, p)) as Hl.
  change (encode (WPacket ch p)) with (enc (ch, p)) in Hbuf. rewrite Hbuf, length_app in Hb.
  assert (Hn : NoDup (map_range (rl_clients rl)).*1).
  { rewrite map_range_perm. apply NoDup_fst_map_to_list. }
  eexists. split; [apply (Publish (ch, p))|]. split; cbn.
  - exists (handed ++ [WPacket ch p]), todo'. rewrite <- app_assoc. split; [done|]. split; [|done].
    unfold packets. by rewrite omap_app, Hlog.
  - lia.
  - done.
  - split; [intros _; lia| |]; rewrite live_fst.
    + eapply sublist_NoDup; [exact Hn|apply snapshot_fst].
    + intros k Hin. assert (Hk : k ∈ (map_range (rl_clients rl)).*1).
      { eapply elem_of_submseteq; [exact Hin|apply sublist_submseteq, snapshot_fst]. }
      rewrite map_range_perm in Hk. apply list_elem_of_fmap in Hk as ([k' cs] & -> & Hk).
      apply elem_of_map_to_list in Hk. by eexists.
  - intros k. specialize (Hs k). rewrite lookup_fmap. rewrite Hnil in Hs. cbn in Hs.
    destruct (rl_ends rl !! k) as [ep|], (bc_subs b !! k) as [sb|]; cbn; try done.
    apply (offer_rel (ch, p)) in Hs. destruct (rl_clients rl !! k) as [cs|] eqn:Ec; cbn in Hs.
    + erewrite (snapshot_awaiting _ _ _ k cs); [exact Hs|done|].
      rewrite map_range_perm. by apply elem_of_map_to_list.
    + rewrite awaiting_none; [done|]. rewrite live_fst. intros Hin.
      assert (Hk : k ∈ (map_range (rl_clients rl)).*1).
      { eapply elem_of_submseteq; [exact Hin|apply sublist_submseteq, snapshot_fst]. }
      rewrite map_range_perm in Hk. apply list_elem_of_fmap in Hk as ([k' cs] & -> & Hk).
      apply elem_of_map_to_list in Hk. cbn in Ec. congruence.
  - intros k sb u c. rewrite lookup_fmap. destruct (bc_subs b !! k) as [sb0|] eqn:E; [|done].
    intros [= <-] Hin. apply (Hm k sb0 u c E). unfold offer in Hin. by destruct (translate _ _).
Qed.

(** Reading and messages for the remote do not concern the clients. *)
Lemma read_sim (rl : relay) (b : state) (n : nat) :
  relay_rel cap fs rl b -> frame_next (rl_buf rl) = NeedMore ->
  (n <= cap - length (read_room cap (rl_buf rl)))%nat ->
  relay_rel cap fs (mkRelay (read_room cap (rl_buf rl) ++ take n (rl_input rl)) (drop n (rl_input rl))
                      (rl_packet rl) (rl_targets rl) (rl_clients rl) (rl_stats rl) (rl_ends rl) (rl_maps rl)) b.
Proof.
  intros [(handed & todo & Hfs & Hlog & Hw) Hb Hd Ht Hs Hm] Hn Hroom.
  destruct (todo_valid handed todo Hfs) as [Hv Hc].
  rewrite (partial_not_full cap todo (rl_buf rl) (rl_input rl)) in * by done. split; cbn; try done.
  - exists handed, todo. by rewrite <- app_assoc, take_drop.
  - rewrite length_app, length_take. lia.
Qed.

Lemma message_sim (rl : relay) (b : state) (msg rest : gostring) :
  relay_rel cap fs rl b -> frame_next (rl_buf rl) = Frame (EvResponse msg) rest ->
  relay_rel cap fs (mkRelay rest (rl_input rl) (rl_packet rl) (rl_targets rl) (rl_clients rl) (rl_stats rl)
                      (rl_ends rl) (rl_maps rl)) b.
Proof.
  intros [(handed & todo & Hfs & Hlog & Hw) Hb Hd Ht Hs Hm] Hf. destruct (todo_valid handed todo Hfs) as [Hv _].
  destruct (frame_of_wire todo _ _ _ _ Hv Hw Hf) as ([ch p|h m] & todo' & -> & Hev & Hw' & Hbuf); [done|].
  split; cbn; try done.
  - exists (handed ++ [WMessage h m]), todo'. rewrite <- app_assoc. split; [done|]. split; [|done].
    unfold packets in *. by rewrite omap_app, app_nil_r.
  - rewrite Hbuf, length_app in Hb. lia.
Qed.

(** One client moves and its subscriber follows. *)
Lemma move_sim (rl : relay) (b b' : state) (k : nat) (targets : list (option nat * Z))
    (clients : gmap nat ClientSession) (stats : Stats) (ep : endpoint) (maps : list (nat * Z * Z))
    (sb : subscriber) :
  relay_rel cap fs rl b -> bc_log b' = bc_log b -> bc_subs b' = <[k := sb]> (bc_subs b) ->
  (forall j, j <> k -> clients !! j = rl_clients rl !! j) ->
  (forall j, j <> k -> awaiting (rl_packet rl) targets j = awaiting (rl_packet rl) (rl_targets rl) j) ->
  targets_ok cap (rl_packet rl) targets clients -> (0 <= PacketsDropped stats < 2 ^ 64)%Z ->
  (forall x, x ∈ rl_maps rl -> x ∈ maps) -> (forall u c, (u, c) ∈ sb_maps sb -> (k, u, c) ∈ maps) ->
  sub_rel (awaiting (rl_packet rl) targets k) (clients !! k) ep sb ->
  relay_rel cap fs (mkRelay (rl_buf rl) (rl_input rl) (rl_packet rl) targets clients stats
                      (<[k := ep]> (rl_ends rl)) maps) b'.
Proof.
  intros [(handed & todo & Hfs & Hlog & Hw) Hb Hd Ht Hs Hm] Hl Hsu Hj Ha Ht' Hd' Hin Hin' Hr. split; cbn; try done.
  - exists handed, todo. by rewrite Hl.
  - rewrite Hsu. by eapply subs_rel_update.
  - intros j sbj u c. rewrite Hsu. destruct (decide (j = k)) as [->|Hjk].
    + rewrite lookup_insert_eq. intros [= <-]. apply Hin'.
    + rewrite lookup_insert_ne by done. intros E Hc. eapply Hin, Hm; done.
Qed.

(** The clients of the delivery points stay known while no one leaves. *)
Lemma targets_ok_insert (pkt : gostring) (targets : list (option nat * Z)) (clients : gmap nat ClientSession)
    (k : nat) (cs : ClientSession) :
  targets_ok cap pkt targets clients -> targets_ok cap pkt targets (<[k := cs]> clients).
Proof.
  intros [H1 H2 H3]. split; [done|done|]. intros j Hj. destruct (decide (j = k)) as [->|Hne].
  - rewrite lookup_insert_eq. by eexists.
  - rewrite lookup_insert_ne by done. by apply H3.
Qed.

Lemma targets_ok_tail (pkt : gostring) (o : option nat) (c : Z) (ts : list (option nat * Z))
    (clients : gmap nat ClientSession) :
  targets_ok cap pkt ((o, c) :: ts) clients ->
  targets_ok cap pkt ts clients /\ (2 <= length pkt <= cap)%nat
  /\ forall k, o = Some k -> k ∉ omap fst ts /\ is_Some (clients !! k).
Proof.
  intros [H1 H2 H3]. assert (Hl := H1 ltac:(done)). cbn in H2, H3. split; [|split; [done|]].
  - split; [done| |]; destruct o as [k|]; try done; [by inversion H2|]. intros j Hj. apply H3. by right.
  - intros k ->. inversion H2; subst. split; [done|]. apply H3. by left.
Qed.

Lemma targets_ok_forget (pkt : gostring) (targets : list (option nat * Z)) (clients : gmap nat ClientSession)
    (k : nat) :
  targets_ok cap pkt targets clients -> targets_ok cap pkt (forget k targets) (delete k clients).
Proof.
  intros [H1 H2 H3]. split.
  - intros Hne. apply H1. intros ->. done.
  - rewrite forget_fst. by apply NoDup_filter.
  - intros j. rewrite forget_fst, list_elem_of_filter. intros [Hj Hin]. rewrite lookup_delete_ne by done. by apply H3.
Qed.

Lemma connect_sim (rl : relay) (b : state) (k : nat) :
  relay_rel cap fs rl b -> rl_ends rl !! k = None ->
  bc_subs b !! k = None /\ rl_clients rl !! k = None.
Proof. intros Hrel Hk. pose proof (rr_subs _ _ _ _ Hrel k) as Hs. rewrite Hk in Hs. by destruct (bc_subs b !! k). Qed.

(** A client without session is at no delivery point. *)
Lemma awaiting_absent (rl : relay) (b : state) (k : nat) :
  relay_rel cap fs rl b -> rl_clients rl !! k = None -> awaiting (rl_packet rl) (rl_targets rl) k = [].
Proof.
  intros Hrel Hk. apply awaiting_none. intros Hin.
  destruct (tk_clients _ _ _ _ (rr_targets _ _ _ _ Hrel) k Hin). congruence.
Qed.

Lemma map_sim (rl : relay) (b : state) (k : nat) (u c : Z) (cs : ClientSession) :
  relay_rel cap fs rl b -> rl_clients rl !! k = Some cs ->
  exists b', rtc step b b'
    /\ relay_rel cap fs (mkRelay (rl_buf rl) (rl_input rl) (rl_packet rl) (rl_targets rl)
                           (MapChannel (rl_clients rl) k u c) (rl_stats rl)
                           (rl_ends rl) (rl_maps rl ++ [(k, u, c)])) b'.
Proof.
  intros Hrel Hcs. unfold MapChannel. rewrite Hcs.
  destruct (rl_ends rl !! k) as [ep|] eqn:Hk; [|apply (connect_sim _ _ _ Hrel) in Hk as [_ ?]; congruence].
  destruct (subs_rel_lookup k _ _ _ _ ep (rr_subs _ _ _ _ Hrel) Hk) as (sb & Hsb & Hr). rewrite Hcs in Hr.
  eexists. split; [apply rtc_once; by apply (Subscribe k sb u c)|].
  rewrite <- (insert_id (rl_ends rl) k ep) by done. eapply (move_sim _ b); [done|done|done|..].
  - intros j Hj. by rewrite lookup_insert_ne.
  - done.
  - apply targets_ok_insert, Hrel.
  - apply Hrel.
  - intros x Hx. apply elem_of_app. by left.
  - cbn. intros u' c' Hin. apply elem_of_app in Hin as [Hin|Hin]; apply elem_of_app.
    + left. by eapply rr_maps.
    + right. apply list_elem_of_singleton in Hin. injection Hin as -> ->. by apply list_elem_of_singleton.
  - rewrite lookup_insert_eq. destruct Hr as [Hm ??????]. split; cbn; try done. by rewrite Hm.
Qed.

(** One delivery of [dispatch]. *)
Lemma push_sim (rl : relay) (b : state) (k : nat) (c : Z) (ts : list (option nat * Z))
    (clients : gmap nat ClientSession) (dropped : Z) :
  relay_rel cap fs rl b -> rl_targets rl = (Some k, c) :: ts ->
  deliver_one cap (rl_packet rl) (k, c) (rl_clients rl) (PacketsDropped (rl_stats rl)) = Done (clients, dropped) ->
  exists b', rtc step b b'
    /\ relay_rel cap fs (mkRelay (rl_buf rl) (rl_input rl) (rl_packet rl) ts clients
                           (with_dropped (rl_stats rl) dropped) (rl_ends rl) (rl_maps rl)) b'.
Proof.
  intros Hrel Ht Hdel. pose proof (rr_targets _ _ _ _ Hrel) as Hok. rewrite Ht in Hok.
  apply targets_ok_tail in Hok as (Hok & Hl & Hk). destruct (Hk k eq_refl) as [Hn [cs Hcs]].
  destruct (rl_ends rl !! k) as [ep|] eqn:Hep; [|apply (connect_sim _ _ _ Hrel) in Hep as [_ ?]; congruence].
  destruct (subs_rel_lookup k _ _ _ _ ep (rr_subs _ _ _ _ Hrel) Hep) as (sb & Hsb & Hr).
  rewrite Hcs, Ht, awaiting_cons, decide_True, awaiting_none in Hr by done.
  unfold deliver_one in Hdel. cbn [fst snd] in Hdel. rewrite client_packet_ok in Hdel by done.
  cbn [outcome_bind] in Hdel. rewrite Hcs in Hdel.
  rewrite <- (insert_id (rl_ends rl) k ep) by done. unfold Push in Hdel.
  assert (Hmove : forall cs' b' sb', clients = <[k := cs']> (rl_clients rl) ->
    (0 <= dropped < 2 ^ 64)%Z -> bc_log b' = bc_log b -> bc_subs b' = <[k := sb']> (bc_subs b) ->
    sb_maps sb' = sb_maps sb -> sub_rel [] (Some cs') ep sb' ->
    relay_rel cap fs (mkRelay (rl_buf rl) (rl_input rl) (rl_packet rl) ts clients
                        (with_dropped (rl_stats rl) dropped) (<[k := ep]> (rl_ends rl)) (rl_maps rl)) b').
  { intros cs' b' sb' -> Hd' El Es Em Hr'. eapply (move_sim _ b); try done.
    - intros j Hj. by rewrite lookup_insert_ne.
    - intros j Hj. by rewrite Ht, awaiting_cons, decide_False.
    - by apply targets_ok_insert.
    - rewrite Em. intros u' c' Hin. by eapply rr_maps.
    - by rewrite lookup_insert_eq, awaiting_none. }
  pose proof (rr_drops _ _ _ _ Hrel) as Hd0.
  destruct (length (cs_queue cs) <? cs_cap cs)%nat eqn:E; injection Hdel as <- <-.
  - exists b. split; [done|]. eapply (Hmove _ b sb); try done; [by rewrite insert_id|].
    apply Nat.ltb_lt in E. apply (push_rel _ _ _ _ Hr) in E as Hp. unfold Push in Hp. apply Nat.ltb_lt in E.
    by rewrite E in Hp.
  - destruct (refuse_sim k _ cs ep sb b Hsb Hr) as (b' & sb' & Hst & Hl' & Hsu & Hma & Hr').
    exists b'. split; [done|]. eapply Hmove; try done. unfold uint64_wrap. apply Z.mod_pos_bound. lia.
Qed.

(** The same by a hand-over. *)
Lemma hand_over_sim (rl : relay) (b : state) (k : nat) (c : Z) (ts : list (option nat * Z)) (x : gostring)
    (cs : ClientSession) (ep : endpoint) :
  relay_rel cap fs rl b -> rl_targets rl = (Some k, c) :: ts -> client_packet cap (rl_packet rl) c = Done x ->
  rl_clients rl !! k = Some cs -> cs_queue cs = [] -> rl_ends rl !! k = Some ep ->
  ep_run ep = true -> ep_fwd ep = None ->
  relay_rel cap fs (mkRelay (rl_buf rl) (rl_input rl) (rl_packet rl) ts (rl_clients rl) (rl_stats rl)
    (<[k := mkEndpoint (Some x) (ep_chan ep) (ep_wr ep) (ep_out ep) true (ep_writer ep)]> (rl_ends rl))
    (rl_maps rl)) b.
Proof.
  intros Hrel Ht Hx Hcs Hq Hep Hrun Hfwd. pose proof (rr_targets _ _ _ _ Hrel) as Hok. rewrite Ht in Hok.
  apply targets_ok_tail in Hok as (Hok & Hl & Hk). destruct (Hk k eq_refl) as [Hn _].
  rewrite client_packet_ok in Hx by done. injection Hx as <-.
  destruct (subs_rel_lookup k _ _ _ _ ep (rr_subs _ _ _ _ Hrel) Hep) as (sb & Hsb & Hr).
  rewrite Hcs, Ht, awaiting_cons, decide_True, awaiting_none in Hr by done.
  eapply (move_sim _ b b k _ _ _ _ _ sb); try done; [by rewrite insert_id| | | |].
  - intros j Hj. by rewrite Ht, awaiting_cons, decide_False.
  - apply Hrel.
  - intros u' c' Hin. by eapply rr_maps.
  - rewrite awaiting_none, Hcs by done. destruct Hr as [Hm Hj Ho Hout Hp Hi Hs].
    cbn in *. rewrite Hrun, Hfwd, Hq in *. split; cbn; try done. by rewrite Hq.
Qed.

Lemma join_sim (rl : relay) (b : state) (k : nat) (sid : gostring) (cs : ClientSession) (ep : endpoint) :
  relay_rel cap fs rl b -> rl_ends rl !! k = Some ep -> rl_clients rl !! k = None ->
  NewClientSession queueSize sid = Done cs ->
  exists b', step b b' /\ relay_rel cap fs (with_client rl k (cs_Start cs)
    (mkEndpoint (ep_fwd ep) (ep_chan ep) (ep_wr ep) (ep_out ep) true (ep_writer ep))) b'.
Proof.
  intros Hrel Hk Hcl Hnew.
  destruct (subs_rel_lookup k _ _ _ _ ep (rr_subs _ _ _ _ Hrel) Hk) as (sb & Hsb & Hr). rewrite Hcl in Hr.
  assert (Hrun : ep_run ep = false).
  { destruct (ep_run ep) eqn:E; [|done]. destruct (sr_session _ _ _ _ Hr E); done. }
  unfold NewClientSession in Hnew. destruct (queueSize <? 0)%Z; [done|]. injection Hnew as <-.
  eexists. split; [apply (Join k sb); [done|by rewrite (sr_joined _ _ _ _ Hr)]|].
  eapply (move_sim _ b); try done.
  - intros j Hj. by rewrite lookup_insert_ne.
  - apply targets_ok_insert, Hrel.
  - apply Hrel.
  - intros u' c' Hin. by eapply rr_maps.
  - rewrite lookup_insert_eq, (awaiting_absent rl b k) by done.
    destruct Hr as [Hm Hj Ho Hout Hp Hi _]. rewrite Hrun in *. rewrite Hi by done.
    split; cbn; try done.
Qed.

Lemma leave_sim (rl : relay) (b : state) (k : nat) (ep : endpoint) :
  relay_rel cap fs rl b -> rl_ends rl !! k = Some ep -> ep_fwd ep = None ->
  exists b', step b b' /\ relay_rel cap fs
    (mkRelay (rl_buf rl) (rl_input rl) (rl_packet rl) (forget k (rl_targets rl)) (delete k (rl_clients rl))
       (rl_stats rl) (<[k := mkEndpoint None (ep_chan ep) (ep_wr ep) (ep_out ep) false (ep_writer ep)]> (rl_ends rl))
       (rl_maps rl)) b'.
Proof.
  intros Hrel Hk Hfwd.
  destruct (subs_rel_lookup k _ _ _ _ ep (rr_subs _ _ _ _ Hrel) Hk) as (sb & Hsb & Hr).
  eexists. split; [by apply (Leave k sb true (length (in_hand (ep_wr ep) ++ ep_chan ep)))|].
  eapply (move_sim _ b); try done.
  - intros j Hj. by rewrite lookup_delete_ne.
  - intros j Hj. by rewrite awaiting_forget, decide_False.
  - apply targets_ok_forget, Hrel.
  - apply Hrel.
  - intros u' c' Hin. by eapply rr_maps.
  - rewrite lookup_delete_eq, awaiting_forget, decide_True by done.
    destruct Hr as [Hm Hj Ho Hout Hp Hi _]. split; cbn; try done.
    intros W. by rewrite fmap_take, <- (Hp W), app_nil_r, app_assoc, take_app_length.
Qed.

Lemma rl_step_sim (rl rl' : relay) (b : state) :
  relay_rel cap fs rl b -> rl_step cap queueSize rl rl' ->
  exists b', rtc step b b' /\ relay_rel cap fs rl' b'.
Proof.
  intros Hrel Hstep. assert (Hsub := fun k ep => subs_rel_lookup k _ _ _ _ ep (rr_subs _ _ _ _ Hrel)).
  destruct Hstep.
  - exists b. split; [done|by apply (read_sim _ b n Hrel)].
  - exists b. split; [done|by apply (message_sim _ b msg rest Hrel)].
  - destruct (packet_sim _ b channel pkt rest targets stats' Hrel) as (b' & Hst & Hrel'); try done.
    exists b'. split; [by apply rtc_once|done].
  - by apply (push_sim _ b k c ts clients' dropped Hrel).
  - exists b. split; [done|]. by apply (hand_over_sim _ b k c ts x cs ep Hrel).
  - exists b. split; [done|]. destruct Hrel as [Hf Hb Hd Ht Hs Hm]. apply targets_ok_tail in Ht as (Ht & _).
    split; cbn in *; try done. destruct H0 as [-> | ->]; [done|]. unfold uint64_wrap. apply Z.mod_pos_bound. lia.
  - destruct (connect_sim rl b k Hrel) as [Hsb Hcl]; [done|].
    eexists. split; [apply rtc_once; by apply (Connect k)|].
    eapply (move_sim _ b); try done; [apply Hrel|apply Hrel| |by rewrite Hcl, (awaiting_absent rl b k)].
    intros u' c' Hin. by apply elem_of_nil in Hin.
  - destruct (join_sim rl b k sid cs ep Hrel) as (b' & Hst & Hrel'); try done.
    exists b'. split; [by apply rtc_once|done].
  - by apply (map_sim rl b k u c cs).
  - destruct (leave_sim rl b k ep Hrel) as (b' & Hst & Hrel'); try done.
    exists b'. split; [by apply rtc_once|done].
  - destruct (Hsub k ep) as (sb & Hsb & Hr); [done|]. rewrite H0 in Hr.
    destruct (serve_sim k _ cs ep p sb b Hsb Hr) as (b' & sb' & Hst & Hl & Hsu & Hma & Hr'); [done|done|].
    exists b'. split; [done|]. apply (move_sim _ b _ _ _ _ _ _ _ sb'); try done.
    + intros j Hj. by rewrite lookup_insert_ne.
    + apply targets_ok_insert, Hrel.
    + apply Hrel.
    + rewrite Hma. intros u' c' Hin. by eapply rr_maps.
    + by rewrite lookup_insert_eq.
  - destruct (Hsub k ep) as (sb & Hsb & Hr); [done|]. rewrite H0 in Hr.
    destruct (writer_sim k _ ep p sb b Hsb Hr) as (b' & sb' & Hst & Hl & Hsu & Hma & Hr'); [done|done|].
    exists b'. split; [done|]. apply (move_sim _ b _ _ _ _ _ _ _ sb'); try done; [apply Hrel|apply Hrel| |by rewrite H0].
    rewrite Hma. intros u' c' Hin. by eapply rr_maps.
Qed.

Lemma rl_reach_rtc (rl rl' : relay) :
  rl_reach cap queueSize fs rl -> rtc (rl_step cap queueSize) rl rl' -> rl_reach cap queueSize fs rl'.
Proof. intros Hr Hs. induction Hs as [|x y z Hxy _ IH]; [done|]. by apply IH, (rl_reach_step _ _ _ x). Qed.

Lemma relay_rel_init : relay_rel cap fs (relay_init fs) init.
Proof.
  split; cbn; [by exists [], fs|lia|done| |intros k; by rewrite !lookup_empty|done].
  split; [done|constructor|]. intros k Hk. by apply elem_of_nil in Hk.
Qed.

Lemma rl_reach_sim (rl : relay) :
  rl_reach cap queueSize fs rl -> exists b, reach b /\ relay_rel cap fs rl b.
Proof.
  induction 1 as [|rl rl' _ (b & Hr & Hrel) Hs].
  - exists init. split; [apply reach_init|apply relay_rel_init].
  - destruct (rl_step_sim rl rl' b Hrel Hs) as (b' & Hst & Hrel'). exists b'. split; [by apply (reach_rtc b)|done].
Qed.

End Simulation.

(** ** What the clients receive *)

Lemma packets_valid (fs : list wire_frame) (q : packet) :
  Forall valid_frame fs -> q ∈ packets fs -> (slen q.2 < 65536)%Z.
Proof.
  intros Hv Hin. unfold packets in Hin. apply list_elem_of_omap in Hin as ([ch p|h m] & Hin & [= <-]).
  rewrite Forall_forall in Hv. apply (Hv _ Hin).
Qed.

(** Part of a list whose members come from another's, in order, come from
    part of it. *)
Lemma Forall2_sublist {A B : Type} (P : A -> B -> Prop) (l l' : list A) (k : list B) :
  l' `sublist_of` l -> Forall2 P l k -> exists k', k' `sublist_of` k /\ Forall2 P l' k'.
Proof.
  intros Hs. revert k. induction Hs as [|x l1 l2 Hs IH|x l1 l2 Hs IH]; intros k Hf.
  - exists []. split; [apply sublist_nil_l|constructor].
  - apply Forall2_cons_inv_l in Hf as (y & k2 & Hxy & Hf & ->). destruct (IH k2 Hf) as (k' & Hk & Hf').
    exists (y :: k'). by split; constructor.
  - apply Forall2_cons_inv_l in Hf as (y & k2 & Hxy & Hf & ->). destruct (IH k2 Hf) as (k' & Hk & Hf').
    exists k'. by split; [constructor|].
Qed.

(** Packets whose payloads the camera sent are frames a client can read. *)
Lemma packets_readable (fs : list wire_frame) (maps : list (Z * Z)) (got src : list packet) :
  Forall valid_frame fs -> src `sublist_of` packets fs -> Forall2 (renders maps) got src ->
  drain_buffer (concat (enc <$> got)) = Some ((fun q => EvDispatch (byte_val q.1) (enc q)) <$> got, [], false).
Proof.
  intros Hv Hsub Hgot. set (frame := fun q : packet => WPacket q.1 q.2).
  assert (Hg : Forall valid_frame (frame <$> got)).
  { apply Forall_fmap. eapply Forall2_Forall_l; [exact Hgot|]. apply Forall_forall.
    intros p Hp q (c & _ & ->). cbn. apply (packets_valid fs); [done|].
    eapply elem_of_submseteq; [exact Hp|by apply sublist_submseteq]. }
  rewrite (readLoop_flushed (frame <$> got)); [|done|].
  - f_equal. do 2 f_equal. by rewrite <- list_fmap_compose.
  - unfold wire. f_equal. change (map encode (frame <$> got)) with (encode <$> (frame <$> got)).
    by rewrite <- list_fmap_compose.
Qed.

Section Progress.
Context `{GoRuntime}.
Variables (cap : nat) (queueSize : Z) (k : nat).

(** Both goroutines of a client at work. *)
Definition serving (rl : relay) (cs : ClientSession) (ep : endpoint) : Prop :=
  rl_clients rl !! k = Some cs /\ rl_ends rl !! k = Some ep /\ ep_run ep = true /\ ep_writer ep = true.

(** A step of this client's forwarder or writer, neither giving up. *)
Definition own_step (rl rl' : relay) : Prop :=
  exists cs ep p, rl_clients rl !! k = Some cs /\ rl_ends rl !! k = Some ep
    /\ p_work (pipe_of cs ep) p /\ rl' = with_client rl k (session_of cs p) (endpoint_of p).

Lemma own_step_rl_step (rl rl' : relay) : own_step rl rl' -> rl_step cap queueSize rl rl'.
Proof.
  intros (cs & ep & p & Hc & He & (Hs & Ha & _) & ->). by apply (RServe _ _ k cs ep p).
Qed.

(** One such step keeps what is in flight and shortens its way. *)
Lemma own_step_serving (rl rl' : relay) (cs : ClientSession) (ep : endpoint) :
  serving rl cs ep -> own_step rl rl' ->
  exists cs' ep', serving rl' cs' ep'
    /\ ep_out ep' ++ in_flight (pipe_of cs' ep') = ep_out ep ++ in_flight (pipe_of cs ep)
    /\ (p_moves (pipe_of cs' ep') < p_moves (pipe_of cs ep))%nat.
Proof.
  intros (H1 & H2 & H3 & H4) (cs0 & ep0 & p & Hc & He & Hw & ->).
  rewrite H1 in Hc. injection Hc as <-. rewrite H2 in He. injection He as <-.
  pose proof (p_work_spec _ _ Hw) as (Hk & Hm & _). destruct Hw as (_ & Ha & _ & _ & R & W).
  exists (session_of cs p), (endpoint_of p). split.
  - split_and!; cbn; by rewrite ?lookup_insert_eq.
  - destruct p. cbn in Ha. subst. by split.
Qed.

Lemma own_steps_serving (n : nat) (rl rl' : relay) (cs : ClientSession) (ep : endpoint) :
  serving rl cs ep -> nsteps own_step n rl rl' ->
  exists cs' ep', serving rl' cs' ep'
    /\ ep_out ep' ++ in_flight (pipe_of cs' ep') = ep_out ep ++ in_flight (pipe_of cs ep)
    /\ (n + p_moves (pipe_of cs' ep') <= p_moves (pipe_of cs ep))%nat.
Proof.
  intros Hsv Hn. revert cs ep Hsv. induction Hn as [rl|n rl rl1 rl' Hs _ IH]; intros cs ep Hsv.
  - exists cs, ep. by split_and!.
  - destruct (own_step_serving rl rl1 cs ep Hsv Hs) as (cs1 & ep1 & Hsv1 & Hk1 & Hm1).
    destruct (IH cs1 ep1 Hsv1) as (cs' & ep' & Hsv' & Hk' & Hm').
    exists cs', ep'. split; [done|]. split; [congruence|lia].
Qed.

Lemma own_step_enabled (rl : relay) (cs : ClientSession) (ep : endpoint) :
  serving rl cs ep -> in_flight (pipe_of cs ep) <> [] -> exists rl', own_step rl rl'.
Proof.
  intros (H1 & H2 & H3 & H4) Hne. destruct (p_work_enabled (pipe_of cs ep) H3 H4 Hne) as [p Hp].
  eexists. by exists cs, ep, p.
Qed.

End Progress.

(** ** Properties *)

(** C3: Refinement: the relay implements the broadcast service.  The two
    initial states are related and every step of the composed system
    (reads of any size, frames, the snapshot of a dispatch and its pushes
    one by one, joining, mapping, leaving, forwarders and writers with
    all their failures) is matched by steps of the service, in the
    relation that reads a client's socket as the packets delivered to its
    subscriber, and what its writer, write channel, forwarder and queue
    hold and what it is about to be pushed as the backlog. *)
Theorem relay_refines `{GoRuntime} (cap : nat) (queueSize : Z) (fs : list wire_frame) :
  (0 < cap)%nat -> Forall valid_frame fs -> Forall (fun f => length (encode f) <= cap)%nat fs ->
  relay_rel cap fs (relay_init fs) init
  /\ forall rl rl' b, relay_rel cap fs rl b -> rl_step cap queueSize rl rl' ->
     exists b', rtc step b b' /\ relay_rel cap fs rl' b'.
Proof.
  intros Hc Hv Hf. split; [by apply relay_rel_init|]. intros rl rl' b. by apply rl_step_sim.
Qed.

(** C4: End to end: whatever the chunks in which the camera's bytes
    arrive and however the goroutines interleave, the bytes written to a
    client's socket are whole interleaved frames which the client can
    read back; they are the camera's packets, in order and without
    repetition, with their payload unchanged, and every one of them
    arrived on a channel this client mapped and carries the number the
    client mapped that channel to. *)
Theorem relay_delivers `{GoRuntime} (cap : nat) (queueSize : Z) (fs : list wire_frame) (rl : relay)
    (k : nat) (ep : endpoint) :
  (0 < cap)%nat -> Forall valid_frame fs -> Forall (fun f => length (encode f) <= cap)%nat fs ->
  rl_reach cap queueSize fs rl -> rl_ends rl !! k = Some ep ->
  exists got sent : list packet,
    ep_out ep = enc <$> got
    /\ drain_buffer (concat (ep_out ep))
       = Some ((fun q => EvDispatch (byte_val q.1) (enc q)) <$> got, [], false)
    /\ sent `sublist_of` packets fs
    /\ Forall2 (fun q p => exists c, (k, byte_val p.1, c) ∈ rl_maps rl /\ q = (to_byte c, p.2)) got sent.
Proof.
  intros Hc Hv Hf Hr Hk. destruct (rl_reach_sim cap queueSize fs Hc Hv Hf rl Hr) as (b & Hb & Hrel).
  destruct (subs_rel_lookup k _ _ _ _ ep (rr_subs _ _ _ _ Hrel) Hk) as (sb & Hsb & Hs).
  destruct (reach_inv b Hb k sb Hsb) as [Hor (src & Hsrc & Hl) _ _ _].
  destruct (rr_frames _ _ _ _ Hrel) as (handed & todo & Hfs & Hlog & _).
  assert (Hg : sb_got sb `sublist_of` sb_wanted sb) by (etrans; [by apply sublist_inserts_r|exact Hor]).
  destruct (Forall2_sublist _ _ _ _ Hg Hl) as (sent & Hsent & Hren).
  assert (Hsub : sent `sublist_of` packets fs).
  { do 2 (etrans; [eassumption|]). rewrite Hlog, Hfs. unfold packets. rewrite omap_app.
    by apply sublist_inserts_r. }
  exists (sb_got sb), sent. rewrite (sr_out _ _ _ _ Hs). split_and!; [done| |done|].
  - by apply (packets_readable fs (sb_maps sb) _ sent).
  - eapply Forall2_impl; [exact Hren|]. intros q p (c & Hin & ->). exists c.
    split; [by eapply rr_maps|done].
Qed.

(** A client that has joined, mapped channel 0 to its channel 4, and been
    sent the camera's first packet. *)
Definition one_packet : list wire_frame := [WPacket "000"%char (str "ab")].

Lemma one_packet_relayed :
  exists rl, @rl_reach sample_runtime 64 10 one_packet rl
    /\ exists ep, rl_ends rl !! 1%nat = Some ep /\ ep_out ep = [enc ("004"%char, str "ab")].
Proof.
  eexists. split.
  - eapply rl_reach_rtc; [apply rl_reach_init|].
    eapply rtc_l; [apply (RConnect _ _ 1); reflexivity|].
    eapply rtc_l; [eapply (RJoin _ _ 1 (str "s")); vm_compute; reflexivity|].
    eapply rtc_l; [eapply (RMap _ _ 1 0 4); vm_compute; reflexivity|].
    eapply rtc_l; [apply (RRead _ _ 6); [reflexivity|vm_compute; lia]|].
    eapply rtc_l; [eapply RPacket; [vm_compute; reflexivity|vm_compute; reflexivity]|].
    eapply rtc_l; [eapply RPush; vm_compute; reflexivity|].
    eapply rtc_l; [eapply (RServe _ _ 1); [vm_compute; reflexivity|vm_compute; reflexivity|apply PTake|reflexivity]|].
    eapply rtc_l; [eapply (RServe _ _ 1); [vm_compute; reflexivity|vm_compute; reflexivity|apply PSend; vm_compute; lia|reflexivity]|].
    eapply rtc_l; [eapply (RServe _ _ 1); [vm_compute; reflexivity|vm_compute; reflexivity|apply PFetch|reflexivity]|].
    eapply rtc_l; [eapply (RServe _ _ 1); [vm_compute; reflexivity|vm_compute; reflexivity|apply PWrite|reflexivity]|].
    apply rtc_refl.
  - eexists. split; [vm_compute; reflexivity|]. vm_compute. reflexivity.
Qed.

Lemma one_packet_ok :
  Forall valid_frame one_packet /\ Forall (fun f => length (encode f) <= 64)%nat one_packet.
Proof. split; apply (bool_decide_unpack _); by vm_compute. Qed.

Lemma relay_refines_witness :
  relay_rel 64 one_packet (relay_init one_packet) init
  /\ forall rl', @rl_step sample_runtime 64 10 (relay_init one_packet) rl' ->
     exists b', rtc step init b' /\ relay_rel 64 one_packet rl' b'.
Proof.
  destruct one_packet_ok as [Hv Hf].
  destruct (@relay_refines sample_runtime 64 10 one_packet) as [Hi Hs]; [lia|exact Hv|exact Hf|].
  split; [exact Hi|]. intros rl' Hst. exact (Hs _ rl' init Hi Hst).
Defined.

Lemma relay_delivers_witness :
  exists rl, @rl_reach sample_runtime 64 10 one_packet rl
    /\ exists ep got sent, rl_ends rl !! 1%nat = Some ep /\ ep_out ep = enc <$> got /\ got <> []
       /\ sent `sublist_of` packets one_packet
       /\ Forall2 (fun q p => exists c, (1%nat, byte_val p.1, c) ∈ rl_maps rl /\ q = (to_byte c, p.2)) got sent.
Proof.
  destruct one_packet_relayed as (rl & Hr & ep & Hk & Ho). destruct one_packet_ok as [Hv Hf].
  exists rl. split; [exact Hr|]. exists ep.
  destruct (@relay_delivers sample_runtime 64 10 one_packet rl 1 ep) as (got & sent & H1 & _ & H3 & H4);
    [lia|exact Hv|exact Hf|exact Hr|exact Hk|].
  exists got, sent. split; [exact Hk|]. split; [exact H1|]. split; [|split; [exact H3|exact H4]].
  intros ->. rewrite Ho in H1. discriminate H1.
Defined.

(** C28: Nothing accepted is stuck.  From every state in which a client's
    forwarder and writer serve, consider any run of steps of these two
    goroutines alone in which neither gives up: it is a run of the relay,
    it is no longer than four moves per packet on the way, and where it
    stops because neither can move, the socket has been written all that
    was there at the start and what the writer held, the write channel,
    what the forwarder held and the queue, in that order.  So however the
    two are scheduled they deliver everything. *)
Theorem relay_can_deliver `{GoRuntime} (cap : nat) (queueSize : Z) (rl rl' : relay) (k : nat)
    (cs : ClientSession) (ep : endpoint) (n : nat) :
  serving k rl cs ep -> nsteps (own_step k) n rl rl' ->
  rtc (rl_step cap queueSize) rl rl'
  /\ (n <= 4 * (length (cs_queue cs) + length (ep_chan ep) + 2))%nat
  /\ ((exists rl'', own_step k rl' rl'')
      \/ exists ep', rl_ends rl' !! k = Some ep'
         /\ ep_out ep' = ep_out ep ++ in_hand (ep_wr ep) ++ ep_chan ep ++ in_hand (ep_fwd ep) ++ cs_queue cs).
Proof.
  intros Hsv Hn. destruct (own_steps_serving k n rl rl' cs ep Hsv Hn) as (cs' & ep' & Hsv' & Hk & Hm).
  split_and!.
  - apply rtc_nsteps_2 with n. eapply nsteps_congruence with (f := id); [|exact Hn].
    intros x y. by apply own_step_rl_step.
  - unfold p_moves in Hm at 2. cbn in Hm. destruct (ep_wr ep), (ep_fwd ep); cbn in Hm; lia.
  - destruct (decide (in_flight (pipe_of cs' ep') = [])) as [E|E].
    + right. exists ep'. split; [apply Hsv'|]. rewrite E, app_nil_r in Hk. exact Hk.
    + left. by eapply own_step_enabled.
Qed.

(** Four moves later the packet in the channel and the one in the queue
    have been written. *)
Definition busy_session : ClientSession := mkClientSession [] [] 5 true false ∅.

Definition busy_relay (fwd : option gostring) (chan : list gostring) (wr : option gostring)
    (out : list gostring) : relay :=
  mkRelay [] [] [] [] {[3%nat := busy_session]} (mkStats 0 0 0 0)
    {[3%nat := mkEndpoint fwd chan wr out true true]} [].

Lemma busy_step (fwd fwd' : option gostring) (chan chan' : list gostring) (wr wr' : option gostring)
    (out out' : list gostring) :
  p_step (mkPipe 5 [] fwd chan wr out [] true true) (mkPipe 5 [] fwd' chan' wr' out' [] true true) ->
  own_step 3 (busy_relay fwd chan wr out) (busy_relay fwd' chan' wr' out').
Proof.
  intros Hp. exists busy_session, (mkEndpoint fwd chan wr out true true), (mkPipe 5 [] fwd' chan' wr' out' [] true true).
  split_and!; [done|done|by split_and!|done].
Qed.

Lemma relay_can_deliver_witness :
  let rl := busy_relay (Some (str "$2")) [str "$1"] None [] in
  exists rl', nsteps (own_step 3) 5 rl rl'
    /\ ((exists rl'', own_step 3 rl' rl'')
        \/ exists ep', rl_ends rl' !! 3%nat = Some ep' /\ ep_out ep' = [str "$1"; str "$2"]).
Proof.
  intros rl. exists (busy_relay None [] None [str "$1"; str "$2"]).
  assert (Hn : nsteps (own_step 3) 5 rl (busy_relay None [] None [str "$1"; str "$2"])).
  { eapply nsteps_l; [apply busy_step, PFetch|]. eapply nsteps_l; [apply busy_step, PWrite|].
    eapply nsteps_l; [apply busy_step, PSend; cbn; unfold write_chan_size; lia|].
    eapply nsteps_l; [apply busy_step, PFetch|]. eapply nsteps_l; [apply busy_step, PWrite|]. apply nsteps_O. }
  split; [exact Hn|].
  apply (@relay_can_deliver sample_runtime 64 5 rl (busy_relay None [] None [str "$1"; str "$2"]) 3
           busy_session (mkEndpoint (Some (str "$2")) [str "$1"] None [] true true) 5); [|exact Hn].
  split; [reflexivity|]. split; [reflexivity|]. split; reflexivity.
Defined.

(** While a client's channels are served without refusal, departure or
    failure, it misses nothing: what it got and what is on the way to it
    are all the packets published on its channels since it joined. *)
Theorem whole_subscriber (b : state) (k : nat) (sb : subscriber) :
  reach b -> bc_subs b !! k = Some sb -> sb_whole sb = true -> sb_got sb ++ sb_pending sb = sb_wanted sb.
Proof. intros Hr Hk. by apply (reach_inv b Hr k sb Hk). Qed.

(** Without a connection [readLoop] returns an error and hands on nothing. *)
Theorem Stream_readLoop_unconnected (cap : nat) (its : list iteration) (input : gostring) (s : Stream) :
  (forall r, st_remote s = Some r -> r_conn r = false) ->
  exists e, Stream_readLoop cap its input s = ([], Returned (Some e)).
Proof.
  intros Hc. unfold Stream_readLoop. destruct (st_remote s) as [r|]; [rewrite (Hc r) by done|]; by eexists.
Qed.
