(* ===== verification/Sdp.v ===== *)
(** * The tracks of a session description: [parseTracks] of src/rtspproxy/stream.go *)

From stdpp Require Import gmap strings list fin_maps.
From Stdlib Require Import Ascii ZArith Lia.
From S2P Require Import Prelude GoStrings.

Local Open Scope go_scope.

(** ** Definitions *)

Definition M_PREFIX : gostring := str "m=".
Definition CONTROL : gostring := str "a=control:".
Definition RTSP_SCHEME : gostring := str "rtsp://".
Definition SLASH : ascii := "/"%char.

(** The first loop: the last session-level control that is not a
    wildcard, up to the first media line. *)
Fixpoint session_control (lines : list gostring) (baseURL : gostring) : gostring :=
  match lines with
  | [] => baseURL
  | line :: ls =>
      let line := TrimSpace line in
      if HasPrefix line M_PREFIX then baseURL
      else if HasPrefix line CONTROL then
        let ctrl := TrimPrefix line CONTROL in
        session_control ls (if negb (ctrl =s str "*") then ctrl else baseURL)
      else session_control ls baseURL
  end.

(** What is appended for one media-level control. *)
Definition resolve_control (baseURL control : gostring) : gostring :=
  if HasPrefix control RTSP_SCHEME then control
  else if negb (baseURL =s []) && HasPrefix baseURL RTSP_SCHEME then
    TrimRight baseURL SLASH ++ str "/" ++ TrimLeft control SLASH
  else control.

(** The second loop. *)
Fixpoint track_loop (baseURL : gostring) (lines : list gostring) (inMedia : bool)
    (tracks : list gostring) : list gostring :=
  match lines with
  | [] => tracks
  | line :: ls =>
      let line := TrimSpace line in
      if HasPrefix line M_PREFIX then track_loop baseURL ls true tracks
      else if negb inMedia then track_loop baseURL ls inMedia tracks
      else if HasPrefix line CONTROL then
        let control := TrimPrefix line CONTROL in
        if control =s str "*" then track_loop baseURL ls inMedia tracks
        else track_loop baseURL ls inMedia (tracks ++ [resolve_control baseURL control])
      else track_loop baseURL ls inMedia tracks
  end.

Definition parseTracks (sdp : gostring) : list gostring :=
  let lines := Split sdp LF in
  let tracks := track_loop (session_control lines []) lines false [] in
  match tracks with
  | [] => [[]]
  | _ => tracks
  end.

(** ** Specification *)

(** The control attribute of a line, wildcards apart. *)
Definition control_of (line : gostring) : option gostring :=
  if HasPrefix line CONTROL then
    let c := TrimPrefix line CONTROL in if c =s str "*" then None else Some c
  else None.

Fixpoint controls (lines : list gostring) : list gostring :=
  match lines with
  | [] => []
  | l :: ls => match control_of l with Some c => c :: controls ls | None => controls ls end
  end.

Definition is_media (line : gostring) : Prop := HasPrefix line M_PREFIX = true.

(** ** Lemmas *)

Lemma media_not_control (line : gostring) : is_media line -> control_of line = None.
Proof.
  unfold is_media, control_of. intros H. apply HasPrefix_spec in H as [t ->]. done.
Qed.

Lemma session_control_spec (lines : list gostring) (base : gostring) (session media : list gostring) :
  map TrimSpace lines = session ++ media ->
  Forall (fun l => ~ is_media l) session ->
  match media with [] => True | l :: _ => is_media l end ->
  session_control lines base = default base (last (controls session)).
Proof.
  revert base session. induction lines as [|l lines IH]; intros base session E Hs Hm.
  - destruct session; [done|]. discriminate E.
  - cbn [map session_control] in *. destruct session as [|l0 session].
    + cbn in E. subst media. cbn zeta. by rewrite Hm.
    + injection E as E1 E2. subst l0. inversion Hs as [|? ? Hl Hs']; subst.
      unfold is_media in Hl. apply not_true_is_false in Hl. cbn zeta. rewrite Hl.
      cbn [controls]. unfold control_of at 1. destruct (HasPrefix (TrimSpace l) CONTROL).
      * destruct (TrimPrefix (TrimSpace l) CONTROL =s str "*"); cbn [negb];
          rewrite (IH _ session) by done; [done|].
        rewrite last_cons. by destruct (last _).
      * by apply IH.
Qed.

(** The second loop collects the controls of the media level. *)
Lemma track_loop_media (base : gostring) (lines : list gostring) (tracks : list gostring) :
  track_loop base lines true tracks
  = tracks ++ map (resolve_control base) (controls (map TrimSpace lines)).
Proof.
  revert tracks. induction lines as [|l lines IH]; intros tracks; [by rewrite app_nil_r|].
  cbn [track_loop map controls]. cbn zeta.
  destruct (HasPrefix (TrimSpace l) M_PREFIX) eqn:Em.
  { rewrite (media_not_control _ Em). apply IH. }
  cbn [negb]. unfold control_of. destruct (HasPrefix (TrimSpace l) CONTROL); [|apply IH].
  destruct (_ =s str "*"); [apply IH|]. rewrite IH. cbn [map]. by rewrite <-app_assoc.
Qed.

Lemma track_loop_split (base : gostring) (lines : list gostring) (session media : list gostring) :
  map TrimSpace lines = session ++ media ->
  Forall (fun l => ~ is_media l) session ->
  match media with [] => True | l :: _ => is_media l end ->
  track_loop base lines false [] = map (resolve_control base) (controls media).
Proof.
  revert session. induction lines as [|l lines IH]; intros session E Hs Hm.
  - destruct session; [|discriminate E]. cbn in E. by subst media.
  - destruct session as [|l0 session].
    + cbn in E. subst media. cbn [track_loop]. cbn zeta. rewrite Hm.
      cbn [controls]. rewrite (media_not_control _ Hm). by rewrite track_loop_media.
    + injection E as E1 E2. subst l0. inversion Hs as [|? ? Hl Hs']; subst.
      unfold is_media in Hl. apply not_true_is_false in Hl.
      cbn [track_loop]. cbn zeta. rewrite Hl. by apply (IH session).
Qed.

(** ** Properties *)

(** C34: The tracks of a session description are, in order, the control
    attributes of its media level (everything from the first [m=] line
    on), wildcards left out: absolute ones as they are, relative ones
    resolved against the last control of the session level when that is
    absolute, with exactly one slash at the joint.  The list is never
    empty: without any control it is the one empty track that stands for
    the stream's own path. *)
Theorem parseTracks_spec (sdp : gostring) (session media : list gostring) :
  map TrimSpace (Split sdp LF) = session ++ media ->
  Forall (fun l => ~ is_media l) session ->
  match media with [] => True | l :: _ => is_media l end ->
  let base := default [] (last (controls session)) in
  parseTracks sdp
  = match controls media with
    | [] => [[]]
    | cs => map (fun c => if HasPrefix c RTSP_SCHEME then c
                          else if HasPrefix base RTSP_SCHEME
                          then TrimRight base SLASH ++ str "/" ++ TrimLeft c SLASH
                          else c) cs
    end
  /\ parseTracks sdp <> []
  /\ (last (TrimRight base SLASH) <> Some SLASH)
  /\ forall c, head (TrimLeft c SLASH) <> Some SLASH.
Proof.
  intros E Hs Hm base.
  assert (Ht : parseTracks sdp = match controls media with
    | [] => [[]] | cs => map (resolve_control base) cs end).
  { unfold parseTracks. cbn zeta. rewrite (session_control_spec _ [] session media) by done.
    fold base. rewrite (track_loop_split base _ session media) by done.
    by destruct (controls media). }
  split_and!.
  - rewrite Ht. destruct (controls media) as [|c cs]; [done|]. apply map_ext. intros x.
    unfold resolve_control. destruct (HasPrefix x RTSP_SCHEME); [done|].
    destruct base as [|b base']; [done|]. done.
  - rewrite Ht. by destruct (controls media).
  - apply TrimRight_last.
  - intros c. apply TrimLeft_head.
Qed.

Definition sample_sdp : gostring :=
  str "v=0" ++ CRLF ++ str "a=control:rtsp://cam/live/" ++ CRLF ++ str "m=video 0 RTP/AVP 96" ++ CRLF
  ++ str "a=control:track1" ++ CRLF ++ str "m=audio 0 RTP/AVP 0" ++ CRLF
  ++ str "a=control:rtsp://cam/live/audio" ++ CRLF.

Lemma parseTracks_spec_witness :
  parseTracks sample_sdp = [str "rtsp://cam/live/track1"; str "rtsp://cam/live/audio"].
Proof.
  etrans.
  - apply (parseTracks_spec sample_sdp [str "v=0"; str "a=control:rtsp://cam/live/"]
      [str "m=video 0 RTP/AVP 96"; str "a=control:track1"; str "m=audio 0 RTP/AVP 0";
       str "a=control:rtsp://cam/live/audio"; []]).
    + by vm_compute.
    + repeat apply Forall_cons_2; try apply Forall_nil_2; by vm_compute.
    + by vm_compute.
  - by vm_compute.
Defined.
