(* ===== verification/Upstream.v ===== *)
(** * Requests and responses on the upstream connection

    The second half of src/rtspproxy/remote.go with src/rtspproxy/ipc.go
    and [doConnectSequence] of src/rtspproxy/stream.go: the queue of
    requests waiting for a response, what a response does to the stream,
    the synchronous requests built on it and the connect sequence.

    [Up] is the shared memory these functions work on: the stream (which
    holds its [Remote]), the requests by number, the mailboxes of the
    [Ipc] channels by number, and the global counters. *)

From stdpp Require Import gmap strings list fin_maps.
From Stdlib Require Import Ascii ZArith Lia.
From S2P Require Import Prelude GoStrings Message Response Request Digest Metrics Remote Session Fanout Stream Sdp.

Local Open Scope go_scope.

(** ** Definitions *)

(** The channel of an [Ipc]: one buffered status, and whether it has been
    closed by [GetResponse]. *)
Record mailbox := mkMailbox {
  mb_value : option gostring;
  mb_closed : bool
}.

Definition NewIPC : mailbox := mkMailbox None false.

(** The guarded send of [HandleUpstreamResponse]: a full channel drops the
    status, the panic of a send on a closed channel is recovered. *)
Definition post (status : gostring) (mb : mailbox) : mailbox :=
  if mb_closed mb then mb
  else match mb_value mb with
       | None => mkMailbox (Some status) false
       | Some _ => mb
       end.

(** Which case of [GetResponse]'s select fires; [WValue] needs a buffered
    status, and an empty channel makes the select wait for another case. *)
Inductive wake : Type :=
| WValue
| WContext
| WTimer.

Definition TIMEOUT : gostring := str "timeout".

Definition GetResponse (w : wake) (mb : mailbox) : gostring * mailbox :=
  match w, mb_value mb with
  | WValue, Some v => (v, mkMailbox None true)
  | _, v => (TIMEOUT, mkMailbox v true)
  end.

Record Up := mkUp {
  up_stream : Stream;
  up_reqs : gmap nat Request;
  up_mail : gmap nat mailbox;
  up_metrics : Metrics
}.

Definition up_with_stream (u : Up) (s : Stream) : Up :=
  mkUp s (up_reqs u) (up_mail u) (up_metrics u).
Definition up_with_remote (u : Up) (r : Remote) : Up :=
  up_with_stream u (with_remote (up_stream u) (Some r)).
Definition up_with_req (u : Up) (id : nat) (q : Request) : Up :=
  mkUp (up_stream u) (<[id := q]> (up_reqs u)) (up_mail u) (up_metrics u).
Definition up_with_mail (u : Up) (m : gmap nat mailbox) : Up :=
  mkUp (up_stream u) (up_reqs u) m (up_metrics u).
Definition up_with_metrics (u : Up) (mt : Metrics) : Up :=
  mkUp (up_stream u) (up_reqs u) (up_mail u) mt.

(** [for e := request.Subscriptions.Front(); ...]. *)
Fixpoint notify (status : gostring) (subs : list nat) (mail : gmap nat mailbox) : gmap nat mailbox :=
  match subs with
  | [] => mail
  | ch :: subs' =>
      notify status subs'
        (match mail !! ch with
         | Some mb => <[ch := post status mb]> mail
         | None => mail
         end)
  end.

Definition set_attempts (q : Request) (n : Z) : Request :=
  mkRequest (req_Method q) (req_RawURL q) (req_URL q) (req_ProtocolVersion q) (req_Headers q)
    (req_Body q) n (req_Subscriptions q).

Definition set_subscriptions (q : Request) (subs : list nat) : Request :=
  mkRequest (req_Method q) (req_RawURL q) (req_URL q) (req_ProtocolVersion q) (req_Headers q)
    (req_Body q) (req_Attempts q) subs.

(** The first occurrence of a request in the queue removed. *)
Fixpoint remove_request (id : nat) (queue : list nat) : list nat :=
  match queue with
  | [] => []
  | q :: qs => if (q =? id)%nat then qs else q :: remove_request id qs
  end.

(** *** What a response does to the stream *)

Definition set_session (s : Stream) (session : Session) : Stream :=
  with_sessions s (<[sess_Session session := session]> (st_sessions s)).

Definition set_transport (session : Session) (i : nat) (t : Transport) : Session :=
  mkSession (sess_Session session) (sess_Timeout session) (<[i := t]> (sess_Transports session))
    (sess_started session).

Definition set_timeout (session : Session) (timeout : Z) : Session :=
  mkSession (sess_Session session) timeout (sess_Transports session) (sess_started session).

Definition channel_substream (name : gostring) (channel : Z) : Substream :=
  mkSubstream name 0 channel [] 0 0.

(** [ssrc] and [interleaved] of the parameters, on the transport. *)
Definition apply_interleaved (t : Transport) (substreamName : gostring)
    (params : gmap gostring gostring) : Transport :=
  let subs :=
    match params !! str "interleaved" with
    | None => Substreams t
    | Some interleaved =>
        match Split interleaved "-"%char with
        | c1 :: rest =>
            let subs := <[0%Z := channel_substream substreamName (Atoi c1).1]> (Substreams t) in
            match rest with
            | c2 :: _ => <[1%Z := channel_substream substreamName (Atoi c2).1]> subs
            | [] => subs
            end
        | [] => Substreams t
        end
    end in
  mkTransport (SubstreamName t) (tr_Session t) (Protocol t) (ComType t)
    (map_get params (str "ssrc")) subs.

(** The loop over the parameters of the Session header. *)
Fixpoint session_timeout (elements : list gostring) (timeout : Z) : Z :=
  match elements with
  | [] => timeout
  | element :: es =>
      match SplitN element "="%char 2 with
      | [k; v] => session_timeout es (if k =s str "timeout" then (Atoi v).1 else timeout)
      | _ => session_timeout es timeout
      end
  end.

Definition set_rtp (sub : Substream) (seq rtptime : Z) : Substream :=
  mkSubstream (sub_name sub) (sub_Port sub) (sub_Channel sub) (sub_Host sub) seq rtptime.

(** One entry of RTP-Info applied to the transports of the session. *)
Definition apply_rtp_info (substreamName : gostring) (params : gmap gostring gostring) (t : Transport)
  : Transport :=
  if SubstreamName t =s substreamName then
    match Substreams t !! 0%Z with
    | Some sub =>
        mkTransport (SubstreamName t) (tr_Session t) (Protocol t) (ComType t) (Ssrc t)
          (<[0%Z := set_rtp sub (Atoi (map_get params (str "seq"))).1
                      (Atoi (map_get params (str "rtptime"))).1]> (Substreams t))
    | None => t
    end
  else t.

Definition set_transports (session : Session) (ts : list Transport) : Session :=
  mkSession (sess_Session session) (sess_Timeout session) ts (sess_started session).

Section Upstream.
Context `{GoRuntime, NetURL, Crypto}.

Definition handleOptions (request : Request) (response : Response) (s : Stream) : Stream :=
  with_meta s (mkMeta (SDP (st_meta s)) (headerGet (rsp_Headers response) (str "Public"))
                 (headerGet (rsp_Headers response) (str "Server"))).

Definition handleDescribe (request : Request) (response : Response) (s : Stream) : Stream :=
  with_meta s (mkMeta (rsp_Body response) (Options (st_meta s)) (Server (st_meta s))).

Definition handleTeardown (request : Request) (response : Response) (s : Stream) : Stream :=
  let sessionID := headerGet (req_Headers request) (str "Session") in
  let '(s, session) := LookupSession sessionID [] s in
  let s := set_session s (Session_Stop session) in
  with_sessions s (delete sessionID (st_sessions s)).

Definition handleSetup (request : Request) (response : Response) (s : Stream) : outcome Stream :=
  match req_URL request with
  | None => Panic NilDeref
  | Some u =>
      let substreamName := (path_split (Path u)).2 in
      let '(protocol, comType, params) :=
        parseTransport (headerGet (rsp_Headers response) (str "Transport")) in
      match Split (headerGet (rsp_Headers response) (str "Session")) ";"%char with
      | [] => Done s
      | sessionID :: elements =>
          let '(s, session) := LookupSession sessionID [] s in
          let '(session, i, transport) :=
            Session_LookupTransport session substreamName protocol comType in
          let session := set_transport session i (apply_interleaved transport substreamName params) in
          let session := set_timeout session (session_timeout elements (sess_Timeout session)) in
          Done (set_session s session)
      end
  end.

(** The loop over the entries of RTP-Info; the URL of an entry is
    dereferenced whether it parsed or not. *)
Fixpoint rtp_info_loop (entries : list gostring) (session : Session) : outcome Session :=
  match entries with
  | [] => Done session
  | rtp :: es =>
      let params := collect_params (Split rtp ";"%char) ∅ in
      match url_Parse (map_get params (str "url")) with
      | Err _ => Panic NilDeref
      | Ok u =>
          let substreamName := (path_split (Path u)).2 in
          rtp_info_loop es
            (set_transports session (map (apply_rtp_info substreamName params) (sess_Transports session)))
      end
  end.

Definition handlePlay (request : Request) (response : Response) (s : Stream) : outcome Stream :=
  let rtpInfo := headerGet (rsp_Headers response) (str "RTP-Info") in
  let '(s, session) := LookupSession (headerGet (req_Headers request) (str "Session")) [] s in
  let! session := (if rtpInfo =s [] then Done session
                   else rtp_info_loop (Split rtpInfo ","%char) session) in
  let! session := StartUpstream session in
  Done (set_session s session).

Definition handle_method (request : Request) (response : Response) (s : Stream) : outcome Stream :=
  let m := req_Method request in
  if m =s str "OPTIONS" then Done (handleOptions request response s)
  else if m =s str "DESCRIBE" then Done (handleDescribe request response s)
  else if m =s str "SETUP" then handleSetup request response s
  else if m =s str "PLAY" then handlePlay request response s
  else if m =s str "TEARDOWN" then Done (handleTeardown request response s)
  else Done s.

(** [fmt.Sprintf] of the status a failed request is reported with. *)
Definition error_status (response : Response) : gostring :=
  str "error " ++ Itoa (rsp_Code response) ++ str ": " ++ rsp_Status response.

(** The removal of the request from the queue and the notification of its
    subscribers. *)
Definition finalize (id : nat) (status : gostring) (u : Up) : Up :=
  match st_remote (up_stream u), up_reqs u !! id with
  | Some r, Some request =>
      if bool_decide (id ∈ r_requests r) then
        let u := up_with_remote u (r_set_requests r (remove_request id (r_requests r))) in
        up_with_mail u (notify status (req_Subscriptions request) (up_mail u))
      else u
  | _, _ => u
  end.

(** [HandleUpstreamResponse] on the message [recv], with what a repeated
    request meets on the network, and the bytes it writes.  [readLoop]
    calls it on [s.remote] without a check. *)
Definition HandleUpstreamResponse (env : NetEnv) (buf recv : gostring) (u : Up)
  : outcome (Up * gostring) :=
  match NewResponseFromBuffer recv with
  | Err _ => Done (u, [])
  | Ok response =>
      match st_remote (up_stream u) with
      | None => Panic NilDeref
      | Some r =>
          match r_requests r with
          | [] => Done (u, [])
          | id :: _ =>
              match up_reqs u !! id with
              | None => Panic NilDeref
              | Some request =>
                  if (rsp_Code response =? 401)%Z && (req_Attempts request =? 0)%Z then
                    let wwwAuthenticate := headerGet (rsp_Headers response) (str "WWW-Authenticate") in
                    if negb (wwwAuthenticate =s []) then
                      let d := r_digest r in
                      let '(r', accepted) :=
                        if negb (Username d =s []) && negb (Password d =s [])
                        then handleAuthenticationFailure r wwwAuthenticate else (r, false) in
                      if accepted then
                        let request := set_attempts request (int64_wrap (req_Attempts request + 1)) in
                        let! (r', request, mt, raw, _) := SendRequest env buf r' request (up_metrics u) in
                        Done (up_with_metrics (up_with_req (up_with_remote u r') id request) mt, raw)
                      else
                        let u := up_with_metrics (up_with_remote u r') (add_AuthFailures (up_metrics u) 1) in
                        Done (finalize id (str "unauthorized") u, [])
                    else Done (finalize id (str "ok") u, [])
                  else if (400 <=? rsp_Code response)%Z then
                    Done (finalize id (error_status response) u, [])
                  else
                    let! s := handle_method request response (up_stream u) in
                    Done (finalize id (str "ok") (up_with_stream u s), [])
              end
          end
      end
  end.

(** *** Synchronous requests *)

(** What one attempt of [SendRequestSync] meets: the network when the
    request is sent, the messages the camera sends while it waits (each
    handled by the reading goroutine, with the network a repeated request
    meets), the case of the select, and whether the stream or the server
    is being shut down afterwards. *)
Record exchange := mkExchange {
  ex_env : NetEnv;
  ex_buf : gostring;
  ex_msgs : list (NetEnv * gostring * gostring);
  ex_wake : wake;
  ex_stream_done : bool;
  ex_server_done : bool
}.

Fixpoint handle_all (msgs : list (NetEnv * gostring * gostring)) (u : Up)
  : outcome (Up * list gostring) :=
  match msgs with
  | [] => Done (u, [])
  | (env, buf, msg) :: ms =>
      let! (u, raw) := HandleUpstreamResponse env buf msg u in
      let! (u, raws) := handle_all ms u in
      Done (u, raw :: raws)
  end.

Definition drop_request (id : nat) (u : Up) : Up :=
  match st_remote (up_stream u) with
  | None => u
  | Some r => up_with_remote u (r_set_requests r (remove_request id (r_requests r)))
  end.

Definition up_clear_nonce (u : Up) : Up :=
  match st_remote (up_stream u) with
  | None => u
  | Some r => up_with_remote u (r_set_digest r (clear_nonce (r_digest r)))
  end.

Definition up_set_attempts (id : nat) (n : Z) (u : Up) : Up :=
  match up_reqs u !! id with
  | None => u
  | Some q => up_with_req u id (set_attempts q n)
  end.

(** The loop over the attempts left, on the request [id]. *)
Fixpoint sync_loop (exs : list exchange) (first : bool) (id : nat) (u : Up)
  : outcome (Up * list gostring * option goerror) :=
  match exs with
  | [] => Done (u, [], Some (ErrText (str "timeout after retry")))
  | ex :: exs' =>
      match st_remote (up_stream u), up_reqs u !! id with
      | Some r, Some request =>
          let ch := fresh (dom (up_mail u)) in
          let request := set_subscriptions request [ch] in
          let u := up_with_mail u (<[ch := NewIPC]> (up_mail u)) in
          let r := r_set_requests r (r_requests r ++ [id]) in
          let! (r, request, mt, raw, err) := SendRequest (ex_env ex) (ex_buf ex) r request (up_metrics u) in
          let u := up_with_metrics (up_with_req (up_with_remote u r) id request) mt in
          match err with
          | Some e => Done (drop_request id u, [raw], Some e)
          | None =>
              let! (u, raws) := handle_all (ex_msgs ex) u in
              let '(result, mb) :=
                GetResponse (ex_wake ex) (default NewIPC (up_mail u !! ch)) in
              let u := up_with_mail u (<[ch := mb]> (up_mail u)) in
              let raws := raw :: raws in
              if ex_stream_done ex then
                Done (u, raws, Some (ErrText (str "stream destroyed, request aborted")))
              else if ex_server_done ex then
                Done (u, raws, Some (ErrText (str "server is shutting down, request aborted")))
              else if (result =s TIMEOUT) && first then
                let u := up_set_attempts id 0 (up_clear_nonce (drop_request id u)) in
                let! (u, raws', err) := sync_loop exs' false id u in
                Done (u, raws ++ raws', err)
              else
                let u := if result =s TIMEOUT then drop_request id u else u in
                if negb (result =s str "ok") then Done (u, raws, Some (ErrText result))
                else Done (u, raws, None)
          end
      | _, _ => Panic NilDeref
      end
  end.

(** [SendRequestSync] on a new request: two attempts. *)
Definition SendRequestSync (ex0 ex1 : exchange) (request : Request) (u : Up)
  : outcome (Up * list gostring * option goerror) :=
  let id := fresh (dom (up_reqs u)) in
  sync_loop [ex0; ex1] true id (up_with_req u id request).

Definition up_host (u : Up) : gostring :=
  match st_remote (up_stream u) with Some r => r_Host r | None => [] end.

(** [GetOptions] and [GetSDP]: the request is sent while the stream does
    not know the answer. *)
Definition Remote_GetOptions (ex0 ex1 : exchange) (streamName : gostring) (u : Up)
  : outcome (Up * list gostring * result gostring) :=
  if GetOptions (up_stream u) =s [] then
    let request := NewRequest (str "OPTIONS") (rtsp_url (up_host u) streamName) [] in
    let! (u, raws, err) := SendRequestSync ex0 ex1 request u in
    match err with
    | Some e => Done (u, raws, Err e)
    | None => Done (u, raws, Ok (GetOptions (up_stream u)))
    end
  else Done (u, [], Ok (GetOptions (up_stream u))).

Definition Remote_GetSDP (ex0 ex1 : exchange) (streamName : gostring) (u : Up)
  : outcome (Up * list gostring * result gostring) :=
  if GetSDP (up_stream u) =s [] then
    let request := NewRequest (str "DESCRIBE") (rtsp_url (up_host u) streamName) [] in
    let! (u, raws, err) := SendRequestSync ex0 ex1 request u in
    match err with
    | Some e => Done (u, raws, Err e)
    | None => Done (u, raws, Ok (GetSDP (up_stream u)))
    end
  else Done (u, [], Ok (GetSDP (up_stream u))).

(** The URL of a track; an absolute one that does not parse is nil. *)
Definition track_url (host path track : gostring) : option URL :=
  if (track =s []) || (track =s str "*") then rtsp_url host path
  else if HasPrefix track RTSP_SCHEME then
    match url_Parse track with Ok u => Some u | Err _ => None end
  else rtsp_url host (TrimRight path SLASH ++ str "/" ++ TrimLeft track SLASH).

(** The transport [SetupUpstream] looks for after the response. *)
Definition track_matches (path track : gostring) (t : Transport) : bool :=
  (SubstreamName t =s track)
  || ((track =s []) && (SubstreamName t =s path_base path))
  || (negb (track =s []) && ((SubstreamName t =s path_base track) || (SubstreamName t =s track))).

Definition SetupUpstream (ex0 ex1 : exchange) (track transportStr : gostring) (u : Up)
  : outcome (Up * list gostring * result (gostring * gostring)) :=
  let path := id_Path (st_ident (up_stream u)) in
  let request := set_header (NewRequest (str "SETUP") (track_url (up_host u) path track) [])
                   (str "Transport") transportStr in
  let! (u, raws, err) := SendRequestSync ex0 ex1 request u in
  match err with
  | Some e => Done (u, raws, Err e)
  | None =>
      match transport_in (map_range (st_sessions (up_stream u))) (track_matches path track) with
      | Some (sid, _, t) =>
          match st_sessions (up_stream u) !! sid with
          | Some session => Done (u, raws, Ok (Ssrc t, sess_Session session))
          | None => Done (u, raws, Ok (Ssrc t, sid))
          end
      | None => Done (u, raws, Err (ErrText (str "failed to find transport after SETUP")))
      end
  end.

Definition PlayUpstream (ex0 ex1 : exchange) (path sessionID : gostring) (u : Up)
  : outcome (Up * list gostring * result gostring) :=
  let request := set_header (set_header (NewRequest (str "PLAY") (rtsp_url (up_host u) path) [])
                   (str "Session") sessionID) (str "Range") (str "npt=0.000-") in
  let! (u, raws, err) := SendRequestSync ex0 ex1 request u in
  match err with
  | Some e => Done (u, raws, Err e)
  | None =>
      match st_sessions (up_stream u) !! sessionID with
      | None => Done (u, raws, Ok (str "ok"))
      | Some session =>
          let! session := StartUpstream session in
          Done (up_with_stream u (set_session (up_stream u) session), raws, Ok (str "ok"))
      end
  end.

(** The [Sprintf] of the [i]-th track's Transport header. *)
Definition upstream_transport (i : Z) : gostring :=
  str "RTP/AVP/TCP;unicast;interleaved=" ++ Itoa (i * 2) ++ str "-" ++ Itoa (i * 2 + 1).

(** The SETUP loop; the session of the last track is returned. *)
Fixpoint setup_loop (exs : nat -> exchange * exchange) (i : nat) (tracks : list gostring)
    (sessionID : gostring) (u : Up) : outcome (Up * list gostring * result gostring) :=
  match tracks with
  | [] => Done (u, [], Ok sessionID)
  | track :: ts =>
      let '(ex0, ex1) := exs i in
      let! (u, raws, r) := SetupUpstream ex0 ex1 track (upstream_transport (Z.of_nat i)) u in
      match r with
      | Err e => Done (u, raws, Err (ErrText (str "SETUP failed for track " ++ track)))
      | Ok (_, sess) =>
          let! (u, raws', r) := setup_loop exs (S i) ts sess u in
          Done (u, raws ++ raws', r)
      end
  end.

(** [doConnectSequence]: [exs] gives the exchanges of OPTIONS (0),
    DESCRIBE (1), PLAY (2) and of the [i]-th SETUP ([3 + i]). *)
Definition doConnectSequence (exs : nat -> exchange * exchange) (u : Up)
  : outcome (Up * list gostring * option goerror) :=
  let path := id_Path (st_ident (up_stream u)) in
  let '(a0, a1) := exs 0%nat in
  let! (u, w1, options) := Remote_GetOptions a0 a1 path u in
  match options with
  | Err _ => Done (u, w1, Some (ErrText (str "OPTIONS failed")))
  | Ok _ =>
      let '(b0, b1) := exs 1%nat in
      let! (u, w2, sdp) := Remote_GetSDP b0 b1 path u in
      match sdp with
      | Err _ => Done (u, w1 ++ w2, Some (ErrText (str "DESCRIBE failed")))
      | Ok sdp =>
          let u := up_with_stream u (publish_sdp sdp (up_stream u)) in
          match parseTracks sdp with
          | [] => Done (u, w1 ++ w2, Some (ErrText (str "no tracks found in SDP")))
          | tracks =>
              let! (u, w3, sess) := setup_loop (fun i => exs (3 + i)%nat) 0 tracks [] u in
              match sess with
              | Err e => Done (u, w1 ++ w2 ++ w3, Some e)
              | Ok sessionID =>
                  let '(c0, c1) := exs 2%nat in
                  let! (u, w4, played) := PlayUpstream c0 c1 path sessionID u in
                  match played with
                  | Err _ => Done (u, w1 ++ w2 ++ w3 ++ w4, Some (ErrText (str "PLAY failed")))
                  | Ok _ => Done (u, w1 ++ w2 ++ w3 ++ w4, None)
                  end
              end
          end
      end
  end.

End Upstream.

(** ** Specification *)

(** Whether a response makes the proxy answer a challenge instead of
    finishing the request. *)
Definition answers_challenge `{GoRuntime} (response : Response) (request : Request) (d : Digest) : bool :=
  let challenge := headerGet (rsp_Headers response) (str "WWW-Authenticate") in
  (rsp_Code response =? 401)%Z && (req_Attempts request =? 0)%Z
  && negb (challenge =s []) && negb (Username d =s []) && negb (Password d =s [])
  && (ch_isDigest (ParseWWWAuthenticate challenge)
      || negb (ch_realm (ParseWWWAuthenticate challenge) =s [])).

(** The status a request is finished with. *)
Definition final_status `{GoRuntime} (response : Response) (request : Request) : gostring :=
  if (rsp_Code response =? 401)%Z && (req_Attempts request =? 0)%Z then
    if headerGet (rsp_Headers response) (str "WWW-Authenticate") =s [] then str "ok"
    else str "unauthorized"
  else if (400 <=? rsp_Code response)%Z then error_status response
  else str "ok".

(** The upstream side at rest with [id] the oldest request waiting. *)
Record waiting (u : Up) (r : Remote) (id : nat) (rest : list nat) (request : Request) : Prop := {
  wt_remote : st_remote (up_stream u) = Some r;
  wt_queue : r_requests r = id :: rest;
  wt_request : up_reqs u !! id = Some request
}.

(** ** Lemmas *)

Section UpstreamLemmas.
Context `{GoRuntime, NetURL, Crypto}.

Lemma LookupSession_remote (id : gostring) (args : list Z) (s : Stream) :
  st_remote (LookupSession id args s).1 = st_remote s.
Proof. unfold LookupSession. by destruct (_ !! _). Qed.

Lemma handleSetup_remote (request : Request) (response : Response) (s s' : Stream) :
  handleSetup request response s = Done s' -> st_remote s' = st_remote s.
Proof.
  unfold handleSetup. destruct (req_URL request); [|done].
  destruct (parseTransport _) as [[p c] ps]. destruct (Split _ _) as [|sid es]; [by intros [= <-]|].
  pose proof (LookupSession_remote sid [] s) as Hl. destruct (LookupSession sid [] s) as [s1 sess].
  destruct (Session_LookupTransport _ _ _ _) as [[? ?] ?]. by intros [= <-].
Qed.

Lemma handlePlay_remote (request : Request) (response : Response) (s s' : Stream) :
  handlePlay request response s = Done s' -> st_remote s' = st_remote s.
Proof.
  unfold handlePlay.
  pose proof (LookupSession_remote (headerGet (req_Headers request) (str "Session")) [] s) as Hl.
  destruct (LookupSession _ _ _) as [s1 sess].
  destruct (if _ =s [] then _ else _) as [sess1|]; [|done]. cbn [outcome_bind].
  destruct (StartUpstream sess1); [|done]. by intros [= <-].
Qed.

Lemma handleTeardown_remote (request : Request) (response : Response) (s : Stream) :
  st_remote (handleTeardown request response s) = st_remote s.
Proof.
  unfold handleTeardown.
  pose proof (LookupSession_remote (headerGet (req_Headers request) (str "Session")) [] s) as Hl.
  by destruct (LookupSession _ _ _).
Qed.

Lemma handle_method_remote (request : Request) (response : Response) (s s' : Stream) :
  handle_method request response s = Done s' -> st_remote s' = st_remote s.
Proof.
  unfold handle_method. case_if; try (by intros [= <-]).
  - apply handleSetup_remote.
  - apply handlePlay_remote.
  - intros [= <-]. apply handleTeardown_remote.
Qed.

(** Finishing the oldest request. *)
Lemma finalize_head (u : Up) (r : Remote) (id : nat) (rest : list nat) (request : Request)
    (status : gostring) :
  waiting u r id rest request ->
  finalize id status u
  = up_with_mail (up_with_remote u (r_set_requests r rest))
      (notify status (req_Subscriptions request) (up_mail u)).
Proof.
  intros [Hr Hq Hrq]. unfold finalize. rewrite Hr, Hrq.
  rewrite bool_decide_eq_true_2 by (rewrite Hq; set_solver).
  rewrite Hq. cbn [remove_request]. by rewrite Nat.eqb_refl.
Qed.

Lemma handleAuthenticationFailure_accepts (r : Remote) (challenge : gostring) :
  (handleAuthenticationFailure r challenge).2
  = negb (challenge =s []) && negb (Username (r_digest r) =s [])
    && negb (Password (r_digest r) =s [])
    && (ch_isDigest (ParseWWWAuthenticate challenge)
        || negb (ch_realm (ParseWWWAuthenticate challenge) =s []))
  /\ ((handleAuthenticationFailure r challenge).2 = false ->
      (handleAuthenticationFailure r challenge).1 = r).
Proof.
  unfold handleAuthenticationFailure.
  destruct (challenge =s []); [done|]. destruct (Username _ =s []); [done|].
  destruct (Password _ =s []); [done|]. cbn [orb negb andb].
  destruct (ch_isDigest _); [done|]. by destruct (ch_realm _ =s []).
Qed.

(** The request is finished unless the challenge is answered. *)
Lemma HandleUpstreamResponse_finishes (env : NetEnv) (buf recv : gostring) (u : Up) (r : Remote)
    (id : nat) (rest : list nat) (request : Request) (response : Response) :
  NewResponseFromBuffer recv = Ok response -> waiting u r id rest request ->
  answers_challenge response request (r_digest r) = false ->
  forall s', (if ((rsp_Code response =? 401) && (req_Attempts request =? 0) || (400 <=? rsp_Code response))%Z
              then Done (up_stream u) else handle_method request response (up_stream u)) = Done s' ->
  exists u', HandleUpstreamResponse env buf recv u = Done (u', [])
    /\ up_stream u' = with_remote s' (Some (r_set_requests r rest))
    /\ up_mail u' = notify (final_status response request) (req_Subscriptions request) (up_mail u)
    /\ up_reqs u' = up_reqs u
    /\ up_metrics u' = (if bool_decide (final_status response request = str "unauthorized")
                        then add_AuthFailures (up_metrics u) 1 else up_metrics u).
Proof.
  intros Hp Hw Ha s' Hs. pose proof Hw as [Hr Hq Hrq].
  unfold HandleUpstreamResponse. rewrite Hp, Hr, Hq, Hrq.
  unfold answers_challenge in Ha. unfold final_status.
  destruct ((rsp_Code response =? 401)%Z && (req_Attempts request =? 0)%Z) eqn:E401.
  - cbn [orb] in Hs. injection Hs as <-. cbn [andb] in Ha.
    destruct (headerGet (rsp_Headers response) (str "WWW-Authenticate") =s []) eqn:Ew; cbn [negb andb] in *.
    + rewrite (finalize_head u r id rest request) by done. by eexists.
    + pose proof (handleAuthenticationFailure_accepts r
        (headerGet (rsp_Headers response) (str "WWW-Authenticate"))) as [Hacc Hsame].
      rewrite Ew in Hacc. cbn [negb andb] in Hacc. rewrite Ha in Hacc.
      specialize (Hsame Hacc). revert Hacc Hsame.
      set (www := headerGet (rsp_Headers response) (str "WWW-Authenticate")) in *. intros Hacc Hsame.
      assert (Hif : (if negb (Username (r_digest r) =s []) && negb (Password (r_digest r) =s [])
        then handleAuthenticationFailure r www else (r, false)) = (r, false)).
      { destruct (handleAuthenticationFailure r www) as [r1 b]. cbn [fst snd] in Hacc, Hsame.
        rewrite Hacc, Hsame. by case_if. }
      rewrite Hif. eexists. split; [done|].
      rewrite (finalize_head _ r id rest request); [by split_and!|].
      split; [done|done|]. cbn. done.
  - cbn [orb] in Hs. destruct (400 <=? rsp_Code response)%Z eqn:E400.
    + injection Hs as <-. rewrite (finalize_head u r id rest request) by done.
      eexists. split; [done|]. split_and!; [done..|].
      rewrite bool_decide_eq_false_2; [done|]. unfold error_status. by intros [=].
    + rewrite Hs. cbn [outcome_bind]. pose proof (handle_method_remote _ _ _ _ Hs) as Hrem.
      rewrite (finalize_head (up_with_stream u s') r id rest request);
        [by eexists|]. split; [by cbn; rewrite Hrem|done|done].
Qed.

End UpstreamLemmas.

(** The two channels of an [interleaved] parameter. *)
Lemma apply_interleaved_channels (t : Transport) (name : gostring) (params : gmap gostring gostring)
    (a b : Z) :
  (0 <= a <= int64_max)%Z -> (0 <= b <= int64_max)%Z ->
  params !! str "interleaved" = Some (Itoa a ++ str "-" ++ Itoa b) ->
  let t' := apply_interleaved t name params in
  sub_Channel <$> (Substreams t' !! 0%Z) = Some a /\ sub_Channel <$> (Substreams t' !! 1%Z) = Some b.
Proof.
  intros Ha Hb Hp. unfold apply_interleaved. rewrite Hp.
  change (str "-" ++ Itoa b) with ("-"%char :: Itoa b).
  rewrite Split_app by (apply Itoa_no_dash; lia).
  rewrite Split_no_sep by (apply Itoa_no_dash; lia).
  rewrite !Atoi_Itoa by done. cbn [Substreams fst].
  rewrite lookup_insert_ne by done. rewrite !lookup_insert_eq. done.
Qed.

(** Every session is stored under its own identifier. *)
Definition sessions_keyed (s : Stream) : Prop :=
  map_Forall (fun k sess => sess_Session sess = k) (st_sessions s).

Lemma LookupSession_spec (id : gostring) (args : list Z) (s : Stream) :
  sessions_keyed s ->
  let '(s', session) := LookupSession id args s in
  sess_Session session = id /\ st_sessions s' = <[id := session]> (st_sessions s).
Proof.
  intros Hk. unfold LookupSession. destruct (st_sessions s !! id) as [session|] eqn:E.
  - split; [by apply Hk|]. by rewrite insert_id.
  - done.
Qed.

Section UpstreamSteps.
Context `{GoRuntime, NetURL, Crypto}.

Lemma handleSetup_spec (request : Request) (response : Response) (s : Stream) (u : URL)
    (protocol comType sid : gostring) (params : gmap gostring gostring) (elements : list gostring) :
  sessions_keyed s -> req_URL request = Some u ->
  parseTransport (headerGet (rsp_Headers response) (str "Transport")) = (protocol, comType, params) ->
  Split (headerGet (rsp_Headers response) (str "Session")) ";"%char = sid :: elements ->
  exists s' session i t, handleSetup request response s = Done s'
    /\ st_sessions s' = <[sid := session]> (st_sessions s)
    /\ sessions_keyed s'
    /\ sess_Transports session !! i = Some (apply_interleaved t (path_split (Path u)).2 params)
    /\ transport_key t = ((path_split (Path u)).2, protocol, comType).
Proof.
  intros Hk Hu Ht Hs. unfold handleSetup. rewrite Hu, Ht, Hs.
  pose proof (LookupSession_spec sid [] s Hk) as Hl.
  destruct (LookupSession sid [] s) as [s1 sess1]. destruct Hl as [Hid Hs1].
  pose proof (LookupTransport_found sess1 (path_split (Path u)).2 protocol comType) as Hf.
  destruct (Session_LookupTransport sess1 _ _ _) as [[sess2 i] t] eqn:E. destruct Hf as (Hi & Hkey & _).
  assert (Hid2 : sess_Session sess2 = sid).
  { unfold Session_LookupTransport in E. destruct (find_transport _ _) as [[j t1]|];
      by injection E as <- _ _. }
  set (sess3 := set_timeout _ _). exists (set_session s1 sess3), sess3, i, t.
  assert (Hset : st_sessions (set_session s1 sess3) = <[sid := sess3]> (st_sessions s)).
  { unfold set_session. cbn [with_sessions st_sessions].
    change (sess_Session sess3) with (sess_Session sess2). by rewrite Hid2, Hs1, insert_insert_eq. }
  split; [done|]. split; [done|]. split; [|split; [|done]].
  - unfold sessions_keyed. rewrite Hset. by apply map_Forall_insert_2.
  - subst sess3. cbn. apply list_lookup_insert_eq. by apply lookup_lt_Some in Hi.
Qed.

(** The digest state a challenge leaves. *)
Definition challenged (d : Digest) (realm nonce more : gostring) : Digest :=
  let ch := ParseWWWAuthenticate (challenge_text realm nonce more) in
  mkDigest realm nonce (Username d) (Password d) (ch_qop ch) (ch_opaque ch) (ch_algorithm ch) 0.

(** A digest challenge is taken over. *)
Lemma digest_challenge_accepted (r : Remote) (realm nonce more : gostring) :
  (DQ ∉ realm) -> ("="%char ∉ realm) -> (DQ ∉ nonce) ->
  Username (r_digest r) <> [] -> Password (r_digest r) <> [] ->
  handleAuthenticationFailure r (challenge_text realm nonce more)
  = (r_set_digest r (challenged (r_digest r) realm nonce more), true).
Proof.
  intros Hdq Heq Hdn Hu Hp.
  pose proof (challenge_fields realm nonce more Hdq Heq Hdn) as (Hdig & Hcr & Hcn & _).
  unfold handleAuthenticationFailure, challenged. cbn zeta.
  unfold seq_eqb at 1. rewrite bool_decide_eq_false_2 by by unfold challenge_text.
  unfold seq_eqb at 1 2. rewrite !bool_decide_eq_false_2 by done. cbn [orb].
  by rewrite Hdig, Hcr, Hcn.
Qed.

(** A request sent while a nonce is held. *)
Lemma SendRequest_digest (env : NetEnv) (buf : gostring) (r : Remote) (request : Request)
    (mt : Metrics) (url : URL) :
  r_conn r = true -> ne_write env = true -> has_credentials (r_digest r) -> Nonce (r_digest r) <> [] ->
  GetURL request = Done url ->
  let d := r_digest r in
  let n := int64_wrap (r_currentCSeq r + 1) in
  let q := set_header (set_header request (str "CSeq") (Itoa n)) (str "Authorization")
             (digest_header d (uint32_wrap (Nc d + 1)) (hex_encode buf) (req_Method request) (URL_String url)) in
  exists raw d', Request_String q = Done raw
    /\ SendRequest env buf r request mt = Done (r_set_digest (r_set_cseq r n) d', q, mt, raw, None).
Proof.
  intros Hc Hw (Hre & Hus & Hpa) Hno Hurl d n q.
  assert (Hq : exists raw, Request_String q = Done raw).
  { unfold Request_String. change (GetURL q) with (GetURL request). rewrite Hurl. by eexists. }
  destruct Hq as [raw Hraw].
  unfold SendRequest. rewrite Hc. cbn [outcome_bind].
  unfold createAuthenticatorStr. cbn [r_set_cseq r_digest r_currentCSeq].
  fold d n. unfold seq_eqb at 1 2 3. rewrite !bool_decide_eq_false_2 by done. cbn [orb].
  change (GetURL (set_header request (str "CSeq") (Itoa n))) with (GetURL request).
  rewrite Hurl. cbn [outcome_bind].
  unfold seq_eqb at 1. rewrite bool_decide_eq_false_2 by done. cbn [negb].
  change (req_Method (set_header request (str "CSeq") (Itoa n))) with (req_Method request).
  pose proof (digest_credentials_header d (req_Method request) (URL_String url) buf) as Hh.
  destruct (ComputeResponse _ _ _ _) as [d' [[response nc] cnonce]]. rewrite Hh.
  exists raw, d'. split; [done|]. cbn [outcome_bind]. fold q. rewrite Hraw. cbn [outcome_bind]. by rewrite Hw.
Qed.

(** The request with a new number and the credentials for a challenge:
    the first use of its nonce. *)
Definition with_credentials (request : Request) (n : Z) (d : Digest) (cnonce uri : gostring) : Request :=
  set_header (set_header (set_attempts request 1) (str "CSeq") (Itoa n)) (str "Authorization")
    (digest_header d 1 cnonce (req_Method request) uri).

(** The first challenge of a request, answered. *)
Lemma challenge_answered (env : NetEnv) (buf recv : gostring) (u : Up) (r : Remote) (id : nat)
    (rest : list nat) (request : Request) (response : Response) (url : URL)
    (realm nonce more : gostring) :
  NewResponseFromBuffer recv = Ok response -> waiting u r id rest request ->
  rsp_Code response = 401%Z -> req_Attempts request = 0%Z ->
  headerGet (rsp_Headers response) (str "WWW-Authenticate") = challenge_text realm nonce more ->
  (DQ ∉ realm) -> ("="%char ∉ realm) -> (DQ ∉ nonce) -> realm <> [] -> nonce <> [] ->
  Username (r_digest r) <> [] -> Password (r_digest r) <> [] ->
  r_conn r = true -> ne_write env = true -> GetURL request = Done url ->
  let request' := with_credentials request (int64_wrap (r_currentCSeq r + 1))
                    (challenged (r_digest r) realm nonce more) (hex_encode buf) (URL_String url) in
  exists u' r' raw,
    HandleUpstreamResponse env buf recv u = Done (u', raw)
    /\ waiting u' r' id rest request' /\ up_mail u' = up_mail u /\ Request_String request' = Done raw.
Proof.
  intros Hp [Hr Hq Hrq] Hc Ha Hw Hdq Heq Hdn Hre Hno Hus Hpa Hcn Hwr Hurl request'.
  pose proof (digest_challenge_accepted r realm nonce more Hdq Heq Hdn Hus Hpa) as Hacc.
  set (d1 := challenged (r_digest r) realm nonce more) in Hacc.
  destruct (SendRequest_digest env buf (r_set_digest r d1) (set_attempts request 1) (up_metrics u) url)
    as (raw & d' & Hraw & Hsend); [done..|].
  unfold HandleUpstreamResponse. rewrite Hp, Hr, Hq, Hrq, Hc, Ha, Hw. cbn [Z.eqb Pos.eqb andb].
  unfold seq_eqb at 1. rewrite bool_decide_eq_false_2 by by unfold challenge_text. cbn [negb].
  unfold seq_eqb at 1 2. rewrite !bool_decide_eq_false_2 by done. cbn [negb andb].
  rewrite Hacc. change (int64_wrap (0 + 1)) with 1%Z. rewrite Hsend. cbn [outcome_bind].
  eexists _, _, raw. split; [done|]. split; [|by split].
  split; [done| |]; cbn; [done|]. by rewrite lookup_insert_eq.
Qed.

(** A repeated request is not repeated again: a second 401 finishes it. *)
Lemma second_challenge_final (env : NetEnv) (buf recv : gostring) (u : Up) (r : Remote) (id : nat)
    (rest : list nat) (request : Request) (response : Response) :
  NewResponseFromBuffer recv = Ok response -> waiting u r id rest request ->
  rsp_Code response = 401%Z -> req_Attempts request = 1%Z ->
  exists u', HandleUpstreamResponse env buf recv u = Done (u', [])
    /\ st_remote (up_stream u') = Some (r_set_requests r rest)
    /\ up_mail u' = notify (error_status response) (req_Subscriptions request) (up_mail u).
Proof.
  intros Hp Hw Hc Ha.
  destruct (HandleUpstreamResponse_finishes env buf recv u r id rest request response Hp Hw) with (s' := up_stream u)
    as (u' & E & E1 & E2 & _).
  - unfold answers_challenge. by rewrite Hc, Ha.
  - by rewrite Hc, Ha.
  - exists u'. split; [done|]. split; [by rewrite E1|]. rewrite E2. unfold final_status. by rewrite Hc, Ha.
Qed.

End UpstreamSteps.

(** ** Properties *)

(** C12: A response belongs to the oldest waiting request and finishes it,
    unless it is a challenge the proxy answers: the request leaves the
    head of the queue, the others keep their order, its subscriber gets
    exactly one status, "ok" below 400, the camera's code and text from
    400 on, "unauthorized" for a first 401 whose challenge cannot be
    answered (counted in the metrics), and "ok" for a first 401 that
    carries no challenge; the stream is changed by the method's handler
    only when the status is a success. *)
Theorem response_finishes_head `{GoRuntime, NetURL, Crypto} (env : NetEnv) (buf recv : gostring) (u : Up)
    (r : Remote) (id ch : nat) (rest : list nat) (request : Request) (response : Response) (s' : Stream) :
  NewResponseFromBuffer recv = Ok response -> waiting u r id rest request ->
  req_Subscriptions request = [ch] -> up_mail u !! ch = Some NewIPC ->
  answers_challenge response request (r_digest r) = false ->
  (if ((rsp_Code response =? 401) && (req_Attempts request =? 0) || (400 <=? rsp_Code response))%Z
   then Done (up_stream u) else handle_method request response (up_stream u)) = Done s' ->
  exists u', HandleUpstreamResponse env buf recv u = Done (u', [])
    /\ up_stream u' = with_remote s' (Some (r_set_requests r rest))
    /\ up_mail u' = <[ch := mkMailbox (Some (final_status response request)) false]> (up_mail u)
    /\ up_reqs u' = up_reqs u
    /\ m_AuthFailures (up_metrics u')
       = (if bool_decide (final_status response request = str "unauthorized")
          then uint64_wrap (m_AuthFailures (up_metrics u) + 1) else m_AuthFailures (up_metrics u)).
Proof.
  intros Hp Hw Hsub Hch Ha Hs.
  destruct (HandleUpstreamResponse_finishes env buf recv u r id rest request response Hp Hw Ha s' Hs)
    as (u' & E & E1 & E2 & E3 & E4).
  exists u'. split_and!; [done|done| |done|].
  - rewrite E2, Hsub. cbn [notify]. by rewrite Hch.
  - rewrite E4. by case_bool_decide.
Qed.

(** An upstream side with one OPTIONS request waiting. *)
Definition waiting_up (d : Digest) : Up :=
  mkUp (with_remote fresh_stream (Some (mkRemote (str "cam:554") true [] [] [] [] 1 [4%nat] d)))
    {[4%nat := mkRequest (str "OPTIONS") [] (rtsp_url (str "cam:554") (str "/s")) (str "RTSP/1.0")
                 {[str "CSeq" := str "1"]} [] 0 [9%nat]]}
    {[9%nat := NewIPC]} metrics_zero.

Lemma response_finishes_head_witness :
  exists u', @HandleUpstreamResponse sample_runtime sample_neturl sample_crypto (sample_env true) []
      (str "RTSP/1.0 200 OK" ++ CRLF ++ str "Public: PLAY" ++ CRLF ++ CRLF) (waiting_up NewDigest)
    = Done (u', [])
    /\ up_mail u' !! 9%nat = Some (mkMailbox (Some (str "ok")) false)
    /\ GetOptions (up_stream u') = str "PLAY".
Proof.
  edestruct (@response_finishes_head sample_runtime sample_neturl sample_crypto (sample_env true) []
      (str "RTSP/1.0 200 OK" ++ CRLF ++ str "Public: PLAY" ++ CRLF ++ CRLF) (waiting_up NewDigest))
    as (u' & E & E1 & E2 & _ & _).
  - by vm_compute.
  - split; by vm_compute.
  - done.
  - done.
  - by vm_compute.
  - by vm_compute.
  - exists u'. split; [exact E|]. split; [rewrite E2; by vm_compute|]. rewrite E1. by vm_compute.
Defined.


Definition challenge_message : gostring :=
  str "RTSP/1.0 401 Unauthorized" ++ CRLF
  ++ str "WWW-Authenticate: " ++ challenge_text (str "cam") (str "ab12==") (str ", qop=auth")
  ++ CRLF ++ CRLF.


(** C32: A successful SETUP registers the track: whatever the stream held
    before, the session named by the camera afterwards has a transport
    for the last path element of the requested URL with the announced
    protocol, type and SSRC, and the two channels of the [interleaved]
    parameter as its substreams; no other session changes and sessions
    stay stored under their own identifiers. *)
Theorem handleSetup_registers `{GoRuntime} (request : Request) (response : Response) (s : Stream) (u : URL)
    (protocol comType sid : gostring) (params : gmap gostring gostring) (elements : list gostring)
    (a b : Z) :
  sessions_keyed s -> req_URL request = Some u ->
  parseTransport (headerGet (rsp_Headers response) (str "Transport")) = (protocol, comType, params) ->
  params !! str "interleaved" = Some (Itoa a ++ str "-" ++ Itoa b) ->
  (0 <= a <= int64_max)%Z -> (0 <= b <= int64_max)%Z ->
  Split (headerGet (rsp_Headers response) (str "Session")) ";"%char = sid :: elements ->
  exists s' session t, handleSetup request response s = Done s'
    /\ st_sessions s' = <[sid := session]> (st_sessions s)
    /\ sessions_keyed s'
    /\ t ∈ sess_Transports session
    /\ (SubstreamName t, Protocol t, ComType t, Ssrc t)
       = ((path_split (Path u)).2, protocol, comType, map_get params (str "ssrc"))
    /\ sub_Channel <$> (Substreams t !! 0%Z) = Some a
    /\ sub_Channel <$> (Substreams t !! 1%Z) = Some b.
Proof.
  intros Hk Hu Ht Hi Ha Hb Hs.
  destruct (handleSetup_spec request response s u protocol comType sid params elements Hk Hu Ht Hs)
    as (s' & session & i & t & E & E1 & Hk' & Hl & Hkey).
  exists s', session, (apply_interleaved t (path_split (Path u)).2 params).
  pose proof (apply_interleaved_channels t (path_split (Path u)).2 params a b Ha Hb Hi) as [Hc1 Hc2].
  split_and!; try done; [by eapply list_elem_of_lookup_2|].
  unfold transport_key in Hkey. cbn. by injection Hkey as -> -> ->.
Qed.

Lemma handleSetup_registers_witness :
  let request := NewRequest (str "SETUP") (rtsp_url (str "cam:554") (str "/s/track1")) [] in
  let response := mkResponse (str "OK") (str "RTSP/1.0") 200
    (list_to_map [(str "Transport", str "RTP/AVP/TCP;unicast;interleaved=2-3;ssrc=AB");
                  (str "Session", str "77;timeout=30")]) [] in
  exists s' session t, @handleSetup sample_runtime request response fresh_stream = Done s'
    /\ st_sessions s' = <[str "77" := session]> ∅ /\ t ∈ sess_Transports session
    /\ sub_Channel <$> (Substreams t !! 1%Z) = Some 3%Z.
Proof.
  intros request response.
  destruct (@handleSetup_registers sample_runtime request response fresh_stream
    (mkURL (str "rtsp") None (str "cam:554") (str "/s/track1") [])
    (str "RTP/AVP/TCP") (str "unicast") (str "77")
    (list_to_map [(str "ssrc", str "AB"); (str "interleaved", str "2-3")]) [str "timeout=30"] 2 3)
    as (s' & session & t & E & E1 & _ & Ht & _ & _ & Hc).
  - apply map_Forall_empty.
  - reflexivity.
  - vm_compute. reflexivity.
  - vm_compute. reflexivity.
  - split; vm_compute; discriminate.
  - split; vm_compute; discriminate.
  - vm_compute. reflexivity.
  - exists s', session, t. split; [exact E|]. split; [exact E1|]. split; [exact Ht|exact Hc].
Defined.

(** *** Behaviours worth knowing *)

(** The reading goroutine calls [HandleUpstreamResponse] on [s.remote],
    which [Destroy] sets to nil: a complete response that is framed after
    that ends the process. *)
Lemma response_after_destroy `{GoRuntime, NetURL, Crypto} (env : NetEnv) (buf recv : gostring) (now : Z)
    (u : Up) (response : Response) :
  NewResponseFromBuffer recv = Ok response ->
  HandleUpstreamResponse env buf recv (up_with_stream u (Destroy_begin now (up_stream u)))
  = Panic NilDeref.
Proof.
  intros Hp. unfold HandleUpstreamResponse. rewrite Hp. cbn [up_with_stream up_stream].
  unfold Destroy_begin.
  by destruct (Destroy_take_frame (with_done (transition now StateDestroyed (up_stream u)).1 true))
    as (_ & _ & _ & _ & _ & _ & _ & -> & _).
Qed.

(** A run time that visits maps the other way round. *)
Lemma reverse_map_range_perm (K : Type) (HE : EqDecision K) (HC : Countable K) (V : Type) (m : gmap K V) :
  reverse (map_to_list m) ≡ₚ map_to_list m.
Proof. apply reverse_Permutation. Qed.

Definition reverse_runtime : GoRuntime := {|
  map_range := fun K HE HC V m => reverse (map_to_list m);
  map_range_perm := reverse_map_range_perm;
  unicode_ToLower := fun s => s
|}.

(** A stream that reconnects: the session of the lost connection is still
    in the table when the track is set up again. *)
Definition track1 : Transport :=
  mkTransport (str "track1") (str "OLD") (str "RTP/AVP/TCP") (str "unicast") (str "1")
    {[0%Z := channel_substream (str "track1") 0]}.

Definition reconnected_up : Up :=
  mkUp (with_sessions
          (with_remote (transition 2 StateConnecting
              (transition 1 StateReconnecting (Start 0 fresh_stream)).1).1
            (Some (mkRemote (str "cam:554") true [] [] [] [] 0 [] NewDigest)))
          {[str "OLD" := mkSession (str "OLD") 60 [track1] true]})
    ∅ ∅ metrics_zero.

Definition setup_exchange : exchange :=
  mkExchange (sample_env true) []
    [(sample_env true, [], str "RTSP/1.0 200 OK" ++ CRLF ++ str "Session: NEW" ++ CRLF
        ++ str "Transport: RTP/AVP/TCP;unicast;interleaved=0-1;ssrc=2" ++ CRLF ++ CRLF)]
    WValue false false.

Definition setup_session (out : outcome (Up * list gostring * result (gostring * gostring)))
  : option gostring :=
  match out with Done (_, _, Ok (_, sid)) => Some sid | _ => None end.

(** Sessions of a lost connection are not forgotten when the stream
    reconnects, and [SetupUpstream] takes the session of the first
    transport it meets: after the camera has answered the new SETUP with
    session NEW, the session the proxy goes on with (and sends PLAY for)
    is NEW or the dead one OLD, depending on the order in which the run
    time visits the map. *)
Theorem reconnect_session_ambiguous :
  let setup rt := setup_session
    (@SetupUpstream rt sample_neturl sample_crypto setup_exchange setup_exchange
       (str "track1") (upstream_transport 0) reconnected_up) in
  (setup sample_runtime = Some (str "NEW") /\ setup reverse_runtime = Some (str "OLD"))
  \/ (setup sample_runtime = Some (str "OLD") /\ setup reverse_runtime = Some (str "NEW")).
Proof. vm_compute. first [by left | by right]. Qed.
