(* ===== verification/Connect.v ===== *)
(** * The connect sequence against a camera that answers

    [SendRequestSync], [GetOptions], [GetSDP], [SetupUpstream],
    [PlayUpstream] (src/rtspproxy/remote.go) and [doConnectSequence]
    (src/rtspproxy/stream.go), as defined in [Upstream]: that they reach
    the end against a camera that answers each request, and what a
    request that is not answered in time leaves behind. *)

From stdpp Require Import gmap strings list fin_maps.
From Stdlib Require Import Ascii ZArith Lia.
From S2P Require Import Prelude GoStrings Message Response Request Digest Metrics Remote Session Fanout Stream Sdp Upstream.

Local Open Scope go_scope.

(** ** Specification: a camera that answers *)

(** The connection stands and no request is waiting. *)
Record calm (u : Up) (r : Remote) : Prop := {
  cm_remote : st_remote (up_stream u) = Some r;
  cm_conn : r_conn r = true;
  cm_queue : r_requests r = []
}.

(** What sending adds to a request: a sequence number and credentials. *)
Record same_request (q q' : Request) : Prop := {
  sq_method : req_Method q' = req_Method q;
  sq_url : req_URL q' = req_URL q;
  sq_headers : forall k, k <> str "CSeq" -> k <> str "Authorization" -> req_Headers q' !! k = req_Headers q !! k
}.

(** The exchange of a request that is written and answered by [response]. *)
Record answered `{GoRuntime} (response : Response) (ex : exchange) : Prop := {
  an_write : ne_write (ex_env ex) = true;
  an_msg : exists env buf msg, ex_msgs ex = [(env, buf, msg)] /\ NewResponseFromBuffer msg = Ok response;
  an_wake : ex_wake ex = WValue;
  an_alive : ex_stream_done ex = false /\ ex_server_done ex = false;
  an_code : (rsp_Code response < 400)%Z
}.

(** The exchange of a request that is written and not answered in time. *)
Record unanswered (ex : exchange) : Prop := {
  un_write : ne_write (ex_env ex) = true;
  un_msgs : ex_msgs ex = [];
  un_alive : ex_stream_done ex = false /\ ex_server_done ex = false
}.

(** The first words of what was written: the methods of the requests. *)
Definition methods_sent (raws : list gostring) : list gostring :=
  map (fun raw => (span (fun c => c <>c SP) raw).1) (filter (fun raw => raw <> []) raws).
#[global] Arguments methods_sent : simpl never.

Lemma methods_sent_app (a b : list gostring) : methods_sent (a ++ b) = methods_sent a ++ methods_sent b.
Proof. unfold methods_sent. by rewrite filter_app, map_app. Qed.

(** Whether [SetupUpstream] recognises a transport of this name. *)
Definition name_matches (path track name : gostring) : bool :=
  track_matches path track (mkTransport name [] [] [] [] ∅).

Section Connect.
Context `{GoRuntime, NetURL, Crypto}.

(** The answer to the SETUP of a track: it names the session, and the
    transport it makes the proxy register is the one looked for. *)
Record setup_answer (host path track sid : gostring) (response : Response) : Prop := {
  sa_url : exists url, track_url host path track = Some url
    /\ name_matches path track (path_split (Path url)).2 = true;
  sa_session : exists elements,
    Split (headerGet (rsp_Headers response) (str "Session")) ";"%char = sid :: elements
    /\ forall t, (0 < keepalive_interval t)%Z -> (0 < keepalive_interval (session_timeout elements t))%Z
}.

(** The answer to PLAY: every URL in its RTP-Info can be parsed. *)
Definition play_answer (response : Response) : Prop :=
  let rtpInfo := headerGet (rsp_Headers response) (str "RTP-Info") in
  rtpInfo = []
  \/ Forall (fun rtp => exists u, url_Parse (map_get (collect_params (Split rtp ";"%char) ∅) (str "url")) = Ok u)
       (Split rtpInfo ","%char).

(** ** Lemmas: one request *)

Lemma createAuthenticatorStr_same (r : Remote) (q : Request) (buf : gostring) :
  req_URL q <> None ->
  exists r' q', createAuthenticatorStr r q buf = Done (r', q') /\ r_conn r' = r_conn r
    /\ r_Host r' = r_Host r /\ r_requests r' = r_requests r
    /\ same_request q q' /\ req_Subscriptions q' = req_Subscriptions q.
Proof.
  intros Hu. unfold createAuthenticatorStr. destruct (_ || _); [by eexists _, _|].
  unfold GetURL. destruct (req_URL q) as [u|] eqn:Eu; [|done]. cbn [outcome_bind].
  destruct (negb _); [destruct (ComputeResponse _ _ _ _) as [d' [[resp nc] cn]]|];
    eexists _, _; (split; [done|]); split_and!; try done;
    (split; [done|by rewrite Eu|intros k _ Hk; cbn; by rewrite lookup_insert_ne]).
Qed.

Lemma SendRequest_written (env : NetEnv) (buf : gostring) (r : Remote) (q : Request) (mt : Metrics) :
  r_conn r = true -> ne_write env = true -> req_URL q <> None ->
  exists r' q' raw, SendRequest env buf r q mt = Done (r', q', mt, raw, None)
    /\ r_conn r' = true /\ r_Host r' = r_Host r /\ r_requests r' = r_requests r
    /\ same_request q q' /\ req_Subscriptions q' = req_Subscriptions q /\ Request_String q' = Done raw.
Proof.
  intros Hc Hw Hu. unfold SendRequest. rewrite Hc. cbn [outcome_bind].
  set (r1 := r_set_cseq _ _). set (q1 := set_header _ _ _).
  destruct (createAuthenticatorStr_same r1 q1 buf Hu) as (r2 & q2 & E & K1 & K2 & K3 & [Hm Hul Hh] & Hsub).
  rewrite E. cbn [outcome_bind].
  destruct (Request_String_total q2) as [raw Er]; [by rewrite Hul|]. rewrite Er, Hw. cbn [outcome_bind].
  exists r2, q2, raw. split_and!; try done; [by rewrite K1|].
  split; [done|done|]. intros k Hk1 Hk2. rewrite Hh by done. cbn. by rewrite lookup_insert_ne.
Qed.

(** An attempt that is answered: the request's handler runs on the stream,
    nothing is left waiting and the connection stands. *)
Lemma attempt_answered (Q : Stream -> Prop) (u : Up) (r : Remote) (id : nat) (q : Request) (ex0 : exchange)
    (exs : list exchange) (first : bool) (response : Response) :
  calm u r -> up_reqs u !! id = Some q -> req_URL q <> None -> answered response ex0 ->
  (forall q' r', same_request q q' ->
     exists s', handle_method q' response (with_remote (up_stream u) (Some r')) = Done s' /\ Q s') ->
  exists u' r' q' raw s', sync_loop (ex0 :: exs) first id u = Done (u', [raw; []], None)
    /\ calm u' r' /\ r_Host r' = r_Host r /\ up_stream u' = with_remote s' (Some r') /\ Q s'
    /\ same_request q q' /\ Request_String q' = Done raw.
Proof.
  intros [Hr Hc Hq] Hid Hu [Hw (env & buf & msg & Hmsg & Hparse) Hwake [Hsd Hvd] Hcode] Hh.
  cbn [sync_loop]. rewrite Hr, Hid.
  set (ch := fresh (dom (up_mail u))). rewrite Hq. cbn [app].
  set (r0 := r_set_requests r [id]). set (q0 := set_subscriptions q [ch]).
  destruct (SendRequest_written (ex_env ex0) (ex_buf ex0) r0 q0
              (up_metrics (up_with_mail u (<[ch:=NewIPC]> (up_mail u)))))
    as (r1 & q1 & raw & E & K1 & K2 & K3 & Hsame & Hsub & Hraw); [done|done|done|].
  rewrite E. cbn [outcome_bind]. set (u1 := up_with_metrics _ _).
  assert (Hsame' : same_request q q1) by (destruct Hsame; by split).
  destruct (Hh q1 r1 Hsame') as (s' & Es & HQ).
  assert (Hwait : waiting u1 r1 id [] q1).
  { split; [done|by rewrite K3|]. cbn. by rewrite lookup_insert_eq. }
  assert (H401 : (rsp_Code response =? 401)%Z = false) by (apply Z.eqb_neq; lia).
  assert (H400 : (400 <=? rsp_Code response)%Z = false) by (apply Z.leb_gt; lia).
  destruct (HandleUpstreamResponse_finishes env buf msg u1 r1 id [] q1 response Hparse Hwait) with (s' := s')
    as (u2 & E2 & Hs2 & Hm2 & Hrq2 & _).
  { unfold answers_challenge. by rewrite H401. }
  { rewrite H401, H400. cbn [andb orb]. exact Es. }
  rewrite Hmsg. cbn [handle_all]. rewrite E2. cbn [outcome_bind].
  assert (Hst : final_status response q1 = str "ok") by (unfold final_status; by rewrite H401, H400).
  rewrite Hst, Hsub in Hm2. cbn in Hm2. rewrite lookup_insert_eq in Hm2.
  assert (Hmb : up_mail u2 !! ch = Some (mkMailbox (Some (str "ok")) false)).
  { rewrite Hm2. by rewrite lookup_insert_eq. }
  rewrite Hmb, Hwake. cbn [default GetResponse mb_value]. rewrite Hsd, Hvd.
  change (str "ok" =s TIMEOUT) with false. cbn [andb]. change (str "ok" =s str "ok") with true. cbn [negb].
  exists (up_with_mail u2 (<[ch := mkMailbox None true]> (up_mail u2))), (r_set_requests r1 []), q1, raw, s'.
  split; [done|]. split_and!; try done.
  split; [by cbn; rewrite Hs2|done|done].
Qed.

Lemma sync_answered (Q : Stream -> Prop) (u : Up) (r : Remote) (q : Request) (ex0 ex1 : exchange)
    (response : Response) :
  calm u r -> req_URL q <> None -> answered response ex0 ->
  (forall q' r', same_request q q' ->
     exists s', handle_method q' response (with_remote (up_stream u) (Some r')) = Done s' /\ Q s') ->
  exists u' r' q' raw s', SendRequestSync ex0 ex1 q u = Done (u', [raw; []], None)
    /\ calm u' r' /\ r_Host r' = r_Host r /\ up_stream u' = with_remote s' (Some r') /\ Q s'
    /\ same_request q q' /\ Request_String q' = Done raw.
Proof.
  intros [Hr Hc Hq] Hu Ha Hh. apply (attempt_answered Q _ r _ q ex0 [ex1] true response); try done.
  cbn. by rewrite lookup_insert_eq.
Qed.

(** What the realm and the credentials of a digest state are. *)
Definition same_login (d d' : Digest) : Prop :=
  Realm d' = Realm d /\ Username d' = Username d /\ Password d' = Password d.

(** The credentials written and the digest state left by a send. *)
Lemma SendRequest_login (env : NetEnv) (buf : gostring) (r r' : Remote) (q q' : Request) (mt mt' : Metrics)
    (raw : gostring) :
  r_conn r = true -> SendRequest env buf r q mt = Done (r', q', mt', raw, None) ->
  same_login (r_digest r) (r_digest r')
  /\ (has_credentials (r_digest r) -> Nonce (r_digest r) = [] ->
      req_Headers q' !! str "Authorization" = Some (basic_header (r_digest r))).
Proof.
  intros Hc. unfold SendRequest. rewrite Hc. cbn [outcome_bind].
  destruct (createAuthenticatorStr _ _ _) as [[r2 q2]|] eqn:Ea; [|done]. cbn [outcome_bind].
  destruct (Request_String q2); [|done]. cbn [outcome_bind].
  destruct (ne_write env); [|done]. intros [= <- <- _ _]. revert Ea.
  unfold createAuthenticatorStr. cbn [r_set_cseq r_digest].
  destruct (_ || _) eqn:E.
  - intros [= <- <-]. split; [done|]. intros (H1' & H2' & H3'). unfold seq_eqb in E.
    by rewrite !bool_decide_eq_false_2 in E.
  - destruct (GetURL _); [|done]. cbn [outcome_bind]. destruct (negb _) eqn:En.
    + destruct (ComputeResponse _ _ _ _) as [d' [[resp nc] cn]] eqn:Ec. intros [= <- <-]. split.
      * unfold ComputeResponse in Ec. cbn. by destruct (EqualFold _ _); injection Ec as <- _ _ _.
      * intros _ Hn. by rewrite Hn in En.
    + intros [= <- <-]. split; [done|]. intros _ _. cbn. by rewrite lookup_insert_eq.
Qed.

(** An attempt that is not answered. *)
Lemma attempt_silent (u : Up) (r : Remote) (id : nat) (q : Request) (ex : exchange) (exs : list exchange)
    (first : bool) :
  calm u r -> up_reqs u !! id = Some q -> req_URL q <> None -> unanswered ex ->
  exists u1 r1 q1 raw, calm u1 r1 /\ up_reqs u1 !! id = Some q1 /\ same_request q q1
    /\ r_Host r1 = r_Host r
    /\ up_stream u1 = with_remote (up_stream u) (Some r1)
    /\ same_login (r_digest r) (r_digest r1) /\ (first = true -> Nonce (r_digest r1) = [])
    /\ Request_String q1 = Done raw
    /\ (has_credentials (r_digest r) -> Nonce (r_digest r) = [] ->
        req_Headers q1 !! str "Authorization" = Some (basic_header (r_digest r)))
    /\ sync_loop (ex :: exs) first id u
       = (if first then let! (u2, raws, err) := sync_loop exs false id u1 in Done (u2, raw :: raws, err)
          else Done (u1, [raw], Some (ErrText TIMEOUT))).
Proof.
  intros [Hr Hc Hq] Hid Hu [Hw Hmsg [Hsd Hvd]]. cbn [sync_loop]. rewrite Hr, Hid.
  set (ch := fresh (dom (up_mail u))). rewrite Hq. cbn [app].
  set (r0 := r_set_requests r [id]). set (q0 := set_subscriptions q [ch]).
  destruct (SendRequest_written (ex_env ex) (ex_buf ex) r0 q0 (up_metrics (up_with_mail u (<[ch:=NewIPC]> (up_mail u)))))
    as (r1 & q1 & raw & E & K1 & K2 & K3 & Hsame & Hsub & Hraw); [done|done|done|].
  destruct (SendRequest_login _ _ _ _ _ _ _ _ _ (eq_trans eq_refl Hc : r_conn r0 = true) E) as [Hlog Hbasic].
  rewrite E. cbn [outcome_bind]. set (u1 := up_with_metrics _ _). rewrite Hmsg. cbn [handle_all outcome_bind].
  assert (Hmb : up_mail u1 !! ch = Some NewIPC) by (cbn; by rewrite lookup_insert_eq).
  rewrite Hmb. change (default NewIPC (Some NewIPC)) with NewIPC. assert (Hget : exists mb, GetResponse (ex_wake ex) NewIPC = (TIMEOUT, mb)).
  { unfold GetResponse. destruct (ex_wake ex); by eexists. }
  destruct Hget as [mb ->]. rewrite Hsd, Hvd. change (TIMEOUT =s TIMEOUT) with true. cbn [andb].
  set (u2 := up_with_mail u1 _). assert (Hsame' : same_request q q1) by (destruct Hsame; by split).
  destruct first.
  - set (u3 := up_set_attempts id 0 _).
    exists u3, (r_set_digest (r_set_requests r1 []) (clear_nonce (r_digest r1))), (set_attempts q1 0), raw.
    assert (Hd : drop_request id u2 = up_with_remote u2 (r_set_requests r1 [])).
    { unfold drop_request. cbn. rewrite K3. cbn. by rewrite Nat.eqb_refl. }
    assert (Hu3 : u3 = up_with_req (up_with_remote u2 (r_set_digest (r_set_requests r1 []) (clear_nonce (r_digest r1))))
                         id (set_attempts q1 0)).
    { subst u3. rewrite Hd. unfold up_set_attempts, up_clear_nonce. cbn. by rewrite lookup_insert_eq. }
    rewrite Hu3. split_and!; try done.
    + cbn. by rewrite lookup_insert_eq.
    + destruct Hsame'. by split.
  - change (TIMEOUT =s str "ok") with false. cbn [negb].
    exists (drop_request id u2), (r_set_requests r1 []), q1, raw.
    assert (Hd : drop_request id u2 = up_with_remote u2 (r_set_requests r1 [])).
    { unfold drop_request. cbn. rewrite K3. cbn. by rewrite Nat.eqb_refl. }
    rewrite Hd. split_and!; try done. cbn. by rewrite lookup_insert_eq.
Qed.

(** The method is the first word of a printed request. *)
Lemma methods_sent_one (q : Request) (raw : gostring) :
  Request_String q = Done raw -> req_Method q <> [] -> SP ∉ req_Method q ->
  methods_sent [raw; []] = [req_Method q].
Proof.
  intros E Hn Hsp. unfold Request_String in E. destruct (GetURL q) as [u|]; [|done]. cbn [outcome_bind] in E.
  assert (Hraw : exists t, raw = req_Method q ++ SP :: t).
  { injection E as <-. eexists. rewrite <- !app_assoc. reflexivity. }
  destruct Hraw as [t ->]. unfold methods_sent. rewrite filter_cons_True by by intros [? _]%app_nil.
  rewrite filter_cons_False by by intros []. cbn [filter list_filter map]. rewrite span_app; [done| |done].
  apply Forall_forall. intros c Hc. apply negb_true_iff, not_true_is_false. unfold ceq. rewrite Ascii.eqb_eq.
  by intros ->.
Qed.

Lemma same_request_method (q q' : Request) (raw : gostring) :
  same_request q q' -> Request_String q' = Done raw -> req_Method q <> [] ->
  bool_decide (SP ∉ req_Method q) = true -> methods_sent [raw; []] = [req_Method q].
Proof.
  intros [Hm _ _] Hraw Hn Hsp. apply bool_decide_eq_true in Hsp. rewrite <- Hm in *. by apply methods_sent_one.
Qed.

(** ** Lemmas: the parts of the sequence *)

(** What the later parts rely on and the earlier ones leave alone. *)
Definition same_base (s s' : Stream) : Prop :=
  st_ident s' = st_ident s /\ st_chans s' = st_chans s.

Lemma GetOptions_answered (u : Up) (r : Remote) (ex0 ex1 : exchange) (path : gostring) (response : Response) :
  calm u r -> answered response ex0 -> GetOptions (up_stream u) = [] ->
  exists u' r' raws, Remote_GetOptions ex0 ex1 path u
      = Done (u', raws, Ok (headerGet (rsp_Headers response) (str "Public")))
    /\ calm u' r' /\ r_Host r' = r_Host r /\ same_base (up_stream u) (up_stream u')
    /\ st_sessions (up_stream u') = st_sessions (up_stream u)
    /\ SDP (st_meta (up_stream u')) = SDP (st_meta (up_stream u))
    /\ Options (st_meta (up_stream u')) = headerGet (rsp_Headers response) (str "Public")
    /\ methods_sent raws = [str "OPTIONS"].
Proof.
  intros Hc Ha He. unfold Remote_GetOptions. rewrite He. cbn [seq_eqb]. rewrite seq_eqb_refl.
  set (q := NewRequest _ _ _).
  destruct (sync_answered (fun s' => same_base (up_stream u) s' /\ st_sessions s' = st_sessions (up_stream u)
      /\ SDP (st_meta s') = SDP (st_meta (up_stream u))
      /\ Options (st_meta s') = headerGet (rsp_Headers response) (str "Public")) u r q ex0 ex1 response)
    as (u' & r' & q' & raw & s' & E & Hc' & Hh & Hs & (K1 & K2 & K3 & K4) & Hsame & Hraw); [done|done|done| |].
  { intros q' r' [Hm _ _]. unfold handle_method. rewrite Hm. by eexists. }
  rewrite E. cbn [outcome_bind]. exists u', r', [raw; []]. rewrite Hs. unfold GetOptions. cbn. rewrite K4.
  split_and!; try done. by apply (same_request_method q q').
Qed.

Lemma GetSDP_answered (u : Up) (r : Remote) (ex0 ex1 : exchange) (path : gostring) (response : Response) :
  calm u r -> answered response ex0 -> GetSDP (up_stream u) = [] ->
  exists u' r' raws, Remote_GetSDP ex0 ex1 path u = Done (u', raws, Ok (rsp_Body response))
    /\ calm u' r' /\ r_Host r' = r_Host r /\ same_base (up_stream u) (up_stream u')
    /\ st_sessions (up_stream u') = st_sessions (up_stream u)
    /\ Options (st_meta (up_stream u')) = Options (st_meta (up_stream u))
    /\ methods_sent raws = [str "DESCRIBE"].
Proof.
  intros Hc Ha He. unfold Remote_GetSDP. rewrite He, seq_eqb_refl. set (q := NewRequest _ _ _).
  destruct (sync_answered (fun s' => same_base (up_stream u) s' /\ st_sessions s' = st_sessions (up_stream u)
      /\ SDP (st_meta s') = rsp_Body response
      /\ Options (st_meta s') = Options (st_meta (up_stream u))) u r q ex0 ex1 response)
    as (u' & r' & q' & raw & s' & E & Hc' & Hh & Hs & (K1 & K2 & K3 & K4) & Hsame & Hraw); [done|done|done| |].
  { intros q' r' [Hm _ _]. unfold handle_method. rewrite Hm. by eexists. }
  rewrite E. cbn [outcome_bind]. exists u', r', [raw; []]. rewrite Hs. unfold GetSDP. cbn. rewrite K3.
  split_and!; try done. by apply (same_request_method q q').
Qed.

(** The table while tracks are being set up: at most the one session, not
    yet started, with a keep-alive period. *)
Definition one_session (sid : gostring) (s : Stream) : Prop :=
  st_sessions s = ∅
  \/ exists session, st_sessions s = {[sid := session]} /\ sess_Session session = sid
       /\ (0 < keepalive_interval (sess_Timeout session))%Z.

Lemma one_session_keyed (sid : gostring) (s : Stream) : one_session sid s -> sessions_keyed s.
Proof.
  unfold sessions_keyed. intros [-> | (session & -> & Hs & _)]; [apply map_Forall_empty|].
  by apply map_Forall_singleton.
Qed.

(** The session a SETUP answer leads to. *)
Lemma handleSetup_session (q : Request) (response : Response) (s : Stream) (url : URL) (sid : gostring)
    (elements : list gostring) :
  one_session sid s -> req_URL q = Some url ->
  Split (headerGet (rsp_Headers response) (str "Session")) ";"%char = sid :: elements ->
  (forall t, (0 < keepalive_interval t)%Z -> (0 < keepalive_interval (session_timeout elements t))%Z) ->
  exists s' session t, handleSetup q response s = Done s'
    /\ st_sessions s' = {[sid := session]} /\ sess_Session session = sid
    /\ (0 < keepalive_interval (sess_Timeout session))%Z
    /\ t ∈ sess_Transports session /\ SubstreamName t = (path_split (Path url)).2
    /\ same_base s s' /\ st_meta s' = st_meta s.
Proof.
  intros Ho Hu Hsp Hk. pose proof (one_session_keyed sid s Ho) as Hkeyed.
  unfold handleSetup. rewrite Hu. destruct (parseTransport _) as [[protocol comType] params]. rewrite Hsp.
  pose proof (LookupSession_spec sid [] s Hkeyed) as Hl.
  assert (Hbase : forall s1 sess1, LookupSession sid [] s = (s1, sess1) ->
    (0 < keepalive_interval (sess_Timeout sess1))%Z /\ same_base s s1 /\ st_meta s1 = st_meta s
    /\ <[sid := sess1]> (st_sessions s) = {[sid := sess1]}).
  { intros s1 sess1. unfold LookupSession. destruct Ho as [E|(s0 & E & _ & Ht)]; rewrite E.
    - rewrite lookup_empty. intros [= <- <-]. by rewrite insert_empty.
    - rewrite lookup_singleton_eq. intros [= <- <-]. by rewrite insert_singleton_eq. }
  destruct (LookupSession sid [] s) as [s1 sess1]. destruct Hl as [Hid Hs1].
  destruct (Hbase s1 sess1 eq_refl) as (Ht1 & Hb1 & Hm1 & Hins).
  pose proof (LookupTransport_found sess1 (path_split (Path url)).2 protocol comType) as Hf.
  assert (Hto : forall x, Session_LookupTransport sess1 (path_split (Path url)).2 protocol comType = x ->
    sess_Timeout x.1.1 = sess_Timeout sess1 /\ sess_Session x.1.1 = sess_Session sess1).
  { intros x <-. unfold Session_LookupTransport. by destruct (find_transport _ _) as [[? ?]|]. }
  destruct (Session_LookupTransport sess1 _ _ _) as [[sess2 i] t]. destruct Hf as (Hi & Hkey & _).
  destruct (Hto _ eq_refl) as [Hto1 Hto2]. cbn in Hto1, Hto2.
  eexists _, _, (apply_interleaved t (path_split (Path url)).2 params). split; [done|].
  unfold set_session. cbn. rewrite Hto2, Hid, Hs1, insert_insert_eq, Hto1. split_and!.
  - destruct Ho as [E|(s0 & E & _)]; rewrite E; [by rewrite insert_empty|by rewrite insert_singleton_eq].
  - cbn. congruence.
  - by apply Hk.
  - apply (list_elem_of_lookup_2 _ i), list_lookup_insert_eq. by apply lookup_lt_Some in Hi.
  - unfold transport_key in Hkey. by injection Hkey.
  - apply Hb1.
  - done.
Qed.

Lemma find_transport_elem (p : Transport -> bool) (ts : list Transport) (t : Transport) :
  t ∈ ts -> p t = true -> exists i t', find_transport p ts = Some (i, t').
Proof.
  intros Hin Hp. destruct (find_transport p ts) as [[i t']|] eqn:E; [by eexists _, _|].
  apply find_transport_None in E. rewrite Forall_forall in E. by rewrite (E t Hin) in Hp.
Qed.

Lemma map_range_singleton {V} (k : gostring) (v : V) : map_range ({[k := v]} : gmap gostring V) = [(k, v)].
Proof.
  apply Permutation_singleton_r. rewrite map_range_perm. by rewrite map_to_list_singleton.
Qed.

Lemma SetupUpstream_answered (u : Up) (r : Remote) (ex0 ex1 : exchange) (track tr sid : gostring)
    (response : Response) :
  calm u r -> answered response ex0 -> one_session sid (up_stream u) ->
  setup_answer (r_Host r) (id_Path (st_ident (up_stream u))) track sid response ->
  exists u' r' raws ssrc, SetupUpstream ex0 ex1 track tr u = Done (u', raws, Ok (ssrc, sid))
    /\ calm u' r' /\ r_Host r' = r_Host r /\ same_base (up_stream u) (up_stream u')
    /\ st_meta (up_stream u') = st_meta (up_stream u)
    /\ one_session sid (up_stream u') /\ st_sessions (up_stream u') <> ∅
    /\ methods_sent raws = [str "SETUP"].
Proof.
  intros Hc Ha Ho [(url & Hurl & Hname) (elements & Hsp & Hk)]. unfold SetupUpstream.
  set (path := id_Path (st_ident (up_stream u))) in *.
  assert (Hhost : up_host u = r_Host r) by (unfold up_host; by rewrite (cm_remote _ _ Hc)).
  rewrite Hhost, Hurl. set (q := set_header _ _ _).
  destruct (sync_answered (fun s' => same_base (up_stream u) s' /\ st_meta s' = st_meta (up_stream u)
      /\ exists session t, st_sessions s' = {[sid := session]} /\ sess_Session session = sid
          /\ (0 < keepalive_interval (sess_Timeout session))%Z
          /\ t ∈ sess_Transports session /\ SubstreamName t = (path_split (Path url)).2) u r q ex0 ex1 response)
    as (u' & r' & q' & raw & s' & E & Hc' & Hh & Hs & (K1 & K2 & session & t & K3 & K4 & K5 & K6 & K7) & Hsame & Hraw);
    [done|done|done| |].
  { intros q' r' [Hm Hu _]. unfold handle_method. rewrite Hm. cbn.
    destruct (handleSetup_session q' response (with_remote (up_stream u) (Some r')) url sid elements)
      as (s' & session & t & E & ?); [done|done|done|done|]. exists s'. split; [done|]. naive_solver. }
  rewrite E. cbn [outcome_bind]. rewrite Hs. cbn [st_sessions with_remote]. rewrite K3, map_range_singleton.
  assert (Hm : track_matches path track t = true).
  { unfold name_matches in Hname. unfold track_matches in *. cbn in Hname. by rewrite K7. }
  destruct (find_transport_elem _ _ t K6 Hm) as (i & t' & Ef). cbn [transport_in]. rewrite Ef, lookup_singleton_eq, K4.
  exists u', r', [raw; []], (Ssrc t'). rewrite Hs. cbn [st_sessions st_meta with_remote]. rewrite K3.
  split_and!; try done.
  - right. by exists session.
  - by apply (same_request_method q q').
Qed.

(** All the tracks, numbered from [i]. *)
Lemma setup_loop_answered (exs : nat -> exchange * exchange) (responses : nat -> Response) (host path sid : gostring)
    (tracks : list gostring) : forall (i : nat) (sess : gostring) (u : Up) (r : Remote),
  calm u r -> r_Host r = host -> id_Path (st_ident (up_stream u)) = path ->
  one_session sid (up_stream u) ->
  (sess = sid /\ st_sessions (up_stream u) <> ∅ \/ tracks <> []) ->
  (forall j track, tracks !! j = Some track ->
     answered (responses (i + j)%nat) (exs (i + j)%nat).1
     /\ setup_answer host path track sid (responses (i + j)%nat)) ->
  exists u' r' raws, setup_loop exs i tracks sess u = Done (u', raws, Ok sid)
    /\ calm u' r' /\ r_Host r' = host /\ same_base (up_stream u) (up_stream u')
    /\ st_meta (up_stream u') = st_meta (up_stream u)
    /\ one_session sid (up_stream u') /\ st_sessions (up_stream u') <> ∅
    /\ methods_sent raws = replicate (length tracks) (str "SETUP").
Proof.
  induction tracks as [|track tracks IH]; intros i sess u r Hc Hh Hp Ho Hs Ha.
  - destruct Hs as [[-> Hne]|]; [|done]. by exists u, r, [].
  - cbn [setup_loop]. destruct (Ha 0%nat track eq_refl) as [Ha0 Hsa]. rewrite Nat.add_0_r in Ha0, Hsa.
    destruct (exs i) as [ex0 ex1] eqn:Ex. cbn [fst] in Ha0. rewrite <- Hh, <- Hp in Hsa.
    destruct (SetupUpstream_answered u r ex0 ex1 track (upstream_transport (Z.of_nat i)) sid _ Hc Ha0 Ho Hsa)
      as (u1 & r1 & raws1 & ssrc & E & Hc1 & Hh1 & [Hb1 Hb1'] & Hm1 & Ho1 & Hne1 & Hw1).
    rewrite E. cbn [outcome_bind].
    destruct (IH (S i) sid u1 r1) as (u2 & r2 & raws2 & E2 & Hc2 & Hh2 & [Hb2 Hb2'] & Hm2 & Ho2 & Hne2 & Hw2).
    + done.
    + congruence.
    + by rewrite Hb1.
    + done.
    + by left.
    + intros j t Ht. replace (S i + j)%nat with (i + S j)%nat by lia. by apply Ha.
    + rewrite E2. cbn [outcome_bind]. exists u2, r2, (raws1 ++ raws2). split; [done|].
      rewrite methods_sent_app, Hw1, Hw2. split_and!; try done; [|congruence].
      split; congruence.
Qed.

Lemma rtp_info_loop_total (entries : list gostring) (session : Session) :
  Forall (fun rtp => exists u, url_Parse (map_get (collect_params (Split rtp ";"%char) ∅) (str "url")) = Ok u) entries ->
  exists session', rtp_info_loop entries session = Done session'
    /\ sess_Session session' = sess_Session session /\ sess_Timeout session' = sess_Timeout session.
Proof.
  intros He. revert session. induction He as [|rtp es [u Hu] He IH]; intros session; cbn [rtp_info_loop]; [by eexists|].
  rewrite Hu. destruct (IH (set_transports session
    (map (apply_rtp_info (path_split (Path u)).2 (collect_params (Split rtp ";"%char) ∅)) (sess_Transports session))))
    as (s' & E & K1 & K2). exists s'. by rewrite E.
Qed.

Lemma StartUpstream_starts (session : Session) :
  (0 < keepalive_interval (sess_Timeout session))%Z ->
  exists session', StartUpstream session = Done session' /\ sess_started session' = true
    /\ sess_Session session' = sess_Session session.
Proof.
  intros Hk. unfold StartUpstream. destruct (sess_started session) eqn:E; [by exists session|].
  rewrite (proj2 (Z.leb_gt _ _) Hk). by eexists.
Qed.

Lemma PlayUpstream_answered (u : Up) (r : Remote) (ex0 ex1 : exchange) (path sid : gostring)
    (response : Response) (session : Session) :
  calm u r -> answered response ex0 -> play_answer response ->
  st_sessions (up_stream u) = {[sid := session]} -> sess_Session session = sid ->
  (0 < keepalive_interval (sess_Timeout session))%Z ->
  exists u' r' raws session', PlayUpstream ex0 ex1 path sid u = Done (u', raws, Ok (str "ok"))
    /\ calm u' r' /\ r_Host r' = r_Host r /\ same_base (up_stream u) (up_stream u')
    /\ st_meta (up_stream u') = st_meta (up_stream u)
    /\ st_sessions (up_stream u') = {[sid := session']} /\ sess_started session' = true
    /\ methods_sent raws = [str "PLAY"].
Proof.
  intros Hc Ha Hp Hses Hsid Hk. unfold PlayUpstream. set (q := set_header _ (str "Range") _).
  destruct (sync_answered (fun s' => same_base (up_stream u) s' /\ st_meta s' = st_meta (up_stream u)
      /\ exists session', st_sessions s' = {[sid := session']} /\ sess_Session session' = sid
          /\ sess_started session' = true) u r q ex0 ex1 response)
    as (u' & r' & q' & raw & s' & E & Hc' & Hh & Hs & (K1 & K2 & session' & K3 & K4 & K5) & Hsame & Hraw);
    [done|done|done| |].
  { intros q' r' [Hm _ Hhd]. unfold handle_method. rewrite Hm. cbn. unfold handlePlay.
    assert (Hsess : headerGet (req_Headers q') (str "Session") = sid).
    { unfold headerGet. rewrite Hhd by done. subst q. cbn.
      rewrite lookup_insert_ne by done. by rewrite lookup_insert_eq. }
    rewrite Hsess. unfold LookupSession. cbn [st_sessions with_remote]. rewrite Hses, lookup_singleton_eq.
    assert (Hrtp : exists session1, (if headerGet (rsp_Headers response) (str "RTP-Info") =s [] then Done session
      else rtp_info_loop (Split (headerGet (rsp_Headers response) (str "RTP-Info")) ","%char) session) = Done session1
      /\ sess_Session session1 = sess_Session session /\ sess_Timeout session1 = sess_Timeout session).
    { destruct Hp as [-> | Hp]; [by exists session|].
      destruct (_ =s []); [by exists session|by apply rtp_info_loop_total]. }
    destruct Hrtp as (session1 & -> & Hid1 & Ht1). cbn [outcome_bind].
    destruct (StartUpstream_starts session1) as (session2 & -> & Hst2 & Hid2); [by rewrite Ht1|].
    cbn [outcome_bind]. eexists. split; [done|]. split; [done|]. split; [done|].
    exists session2. unfold set_session. cbn. rewrite Hses, Hid2, Hid1, Hsid. by rewrite insert_singleton_eq. }
  rewrite E. cbn [outcome_bind]. rewrite Hs. cbn [st_sessions with_remote]. rewrite K3, lookup_singleton_eq.
  unfold StartUpstream. rewrite K5. cbn [outcome_bind].
  eexists _, r', [raw; []], session'. split; [done|]. destruct Hc' as [C1 C2 C3].
  unfold set_session. cbn. rewrite K3, K4, insert_singleton_eq. split_and!; try done.
  by apply (same_request_method q q').
Qed.

End Connect.

(** ** Lemmas: what a request leaves behind *)

(** The requests waiting for a response. *)
Definition queue (u : Up) : list nat :=
  match st_remote (up_stream u) with Some r => r_requests r | None => [] end.

(** Subscribers of requests have a mailbox. *)
Definition subs_known (u : Up) : Prop :=
  forall i q c, up_reqs u !! i = Some q -> c ∈ req_Subscriptions q -> c ∈ dom (up_mail u).

Lemma suffix_elem (x : nat) (l k : list nat) : l `suffix_of` k -> x ∈ l -> x ∈ k.
Proof. intros [k1 ->] Hx. apply elem_of_app. by right. Qed.

Lemma remove_request_snoc (id : nat) (l : list nat) : id ∉ l -> remove_request id (l ++ [id]) = l.
Proof.
  induction l as [|x l IH]; intros Hn; cbn; [by rewrite Nat.eqb_refl|].
  apply not_elem_of_cons in Hn as [Hx Hn]. rewrite (proj2 (Nat.eqb_neq _ _)) by congruence. by rewrite IH.
Qed.

(** A request behind [Q]: it is still last, or nothing is left. *)
Lemma suffix_behind (id : nat) (l Q : list nat) :
  l `suffix_of` Q ++ [id] -> l = [] \/ exists l', l = l' ++ [id] /\ l' `suffix_of` Q.
Proof.
  intros [k E]. destruct l as [|x l _] using rev_ind; [by left|right].
  rewrite app_assoc in E. apply app_inj_tail in E as [-> ->]. exists l. split; [done|by exists k].
Qed.

Lemma remove_request_last (id : nat) (l Q : list nat) :
  id ∉ Q -> l `suffix_of` Q ++ [id] ->
  id ∉ remove_request id l /\ remove_request id l `suffix_of` Q
  /\ (length l <= S (length (remove_request id l)))%nat.
Proof.
  intros HQ Hl. destruct (suffix_behind id l Q Hl) as [->|(l' & -> & Hs)].
  - cbn. split; [apply not_elem_of_nil|]. split; [apply suffix_nil|lia].
  - assert (Hn : id ∉ l') by (intros Hin; by eapply HQ, suffix_elem).
    rewrite remove_request_snoc by done. rewrite length_app. cbn. split_and!; [done|done|lia].
Qed.

Lemma remove_request_gone (id : nat) (l Q : list nat) :
  id ∉ l -> l `suffix_of` Q ++ [id] -> l `suffix_of` Q.
Proof.
  intros Hl Hs. destruct (suffix_behind id l Q Hs) as [->|(l' & -> & _)]; [apply suffix_nil|].
  exfalso. apply Hl, elem_of_app. right. by apply list_elem_of_singleton.
Qed.

Lemma notify_other (status : gostring) (subs : list nat) (mail : gmap nat mailbox) (c : nat) :
  c ∉ subs -> notify status subs mail !! c = mail !! c.
Proof.
  revert mail. induction subs as [|d subs IH]; intros mail Hc; cbn [notify]; [done|].
  apply not_elem_of_cons in Hc as [Hd Hc]. rewrite IH by done.
  destruct (mail !! d); [|done]. by rewrite lookup_insert_ne.
Qed.

Lemma notify_dom (status : gostring) (subs : list nat) (mail : gmap nat mailbox) :
  dom (notify status subs mail) = dom mail.
Proof.
  revert mail. induction subs as [|d subs IH]; intros mail; cbn [notify]; [done|]. rewrite IH.
  destruct (mail !! d) eqn:E; [|done]. rewrite dom_insert_L.
  assert (d ∈ dom mail) by (by apply elem_of_dom). set_solver.
Qed.

(** While the request [id] waits on the mailbox [ch]: it alone reports to
    it, it stands behind [Q], and once something has been reported it no
    longer waits. *)
Record waits (id ch : nat) (Q : list nat) (u : Up) : Prop := {
  ws_subs : subs_known u;
  ws_own : forall i q, up_reqs u !! i = Some q -> ch ∈ req_Subscriptions q -> i = id;
  ws_queue : queue u `suffix_of` Q ++ [id];
  ws_mail : forall mb v, up_mail u !! ch = Some mb -> mb_value mb = Some v -> id ∉ queue u;
  ws_id : is_Some (up_reqs u !! id)
}.

Section Waiting.
Context `{GoRuntime, NetURL, Crypto}.

Lemma SendRequest_queue (env : NetEnv) (buf : gostring) (r r' : Remote) (q q' : Request) (mt mt' : Metrics)
    (raw : gostring) (err : option goerror) :
  SendRequest env buf r q mt = Done (r', q', mt', raw, err) ->
  (r_requests r' = r_requests r \/ ne_write env = false /\ r_requests r' = [])
  /\ req_Subscriptions q' = req_Subscriptions q.
Proof.
  unfold SendRequest. intros E.
  assert (Hdial : forall x, (if r_conn r then Done (r, mt, None) else dialLocked env r mt) = Done x ->
    r_requests x.1.1 = r_requests r).
  { intros [[r1 mt1] e1]. destruct (r_conn r); [by intros [= <- _ _]|]. unfold dialLocked.
    destruct (ne_shutdown env); [by intros [= <- _ _]|]. destruct (ne_dial env) as [[l rm]|]; [|by intros [= <- _ _]].
    destruct (Split l ":"%char) as [|? [|? ?]], (Split rm ":"%char) as [|? [|? ?]]; try done. by intros [= <- _ _]. }
  destruct (if r_conn r then _ else _) as [[[r1 mt1] [e|]]|]; cbn [outcome_bind] in E; [| |done].
  - specialize (Hdial _ eq_refl). cbn in Hdial. injection E as <- <- _ _ _. split; [by left|done].
  - specialize (Hdial _ eq_refl). cbn in Hdial.
    assert (Hauth : forall r2 q2 x, createAuthenticatorStr r2 q2 buf = Done x ->
      r_requests x.1 = r_requests r2 /\ req_Subscriptions x.2 = req_Subscriptions q2).
    { intros r2 q2 x. unfold createAuthenticatorStr. destruct (_ || _); [by intros [= <-]|].
      destruct (GetURL q2); [|done]. cbn [outcome_bind].
      destruct (negb _); [destruct (ComputeResponse _ _ _ _) as [d [[? ?] ?]]|]; by intros [= <-]. }
    destruct (createAuthenticatorStr _ _ _) as [[r2 q2]|] eqn:Ea; [|done]. cbn [outcome_bind] in E.
    destruct (Hauth _ _ _ Ea) as [A1 A2]. cbn in A1, A2.
    destruct (Request_String q2); [|done]. cbn [outcome_bind] in E.
    destruct (ne_write env); injection E as <- <- _ _ _; (split; [|done]).
    + left. by rewrite A1, Hdial.
    + unfold disconnectLocked. destruct (r_conn r2); [by right|left; by rewrite A1, Hdial].
Qed.

(** The queue shrinks, subscriptions stay, mailboxes stay. *)
Lemma waits_shrink (id ch : nat) (Q : list nat) (u u' : Up) :
  waits id ch Q u -> queue u' `suffix_of` queue u -> up_mail u' = up_mail u ->
  (forall i q, up_reqs u' !! i = Some q ->
     exists q0, up_reqs u !! i = Some q0 /\ req_Subscriptions q = req_Subscriptions q0) ->
  is_Some (up_reqs u' !! id) -> waits id ch Q u'.
Proof.
  intros [W1 W2 W3 W4 W5] Hq Hm Hr Hid. split.
  - intros i q c Hi Hc. destruct (Hr i q Hi) as (q0 & Hi0 & E). rewrite Hm. apply (W1 i q0); [done|by rewrite <- E].
  - intros i q Hi Hc. destruct (Hr i q Hi) as (q0 & Hi0 & E). apply (W2 i q0); [done|by rewrite <- E].
  - by etrans.
  - rewrite Hm. intros mb v Hmb Hv Hin. apply (W4 mb v Hmb Hv). by eapply suffix_elem.
  - done.
Qed.

(** The oldest request is finished. *)
Lemma waits_finalize (id ch i : nat) (Q rest : list nat) (status : gostring) (u : Up) :
  id ∉ Q -> queue u = i :: rest -> is_Some (up_reqs u !! i) -> waits id ch Q u ->
  waits id ch Q (finalize i status u) /\ queue (finalize i status u) = rest.
Proof.
  intros HQ Hhead [q Ei] Hw. unfold finalize. unfold queue in Hhead.
  destruct (st_remote (up_stream u)) as [r|] eqn:Er; [|done].
  rewrite Ei. rewrite bool_decide_eq_true_2 by (rewrite Hhead; by left).
  assert (Hqu : queue u = i :: rest) by (unfold queue; by rewrite Er).
  assert (Hrm : remove_request i (r_requests r) = rest) by (rewrite Hhead; cbn; by rewrite Nat.eqb_refl).
  split; [|done]. destruct Hw as [W1 W2 W3 W4 W5]. rewrite Hqu in *.
  assert (Hs : rest `suffix_of` i :: rest) by (by exists [i]). split.
  - intros j q' c Hj Hc. cbn. rewrite notify_dom. by apply (W1 j q').
  - done.
  - unfold queue. cbn. rewrite Hrm. by etrans.
  - unfold queue. cbn. rewrite Hrm. intros mb v Hmb Hv. destruct (decide (ch ∈ req_Subscriptions q)) as [Hsub|Hsub].
    + rewrite (W2 i q Ei Hsub) in *. destruct (remove_request_last id (id :: rest) Q) as [Hn _]; [done|done|].
      cbn in Hn. by rewrite Nat.eqb_refl in Hn.
    + rewrite notify_other in Hmb by done. intros Hin2. apply (W4 mb v Hmb Hv). by right.
  - done.
Qed.

(** A message takes at most one request off the queue, unless a repeated
    request cannot be written. *)
Lemma waits_response (id ch : nat) (Q : list nat) (env : NetEnv) (buf msg : gostring) (u u' : Up) (raw : gostring) :
  id ∉ Q -> waits id ch Q u -> HandleUpstreamResponse env buf msg u = Done (u', raw) ->
  waits id ch Q u' /\ (ne_write env = true -> (length (queue u) <= S (length (queue u')))%nat).
Proof.
  intros HQ Hw. unfold HandleUpstreamResponse.
  destruct (NewResponseFromBuffer msg) as [response|]; [|intros [= <- _]; by split; [|lia]].
  destruct (st_remote (up_stream u)) as [r|] eqn:Er; [|done].
  assert (Hqu : queue u = r_requests r) by (unfold queue; by rewrite Er).
  destruct (r_requests r) as [|i rest] eqn:Eq; [intros [= <- _]; by split; [|lia]|].
  destruct (up_reqs u !! i) as [q|] eqn:Ei; [|done].
  assert (Hfin : forall status u1, waits id ch Q u1 -> queue u1 = i :: rest -> is_Some (up_reqs u1 !! i) ->
    waits id ch Q (finalize i status u1)
    /\ (ne_write env = true -> (length (queue u) <= S (length (queue (finalize i status u1))))%nat)).
  { intros status u1 Hw1 Hq1 Hi1. destruct (waits_finalize id ch i Q rest status u1 HQ Hq1 Hi1 Hw1) as [K1 K2].
    split; [done|]. intros _. rewrite K2, Hqu. cbn. lia. }
  assert (Hswap : forall r1 mt, r_requests r1 = i :: rest ->
    waits id ch Q (up_with_metrics (up_with_remote u r1) mt)).
  { intros r1 mt E1. apply (waits_shrink id ch Q u); try done; [|by intros j q' Hj; exists q'|apply Hw].
    unfold queue at 1. cbn. by rewrite E1, Hqu. }
  destruct (_ && _)%Z.
  - destruct (negb (_ =s [])).
    + match goal with |- context [if ?b then handleAuthenticationFailure ?x ?y else ?z] =>
        destruct (if b then handleAuthenticationFailure x y else z) as [r1 accepted] eqn:Eauth end.
      assert (Hauth : r_requests r1 = i :: rest).
      { revert Eauth. destruct (_ && _); [|by intros [= <- _]]. unfold handleAuthenticationFailure.
        repeat case_match; by intros [= <- _]. }
      destruct accepted.
      * destruct (SendRequest _ _ _ _ _) as [[[[[r2 q2] mt2] raw2] e2]|] eqn:Es; [|done]. cbn [outcome_bind].
        intros [= <- _]. destruct (SendRequest_queue _ _ _ _ _ _ _ _ _ _ Es) as [S1 S2]. rewrite Hauth in S1.
        split.
        -- apply (waits_shrink id ch Q u); try done.
           ++ unfold queue at 1. cbn. rewrite Hqu. by destruct S1 as [-> |[_ ->]]; [|apply suffix_nil].
           ++ cbn. intros j q'. rewrite lookup_insert_Some. intros [[<- <-]|[_ Hj]]; [by exists q|by exists q'].
           ++ cbn. rewrite lookup_insert_is_Some'. right. apply Hw.
        -- intros Hwr. unfold queue at 2. cbn. rewrite Hqu.
           destruct S1 as [-> |[E0 _]]; [lia|congruence].
      * intros [= <- _]. apply Hfin; [by apply Hswap| |by eexists]. unfold queue. cbn. done.
    + intros [= <- _]. by apply Hfin; [|congruence|eexists].
  - destruct (400 <=? rsp_Code response)%Z; [intros [= <- _]; by apply Hfin; [|congruence|eexists]|].
    destruct (handle_method q response (up_stream u)) as [s|] eqn:Eh; [|done]. cbn [outcome_bind]. intros [= <- _].
    assert (Hs : st_remote s = Some r) by (by rewrite (handle_method_remote _ _ _ _ Eh)).
    apply Hfin; [|unfold queue; cbn; by rewrite Hs|by eexists].
    apply (waits_shrink id ch Q u); try done; [|by intros j q' Hj; exists q'|apply Hw].
    unfold queue at 1. cbn. by rewrite Hs, Eq, Hqu.
Qed.

Lemma waits_all (id ch : nat) (Q : list nat) (msgs : list (NetEnv * gostring * gostring)) : forall (u u' : Up) raws,
  id ∉ Q -> waits id ch Q u -> handle_all msgs u = Done (u', raws) ->
  waits id ch Q u'
  /\ (Forall (fun m => ne_write m.1.1 = true) msgs -> (length (queue u) <= length (queue u') + length msgs)%nat).
Proof.
  induction msgs as [|[[env buf] msg] msgs IH]; intros u u' raws HQ Hw; cbn [handle_all].
  { intros [= <- _]. split; [done|cbn; lia]. }
  destruct (HandleUpstreamResponse env buf msg u) as [[u1 raw]|] eqn:E; [|done]. cbn [outcome_bind].
  destruct (handle_all msgs u1) as [[u2 raws2]|] eqn:E2; [|done]. cbn [outcome_bind]. intros [= <- _].
  destruct (waits_response id ch Q env buf msg u u1 raw HQ Hw E) as [Hw1 Hl1].
  destruct (IH u1 u2 raws2 HQ Hw1 E2) as [Hw2 Hl2]. split; [done|].
  intros Hall. apply Forall_cons in Hall as [Ha Hall]. specialize (Hl1 Ha). specialize (Hl2 Hall). cbn. lia.
Qed.

Lemma drop_request_queue (id : nat) (u : Up) : queue (drop_request id u) = remove_request id (queue u).
Proof. unfold drop_request, queue. by destruct (st_remote (up_stream u)) as [r|] eqn:E; rewrite ?E. Qed.

(** What precedes the second attempt. *)
Lemma retry_queue (id : nat) (n : Z) (u : Up) : queue (up_set_attempts id n (up_clear_nonce u)) = queue u.
Proof.
  assert (Hc : queue (up_clear_nonce u) = queue u).
  { unfold up_clear_nonce, queue. by destruct (st_remote (up_stream u)) as [r|] eqn:E; cbn; rewrite ?E. }
  rewrite <- Hc. unfold up_set_attempts. by destruct (up_reqs _ !! id).
Qed.

Lemma subs_known_same (u u' : Up) :
  subs_known u -> up_mail u' = up_mail u ->
  (forall i q, up_reqs u' !! i = Some q ->
     exists q0, up_reqs u !! i = Some q0 /\ req_Subscriptions q = req_Subscriptions q0) -> subs_known u'.
Proof.
  intros Hk Hm Hr i q c Hi Hc. destruct (Hr i q Hi) as (q0 & Hi0 & E). rewrite Hm. apply (Hk i q0); [done|by rewrite <- E].
Qed.

Lemma retry_subs (id : nat) (n : Z) (u : Up) :
  subs_known u -> subs_known (up_set_attempts id n (up_clear_nonce (drop_request id u))).
Proof.
  intros Hk. set (u1 := up_clear_nonce (drop_request id u)).
  assert (H01 : up_mail u1 = up_mail u /\ up_reqs u1 = up_reqs u).
  { subst u1. unfold up_clear_nonce, drop_request. destruct (st_remote (up_stream u)) as [r|] eqn:E; cbn; [done|].
    by rewrite E. }
  destruct H01 as [Hm Hr]. apply (subs_known_same u); [done|unfold up_set_attempts; by destruct (up_reqs u1 !! id)|].
  intros i q. unfold up_set_attempts. destruct (up_reqs u1 !! id) as [q1|] eqn:E1; cbn; rewrite Hr in *.
  - rewrite lookup_insert_Some. intros [[<- <-]|[_ Hi]]; [by exists q1|by exists q].
  - intros Hi. by exists q.
Qed.

(** The state after an attempt that was sent. *)
Lemma waits_sent (id : nat) (Q : list nat) (u : Up) (r r1 : Remote) (q q1 : Request) (mt : Metrics) :
  queue u `suffix_of` Q -> subs_known u -> st_remote (up_stream u) = Some r ->
  let ch := fresh (dom (up_mail u)) in
  r_requests r1 `suffix_of` r_requests r ++ [id] -> req_Subscriptions q1 = [ch] ->
  waits id ch Q (up_with_metrics (up_with_req (up_with_remote
    (up_with_mail u (<[ch := NewIPC]> (up_mail u))) r1) id q1) mt).
Proof.
  intros HQ Hk Hr ch Hr1 Hq1. assert (Hfresh : ch ∉ dom (up_mail u)) by apply is_fresh.
  assert (Hqu : queue u = r_requests r) by (unfold queue; by rewrite Hr). split; cbn.
  - intros i q' c. cbn. rewrite lookup_insert_Some, dom_insert_L. intros [[<- <-]|[_ Hi]] Hc.
    + rewrite Hq1 in Hc. set_solver.
    + apply elem_of_union_r. by apply (Hk i q').
  - intros i q'. rewrite lookup_insert_Some. intros [[<- _]|[_ Hi]] Hc; [done|]. by destruct Hfresh; apply (Hk i q').
  - unfold queue. cbn. etrans; [done|]. rewrite <- Hqu. destruct HQ as [k ->]. exists k. by rewrite app_assoc.
  - intros mb v. rewrite lookup_insert_eq. by intros [= <-].
  - by rewrite lookup_insert_eq.
Qed.

(** Neither the stream nor the server is shut down during the exchange;
    every write of the exchange succeeds. *)
Definition not_aborted (ex : exchange) : Prop := ex_stream_done ex = false /\ ex_server_done ex = false.

Definition writes_ok (ex : exchange) : Prop :=
  ne_write (ex_env ex) = true /\ Forall (fun m => ne_write m.1.1 = true) (ex_msgs ex).

Definition messages (exs : list exchange) : nat := sum_list_with (fun ex => length (ex_msgs ex)) exs.

(** What an attempt that did not time out leaves: a reported request waits
    no longer. *)
Lemma reported_gone (id ch : nat) (Q : list nat) (u : Up) (w : wake) (result : gostring) (mb : mailbox) :
  waits id ch Q u -> GetResponse w (default NewIPC (up_mail u !! ch)) = (result, mb) ->
  (result =s TIMEOUT) = false -> id ∉ queue u.
Proof.
  intros [_ _ _ W4 _] Eg Et. unfold GetResponse in Eg. destruct (up_mail u !! ch) as [mb0|] eqn:Em; cbn in Eg.
  - destruct w, (mb_value mb0) as [v|] eqn:Ev; injection Eg as <- _; try done. by apply (W4 mb0 v).
  - destruct w; by injection Eg as <- _.
Qed.

(** What a loop leaves of the queue [l0] it found: [l], older requests
    taken off at the front only, at most one per message while writes
    succeed; its own request behind them only when it was aborted. *)
Definition leaves (exs : list exchange) (id : nat) (l0 Q l : list nat) (u' : Up) : Prop :=
  l `suffix_of` Q
  /\ (queue u' = l \/ queue u' = l ++ [id]) /\ (Forall not_aborted exs -> queue u' = l)
  /\ (Forall writes_ok exs -> (length l0 <= length l + messages exs)%nat).

(** One attempt, from the request sent to the result: the older requests
    still waiting. *)
Lemma attempt_leaves (ex : exchange) (id ch : nat) (l0 Q : list nat) (u1 u2 : Up) (raws : list gostring) :
  id ∉ Q -> waits id ch Q u1 -> handle_all (ex_msgs ex) u1 = Done (u2, raws) ->
  (writes_ok ex -> length (queue u1) = S (length l0)) ->
  waits id ch Q u2
  /\ exists l, l = remove_request id (queue u2) /\ l `suffix_of` Q /\ id ∉ l
     /\ (queue u2 = l \/ queue u2 = l ++ [id]) /\ (id ∉ queue u2 -> queue u2 = l)
     /\ (writes_ok ex -> (length l0 <= length l + length (ex_msgs ex))%nat).
Proof.
  intros HQ Hw Eh Hl. destruct (waits_all id ch Q _ _ _ _ HQ Hw Eh) as [Hw2 Hlen]. split; [done|].
  pose proof (ws_queue _ _ _ _ Hw2) as Hs. destruct (remove_request_last id (queue u2) Q HQ Hs) as (K1 & K2 & K3).
  exists (remove_request id (queue u2)). split_and!; try done.
  - destruct (suffix_behind id _ Q Hs) as [E|(l' & E & Hs')]; [left; by rewrite E|right].
    rewrite E at 2. rewrite remove_request_snoc by (intros Hin; by eapply HQ, suffix_elem). done.
  - intros Hn. destruct (suffix_behind id _ Q Hs) as [E|(l' & E & Hs')]; [by rewrite E|].
    exfalso. apply Hn. rewrite E. apply elem_of_app. right. by apply list_elem_of_singleton.
  - intros Hwr. specialize (Hl Hwr). destruct Hwr as [_ Hwr]. specialize (Hlen Hwr). lia.
Qed.

Lemma messages_cons (ex : exchange) (exs : list exchange) :
  messages (ex :: exs) = (length (ex_msgs ex) + messages exs)%nat.
Proof. done. Qed.

Lemma sync_loop_clean (exs : list exchange) : forall (first : bool) (id : nat) (u u' : Up) raws err (Q : list nat),
  id ∉ Q -> queue u `suffix_of` Q -> subs_known u ->
  sync_loop exs first id u = Done (u', raws, err) -> exists l, leaves exs id (queue u) Q l u'.
Proof.
  induction exs as [|ex exs IH]; intros first id u u' raws err Q HQ Hq Hk; cbn [sync_loop].
  { intros [= <- _ _]. exists (queue u). split_and!; try done; [by left|lia]. }
  destruct (st_remote (up_stream u)) as [r|] eqn:Er; [|done]. destruct (up_reqs u !! id) as [q|]; [|done].
  destruct (SendRequest _ _ _ _ _) as [[[[[r1 q1] mt1] raw1] e1]|] eqn:Es; [|done]. cbn [outcome_bind].
  destruct (SendRequest_queue _ _ _ _ _ _ _ _ _ _ Es) as [S1 S2].
  assert (Hqu : queue u = r_requests r) by (unfold queue; by rewrite Er).
  assert (S1' : r_requests r1 `suffix_of` r_requests r ++ [id]).
  { by destruct S1 as [-> |[_ ->]]; [|apply suffix_nil]. }
  pose proof (waits_sent id Q u r r1 q q1 mt1 Hq Hk Er S1' S2) as Hw. cbn zeta in Hw.
  set (ch := fresh (dom (up_mail u))) in *. set (u1 := up_with_metrics _ _) in *.
  assert (Hlen : writes_ok ex -> length (queue u1) = S (length (queue u))).
  { intros [Hwr _]. unfold queue at 1. cbn. rewrite Hqu. destruct S1 as [-> |[E0 _]]; [|congruence].
    cbn. rewrite length_app. cbn. lia. }
  destruct e1 as [e|].
  { intros [= <- _ _]. exists (remove_request id (queue u1)).
    destruct (remove_request_last id (queue u1) Q HQ (ws_queue _ _ _ _ Hw)) as (K1 & K2 & K3).
    unfold leaves. rewrite drop_request_queue. split_and!; try done; [by left|].
    intros [Hwr _]%Forall_cons. specialize (Hlen Hwr). lia. }
  destruct (handle_all (ex_msgs ex) u1) as [[u2 raws2]|] eqn:Eh; [|done]. cbn [outcome_bind].
  destruct (attempt_leaves ex id ch (queue u) Q u1 u2 raws2 HQ Hw Eh Hlen)
    as (Hw2 & l & -> & Hls & Hln & Hl2 & Hgone & Hlc).
  destruct (GetResponse _ _) as [result mb] eqn:Eg. set (u3 := up_with_mail u2 _).
  assert (Hhere : forall u4, queue u4 = queue u2 -> (not_aborted ex -> id ∉ queue u2) ->
    leaves (ex :: exs) id (queue u) Q (remove_request id (queue u2)) u4).
  { intros u4 E4 Hab. unfold leaves. rewrite E4. split_and!; try done.
    - intros [Ha _]%Forall_cons. by apply Hgone, Hab.
    - intros [Hwr _]%Forall_cons. specialize (Hlc Hwr). rewrite messages_cons. lia. }
  destruct (ex_stream_done ex) eqn:Ea1; [intros [= <- _ _]; eexists; apply Hhere; [done|by intros [? _]; congruence]|].
  destruct (ex_server_done ex) eqn:Ea2; [intros [= <- _ _]; eexists; apply Hhere; [done|by intros [_ ?]; congruence]|].
  assert (Hdrop : queue (drop_request id u3) = remove_request id (queue u2)) by by rewrite drop_request_queue.
  destruct ((result =s TIMEOUT) && first).
  - destruct (sync_loop exs false id _) as [[[u4 raws4] e4]|] eqn:El; [|done]. cbn [outcome_bind]. intros [= <- _ _].
    edestruct (fun Hq' Hk' => IH false id _ u4 raws4 e4 Q HQ Hq' Hk' El) as (l' & K1 & K2 & K3 & K4).
    + by rewrite retry_queue, Hdrop.
    + apply retry_subs. intros i q' c Hi Hc. cbn. rewrite dom_insert_L. apply elem_of_union_r. by apply (ws_subs _ _ _ _ Hw2 i q').
    + rewrite retry_queue, Hdrop in K4. exists l'. split_and!; try done.
      * intros [_ Ha]%Forall_cons. by apply K3.
      * intros [Hwr Hws]%Forall_cons. specialize (Hlc Hwr). specialize (K4 Hws). rewrite messages_cons. lia.
  - assert (Hend : exists l0, leaves (ex :: exs) id (queue u) Q l0 (if result =s TIMEOUT then drop_request id u3 else u3)).
    { exists (remove_request id (queue u2)). destruct (result =s TIMEOUT) eqn:Et.
      - unfold leaves. rewrite Hdrop. split_and!; try done; [by left|].
        intros [Hwr _]%Forall_cons. specialize (Hlc Hwr). rewrite messages_cons. lia.
      - apply Hhere; [done|]. intros _. by eapply reported_gone. }
    destruct (negb _); by intros [= <- _ _].
Qed.

End Waiting.

(** ** Properties *)

(** C10: A camera that answers is connected: on a fresh stream with a
    connection, when OPTIONS and DESCRIBE are answered, every track of the
    described session is set up in one session and PLAY is answered, the
    connect sequence reports success after sending OPTIONS, DESCRIBE, one
    SETUP per track and PLAY in this order, with the options and the
    description of the camera known, the clients waiting for the
    description released, the session started and no request left
    waiting on the connection. *)
Theorem connect_succeeds `{GoRuntime, NetURL, Crypto} (exs : nat -> exchange * exchange)
    (rO rD rP : Response) (rS : nat -> Response) (sid : gostring) (u : Up) (r : Remote) :
  let s := up_stream u in
  calm u r -> GetOptions s = [] -> GetSDP s = [] -> st_sessions s = ∅ ->
  answered rO (exs 0%nat).1 -> answered rD (exs 1%nat).1 -> answered rP (exs 2%nat).1 ->
  (forall j track, parseTracks (rsp_Body rD) !! j = Some track ->
     answered (rS j) (exs (3 + j)%nat).1 /\ setup_answer (r_Host r) (id_Path (st_ident s)) track sid (rS j)) ->
  play_answer rP ->
  exists u' r' raws session, doConnectSequence exs u = Done (u', raws, None)
    /\ calm u' r' /\ GetOptions (up_stream u') = headerGet (rsp_Headers rO) (str "Public")
    /\ GetSDP (up_stream u') = rsp_Body rD /\ is_closed (up_stream u') (SDPReadyCh s) = true
    /\ st_sessions (up_stream u') = {[sid := session]} /\ sess_started session = true
    /\ methods_sent raws = str "OPTIONS" :: str "DESCRIBE"
         :: replicate (length (parseTracks (rsp_Body rD))) (str "SETUP") ++ [str "PLAY"].
Proof.
  intros s Hc HO HD Hses AO AD AP AS PP. unfold doConnectSequence. fold s.
  destruct (exs 0%nat) as [a0 a1]. destruct (exs 1%nat) as [b0 b1]. destruct (exs 2%nat) as [c0 c1].
  destruct (GetOptions_answered u r a0 a1 (id_Path (st_ident s)) rO Hc AO HO)
    as (u1 & r1 & w1 & -> & C1 & h1 & [i1 ch1] & ses1 & sdp1 & opt1 & m1). cbn [outcome_bind].
  destruct (GetSDP_answered u1 r1 b0 b1 (id_Path (st_ident s)) rD C1 AD) as
    (u2 & r2 & w2 & -> & C2 & h2 & [i2 ch2] & ses2 & opt2 & m2); [unfold GetSDP; by rewrite sdp1|].
  cbn [outcome_bind]. set (s2 := publish_sdp _ _). set (u2' := up_with_stream u2 s2).
  assert (C2' : calm u2' r2) by (destruct C2; by split).
  assert (Hne : parseTracks (rsp_Body rD) <> []) by (unfold parseTracks; by case_match).
  destruct (setup_loop_answered (fun i => exs (3 + i)%nat) rS (r_Host r) (id_Path (st_ident s)) sid
    (parseTracks (rsp_Body rD)) 0 [] u2' r2) as (u3 & r3 & w3 & E3 & C3 & h3 & [i3 ch3] & meta3 & one3 & ne3 & m3).
  - done.
  - congruence.
  - cbn. by rewrite i2, i1.
  - left. cbn. by rewrite ses2, ses1.
  - by right.
  - done.
  - destruct (parseTracks (rsp_Body rD)) as [|t0 ts] eqn:Et; [done|]. rewrite E3. cbn [outcome_bind].
    destruct one3 as [?|(session & Hs3 & Hid3 & Hk3)]; [done|].
    destruct (PlayUpstream_answered u3 r3 c0 c1 (id_Path (st_ident s)) sid rP session C3 AP PP Hs3 Hid3 Hk3)
      as (u4 & r4 & w4 & session' & -> & C4 & h4 & [i4 ch4] & meta4 & ses4 & st4 & m4). cbn [outcome_bind].
    eexists u4, r4, _, session'. split; [done|]. split; [done|].
    unfold GetOptions, GetSDP, is_closed, SDPReadyCh. rewrite meta4, meta3, ch4, ch3. cbn.
    rewrite opt2, opt1, ch2, ch1. split_and!; try done.
    + apply bool_decide_eq_true. unfold close_if_open. case_bool_decide; [done|]. cbn. set_solver.
    + by rewrite !methods_sent_app, m1, m2, m3, m4.
Qed.

(** The tracks cameras usually name: a relative control without slashes. *)
Lemma simple_track `{NetURL} (host path track : gostring) :
  track <> [] -> track <> str "*" -> "/"%char ∉ track ->
  exists url, track_url host path track = Some url /\ name_matches path track (path_split (Path url)).2 = true.
Proof.
  intros Hn Hs Hsl. unfold track_url.
  assert (Hpre : HasPrefix track RTSP_SCHEME = false).
  { apply not_true_is_false. rewrite HasPrefix_spec. intros [t ->]. apply Hsl. set_solver. }
  assert (Htrim : TrimLeft track SLASH = track).
  { apply TrimLeft_id. destruct track; [done|]. cbn. intros [= ->]. set_solver. }
  rewrite !seq_eqb_neq, Hpre, Htrim by done. cbn [orb]. eexists. split; [done|]. cbn [Path].
  change (str "/" ++ track) with ("/"%char :: track). rewrite path_split_dir by done.
  unfold name_matches, track_matches. cbn [snd SubstreamName]. by rewrite seq_eqb_refl.
Qed.

(** A camera with two tracks. *)
Definition camera_says (lines : list gostring) (body : gostring) : gostring :=
  str "RTSP/1.0 200 OK" ++ CRLF ++ concat (map (fun l => l ++ CRLF) lines) ++ CRLF ++ body.

Definition camera_sdp : gostring :=
  str "v=0" ++ CRLF ++ str "m=video 0 RTP/AVP 96" ++ CRLF ++ str "a=control:track1" ++ CRLF
  ++ str "m=audio 0 RTP/AVP 0" ++ CRLF ++ str "a=control:track2" ++ CRLF.

Definition camera_message (i : nat) : gostring :=
  match i with
  | 0%nat => camera_says [str "Public: OPTIONS, DESCRIBE, SETUP, PLAY"] []
  | 1%nat => camera_says [str "Content-Length: " ++ Itoa (slen camera_sdp)] camera_sdp
  | 2%nat => camera_says [str "RTP-Info: url=rtsp://cam/s/track1;seq=1;rtptime=2"] []
  | S (S (S j)) =>
      camera_says [str "Session: 7F;timeout=60";
                   str "Transport: " ++ upstream_transport (Z.of_nat j)] []
  end.

Definition camera_response (i : nat) : Response :=
  match @NewResponseFromBuffer sample_runtime (camera_message i) with
  | Ok response => response
  | Err _ => mkResponse [] [] 500 ∅ []
  end.

Definition camera_exchange (i : nat) : exchange * exchange :=
  let ex := mkExchange (sample_env true) [] [(sample_env true, [], camera_message i)] WValue false false in
  (ex, ex).

Definition connected_up : Up :=
  mkUp (with_remote (Start 1 fresh_stream) (Some (mkRemote (str "cam:554") true [] [] [] [] 0 [] NewDigest)))
    ∅ ∅ metrics_zero.

Lemma camera_answers (i : nat) :
  (i < 5)%nat -> @answered sample_runtime (camera_response i) (camera_exchange i).1.
Proof.
  intros Hi. do 5 (destruct i as [|i]; [split; [done|eexists _, _, _; split; [done|by vm_compute]|done|done|by vm_compute]|]).
  lia.
Qed.

Lemma camera_setup (j : nat) (track : gostring) :
  parseTracks (rsp_Body (camera_response 1)) !! j = Some track ->
  @answered sample_runtime (camera_response (3 + j)) (camera_exchange (3 + j)).1
  /\ @setup_answer sample_runtime sample_neturl (str "cam:554") (str "/s") track (str "7F") (camera_response (3 + j)).
Proof.
  replace (parseTracks (rsp_Body (camera_response 1))) with [str "track1"; str "track2"] by (vm_compute; reflexivity).
  intros Hj. assert (Hlt : (j < 2)%nat) by (by apply lookup_lt_Some in Hj).
  split; [apply camera_answers; lia|].
  do 2 (destruct j as [|j]; [cbn in Hj; injection Hj as <-; split;
    [apply simple_track; [done|done|apply (bool_decide_unpack _); by vm_compute]
    |exists [str "timeout=60"]; split; [by vm_compute|intros t _; by vm_compute]]|]). lia.
Qed.

Lemma connect_succeeds_witness :
  exists u' raws session,
    @doConnectSequence sample_runtime sample_neturl sample_crypto camera_exchange connected_up = Done (u', raws, None)
    /\ GetSDP (up_stream u') = camera_sdp /\ st_sessions (up_stream u') = {[str "7F" := session]}
    /\ methods_sent raws = [str "OPTIONS"; str "DESCRIBE"; str "SETUP"; str "SETUP"; str "PLAY"].
Proof.
  destruct (@connect_succeeds sample_runtime sample_neturl sample_crypto camera_exchange (camera_response 0)
      (camera_response 1) (camera_response 2) (fun j => camera_response (3 + j)) (str "7F") connected_up
      (mkRemote (str "cam:554") true [] [] [] [] 0 [] NewDigest))
    as (u' & r' & raws & session & E & _ & _ & Hsdp & _ & Hses & _ & Hm).
  - split; reflexivity.
  - reflexivity.
  - reflexivity.
  - reflexivity.
  - apply camera_answers. lia.
  - apply camera_answers. lia.
  - apply camera_answers. lia.
  - exact camera_setup.
  - right. replace (Split _ _) with [str "url=rtsp://cam/s/track1;seq=1;rtptime=2"] by (vm_compute; reflexivity).
    apply Forall_singleton. eexists. vm_compute. reflexivity.
  - exists u', raws, session. split; [exact E|]. split; [|split; [exact Hses|]].
    + rewrite Hsdp. vm_compute. reflexivity.
    + rewrite Hm. vm_compute. reflexivity.
Defined.

(** C20: What a synchronous request leaves behind: whatever the camera
    sends or does not send, whether a write fails, the answer is an error,
    a challenge is answered or both attempts time out, the requests that
    waited before keep their order and leave the queue only at its front,
    at most one for each message received as long as the writes succeed
    (a failed write closes the connection, and with it all waiting
    requests are gone); and the request itself no longer waits once
    [SendRequestSync] has returned, unless it returned because the stream
    or the server is being shut down, in which case it may stay behind
    them. *)
Theorem sync_hygiene `{GoRuntime, NetURL, Crypto} (ex0 ex1 : exchange) (q : Request) (u u' : Up)
    (raws : list gostring) (err : option goerror) :
  subs_known u -> Forall (fun i => i ∈ dom (up_reqs u)) (queue u) -> req_Subscriptions q = [] ->
  SendRequestSync ex0 ex1 q u = Done (u', raws, err) ->
  let id := fresh (dom (up_reqs u)) in
  exists l, l `suffix_of` queue u /\ id ∉ l
    /\ (queue u' = l \/ queue u' = l ++ [id])
    /\ (not_aborted ex0 -> not_aborted ex1 -> queue u' = l)
    /\ (writes_ok ex0 -> writes_ok ex1 ->
        (length (queue u) <= length l + length (ex_msgs ex0) + length (ex_msgs ex1))%nat).
Proof.
  intros Hk Hq Hs E id. unfold SendRequestSync in E.
  assert (Hid : id ∉ queue u).
  { intros Hin. rewrite Forall_forall in Hq. by apply (is_fresh (dom (up_reqs u))), Hq. }
  apply (sync_loop_clean [ex0; ex1]) with (Q := queue u) in E as (l & K1 & K2 & K3 & K4); try done.
  - exists l. split_and!; try done.
    + intros Hin. by eapply Hid, suffix_elem.
    + intros Ha0 Ha1. apply K3. apply Forall_cons. by rewrite Forall_singleton.
    + intros Hw0 Hw1. rewrite !messages_cons, Nat.add_0_r, Nat.add_assoc in K4.
      apply K4. apply Forall_cons. by rewrite Forall_singleton.
  - intros i q' c. cbn. rewrite lookup_insert_Some. intros [[<- <-]|[_ Hi]] Hc; [|by apply (Hk i q')].
    rewrite Hs in Hc. by apply not_elem_of_nil in Hc.
Qed.

(** Both attempts of an OPTIONS on an unanswering camera. *)
Definition silence : exchange := mkExchange (sample_env true) [] [] WTimer false false.

(** An older request is waiting. *)
Definition queued_up : Up := waiting_up NewDigest.

Lemma sync_hygiene_witness :
  exists u' raws err,
    @SendRequestSync sample_runtime sample_neturl sample_crypto silence silence sample_request queued_up
    = Done (u', raws, err) /\ length raws = 2%nat /\ err <> None /\ queue u' = [4%nat].
Proof.
  eexists _, _, _. split; [vm_compute; reflexivity|]. split; [reflexivity|]. split; [discriminate|].
  match goal with |- queue ?x = _ => set (u' := x) end.
  destruct (@sync_hygiene sample_runtime sample_neturl sample_crypto silence silence sample_request queued_up u'
    [str "OPTIONS rtsp://cam/s RTSP/1.0" ++ CRLF ++ str "CSeq: 2" ++ CRLF ++ CRLF;
     str "OPTIONS rtsp://cam/s RTSP/1.0" ++ CRLF ++ str "CSeq: 3" ++ CRLF ++ CRLF]
    (Some (ErrText TIMEOUT))) as (l & Hl & _ & _ & Hq & Hn).
  - intros i q c Hi Hc. cbn in Hi. apply lookup_singleton_Some in Hi as [<- <-]. cbn in *.
    apply list_elem_of_singleton in Hc as ->. apply (bool_decide_unpack _). by vm_compute.
  - apply (bool_decide_unpack _). by vm_compute.
  - reflexivity.
  - vm_compute. reflexivity.
  - rewrite Hq by (split; reflexivity).
    assert (Hlen : (1 <= length l)%nat).
    { assert (Hw : writes_ok silence) by (split; [reflexivity|constructor]). specialize (Hn Hw Hw). cbn in Hn. lia. }
    destruct Hl as [k E]. change (queue queued_up) with [4%nat] in E.
    destruct k as [|x k]; [exact (eq_sym E)|]. destruct l; [cbn in Hlen; lia|]. destruct k; discriminate E.
Defined.

(** Aborted by the end of the stream, the request stays in the queue. *)
Example aborted_request_waits :
  exists u' raws err,
    @SendRequestSync sample_runtime sample_neturl sample_crypto
      (mkExchange (sample_env true) [] [] WContext true false) silence sample_request connected_up
    = Done (u', raws, err) /\ queue u' = [fresh (dom (up_reqs connected_up))].
Proof. eexists _, _, _. split; [vm_compute; reflexivity|]. vm_compute. reflexivity. Qed.

(** The handler of a request accepts a response whatever the stream. *)
Definition handles `{GoRuntime, NetURL} (q : Request) (response : Response) : Prop :=
  forall q' s, same_request q q' -> exists s', handle_method q' response s = Done s'.

(** C37: Responses are matched by their place in the queue and not by
    their CSeq.  Whenever a request is not answered in time and its
    repetition is, the answer to the first attempt, should it still come,
    is taken for the answer to the next request, whatever the two requests
    and the answers are: the next request is reported as answered, its
    handler has been run on the late response, and every message after
    that, the real answer among them, finds no request and changes
    nothing. *)
Theorem late_answer_misattributed `{GoRuntime, NetURL, Crypto} (u : Up) (r : Remote) (q1 q2 : Request)
    (ex0 ex1 ex2 ex3 : exchange) (answer late : Response) :
  calm u r -> req_URL q1 <> None -> req_URL q2 <> None ->
  unanswered ex0 -> answered answer ex1 -> answered late ex2 -> handles q1 answer -> handles q2 late ->
  exists u1 raws1 u2 raws2 q2' r1 r2 s2,
    SendRequestSync ex0 ex1 q1 u = Done (u1, raws1, None)
    /\ SendRequestSync ex2 ex3 q2 u1 = Done (u2, raws2, None)
    /\ same_request q2 q2'
    /\ handle_method q2' late (with_remote (up_stream u1) (Some r1)) = Done s2
    /\ up_stream u2 = with_remote s2 (Some r2)
    /\ forall env buf msg, HandleUpstreamResponse env buf msg u2 = Done (u2, []).
Proof.
  intros Hc Hu1 Hu2 Hun Ha1 Ha2 Hh1 Hh2. unfold SendRequestSync at 1.
  set (id := fresh (dom (up_reqs u))). set (u0 := up_with_req u id q1).
  assert (Hc0 : calm u0 r) by (destruct Hc; by split).
  assert (Hid0 : up_reqs u0 !! id = Some q1) by (cbn; by rewrite lookup_insert_eq).
  destruct (attempt_silent u0 r id q1 ex0 [ex1] true Hc0 Hid0 Hu1 Hun)
    as (ua & ra & qa & raw0 & Hca & Hida & [Sm Su Sh] & _ & _ & _ & _ & _ & _ & E0).
  destruct (attempt_answered (fun _ => True) ua ra id qa ex1 [] false answer Hca Hida) as
    (u1 & rb & q1' & raw1 & s1 & E1 & Hc1 & _ & _ & _ & _); [by rewrite Su|done| |].
  { intros q' r' [Tm Tu Th]. destruct (Hh1 q' (with_remote (up_stream ua) (Some r'))) as [s' E]; [|by exists s'].
    split; [by rewrite Tm|by rewrite Tu|]. intros k Hk1 Hk2. by rewrite Th, Sh. }
  rewrite E1 in E0. cbn [outcome_bind] in E0.
  destruct (sync_answered (fun s' => exists q' r', same_request q2 q'
      /\ handle_method q' late (with_remote (up_stream u1) (Some r')) = Done s') u1 rb q2 ex2 ex3 late Hc1 Hu2 Ha2)
    as (u2 & r2 & q2' & raw2 & s2 & E2 & Hc2 & _ & Hs2 & (q2s & r1 & Hsame & Hm) & _ & _).
  { intros q' r' Hs. destruct (Hh2 q' (with_remote (up_stream u1) (Some r')) Hs) as [s' E].
    exists s'. split; [done|]. by exists q', r'. }
  eexists u1, _, u2, _, q2s, r1, r2, s2. split; [exact E0|]. split; [exact E2|]. split_and!; try done.
  intros env buf msg. unfold HandleUpstreamResponse. destruct (NewResponseFromBuffer msg); [|done].
  destruct Hc2 as [-> _ ->]. done.
Qed.

(** OPTIONS answered late: DESCRIBE is answered by it. *)
Definition options_request : Request := NewRequest (str "OPTIONS") (rtsp_url (str "cam:554") (str "/s")) [].
Definition describe_request : Request := NewRequest (str "DESCRIBE") (rtsp_url (str "cam:554") (str "/s")) [].

Lemma late_answer_misattributed_witness :
  let ex := (camera_exchange 0).1 in
  exists u1 raws1 u2 raws2,
    @SendRequestSync sample_runtime sample_neturl sample_crypto silence ex options_request connected_up
      = Done (u1, raws1, None)
    /\ @SendRequestSync sample_runtime sample_neturl sample_crypto ex silence describe_request u1
      = Done (u2, raws2, None)
    /\ GetSDP (up_stream u2) = [] /\ SDP (st_meta (up_stream u2)) = rsp_Body (camera_response 0)
    /\ forall env buf msg,
       @HandleUpstreamResponse sample_runtime sample_neturl sample_crypto env buf msg u2 = Done (u2, []).
Proof.
  intros ex.
  destruct (@late_answer_misattributed sample_runtime sample_neturl sample_crypto connected_up
      (mkRemote (str "cam:554") true [] [] [] [] 0 [] NewDigest) options_request describe_request
      silence ex ex silence (camera_response 0) (camera_response 0))
    as (u1 & raws1 & u2 & raws2 & q2' & r1 & r2 & s2 & E1 & E2 & [Hm _ _] & Hh & Hs & Hrest).
  - split; reflexivity.
  - discriminate.
  - discriminate.
  - split; [reflexivity|reflexivity|split; reflexivity].
  - apply camera_answers. lia.
  - apply camera_answers. lia.
  - intros q' s [Hm _ _]. unfold handle_method. rewrite Hm. eexists. reflexivity.
  - intros q' s [Hm _ _]. unfold handle_method. rewrite Hm. eexists. reflexivity.
  - unfold handle_method in Hh. rewrite Hm in Hh. injection Hh as <-.
    exists u1, raws1, u2, raws2. split; [exact E1|]. split; [exact E2|]. rewrite Hs.
    split; [vm_compute; reflexivity|]. split; [vm_compute; reflexivity|]. exact Hrest.
Defined.

(** A request that is not answered in time is repeated with the password
    itself: whatever scheme the camera asked for, the nonce is forgotten
    and the second attempt carries the user name and password in the
    Basic scheme. *)
Theorem timeout_reveals_password `{GoRuntime, NetURL, Crypto} (u : Up) (r : Remote) (q : Request)
    (ex0 ex1 : exchange) :
  calm u r -> has_credentials (r_digest r) -> req_URL q <> None -> unanswered ex0 -> unanswered ex1 ->
  exists u' raw0 raw1 q1, SendRequestSync ex0 ex1 q u = Done (u', [raw0; raw1], Some (ErrText TIMEOUT))
    /\ same_request q q1 /\ Request_String q1 = Done raw1
    /\ req_Headers q1 !! str "Authorization"
       = Some (str "Basic " ++ base64_encode (Username (r_digest r) ++ str ":" ++ Password (r_digest r))).
Proof.
  intros Hc (Hre & Hus & Hpa) Hu Hun0 Hun1. unfold SendRequestSync.
  set (id := fresh (dom (up_reqs u))). set (u0 := up_with_req u id q).
  assert (Hc0 : calm u0 r) by (destruct Hc; by split).
  assert (Hid0 : up_reqs u0 !! id = Some q) by (cbn; by rewrite lookup_insert_eq).
  destruct (attempt_silent u0 r id q ex0 [ex1] true Hc0 Hid0 Hu Hun0)
    as (ua & ra & qa & raw0 & Hca & Hida & [Sm Su Sh] & _ & _ & (L1 & L2 & L3) & Hno & _ & _ & E0).
  destruct (attempt_silent ua ra id qa ex1 [] false Hca Hida) as
    (ub & rb & qb & raw1 & Hcb & _ & [Tm Tu Th] & _ & _ & _ & _ & Hraw & Hb & E1); [by rewrite Su|done|].
  rewrite E1 in E0. cbn [outcome_bind] in E0. exists ub, raw0, raw1, qb. split; [exact E0|].
  split; [split; [by rewrite Tm|by rewrite Tu|intros k Hk1 Hk2; by rewrite Th, Sh]|]. split; [done|].
  rewrite Hb; [unfold basic_header; by rewrite L2, L3|unfold has_credentials; by rewrite L1, L2, L3|by apply Hno].
Qed.

Lemma timeout_reveals_password_witness :
  let u := mkUp (with_remote fresh_stream (Some (mkRemote (str "cam:554") true [] [] [] [] 3 [] nonce_digest)))
             ∅ ∅ metrics_zero in
  exists u' raw0 raw1 q1,
    @SendRequestSync sample_runtime sample_neturl sample_crypto silence silence options_request u
      = Done (u', [raw0; raw1], Some (ErrText TIMEOUT))
    /\ @Request_String sample_runtime sample_neturl q1 = Done raw1
    /\ req_Headers q1 !! str "Authorization" = Some (str "Basic dTpw").
Proof.
  intros u.
  destruct (@timeout_reveals_password sample_runtime sample_neturl sample_crypto u
      (mkRemote (str "cam:554") true [] [] [] [] 3 [] nonce_digest) options_request silence silence)
    as (u' & raw0 & raw1 & q1 & E & _ & Hraw & Hauth).
  - split; reflexivity.
  - split; [discriminate|split; discriminate].
  - discriminate.
  - split; [reflexivity|reflexivity|split; reflexivity].
  - split; [reflexivity|reflexivity|split; reflexivity].
  - exists u', raw0, raw1, q1. split; [exact E|]. split; [exact Hraw|]. rewrite Hauth. vm_compute. reflexivity.
Defined.
