(* ===== verification/Lifecycle.v ===== *)
(** * The life of a stream: [connectLoop] against its environment

    [Stream.connectLoop] of src/rtspproxy/stream.go as a program with a
    counter, one step per access to the shared state, interleaved with the
    calls other goroutines make: [Start], [AddClient], [RemoveClient], the
    idle timer with the [Stop] it calls, and [Destroy], the last two split
    wherever they release the lock.  The end of the loop is two steps, its
    last access to the state and the deferred reset of the flag
    [loopStarted].  What dialling, the connect sequence and the reading
    goroutine yield is left open; a clean end of reading ([nil]) comes
    only from the cancelled context. *)

From stdpp Require Import gmap strings list fin_maps.
From Stdlib Require Import Ascii ZArith Lia.
From S2P Require Import Prelude GoStrings Request Digest Metrics Remote Session Fanout Stream.

Local Open Scope go_scope.

(** ** Definitions *)

Inductive pc : Type :=
| LIdle                                  (* no loop running *)
| LTop                                   (* head of the for loop *)
| LRead (st : StreamState)               (* the state has been read *)
| LRemote                                (* state Connecting was entered *)
| LDial
| LSequence                              (* connected, the sequence runs *)
| LPlay                                  (* the sequence succeeded *)
| LReading                               (* waiting for readDone *)
| LAfter (err : bool)                    (* reading ended, with an error or not *)
| LDecide (st : StreamState) (err : bool)  (* the state has been read again *)
| LFailed                                (* dial or sequence failed *)
| LWait                                  (* the back-off select *)
| LExit.                                 (* returned, the deferred calls not yet made *)

(** A [Stop] under way: past its transition, past its lock section (where
    it read the stream's remote: the number says which one), past
    [remote.Disconnect()]. *)
Inductive stop_phase : Type :=
| SpEntered
| SpTook (gen : nat)
| SpHung.

Record life := mkLife {
  lf_s : Stream;
  lf_pc : pc;
  lf_idx : nat;                  (* index into ReconnectBackoff *)
  lf_gen : nat;                  (* how often [s.remote] was replaced by the loop *)
  lf_pending : nat;              (* idle callbacks about to call Stop *)
  lf_stops : list stop_phase     (* Stops under way *)
}.

Definition stopping (st : StreamState) : bool := (st =st StateStopping) || (st =st StateDestroyed).

Definition loop_goto (l : life) (s : Stream) (p : pc) : life :=
  mkLife s p (lf_idx l) (lf_gen l) (lf_pending l) (lf_stops l).

(** [return] from the loop, with the last change it made. *)
Definition loop_exit (l : life) (s : Stream) : life := loop_goto l s LExit.

(** [s.remote = NewRemote(s)]. *)
Definition new_remote (l : life) (s : Stream) (p : pc) : life :=
  mkLife s p (lf_idx l) (S (lf_gen l)) (lf_pending l) (lf_stops l).

(** The counters of a reconnect (the process-wide counter of reconnects is
    advanced with the stream's own and not repeated here). *)
Definition count_reconnect (now : Z) (st : StreamState) (s : Stream) : Stream :=
  if st =st StateReconnecting then
    let x := st_reconn s in
    with_reconn s (mkReconn (uint64_wrap (ReconnectCount x + 1))
                     (if (LastReconnect x =? 0)%Z then now else LastReconnect x) (ReconnectTotal x))
  else s.

(** The downtime bookkeeping after a successful sequence. *)
Definition end_downtime (now : Z) (s : Stream) : Stream :=
  let x := st_reconn s in
  if negb (LastReconnect x =? 0)%Z then
    with_reconn s (mkReconn (ReconnectCount x) 0
                     (int64_wrap (ReconnectTotal x + (now - LastReconnect x))))
  else s.

(** [transition], then go on or return depending on its error. *)
Definition try_transition (l : life) (now : Z) (to : StreamState) (s : Stream) (next : pc) : life :=
  match transition now to s with
  | (s', None) => loop_goto l s' next
  | (s', Some _) => loop_exit l s'
  end.

(** [idx++] capped at the last entry of the back-off table. *)
Definition next_backoff (nb idx : nat) : nat :=
  if (nb <=? S idx)%nat then (nb - 1)%nat else S idx.

(** One step of [connectLoop]; [nb] is the length of the back-off table. *)
Inductive loop_step (nb : nat) : life -> life -> Prop :=
| LsTopDone l : lf_pc l = LTop -> st_done (lf_s l) = true -> loop_step nb l (loop_exit l (lf_s l))
| LsTop l : lf_pc l = LTop -> st_done (lf_s l) = false ->
    loop_step nb l (loop_goto l (lf_s l) (LRead (st_state (lf_s l))))
| LsQuit l st : lf_pc l = LRead st -> stopping st = true -> loop_step nb l (loop_exit l (lf_s l))
| LsConnect l st now : lf_pc l = LRead st -> stopping st = false ->
    loop_step nb l (try_transition l now StateConnecting (count_reconnect now st (lf_s l)) LRemote)
| LsNoRemote l now : lf_pc l = LRemote ->
    loop_step nb l (new_remote l (transition now StateDisconnected (with_remote (lf_s l) None)).1 LExit)
| LsRemote l r : lf_pc l = LRemote ->
    loop_step nb l (new_remote l (with_remote (lf_s l) (Some r)) LDial)
| LsDialed l : lf_pc l = LDial -> loop_step nb l (loop_goto l (lf_s l) LSequence)
| LsDialFailed l : lf_pc l = LDial -> loop_step nb l (loop_goto l (lf_s l) LFailed)
| LsSequence l sdp ss now : lf_pc l = LSequence ->
    loop_step nb l
      (loop_goto l (end_downtime now (with_sessions (publish_sdp sdp (lf_s l)) ss)) LPlay)
| LsSequenceFailed l sdp ss : lf_pc l = LSequence ->
    loop_step nb l (loop_goto l (with_sessions (publish_sdp sdp (lf_s l)) ss) LFailed)
| LsSequenceSilent l : lf_pc l = LSequence -> loop_step nb l (loop_goto l (lf_s l) LFailed)
| LsPlay l now : lf_pc l = LPlay ->
    loop_step nb l
      (match transition now StatePlaying (lf_s l) with
       | (s', None) => mkLife s' LReading 0 (lf_gen l) (lf_pending l) (lf_stops l)
       | (s', Some _) => loop_exit l s'
       end)
| LsReadError l : lf_pc l = LReading -> loop_step nb l (loop_goto l (lf_s l) (LAfter true))
| LsReadClean l : lf_pc l = LReading -> st_done (lf_s l) = true ->
    loop_step nb l (loop_goto l (lf_s l) (LAfter false))
| LsAfter l err : lf_pc l = LAfter err ->
    loop_step nb l (loop_goto l (lf_s l) (LDecide (st_state (lf_s l)) err))
| LsDecideStop l st err now : lf_pc l = LDecide st err -> stopping st = true ->
    loop_step nb l (loop_exit l (transition now StateDisconnected (lf_s l)).1)
| LsDecideError l st now : lf_pc l = LDecide st true -> stopping st = false ->
    loop_step nb l (loop_goto l (transition now StateReconnecting (lf_s l)).1 LWait)
| LsDecideClean l st now : lf_pc l = LDecide st false -> stopping st = false ->
    loop_step nb l (loop_exit l (transition now StateDisconnected (lf_s l)).1)
| LsGiveUp l now : lf_pc l = LFailed -> st_clients (lf_s l) = ∅ ->
    loop_step nb l (loop_exit l (transition now StateDisconnected (lf_s l)).1)
| LsRetry l now : lf_pc l = LFailed -> st_clients (lf_s l) <> ∅ ->
    loop_step nb l (loop_goto l (transition now StateReconnecting (lf_s l)).1 LWait)
| LsWaitDone l : lf_pc l = LWait -> st_done (lf_s l) = true -> loop_step nb l (loop_exit l (lf_s l))
| LsWaited l : lf_pc l = LWait ->
    loop_step nb l (mkLife (lf_s l) LTop (next_backoff nb (lf_idx l)) (lf_gen l) (lf_pending l) (lf_stops l))
| LsReturn l : lf_pc l = LExit ->       (* the deferred calls *)
    loop_step nb l (loop_goto l (endConnectLoop (lf_s l)) LIdle).

(** The program counter after a call that may have started the loop. *)
Definition spawned (l : life) (s' : Stream) : life :=
  if negb (st_loop (lf_s l)) && st_loop s'
  then mkLife s' LTop 0 (lf_gen l) (lf_pending l) (lf_stops l)
  else loop_goto l s' (lf_pc l).

(** The calls of the other goroutines, [Stop] and [Destroy] apart. *)
Inductive client_step (queue : Z) : life -> life -> Prop :=
| CsStart l now : client_step queue l (spawned l (Start now (lf_s l)))
| CsAddClient l client id s' cs :
    AddClient queue client id (lf_s l) = Done (s', cs) -> client_step queue l (spawned l s')
| CsRemoveClient l now client s' :
    RemoveClient now client (lf_s l) = Done s' -> client_step queue l (spawned l s')
| CsCancel l :                          (* the server context *)
    client_step queue l (loop_goto l (with_done (lf_s l) true) (lf_pc l)).

(** The same life with other callbacks and calls of [Stop] under way. *)
Definition with_stops (l : life) (s : Stream) (pending : nat) (stops : list stop_phase) : life :=
  mkLife s (lf_pc l) (lf_idx l) (lf_gen l) pending stops.

(** [remote.Disconnect()] on the remote read before: the stream's own if
    the loop has not replaced it since, and otherwise one the loop has
    disconnected already.  (The TEARDOWN requests before it change only
    counters the disconnect resets.) *)
Definition disconnect_read (gen : nat) (l : life) : Stream :=
  if (gen =? lf_gen l)%nat then with_remote (lf_s l) (Disconnect <$> st_remote (lf_s l)) else lf_s l.

Inductive stop_step : life -> life -> Prop :=
| SsTimer l : st_timer (lf_s l) = Some true ->
    stop_step l (with_stops l (with_timer (lf_s l) (Some false))
                   (if idle_expired (lf_s l) then S (lf_pending l) else lf_pending l) (lf_stops l))
| SsEnter l now p : lf_pending l = S p ->
    stop_step l (match transition now StateStopping (lf_s l) with
                 | (s', Some _) => with_stops l s' p (lf_stops l)
                 | (s', None) => with_stops l s' p (lf_stops l ++ [SpEntered])
                 end)
| SsTake l a b : lf_stops l = a ++ SpEntered :: b ->
    stop_step l (with_stops l (Stop_take (lf_s l)).1 (lf_pending l) (a ++ SpTook (lf_gen l) :: b))
| SsHangUp l gen a b : lf_stops l = a ++ SpTook gen :: b ->
    stop_step l (with_stops l (disconnect_read gen l) (lf_pending l) (a ++ SpHung :: b))
| SsEnd l now a b : lf_stops l = a ++ SpHung :: b ->
    stop_step l (with_stops l (Stop_end now (lf_s l)) (lf_pending l) (a ++ b))
| SsDestroyEnter l now :
    stop_step l (with_stops l (transition now StateDestroyed (lf_s l)).1 (lf_pending l) (lf_stops l))
| SsDestroyCancel l : st_state (lf_s l) = StateDestroyed ->
    stop_step l (with_stops l (with_done (lf_s l) true) (lf_pending l) (lf_stops l))
| SsDestroyTake l : st_state (lf_s l) = StateDestroyed -> st_done (lf_s l) = true ->
    stop_step l (with_stops l (Destroy_take (lf_s l)) (lf_pending l) (lf_stops l)).

Inductive life_reach (nb : nat) (queue : Z) : life -> Prop :=
| LrInit host user pass path idle now :
    life_reach nb queue (mkLife (NewStream host user pass path idle now false) LIdle 0 0 0 [])
| LrLoop l l' : life_reach nb queue l -> loop_step nb l l' -> life_reach nb queue l'
| LrClient l l' : life_reach nb queue l -> client_step queue l l' -> life_reach nb queue l'
| LrStop l l' : life_reach nb queue l -> stop_step l l' -> life_reach nb queue l'.

(** ** Invariant *)

Definition running (p : pc) : bool := match p with LIdle => false | _ => true end.

(** Where the loop is while the stream plays or reconnects. *)
Definition pc_plays (p : pc) : bool :=
  match p with
  | LReading | LAfter _ => true
  | LDecide st _ => st =st StatePlaying
  | _ => false
  end.

Definition pc_reconnects (p : pc) : bool :=
  match p with
  | LWait | LTop => true
  | LRead st => st =st StateReconnecting
  | _ => false
  end.

Record life_inv (nb : nat) (l : life) : Prop := {
  li_flag : st_loop (lf_s l) = running (lf_pc l);
  li_idx : (0 < nb)%nat -> (lf_idx l < nb)%nat;
  li_clean : lf_pc l = LAfter false \/ (exists st, lf_pc l = LDecide st false) ->
             st_done (lf_s l) = true;
  li_playing : st_state (lf_s l) = StatePlaying ->
               st_done (lf_s l) = false -> pc_plays (lf_pc l) = true;
  li_reconnecting : st_state (lf_s l) = StateReconnecting ->
               st_done (lf_s l) = false -> pc_reconnects (lf_pc l) = true
}.

(** ** Lemmas *)

Lemma transition_post (now : Z) (to : StreamState) (s s' : Stream) (e : option goerror) :
  transition now to s = (s', e) ->
  st_loop s' = st_loop s /\ st_done s' = st_done s /\ st_clients s' = st_clients s
  /\ match e with
     | None => st_state s' = to /\ st_state s <> StateDestroyed
               /\ valid_transition (st_state s) to = true
     | Some _ => s' = s /\ (st_state s = StateDestroyed \/ valid_transition (st_state s) to = false)
     end.
Proof.
  unfold transition. destruct (st_state s =st StateDestroyed) eqn:E.
  - intros [= <- <-]. apply state_eqb_true in E. auto 10.
  - apply state_eqb_false in E. destruct (valid_transition (st_state s) to) eqn:Ev.
    + intros [= <- <-]. destruct (unsafeSetState_frame now to s) as (F1 & F2 & _ & _ & _ & _ & F7 & _).
      rewrite unsafeSetState_state, (proj2 (state_eqb_false _ _) E). auto 10.
    + intros [= <- <-]. auto 10.
Qed.

(** The state after a call whose error is ignored. *)
Lemma transition_1 (now : Z) (to : StreamState) (s : Stream) :
  let s' := (transition now to s).1 in
  st_loop s' = st_loop s /\ st_done s' = st_done s /\ st_clients s' = st_clients s
  /\ ((st_state s' = to /\ valid_transition (st_state s) to = true)
      \/ (st_state s' = st_state s
          /\ (st_state s = StateDestroyed \/ valid_transition (st_state s) to = false))).
Proof.
  destruct (transition now to s) as [s' e] eqn:E. cbn [fst].
  apply transition_post in E as (E1 & E2 & E3 & E4). split_and!; [done..|].
  destruct e; [right; by destruct E4 as [-> ?]|left; naive_solver].
Qed.

Lemma next_backoff_range (nb idx : nat) : (0 < nb)%nat -> (next_backoff nb idx < nb)%nat.
Proof. intros H. unfold next_backoff. destruct (_ <=? _)%nat eqn:E; reflect_bool; lia. Qed.

Lemma count_reconnect_frame (now : Z) (st : StreamState) (s : Stream) :
  let s' := count_reconnect now st s in
  st_loop s' = st_loop s /\ st_done s' = st_done s /\ st_state s' = st_state s
  /\ st_clients s' = st_clients s.
Proof. unfold count_reconnect. by destruct (_ =st _). Qed.

Lemma end_downtime_frame (now : Z) (s : Stream) :
  let s' := end_downtime now s in
  st_loop s' = st_loop s /\ st_done s' = st_done s /\ st_state s' = st_state s.
Proof. unfold end_downtime. by destruct (negb _). Qed.

(** What a step has to establish, from what the invariant says before. *)
Lemma life_inv_intro (nb : nat) (l l' : life) :
  life_inv nb l ->
  st_loop (lf_s l') = running (lf_pc l') ->
  ((0 < nb)%nat -> (lf_idx l < nb)%nat -> (lf_idx l' < nb)%nat) ->
  (lf_pc l' = LAfter false \/ (exists st, lf_pc l' = LDecide st false) -> st_done (lf_s l') = true) ->
  (st_done (lf_s l') = false ->
     (st_state (lf_s l') = StatePlaying -> pc_plays (lf_pc l') = true)
     /\ (st_state (lf_s l') = StateReconnecting -> pc_reconnects (lf_pc l') = true)) ->
  life_inv nb l'.
Proof.
  intros [H1 H2 H3 H4 H5] F1 F2 F3 F4.
  split; [done|auto|done|intros ? Hd; by apply F4|intros ? Hd; by apply F4].
Qed.

(** Leaving the loop: fine when the stream neither plays nor reconnects
    from there, or the context is done. *)
Lemma exit_inv (nb : nat) (l : life) (gen : nat) (s' : Stream) :
  life_inv nb l -> running (lf_pc l) = true -> st_loop s' = st_loop (lf_s l) ->
  st_done s' = st_done (lf_s l) ->
  (st_done (lf_s l) = false ->
     st_state s' <> StatePlaying /\ st_state s' <> StateReconnecting) ->
  life_inv nb (mkLife s' LExit (lf_idx l) gen (lf_pending l) (lf_stops l)).
Proof.
  intros Hl Hr El Ed Hs. apply (life_inv_intro nb l); cbn; [done| |done|intros [?|[? ?]]; done|].
  - by rewrite El, (li_flag _ _ Hl), Hr.
  - rewrite Ed. intros Hd. destruct (Hs Hd). by split.
Qed.

(** Moving on inside the loop. *)
Lemma goto_inv (nb : nat) (l : life) (gen : nat) (s' : Stream) (p : pc) :
  life_inv nb l -> running (lf_pc l) = true -> running p = true ->
  st_loop s' = st_loop (lf_s l) -> st_done s' = st_done (lf_s l) ->
  (p = LAfter false \/ (exists st, p = LDecide st false) -> st_done (lf_s l) = true) ->
  (st_done (lf_s l) = false ->
     (st_state s' = StatePlaying -> pc_plays p = true)
     /\ (st_state s' = StateReconnecting -> pc_reconnects p = true)) ->
  life_inv nb (mkLife s' p (lf_idx l) gen (lf_pending l) (lf_stops l)).
Proof.
  intros Hl Hr Hp El Ed Hc Hs. apply (life_inv_intro nb l); cbn; try done.
  - by rewrite El, (li_flag _ _ Hl), Hr, Hp.
  - by rewrite Ed.
  - by rewrite Ed.
Qed.

(** The facts the invariant gives at a program point, as hypotheses. *)
Ltac at_pc Hl Hpc :=
  let HP := fresh "HP" in let HR := fresh "HR" in let HC := fresh "HC" in
  pose proof (li_playing _ _ Hl) as HP; pose proof (li_reconnecting _ _ Hl) as HR;
  pose proof (li_clean _ _ Hl) as HC;
  rewrite Hpc in HP, HR, HC; cbn [pc_plays pc_reconnects] in HP, HR.

(** A step to a point where the stream neither plays nor reconnects. *)
Ltac move_on Hpc HP HR :=
  apply goto_inv; rewrite ?Hpc; try done; [by intros [?|[? ?]]|];
  let Es := fresh "Es" in
  intros ?; cbn; split; intros Es; [by apply HP in Es|by apply HR in Es].

Lemma loop_step_inv (nb : nat) (l l' : life) : loop_step nb l l' -> life_inv nb l -> life_inv nb l'.
Proof.
  intros Hstep Hl. destruct Hstep as [l Hpc Hd|l Hpc Hd|l st Hpc Hq|l st now Hpc Hq|l now Hpc|l r Hpc
    |l Hpc|l Hpc|l sdp ss now Hpc|l sdp ss Hpc|l Hpc|l now Hpc|l Hpc|l Hpc Hd|l err Hpc|l st err now Hpc Hq
    |l st now Hpc Hq|l st now Hpc Hq|l now Hpc Hc|l now Hpc Hc|l Hpc Hd|l Hpc|l Hpc]; at_pc Hl Hpc.
  - apply exit_inv; [done|by rewrite Hpc|done || congruence|done || congruence|congruence].
  - apply goto_inv; rewrite ?Hpc; try done; [intros [?|[? ?]]; done|].
    intros _. cbn. split; intros E; [by apply HP in E|by rewrite E].
  - apply exit_inv; [done|by rewrite Hpc|done || congruence|done || congruence|]. intros Hd. split; intros E; [by apply HP in E|].
    apply HR in E; [|done]. apply state_eqb_true in E. by subst st.
  - unfold try_transition.
    destruct (count_reconnect_frame now st (lf_s l)) as (F1 & F2 & F3 & _).
    destruct (transition _ _ _) as [s' e] eqn:E.
    apply transition_post in E as (E1 & E2 & _ & E4). rewrite F3 in E4. destruct e.
    + destruct E4 as [-> E4]. apply exit_inv; [done|by rewrite Hpc|done || congruence|done || congruence|]. rewrite F3. intros Hd.
      split; intros Es; [by apply HP in Es|]. rewrite Es in E4. by destruct E4.
    + apply goto_inv; rewrite ?Hpc; try done; [congruence|congruence|intros [?|[? ?]]; done|].
      destruct E4 as (-> & _). done.
  - destruct (transition_1 now StateDisconnected (with_remote (lf_s l) None)) as (E1 & E2 & _ & E4).
    apply exit_inv; [done|by rewrite Hpc|done || congruence|done || congruence|]. intros Hd. cbn [with_remote st_state] in E4.
    destruct E4 as [[-> _]|[-> _]]; [done|]. split; intros Es; [by apply HP in Es|by apply HR in Es].
  - by move_on Hpc HP HR.
  - by move_on Hpc HP HR.
  - by move_on Hpc HP HR.
  - destruct (end_downtime_frame now (with_sessions (publish_sdp sdp (lf_s l)) ss)) as (E1 & E2 & E3).
    apply goto_inv; rewrite ?Hpc; try done; [intros [?|[? ?]]; done|].
    intros Hd. rewrite E3. cbn. split; intros Es; [by apply HP in Es|by apply HR in Es].
  - by move_on Hpc HP HR.
  - by move_on Hpc HP HR.
  - destruct (transition now StatePlaying (lf_s l)) as [s' e] eqn:E.
    apply transition_post in E as (E1 & E2 & _ & E4). destruct e.
    + destruct E4 as [-> E4]. apply exit_inv; [done|by rewrite Hpc|done || congruence|done || congruence|]. intros Hd.
      split; intros Es; [by apply HP in Es|by apply HR in Es].
    + destruct E4 as (Es & _). apply (life_inv_intro nb l); cbn; try done.
      * by rewrite E1, (li_flag _ _ Hl), Hpc.
      * by intros [?|[? ?]].
      * intros _. by rewrite Es.
  - apply goto_inv; rewrite ?Hpc; try done; [intros [?|[? ?]]; done|].
    intros Hd. cbn. split; [done|]. intros Es. by apply HR in Es.
  - apply goto_inv; rewrite ?Hpc; try done. intros Hd'. congruence.
  - apply goto_inv; rewrite ?Hpc; try done.
    + intros [?|[st' [= _ ->]]]; [done|]. apply HC. by left.
    + intros Hd. cbn. split; intros Es; [by rewrite Es|by apply HR in Es].
  - destruct (transition_1 now StateDisconnected (lf_s l)) as (E1 & E2 & _ & E4).
    apply exit_inv; [done|by rewrite Hpc|done || congruence|done || congruence|]. intros Hd.
    destruct E4 as [[-> _]|[-> _]]; [done|]. split; intros Es; [|by apply HR in Es].
    apply HP in Es; [|done]. apply state_eqb_true in Es. by subst st.
  - destruct (transition_1 now StateReconnecting (lf_s l)) as (E1 & E2 & _ & E4).
    apply goto_inv; rewrite ?Hpc; try done; [intros [?|[? ?]]; done|].
    intros Hd. cbn. split; [|done]. intros Es.
    destruct E4 as [[E4 _]|[E4 E5]]; [congruence|]. rewrite E4 in Es. rewrite Es in E5. by destruct E5.
  - apply exit_inv; [done|by rewrite Hpc|by apply transition_1|by apply transition_1|]. rewrite HC by eauto. done.
  - destruct (transition_1 now StateDisconnected (lf_s l)) as (E1 & E2 & _ & E4).
    apply exit_inv; [done|by rewrite Hpc|done || congruence|done || congruence|]. intros Hd.
    destruct E4 as [[-> _]|[-> _]]; [done|]. split; intros Es; [by apply HP in Es|by apply HR in Es].
  - destruct (transition_1 now StateReconnecting (lf_s l)) as (E1 & E2 & _ & E4).
    apply goto_inv; rewrite ?Hpc; try done; [intros [?|[? ?]]; done|].
    intros Hd. cbn. split; [|done]. intros Es.
    destruct E4 as [[E4 _]|[E4 E5]]; [congruence|]. rewrite E4 in Es. by apply HP in Es.
  - apply exit_inv; [done|by rewrite Hpc|done || congruence|done || congruence|congruence].
  - apply (life_inv_intro nb l); cbn; try done.
    + by rewrite (li_flag _ _ Hl), Hpc.
    + intros Hn _. by apply next_backoff_range.
    + by intros [?|[? ?]].
    + intros Hd. split; [|done]. intros Es. by apply HP in Es.
  - apply (life_inv_intro nb l); cbn; try done; [by intros [?|[? ?]]|].
    intros Hd. split; intros Es; [by apply HP in Es|by apply HR in Es].
Qed.

(** A call that may start the loop. *)
Lemma spawned_inv (nb : nat) (l : life) (s' : Stream) :
  life_inv nb l -> st_done s' = st_done (lf_s l) ->
  (st_loop s' = st_loop (lf_s l) \/ st_loop s' = true) ->
  (st_state s' = st_state (lf_s l) \/ st_state s' = StateConnecting) ->
  life_inv nb (spawned l s').
Proof.
  intros Hl Ed El Es. pose proof (li_flag _ _ Hl) as Hf. unfold spawned.
  destruct (negb (st_loop (lf_s l)) && st_loop s') eqn:E; reflect_bool.
  - apply (life_inv_intro nb l); cbn; try done; [by intros [?|[? ?]]|].
    rewrite Ed. intros Hd. split; [|done]. intros HP. destruct Es as [Es|Es]; [|congruence].
    rewrite Es in HP. pose proof (li_playing _ _ Hl HP Hd) as Hp.
    destruct (lf_pc l); cbn in *; congruence.
  - apply (life_inv_intro nb l); cbn; try done.
    + destruct El as [-> |El]; [done|]. rewrite El in E |- *. rewrite andb_true_r in E.
      reflect_bool. congruence.
    + rewrite Ed. apply (li_clean _ _ Hl).
    + rewrite Ed. intros Hd. destruct Es as [-> | ->]; [|done].
      split; intros ?; [by apply (li_playing _ _ Hl)|by apply (li_reconnecting _ _ Hl)].
Qed.

Lemma startConnectLoop_loop (s : Stream) :
  st_done (startConnectLoop s) = st_done s /\ st_loop (startConnectLoop s) = true.
Proof. unfold startConnectLoop. by destruct (st_loop s) eqn:E. Qed.

Lemma Start_loop (now : Z) (s : Stream) :
  st_done (Start now s) = st_done s
  /\ (st_loop (Start now s) = st_loop s \/ st_loop (Start now s) = true).
Proof.
  unfold Start. destruct (negb _); [auto|].
  match goal with |- context [startConnectLoop ?x] => destruct (startConnectLoop_loop x) as [-> ->] end.
  split; [|by right].
  match goal with |- st_done (unsafeSetState ?n ?t ?x) = _ =>
    destruct (unsafeSetState_frame n t x) as (_ & _ & _ & _ & _ & _ & -> & _) end.
  by case_bool_decide.
Qed.

Lemma AddClient_loop (queue : Z) (client : nat) (id : gostring) (s s' : Stream) (cs : ClientSession) :
  AddClient queue client id s = Done (s', cs) ->
  st_done s' = st_done s /\ (st_loop s' = st_loop s \/ st_loop s' = true).
Proof.
  unfold AddClient.
  assert (Hi : st_done (stopIdleTimer s) = st_done s /\ st_loop (stopIdleTimer s) = st_loop s)
    by (unfold stopIdleTimer; by destruct (st_timer s)).
  destruct Hi as [Hi1 Hi2]. destruct (_ !! client); [intros [= <- <-]; auto|].
  destruct (NewClientSession queue id); [|done]. cbn [outcome_bind]. intros [= <- <-].
  destruct (_ =st _); [|auto].
  match goal with |- context [startConnectLoop ?x] => destruct (startConnectLoop_loop x) as [-> ->] end.
  auto.
Qed.

Lemma RemoveClient_loop (now : Z) (client : nat) (s s' : Stream) :
  RemoveClient now client s = Done s' -> st_done s' = st_done s /\ st_loop s' = st_loop s.
Proof.
  unfold RemoveClient. destruct (_ !! client) as [cs|].
  - destruct (cs_Stop cs); [|done]. cbn [outcome_bind]. by case_if; intros [= <-].
  - cbn [outcome_bind]. by case_if; intros [= <-].
Qed.

Lemma client_step_inv (nb : nat) (queue : Z) (l l' : life) :
  client_step queue l l' -> life_inv nb l -> life_inv nb l'.
Proof.
  intros Hstep Hl. destruct Hstep as [l now|l client id s' cs Ha|l now client s' Hr|l].
  - destruct (Start_loop now (lf_s l)) as [Hd Hp]. apply spawned_inv; try done.
    destruct (Start_cases now (lf_s l)) as [->|(_ & -> & _)]; auto.
  - destruct (AddClient_loop _ _ _ _ _ _ Ha) as [Hd Hp].
    destruct (AddClient_frame _ _ _ _ _ _ Ha) as [_ Hs]. apply spawned_inv; auto.
  - destruct (RemoveClient_loop _ _ _ _ Hr) as [Hd Hp].
    destruct (RemoveClient_frame _ _ _ _ Hr) as [_ Hs]. apply spawned_inv; auto.
  - apply (life_inv_intro nb l); try done. apply Hl.
Qed.

(** A change of the stream by [Stop] or [Destroy]. *)
Lemma stop_inv (nb : nat) (l : life) (s' : Stream) (pending : nat) (stops : list stop_phase) :
  life_inv nb l -> st_loop s' = st_loop (lf_s l) ->
  (st_done (lf_s l) = true -> st_done s' = true) ->
  (st_state s' = st_state (lf_s l) \/ st_state s' = StateStopping
   \/ st_state s' = StateDisconnected \/ st_state s' = StateDestroyed) ->
  life_inv nb (with_stops l s' pending stops).
Proof.
  intros Hl El Ed Es.
  assert (Hnd : st_done s' = false -> st_done (lf_s l) = false)
    by (destruct (st_done (lf_s l)); [intros; by rewrite Ed in *|done]).
  apply (life_inv_intro nb l); cbn; try done.
  - rewrite El. apply Hl.
  - intros Hc. apply Ed. by apply (li_clean _ _ Hl).
  - intros Hd. apply Hnd in Hd. destruct Es as [-> |[-> |[-> | ->]]]; try done.
    split; intros ?; [by apply (li_playing _ _ Hl)|by apply (li_reconnecting _ _ Hl)].
Qed.

Lemma stop_step_inv (nb : nat) (l l' : life) : stop_step l l' -> life_inv nb l -> life_inv nb l'.
Proof.
  intros Hstep Hl.
  destruct Hstep as [l Ht|l now p Hp|l a b Hs|l gen a b Hs|l now a b Hs|l now|l Hd|l Hd Hdone].
  - apply stop_inv; auto.
  - destruct (transition now StateStopping (lf_s l)) as [s' e] eqn:E.
    apply transition_post in E as (E1 & E2 & _ & E4).
    destruct e; apply stop_inv; auto; try congruence; [by destruct E4 as [-> _]; auto|].
    destruct E4 as (-> & _). auto.
  - apply stop_inv; auto.
  - unfold disconnect_read. destruct (_ =? _)%nat; apply stop_inv; auto.
  - unfold Stop_end. destruct (transition_1 now StateDisconnected (lf_s l)) as (E1 & E2 & _ & E4).
    apply stop_inv; auto; [congruence|]. destruct E4 as [[-> _]|[-> _]]; auto.
  - destruct (transition_1 now StateDestroyed (lf_s l)) as (E1 & E2 & _ & E4).
    apply stop_inv; auto; [congruence|]. destruct E4 as [[-> _]|[-> _]]; auto.
  - apply stop_inv; auto.
  - destruct (Destroy_take_frame (lf_s l)) as (_ & T2 & T3 & T4 & _). apply stop_inv; auto; congruence.
Qed.

Lemma life_reach_inv (nb : nat) (queue : Z) (l : life) : life_reach nb queue l -> life_inv nb l.
Proof.
  induction 1 as [host user pass path idle now|l l' _ IH Hs|l l' _ IH Hs|l l' _ IH Hs].
  - split; cbn; try done. intros [?|[? ?]]; done.
  - by eapply loop_step_inv.
  - by eapply client_step_inv.
  - by eapply stop_step_inv.
Qed.

(** A stream that claims to be connecting while no loop runs. *)
Definition stranded (l : life) : Prop :=
  st_state (lf_s l) = StateConnecting /\ lf_pc l = LIdle /\ st_loop (lf_s l) = false.

Lemma stranded_client_step (queue : Z) (l l' : life) :
  stranded l -> client_step queue l l' -> stranded l'.
Proof.
  intros (Hs & Hp & Hf) Hstep. destruct Hstep as [l now|l client id s' cs Ha|l now client s' Hr|l].
  - assert (E : Start now (lf_s l) = lf_s l) by (unfold Start; by rewrite Hs).
    rewrite E. unfold spawned. rewrite Hf. by split_and!.
  - destruct (AddClient_frame _ _ _ _ _ _ Ha) as [_ Es].
    assert (Hl : st_loop s' = false).
    { unfold AddClient in Ha.
      assert (Hi : st_state (stopIdleTimer (lf_s l)) = StateConnecting
                   /\ st_loop (stopIdleTimer (lf_s l)) = false)
        by (unfold stopIdleTimer; by destruct (st_timer (lf_s l))).
      destruct Hi as [Hi1 Hi2]. destruct (_ !! client); [by injection Ha as <- <-|].
      destruct (NewClientSession queue id); [|done]. cbn [outcome_bind] in Ha.
      cbn [with_clients st_state] in Ha. rewrite Hi1 in Ha. by injection Ha as <- <-. }
    unfold spawned, stranded. rewrite Hf, Hl. cbn. split_and!; [congruence|done|done].
  - destruct (RemoveClient_frame _ _ _ _ Hr) as [_ Es]. destruct (RemoveClient_loop _ _ _ _ Hr) as [_ El].
    unfold spawned, stranded. rewrite El, Hf. cbn. split_and!; [congruence|done|congruence].
  - done.
Qed.

Lemma stranded_loop_step (nb : nat) (l l' : life) : stranded l -> loop_step nb l l' -> False.
Proof. intros (_ & Hp & _) Hstep. destruct Hstep; congruence. Qed.

(** A run of the loop alone. *)
Abbreviation loop_steps := (fun nb => nsteps (loop_step nb)).

(** The loop after a failed dial without clients: it gives up, the request
    for Disconnected is refused, and it returns. *)
Lemma failed_dial_ends (nb : nat) (l l1 l2 l3 : life) :
  lf_pc l = LDial -> st_state (lf_s l) = StateConnecting -> st_clients (lf_s l) = ∅ ->
  loop_step nb l l1 -> lf_pc l1 = LFailed -> loop_step nb l1 l2 -> loop_step nb l2 l3 -> stranded l3.
Proof.
  intros Hpc Hs Hc H1 Hpc1 H2 H3.
  assert (E1 : l1 = loop_goto l (lf_s l) LFailed).
  { destruct H1; try congruence; cbn in Hpc1; congruence. }
  subst l1. assert (E2 : l2 = loop_exit l (lf_s l)).
  { inversion H2; subst; try (cbn in *; congruence).
    unfold transition. cbn. by rewrite Hs. }
  subst l2. inversion H3; subst; try (cbn in *; congruence). split_and!; by cbn.
Qed.

Lemma failed_dial_runs (nb : nat) (l : life) :
  lf_pc l = LDial -> st_clients (lf_s l) = ∅ ->
  exists l1 l2 l3, loop_step nb l l1 /\ lf_pc l1 = LFailed /\ loop_step nb l1 l2 /\ loop_step nb l2 l3.
Proof.
  intros Hpc Hc. eexists _, _, _. split; [by apply LsDialFailed|]. split; [done|].
  split; [by apply (LsGiveUp nb _ 0)|by apply LsReturn].
Qed.

Definition cam_remote : Remote := mkRemote (str "cam:554") true [] [] [] [] 0 [] NewDigest.

(** What a stretch of the loop leaves alone. *)
Definition same_table (l l' : life) : Prop :=
  st_clients (lf_s l') = st_clients (lf_s l) /\ st_timer (lf_s l') = st_timer (lf_s l)
  /\ st_done (lf_s l') = st_done (lf_s l)
  /\ lf_pending l' = lf_pending l /\ lf_stops l' = lf_stops l.

Lemma same_table_trans (l1 l2 l3 : life) : same_table l1 l2 -> same_table l2 l3 -> same_table l1 l3.
Proof. unfold same_table. intros (?&?&?&?&?) (?&?&?&?&?). split_and!; congruence. Qed.

(** From the head of the loop to dialling. *)
Lemma run_dial (nb : nat) (l : life) :
  lf_pc l = LTop -> st_done (lf_s l) = false ->
  (st_state (lf_s l) = StateConnecting \/ st_state (lf_s l) = StateDisconnected) ->
  exists l', rtc (loop_step nb) l l' /\ lf_pc l' = LDial /\ st_state (lf_s l') = StateConnecting
    /\ same_table l l'.
Proof.
  intros Hpc Hd Hs.
  assert (Hq : stopping (st_state (lf_s l)) = false) by by destruct Hs as [-> | ->].
  assert (Hn : count_reconnect 2 (st_state (lf_s l)) (lf_s l) = lf_s l) by by destruct Hs as [-> | ->].
  assert (Ht : transition 2 StateConnecting (lf_s l) = (unsafeSetState 2 StateConnecting (lf_s l), None)).
  { unfold transition. by destruct Hs as [-> | ->]. }
  pose proof (LsTop nb l Hpc Hd) as H1. set (l1 := loop_goto _ _ _) in H1.
  pose proof (LsConnect nb l1 _ 2 eq_refl Hq) as H2.
  unfold try_transition in H2. change (lf_s l1) with (lf_s l) in H2. rewrite Hn, Ht in H2.
  set (l2 := loop_goto l1 _ LRemote) in H2.
  pose proof (LsRemote nb l2 cam_remote eq_refl) as H3.
  eexists. split; [eapply rtc_l; [exact H1|]; eapply rtc_l; [exact H2|]; by apply rtc_once|].
  destruct (unsafeSetState_frame 2 StateConnecting (lf_s l)) as (F1 & F2 & _ & _ & _ & F6 & F7 & _).
  split; [done|]. split; [|by split_and!].
  cbn. rewrite unsafeSetState_state. by destruct Hs as [-> | ->].
Qed.

(** From dialling to playing. *)
Lemma run_playing (nb : nat) (l : life) :
  lf_pc l = LDial -> st_state (lf_s l) = StateConnecting ->
  exists l', rtc (loop_step nb) l l' /\ lf_pc l' = LReading /\ st_state (lf_s l') = StatePlaying
    /\ same_table l l'.
Proof.
  intros Hpc Hs.
  pose proof (LsDialed nb l Hpc) as H1. set (l1 := loop_goto _ _ _) in H1.
  pose proof (LsSequence nb l1 (str "v=0") ∅ 3 eq_refl) as H2.
  change (lf_s l1) with (lf_s l) in H2.
  set (s2 := end_downtime _ _) in H2. set (l2 := loop_goto l1 s2 LPlay) in H2.
  assert (E2 : st_state s2 = StateConnecting /\ st_clients s2 = st_clients (lf_s l)
    /\ st_timer s2 = st_timer (lf_s l) /\ st_done s2 = st_done (lf_s l)).
  { subst s2. unfold end_downtime. by destruct (negb _). }
  destruct E2 as (E21 & E22 & E23 & E24).
  pose proof (LsPlay nb l2 3 eq_refl) as H3.
  assert (Ht : transition 3 StatePlaying s2 = (unsafeSetState 3 StatePlaying s2, None)).
  { unfold transition. by rewrite E21. }
  change (lf_s l2) with s2 in H3. rewrite Ht in H3.
  eexists. split; [eapply rtc_l; [exact H1|]; eapply rtc_l; [exact H2|]; by apply rtc_once|].
  destruct (unsafeSetState_frame 3 StatePlaying s2) as (F1 & F2 & _ & F4 & _ & F6 & F7 & _).
  split; [done|]. split; [cbn; rewrite unsafeSetState_state; by rewrite E21|].
  unfold same_table. cbn. rewrite F1, F6, F7. done.
Qed.

(** The idle timer fires on a playing stream, and the [Stop] it calls runs
    to its end while the loop is reading. *)
Lemma idle_stop_runs (l : life) :
  st_state (lf_s l) = StatePlaying -> st_timer (lf_s l) = Some true -> st_clients (lf_s l) = ∅ ->
  lf_pending l = 0%nat -> lf_stops l = [] ->
  exists l', rtc stop_step l l' /\ lf_pc l' = lf_pc l /\ st_state (lf_s l') = StateDisconnected
    /\ st_sessions (lf_s l') = ∅ /\ (forall r, st_remote (lf_s l') = Some r -> r_conn r = false)
    /\ st_clients (lf_s l') = ∅ /\ st_timer (lf_s l') = Some false
    /\ st_done (lf_s l') = st_done (lf_s l) /\ lf_pending l' = 0%nat /\ lf_stops l' = [].
Proof.
  intros Hs Ht Hc Hp Hn. pose proof (SsTimer l Ht) as H1.
  assert (Hex : idle_expired (lf_s l) = true) by (unfold idle_expired; by rewrite Hs, Hc).
  rewrite Hex, Hp, Hn in H1. set (l1 := with_stops _ _ _ _) in H1.
  pose proof (SsEnter l1 5 0 eq_refl) as H2.
  destruct (stoppable_enters 5 (lf_s l1)) as [Htr Es2]; [change (stoppable (st_state (lf_s l)) = true); by rewrite Hs|].
  rewrite Htr in H2. set (s2 := unsafeSetState 5 _ _) in *. set (l2 := with_stops l1 s2 0 _) in H2.
  pose proof (SsTake l2 [] [] eq_refl) as H3. set (l3 := with_stops l2 _ _ _) in H3.
  pose proof (SsHangUp l3 (lf_gen l) [] [] eq_refl) as H4. set (l4 := with_stops l3 _ _ _) in H4.
  pose proof (SsEnd l4 6 [] [] eq_refl) as H5.
  destruct (unsafeSetState_frame 5 StateStopping (lf_s l1)) as (F1 & F2 & _ & F4 & F5 & F6 & F7 & _).
  fold s2 in F1, F2, F4, F5, F6, F7.
  assert (E4 : lf_s l4 = with_remote (with_sessions s2 ∅) (Disconnect <$> st_remote s2)).
  { subst l4. cbn. unfold disconnect_read. cbn. by rewrite Nat.eqb_refl. }
  rewrite Stop_end_stopping in H5 by (rewrite E4; exact Es2).
  eexists. split; [do 4 (eapply rtc_l; [eassumption|]); by apply rtc_once|].
  destruct (unsafeSetState_frame 6 StateDisconnected (lf_s l4)) as (G1 & G2 & _ & G4 & G5 & G6 & G7 & _).
  cbn [with_stops lf_pc lf_s lf_pending lf_stops]. rewrite unsafeSetState_state, G1, G4, G5, G6, G7, E4.
  cbn [with_remote with_sessions st_state st_clients st_timer st_done st_remote st_sessions].
  rewrite Es2, F1, F6, F7. split_and!; try done.
  intros r Hr. destruct (st_remote s2) as [r0|]; [|done]. injection Hr as <-. apply disconnectLocked_conn.
Qed.

(** What the loop does when reading has ended and the state says
    Disconnected: it asks for Reconnecting, which is refused, waits and
    starts over. *)
Lemma overtaken_loop (nb : nat) (l l' : life) :
  lf_pc l = LAfter true -> st_state (lf_s l) = StateDisconnected -> st_done (lf_s l) = false ->
  loop_steps nb 3 l l' ->
  lf_pc l' = LTop /\ st_state (lf_s l') = StateDisconnected /\ same_table l l'.
Proof.
  intros Hpc Hs Hd Hn.
  inversion Hn as [|? ? l1 ? H1 Hn1]; subst. inversion Hn1 as [|? ? l2 ? H2 Hn2]; subst.
  apply nsteps_once_inv in Hn2 as H3.
  assert (E1 : l1 = loop_goto l (lf_s l) (LDecide StateDisconnected true)).
  { inversion H1; subst; congruence. }
  subst l1. assert (E2 : l2 = loop_goto l (lf_s l) LWait).
  { inversion H2; subst; cbn in *; try congruence; simplify_eq; try done.
    unfold transition. by rewrite Hs. }
  subst l2. inversion H3; subst; cbn in *; try congruence. by split_and!.
Qed.

Lemma overtaken_runs (nb : nat) (l : life) :
  lf_pc l = LAfter true -> st_state (lf_s l) = StateDisconnected -> exists l', loop_steps nb 3 l l'.
Proof.
  intros Hpc Hs. eexists. eapply nsteps_l; [by apply (LsAfter nb l true)|].
  eapply nsteps_l; [apply (LsDecideError nb _ (st_state (lf_s l)) 7); [done|by rewrite Hs]|].
  apply nsteps_once. by apply LsWaited.
Qed.

(** A new stream whose loop has just been started, without clients. *)
Definition started : life := spawned (mkLife fresh_stream LIdle 0 0 0 []) (Start 1 fresh_stream).

Lemma started_reach (nb : nat) (queue : Z) : life_reach nb queue started.
Proof. eapply LrClient; [apply LrInit|apply CsStart]. Qed.

Lemma life_reach_loop (nb : nat) (queue : Z) (l l' : life) :
  life_reach nb queue l -> rtc (loop_step nb) l l' -> life_reach nb queue l'.
Proof. intros Hl Hs. induction Hs as [|x y z Hxy _ IH]; [done|]. by apply IH, (LrLoop _ _ x). Qed.

Lemma life_reach_stop (nb : nat) (queue : Z) (l l' : life) :
  life_reach nb queue l -> rtc stop_step l l' -> life_reach nb queue l'.
Proof. intros Hl Hs. induction Hs as [|x y z Hxy _ IH]; [done|]. by apply IH, (LrStop _ _ x). Qed.

(** A reachable stream that is dialling, and one that plays, idle. *)
Lemma started_dials (nb : nat) (queue : Z) :
  exists l, life_reach nb queue l /\ lf_pc l = LDial /\ st_state (lf_s l) = StateConnecting
    /\ same_table started l.
Proof.
  destruct (run_dial nb started) as (l & Hr & Hpc & Hs & Hsame); [done|done|by left|].
  exists l. split; [eapply life_reach_loop; [apply started_reach|done]|done].
Qed.

Lemma started_plays (nb : nat) (queue : Z) :
  exists l, life_reach nb queue l /\ lf_pc l = LReading /\ st_state (lf_s l) = StatePlaying
    /\ same_table started l.
Proof.
  destruct (started_dials nb queue) as (l & Hl & Hpc & Hs & Hsame).
  destruct (run_playing nb l Hpc Hs) as (l' & Hr & Hpc' & Hs' & Hsame').
  exists l'. split; [by eapply life_reach_loop|]. split_and!; try done. by eapply same_table_trans.
Qed.

(** *** The end of a cancelled loop *)

(** Steps left, once the context is done. *)
Definition steps_left (p : pc) : nat :=
  match p with
  | LIdle => 0 | LExit => 1 | LTop => 2 | LWait => 3 | LFailed => 4 | LDecide _ _ => 4 | LAfter _ => 5
  | LReading => 6 | LPlay => 7 | LSequence => 8 | LDial => 9 | LRemote => 10 | LRead _ => 11
  end.

Lemma cancelled_loop_step (nb : nat) (l l' : life) :
  st_done (lf_s l) = true -> loop_step nb l l' ->
  (steps_left (lf_pc l') < steps_left (lf_pc l))%nat /\ st_done (lf_s l') = true.
Proof.
  intros Hd Hstep.
  assert (Htr : forall now to s, st_done (transition now to s).1 = st_done s)
    by (intros now to s; apply (transition_1 now to s)).
  destruct Hstep as [l Hpc|l Hpc Hd'|l st Hpc Hq|l st now Hpc Hq|l now Hpc|l r Hpc
    |l Hpc|l Hpc|l sdp ss now Hpc|l sdp ss Hpc|l Hpc|l now Hpc|l Hpc|l Hpc|l err Hpc|l st err now Hpc Hq
    |l st now Hpc Hq|l st now Hpc Hq|l now Hpc Hc|l now Hpc Hc|l Hpc|l Hpc|l Hpc];
    rewrite Hpc; unfold try_transition; cbn -[transition]; try (split; [lia|by rewrite ?Htr]); [congruence|..].
  - pose proof (Htr now StateConnecting (count_reconnect now st (lf_s l))) as E.
    destruct (count_reconnect_frame now st (lf_s l)) as (_ & F2 & _). rewrite F2, Hd in E.
    destruct (transition _ _ _) as [s' [e|]]; cbn in *; split; (lia || done).
  - split; [lia|]. by destruct (end_downtime_frame now (with_sessions (publish_sdp sdp (lf_s l)) ss)) as (_ & -> & _).
  - pose proof (Htr now StatePlaying (lf_s l)) as E. rewrite Hd in E.
    destruct (transition _ _ _) as [s' [e|]]; cbn in *; split; (lia || done).
Qed.

Lemma loop_step_enabled (nb : nat) (l : life) : running (lf_pc l) = true -> exists l', loop_step nb l l'.
Proof.
  destruct (lf_pc l) as [| |st| | | | | |err|st err| | |] eqn:Hpc; intros Hr; try done.
  - destruct (st_done (lf_s l)) eqn:Hd; eexists; [by apply LsTopDone|by apply LsTop].
  - destruct (stopping st) eqn:Hq; eexists; [by eapply LsQuit|by eapply (LsConnect nb l st 0)].
  - eexists. by apply (LsNoRemote nb l 0).
  - eexists. by apply LsDialed.
  - eexists. by apply LsSequenceSilent.
  - eexists. by apply (LsPlay nb l 0).
  - eexists. by apply LsReadError.
  - eexists. by eapply LsAfter.
  - destruct (stopping st) eqn:Hq; [eexists; by eapply (LsDecideStop nb l st err 0)|].
    destruct err; eexists; [by eapply (LsDecideError nb l st 0)|by eapply (LsDecideClean nb l st 0)].
  - destruct (decide (st_clients (lf_s l) = ∅)); eexists; [by apply (LsGiveUp nb l 0)|by apply (LsRetry nb l 0)].
  - eexists. by apply LsWaited.
  - eexists. by apply LsReturn.
Qed.

(** On a destroyed stream nobody else starts a loop. *)
Lemma destroyed_others (queue : Z) (l l' : life) :
  st_state (lf_s l) = StateDestroyed -> st_done (lf_s l) = true ->
  client_step queue l l' \/ stop_step l l' ->
  lf_pc l' = lf_pc l /\ st_state (lf_s l') = StateDestroyed /\ st_done (lf_s l') = true.
Proof.
  intros Hs Hd.
  assert (Htr : forall now to, transition now to (lf_s l) = (lf_s l, Some (ErrText (str "stream is destroyed"))))
    by (intros now to; unfold transition; by rewrite Hs).
  intros [Hstep|Hstep].
  - destruct Hstep as [l now|l client id s' cs Ha|l now client s' Hr|l]; [..|done].
    + assert (E : Start now (lf_s l) = lf_s l) by (unfold Start; by rewrite Hs).
      rewrite E. unfold spawned. by destruct (negb _ && _) eqn:En; [destruct (st_loop (lf_s l))|].
    + destruct (AddClient_frame _ _ _ _ _ _ Ha) as [_ Es]. destruct (AddClient_loop _ _ _ _ _ _ Ha) as [Ed _].
      assert (El : st_loop s' = st_loop (lf_s l)).
      { unfold AddClient in Ha.
        assert (Hi : st_state (stopIdleTimer (lf_s l)) = StateDestroyed
                     /\ st_loop (stopIdleTimer (lf_s l)) = st_loop (lf_s l))
          by (unfold stopIdleTimer; by destruct (st_timer (lf_s l))).
        destruct Hi as [Hi1 Hi2]. destruct (_ !! client); [by injection Ha as <- <-|].
        destruct (NewClientSession queue id); [|done]. cbn [outcome_bind] in Ha.
        cbn [with_clients st_state] in Ha. rewrite Hi1 in Ha. by injection Ha as <- <-. }
      unfold spawned. rewrite El. by destruct (st_loop (lf_s l)); cbn; split_and!; congruence.
    + destruct (RemoveClient_frame _ _ _ _ Hr) as [_ Es]. destruct (RemoveClient_loop _ _ _ _ Hr) as [Ed El].
      unfold spawned. rewrite El. by destruct (st_loop (lf_s l)); cbn; split_and!; congruence.
  - destruct Hstep as [l Ht|l now p Hp|l a b Hst|l gen a b Hst|l now a b Hst|l now|l _|l _ _]; try done.
    + by rewrite Htr.
    + unfold disconnect_read. by destruct (_ =? _)%nat.
    + unfold Stop_end. cbn. by rewrite Htr.
    + cbn. by rewrite Htr.
    + destruct (Destroy_take_frame (lf_s l)) as (_ & T2 & T3 & _). cbn. by rewrite T2, T3.
Qed.

(** ** Properties *)

(** C13: In every interleaving of the loop with clients, timer, [Stop] and
    [Destroy]: the index into a non-empty back-off table stays in range,
    the flag says exactly whether a loop runs, and a stream that is
    Playing or Reconnecting has a running loop at a point that looks
    after it (until the server or the stream is shut down). *)
Theorem loop_alive (nb : nat) (queue : Z) (l : life) :
  life_reach nb queue l ->
  ((0 < nb)%nat -> (lf_idx l < nb)%nat)
  /\ st_loop (lf_s l) = running (lf_pc l)
  /\ (st_done (lf_s l) = false ->
      (st_state (lf_s l) = StatePlaying -> pc_plays (lf_pc l) = true)
      /\ (st_state (lf_s l) = StateReconnecting -> pc_reconnects (lf_pc l) = true)).
Proof.
  intros Hl. apply life_reach_inv in Hl. split; [apply Hl|]. split; [apply Hl|].
  intros Hd. split; intros Hs; [by apply (li_playing _ _ Hl)|by apply (li_reconnecting _ _ Hl)].
Qed.

Lemma loop_alive_witness :
  st_loop (lf_s started) = running (lf_pc started) /\ (lf_idx started < 5)%nat.
Proof.
  destruct (loop_alive 5 100 started) as (H1 & H2 & _); [apply started_reach|].
  split; [exact H2|]. apply H1. lia.
Defined.



(** C38: A stream can be lost.  A reachable stream is dialling while no
    client is registered (the usual case, as clients are registered only
    once the stream plays); and from every such state, when the dial
    fails, the loop gives up and returns with its request for
    Disconnected refused, leaving the state Connecting without a loop;
    from there no call of a client ([Start], [AddClient], [RemoveClient])
    ever starts a loop or changes the state again, only the idle timer's
    [Stop] or [Destroy] do. *)
Theorem failed_dial_strands_stream (nb : nat) (queue : Z) :
  let dialling l := lf_pc l = LDial /\ st_state (lf_s l) = StateConnecting /\ st_clients (lf_s l) = ∅ in
  (exists l, life_reach nb queue l /\ dialling l /\ st_done (lf_s l) = false)
  /\ (forall l, dialling l ->
      (exists l1 l2 l3, loop_step nb l l1 /\ lf_pc l1 = LFailed /\ loop_step nb l1 l2 /\ loop_step nb l2 l3)
      /\ forall l1 l2 l3, loop_step nb l l1 -> lf_pc l1 = LFailed -> loop_step nb l1 l2 -> loop_step nb l2 l3 ->
         stranded l3)
  /\ forall l l', stranded l -> loop_step nb l l' \/ client_step queue l l' -> stranded l'.
Proof.
  intros dialling. split_and!.
  - destruct (started_dials nb queue) as (l & Hl & Hpc & Hs & (Hc & _ & Hd & _)). by exists l.
  - intros l (Hpc & Hs & Hc). split; [by apply failed_dial_runs|]. intros l1 l2 l3. by apply failed_dial_ends.
  - intros l l' Hst [Hstep|Hstep]; [by destruct (stranded_loop_step nb l l' Hst Hstep)|].
    by eapply stranded_client_step.
Qed.

(** C39: Stopping an idle stream may not stop it.  There is a reachable
    playing stream without clients on which the timer fires and the [Stop]
    it calls runs from its beginning to its end (sessions forgotten,
    connection closed, state Disconnected) before the loop, whose read has
    failed, looks at the state; and from every such state the loop, left
    to itself, is back at its head after three steps with nothing
    changed, and can go on to connect again: the stream is Playing, with
    no client, no armed timer and no [Stop] under way. *)
Theorem idle_stop_overtaken (nb : nat) (queue : Z) :
  let overtaken l := lf_pc l = LAfter true /\ st_state (lf_s l) = StateDisconnected
    /\ st_clients (lf_s l) = ∅ /\ st_timer (lf_s l) = Some false /\ st_done (lf_s l) = false
    /\ lf_pending l = 0%nat /\ lf_stops l = [] in
  (exists l0 l1 l2, life_reach nb queue l0 /\ st_state (lf_s l0) = StatePlaying /\ lf_pc l0 = LReading
     /\ st_clients (lf_s l0) = ∅ /\ st_timer (lf_s l0) = Some true
     /\ rtc stop_step l0 l1 /\ st_state (lf_s l1) = StateDisconnected /\ st_sessions (lf_s l1) = ∅
     /\ (forall r, st_remote (lf_s l1) = Some r -> r_conn r = false)
     /\ loop_step nb l1 l2 /\ overtaken l2)
  /\ forall l, overtaken l ->
     (forall l', nsteps (loop_step nb) 3 l l' ->
        lf_pc l' = LTop /\ st_state (lf_s l') = StateDisconnected /\ st_clients (lf_s l') = ∅)
     /\ exists l', rtc (loop_step nb) l l' /\ lf_pc l' = LReading /\ st_state (lf_s l') = StatePlaying
        /\ st_clients (lf_s l') = ∅ /\ st_timer (lf_s l') = Some false
        /\ lf_pending l' = 0%nat /\ lf_stops l' = [].
Proof.
  intros overtaken. split.
  - destruct (started_plays nb queue) as (l0 & Hl & Hpc & Hs & (T1 & T2 & T3 & T4 & T5)).
    destruct (idle_stop_runs l0 Hs T2 T1 T4 T5) as (l1 & Hr & P1 & P2 & P3 & P4 & P5 & P6 & P7 & P8 & P9).
    rewrite Hpc in P1. exists l0, l1, (loop_goto l1 (lf_s l1) (LAfter true)).
    split_and!; try done; [by apply LsReadError|]. split_and!; try done. cbn. by rewrite P7, T3.
  - intros l (Hpc & Hs & Hc & Ht & Hd & Hp & Hn). split.
    + intros l' Hl'. destruct (overtaken_loop nb l l' Hpc Hs Hd Hl') as (E1 & E2 & (E3 & _)).
      split_and!; congruence.
    + destruct (overtaken_runs nb l Hpc Hs) as [la Ha].
      destruct (overtaken_loop nb l la Hpc Hs Hd Ha) as (Apc & As & At).
      destruct (run_dial nb la Apc) as (lb & Hb & Bpc & Bs & Bt); [destruct At as (_&_&?&_); congruence|by right|].
      destruct (run_playing nb lb Bpc Bs) as (lc & Hcc & Cpc & Cs & Ct).
      exists lc. destruct (same_table_trans _ _ _ (same_table_trans _ _ _ At Bt) Ct) as (K1 & K2 & K3 & K4 & K5).
      split; [etrans; [by eapply rtc_nsteps_2|by etrans]|]. split_and!; congruence.
Qed.

(** A client that calls [Start] between the loop's last look at the state
    and the reset of its flag finds the flag set: the state says
    Connecting and no loop will run. *)
Theorem start_before_reset (nb : nat) (queue : Z) (now : Z) (l : life) :
  lf_pc l = LExit -> st_state (lf_s l) = StateDisconnected -> st_loop (lf_s l) = true ->
  exists l1 l2, client_step queue l l1 /\ loop_step nb l1 l2 /\ stranded l2.
Proof.
  intros Hpc Hs Hf.
  assert (E : spawned l (Start now (lf_s l)) = loop_goto l (Start now (lf_s l)) LExit).
  { unfold spawned. by rewrite Hf, Hpc. }
  destruct (Start_cases now (lf_s l)) as [E0|(_ & Es & _)].
  - exfalso. apply (f_equal st_state) in E0. revert E0. unfold Start. rewrite Hs.
    change (negb (StateDisconnected =st StateDisconnected)) with false. cbv iota zeta.
    match goal with |- context [startConnectLoop ?x] => destruct (startConnectLoop_frame x) as [_ ->] end.
    rewrite unsafeSetState_state. by case_bool_decide; cbn; rewrite ?Hs.
  - eexists _, _. split; [apply (CsStart queue l now)|]. rewrite E.
    split; [by apply LsReturn|]. split_and!; [exact Es|done|done].
Qed.
