(* ===== verification/Locks.v ===== *)
(** * The lock of a stream

    What [Stream.LookupTransport], [Remote.LookupTransport],
    [Stream.ReportMetrics], [Stream.GetBitrate] and [Stream.dispatch]
    (src/rtspproxy/stream.go, src/rtspproxy/remote.go) do to the stream's
    [sync.RWMutex], and what their concurrent use comes to.  The mutex is
    Go's: a writer that has asked for the lock keeps out new readers until
    it has had it, so a reader must not ask for it twice.  Only the
    actions on this mutex are represented: other locks, and waits inside
    a section, are not part of the model. *)

From stdpp Require Import base list relations.
From Stdlib Require Import Lia.
From S2P Require Import Prelude.

(** ** Definitions *)

Inductive instr := RLock | RUnlock | Lock | Unlock.
#[global] Instance instr_eq : EqDecision instr.
Proof. solve_decision. Defined.

(** What a call does to [s.mu], in order. *)
Definition GetBitrate_locks : list instr := [RLock; RUnlock].
Definition Remote_LookupTransport_locks : list instr := [RLock; RUnlock].
Definition dispatch_locks : list instr := [Lock; Unlock].

(** The lock is released by a deferred call, after the inner one. *)
Definition ReportMetrics_locks : list instr := [RLock] ++ GetBitrate_locks ++ [RUnlock].

(** With a remote; without one the inner call is left out. *)
Definition LookupTransport_locks (remote : bool) : list instr :=
  [RLock] ++ (if remote then Remote_LookupTransport_locks else []) ++ [RUnlock].

(** [sync.RWMutex]: the readers inside; whether a writer holds [w], that
    is has announced itself or is inside. *)
Record rwmutex := mkRW { rw_readers : nat; rw_w : bool }.

(** A goroutine: whether it has announced itself as a writer, and what it
    has still to do. *)
Record thread := mkThread { th_announced : bool; th_prog : list instr }.

Record lk := mkLk { lk_mu : rwmutex; lk_threads : list thread }.

(** One action of a goroutine; [None] while it is blocked or finished. *)
Definition act (mu : rwmutex) (t : thread) : option (rwmutex * thread) :=
  match th_prog t with
  | [] => None
  | RLock :: p => if rw_w mu then None else Some (mkRW (S (rw_readers mu)) false, mkThread false p)
  | RUnlock :: p => Some (mkRW (pred (rw_readers mu)) (rw_w mu), mkThread false p)
  | Lock :: p =>
      if th_announced t then
        match rw_readers mu with
        | 0%nat => Some (mu, mkThread false p)
        | S _ => None
        end
      else if rw_w mu then None
      else Some (mkRW (rw_readers mu) true, mkThread true (Lock :: p))
  | Unlock :: p => Some (mkRW (rw_readers mu) false, mkThread false p)
  end.

Inductive lk_step : lk -> lk -> Prop :=
| LkStep i t t' mu mu' ts :
    ts !! i = Some t -> act mu t = Some (mu', t') ->
    lk_step (mkLk mu ts) (mkLk mu' (<[i := t']> ts)).

Definition start (ps : list (list instr)) : lk := mkLk (mkRW 0 false) (mkThread false <$> ps).

Definition finished (l : lk) : bool := forallb (fun t => bool_decide (th_prog t = [])) (lk_threads l).

(** A schedule: which goroutine acts next. *)
Fixpoint schedule (turns : list nat) (l : lk) : option lk :=
  match turns with
  | [] => Some l
  | i :: turns =>
      t ← lk_threads l !! i;
      r ← act (lk_mu l) t;
      schedule turns (mkLk r.1 (<[i := r.2]> (lk_threads l)))
  end.

(** No goroutine can act. *)
Definition blocked (l : lk) : bool :=
  forallb (fun t => bool_decide (act (lk_mu l) t = None)) (lk_threads l).

(** ** Flat programs: sections that are not nested *)

Fixpoint flat (p : list instr) : bool :=
  match p with
  | [] => true
  | RLock :: RUnlock :: p => flat p
  | Lock :: Unlock :: p => flat p
  | _ => false
  end.

(** Where a goroutine with a flat program can be. *)
Inductive place := Outside | Inside | Announced | Writing.
#[global] Instance place_eq : EqDecision place.
Proof. solve_decision. Defined.

Definition at_place (pl : place) (t : thread) : Prop :=
  match pl with
  | Outside => th_announced t = false /\ flat (th_prog t) = true
  | Inside => th_announced t = false /\ exists p, th_prog t = RUnlock :: p /\ flat p = true
  | Announced => th_announced t = true /\ exists p, th_prog t = Lock :: Unlock :: p /\ flat p = true
  | Writing => th_announced t = false /\ exists p, th_prog t = Unlock :: p /\ flat p = true
  end.

Definition one (pl x : place) : nat := if bool_decide (x = pl) then 1 else 0.

Fixpoint count (pl : place) (pls : list place) : nat :=
  match pls with
  | [] => 0
  | x :: pls => one pl x + count pl pls
  end.

(** The mutex counts the readers, and at most one goroutine is announced
    or writing, the latter without readers. *)
Record lk_inv (l : lk) (pls : list place) : Prop := {
  li_place : Forall2 at_place pls (lk_threads l);
  li_readers : rw_readers (lk_mu l) = count Inside pls;
  li_w : count Announced pls + count Writing pls = (if rw_w (lk_mu l) then 1 else 0)%nat;
  li_excl : (0 < count Writing pls)%nat -> count Inside pls = 0%nat
}.

(** The actions still to come: a [Lock] takes two. *)
Definition thread_work (t : thread) : nat :=
  (2 * length (th_prog t) - (if th_announced t then 1 else 0))%nat.
Definition work (l : lk) : nat := sum_list (thread_work <$> lk_threads l).

(** ** Lemmas *)

Lemma count_insert (pl a b : place) (pls : list place) (i : nat) :
  pls !! i = Some a -> (count pl (<[i := b]> pls) + one pl a = count pl pls + one pl b)%nat.
Proof.
  revert i. induction pls as [|x pls IH]; intros [|i] Hi; try done.
  - injection Hi as ->. cbn. lia.
  - specialize (IH i Hi). change (<[S i := b]> (x :: pls)) with (x :: <[i := b]> pls). cbn [count]. lia.
Qed.

Lemma count_lookup (pl : place) (pls : list place) :
  (0 < count pl pls)%nat -> exists i, pls !! i = Some pl.
Proof.
  induction pls as [|x pls IH]; cbn; intros Hc; [lia|]. unfold one in Hc. case_bool_decide as E.
  - exists 0%nat. by rewrite E.
  - destruct IH as [i Hi]; [lia|]. by exists (S i).
Qed.

Lemma act_work (mu mu' : rwmutex) (t t' : thread) :
  act mu t = Some (mu', t') -> (thread_work t' < thread_work t)%nat.
Proof.
  unfold act, thread_work. destruct t as [a [|[] p]]; cbn [th_prog th_announced]; intros E; [done|..].
  - destruct (rw_w mu); [done|]. injection E as _ <-. destruct a; cbn; lia.
  - injection E as _ <-. destruct a; cbn; lia.
  - destruct a.
    + destruct (rw_readers mu); [|done]. injection E as _ <-. cbn. lia.
    + destruct (rw_w mu); [done|]. injection E as _ <-. cbn. lia.
  - injection E as _ <-. destruct a; cbn; lia.
Qed.

Lemma sum_insert (ts : list thread) (i : nat) (t t' : thread) :
  ts !! i = Some t ->
  (sum_list (thread_work <$> <[i := t']> ts) + thread_work t = sum_list (thread_work <$> ts) + thread_work t')%nat.
Proof.
  revert i. induction ts as [|x ts IH]; intros [|i] Hi; try done.
  - injection Hi as ->. cbn. lia.
  - specialize (IH i Hi). change (<[S i := t']> (x :: ts)) with (x :: <[i := t']> ts). cbn in *. lia.
Qed.

Lemma step_work (l l' : lk) : lk_step l l' -> (work l' < work l)%nat.
Proof.
  intros [i t t' mu mu' ts Hi Ha]. unfold work. cbn [lk_threads].
  pose proof (sum_insert ts i t t' Hi). apply act_work in Ha. lia.
Qed.

(** Where one action leads. *)
Definition moves (mu mu' : rwmutex) (a b : place) : Prop :=
  match a, b with
  | Outside, Inside => rw_w mu = false /\ mu' = mkRW (S (rw_readers mu)) false
  | Outside, Announced => rw_w mu = false /\ mu' = mkRW (rw_readers mu) true
  | Inside, Outside => mu' = mkRW (pred (rw_readers mu)) (rw_w mu)
  | Announced, Writing => rw_readers mu = 0%nat /\ mu' = mu
  | Writing, Outside => mu' = mkRW (rw_readers mu) false
  | _, _ => False
  end.

Lemma act_moves (mu mu' : rwmutex) (t t' : thread) (a : place) :
  at_place a t -> act mu t = Some (mu', t') -> exists b, at_place b t' /\ moves mu mu' a b.
Proof.
  destruct t as [an p]. unfold act. destruct a; cbn [at_place th_prog th_announced].
  - intros [-> Hf]. destruct p as [|[] [|[] p]]; try done; destruct (rw_w mu) eqn:Ew; try done; intros [= <- <-].
    + exists Inside. cbn. split; [|done]. split; [done|]. by exists p.
    + exists Announced. cbn. split; [|done]. split; [done|]. by exists p.
  - intros [-> (p' & -> & Hf)] [= <- <-]. by exists Outside.
  - intros [-> (p' & -> & Hf)]. destruct (rw_readers mu) eqn:Er; [|done]. intros [= <- <-].
    exists Writing. cbn. split; [|done]. split; [done|]. by exists p'.
  - intros [-> (p' & -> & Hf)] [= <- <-]. by exists Outside.
Qed.

(** Evaluate [one] at concrete places. *)
Ltac ones :=
  repeat match goal with
         | H : context [one ?x ?y] |- _ =>
             let v := eval vm_compute in (one x y) in change (one x y) with v in H
         end.

Lemma lk_step_inv (l l' : lk) (pls : list place) :
  lk_inv l pls -> lk_step l l' -> exists pls', lk_inv l' pls'.
Proof.
  intros [Hp Hr Hw Hx] Hs. destruct Hs as [i t t' mu mu' ts Hi Ha]. cbn [lk_mu lk_threads] in *.
  destruct (Forall2_lookup_r _ _ _ _ _ Hp Hi) as (a & Hia & Hat).
  destruct (act_moves mu mu' t t' a Hat Ha) as (b & Hbt & Hm). exists (<[i := b]> pls).
  pose proof (fun pl => count_insert pl a b pls i Hia) as Hc.
  pose proof (Hc Inside) as C1. pose proof (Hc Announced) as C2. pose proof (Hc Writing) as C3.
  destruct a, b; try done; cbn [moves] in Hm; ones;
    (split; cbn [lk_mu lk_threads]; [by apply Forall2_insert|..]); destruct mu as [n w]; cbn in *; intuition;
    subst; cbn; try destruct w; lia.
Qed.

Lemma lk_reach_inv (l l' : lk) (pls : list place) : lk_inv l pls -> rtc lk_step l l' -> exists pls', lk_inv l' pls'.
Proof.
  intros Hi Hs. revert pls Hi. induction Hs as [|l l1 l' Hst _ IH]; intros pls Hi; [by exists pls|].
  destruct (lk_step_inv l l1 pls Hi Hst) as [pls1 Hi1]. by apply (IH pls1).
Qed.

Lemma count_zero (pl : place) (pls : list place) (i : nat) (a : place) :
  count pl pls = 0%nat -> pls !! i = Some a -> a <> pl.
Proof.
  revert i. induction pls as [|x pls IH]; intros [|i] Hc Hi; try done; cbn in Hc; unfold one in Hc.
  - injection Hi as ->. by case_bool_decide.
  - apply (IH i); [|done]. lia.
Qed.

(** A goroutine that is not outside a section can finish it, or waits for
    one that can; if all are outside the lock is free. *)
Lemma progress (l : lk) (pls : list place) :
  lk_inv l pls -> finished l = false -> exists l', lk_step l l'.
Proof.
  intros [Hp Hr Hw Hx] Hf. destruct l as [mu ts]. cbn [lk_mu lk_threads] in *.
  assert (Hgo : forall pl, (0 < count pl pls)%nat ->
    (forall t, at_place pl t -> is_Some (act mu t)) -> exists l', lk_step (mkLk mu ts) l').
  { intros pl Hc Ha. destruct (count_lookup pl pls Hc) as [i Hi].
    destruct (Forall2_lookup_l _ _ _ _ _ Hp Hi) as (t & Hit & Hat). destruct (Ha t Hat) as [[mu' t'] E].
    eexists. by apply (LkStep i t t' mu mu'). }
  destruct (decide (0 < count Inside pls)%nat) as [H1|H1].
  { apply (Hgo Inside H1). intros [an p] [_ (p' & E & _)]. unfold act. by rewrite E. }
  destruct (decide (0 < count Writing pls)%nat) as [H2|H2].
  { apply (Hgo Writing H2). intros [an p] [_ (p' & E & _)]. unfold act. by rewrite E. }
  destruct (decide (0 < count Announced pls)%nat) as [H3|H3].
  { apply (Hgo Announced H3). intros [an p] [E1 (p' & E & _)]. unfold act. rewrite E, E1.
    by replace (rw_readers mu) with 0%nat by lia. }
  assert (Hwf : rw_w mu = false) by (destruct (rw_w mu); [lia|done]).
  unfold finished in Hf. apply not_true_iff_false in Hf. rewrite forallb_forall in Hf.
  assert (Hex : Exists (fun t => ~ th_prog t = []) ts).
  { apply not_Forall_Exists; [intros t; apply _|]. intros Hall. apply Hf. intros t Ht. apply bool_decide_eq_true.
    rewrite Forall_forall in Hall. by apply Hall, list_elem_of_In. }
  apply Exists_exists in Hex as (t & Hin & Ht). apply list_elem_of_lookup_1 in Hin as [i Hi].
  destruct (Forall2_lookup_r _ _ _ _ _ Hp Hi) as (a & Hia & Hat).
  assert (a = Outside) as ->.
  { pose proof (count_zero Inside pls i a). pose proof (count_zero Writing pls i a).
    pose proof (count_zero Announced pls i a). destruct a; [done|..]; exfalso; naive_solver lia. }
  destruct Hat as [Ea Hfl]. destruct t as [an p]. cbn in *. subst an.
  assert (Hact : is_Some (act mu (mkThread false p))).
  { unfold act. cbn. rewrite Hwf. destruct p as [|[] [|[] p]]; try done; by eexists. }
  destruct Hact as [[mu' t'] E]. eexists. by apply (LkStep i (mkThread false p) t' mu mu').
Qed.

Lemma blocked_stuck (l l' : lk) : blocked l = true -> ~ lk_step l l'.
Proof.
  intros Hb Hs. destruct Hs as [i t t' mu mu' ts Hi Ha]. unfold blocked in Hb. rewrite forallb_forall in Hb.
  specialize (Hb t). rewrite bool_decide_eq_true in Hb. cbn in Hb.
  rewrite Hb in Ha; [done|]. by apply list_elem_of_In, (list_elem_of_lookup_2 _ i).
Qed.

Lemma start_inv (ps : list (list instr)) :
  Forall (fun p => flat p = true) ps -> lk_inv (start ps) (replicate (length ps) Outside).
Proof.
  intros Hm. assert (Hc : forall pl n, pl <> Outside -> count pl (replicate n Outside) = 0%nat).
  { intros pl n Hpl. induction n as [|n IH]; cbn; [done|]. rewrite IH. unfold one. by rewrite bool_decide_false. }
  split; cbn; rewrite ?Hc by done; try done.
  induction Hm as [|m ms Hf _ IH]; cbn; constructor; [by split|done].
Qed.

(** A call that begins by asking for the lock. *)
Definition asks (p : list instr) : bool :=
  match p with RLock :: _ | Lock :: _ => true | _ => false end.

(** Once a reader that will ask again and an announced writer are there,
    no one else gets in. *)
Definition standstill (p q : list instr) (ps : list (list instr)) : lk :=
  mkLk (mkRW 1 true) (mkThread false (RLock :: p) :: mkThread true (Lock :: q) :: (mkThread false <$> ps)).

Lemma standstill_blocked (p q : list instr) (ps : list (list instr)) :
  Forall (fun x => asks x = true) ps ->
  blocked (standstill p q ps) = true /\ finished (standstill p q ps) = false.
Proof.
  intros Hps. split; [|done]. unfold blocked. cbn. induction Hps as [|x ps Hx _ IH]; cbn; [done|].
  rewrite IH, andb_true_r. by destruct x as [|[] x].
Qed.

(** Calls whose sections are not nested never stand still: every order of
    their actions is finite, and none stops before all have returned. *)
Theorem flat_calls_end (ps : list (list instr)) :
  Forall (fun p => flat p = true) ps ->
  (forall n l, nsteps lk_step n (start ps) l -> (n <= work (start ps))%nat)
  /\ (forall l, rtc lk_step (start ps) l -> finished l = true \/ exists l', lk_step l l').
Proof.
  intros Hf. split.
  - intros n l Hn. assert (Hw : (n + work l <= work (start ps))%nat); [|lia].
    induction Hn as [l|n l l1 l2 Hs _ IH]; [lia|]. apply step_work in Hs. lia.
  - intros l Hl. destruct (lk_reach_inv _ l _ (start_inv ps Hf) Hl) as [pls Hpl].
    destruct (finished l) eqn:E; [by left|right]. by apply (progress l pls).
Qed.

(** ** Properties *)

(** C19: [LookupTransport], which every SETUP of a client calls, holds the
    stream's lock for reading when [Remote.LookupTransport] asks for it
    again.  When a packet is dispatched in between, the two wait for each
    other, and with them, for ever, every other call on the stream that
    begins by asking for the lock, whatever it does then. *)
Theorem lookup_transport_deadlock (ps : list (list instr)) :
  Forall (fun p => asks p = true) ps ->
  exists l, schedule [0; 1]%nat (start (LookupTransport_locks true :: dispatch_locks :: ps)) = Some l
    /\ finished l = false /\ forall l', ~ lk_step l l'.
Proof.
  intros Hps. exists (standstill [RUnlock; RUnlock] [Unlock] ps). split; [done|].
  destruct (standstill_blocked [RUnlock; RUnlock] [Unlock] ps Hps) as [Hb Hf].
  split; [done|]. intros l'. by apply blocked_stuck.
Qed.

Lemma lookup_transport_deadlock_witness :
  exists l, schedule [0; 1]%nat (start [LookupTransport_locks true; dispatch_locks; dispatch_locks;
                                        GetBitrate_locks; LookupTransport_locks false]) = Some l
    /\ finished l = false /\ forall l', ~ lk_step l l'.
Proof.
  apply (lookup_transport_deadlock [dispatch_locks; GetBitrate_locks; LookupTransport_locks false]).
  apply (bool_decide_unpack _). vm_compute. exact I.
Defined.

(** The same for the periodic report of a stream's metrics, which calls
    [GetBitrate] with the lock held. *)
Theorem report_metrics_deadlock (ps : list (list instr)) :
  Forall (fun p => asks p = true) ps ->
  exists l, schedule [0; 1]%nat (start (ReportMetrics_locks :: dispatch_locks :: ps)) = Some l
    /\ finished l = false /\ forall l', ~ lk_step l l'.
Proof.
  intros Hps. exists (standstill [RUnlock; RUnlock] [Unlock] ps). split; [done|].
  destruct (standstill_blocked [RUnlock; RUnlock] [Unlock] ps Hps) as [Hb Hf].
  split; [done|]. intros l'. by apply blocked_stuck.
Qed.
