(* ===== verification/StreamManager.v ===== *)
(** * The stream registry: src/rtspproxy/stream_manager.go

    [StreamManager] with the streams it has created.  Streams are named by
    numbers, standing for the pointers in the map; [mg_key] is the key
    each stream's [onDestroy] callback was created with. *)

From stdpp Require Import gmap strings list fin_maps.
From Stdlib Require Import Ascii ZArith Lia.
From S2P Require Import Prelude GoStrings Request Digest Metrics Remote Session Fanout Stream.

Local Open Scope go_scope.

(** ** Definitions *)

Record StreamManager := mkManager {
  mg_streams : gmap gostring nat;       (* the map [streams] *)
  mg_heap : gmap nat Stream;            (* every stream created *)
  mg_key : gmap nat gostring;           (* the key its callback removes *)
  mg_metrics : Metrics
}.

Definition NewStreamManager (mt : Metrics) : StreamManager := mkManager ∅ ∅ ∅ mt.

(** [fmt.Sprintf("%s:%s@%s%s", username, password, host, path)]. *)
Definition stream_key (host username password path : gostring) : gostring :=
  username ++ ":"%char :: password ++ "@"%char :: host ++ path.

Definition GetStream (idleTimeout now : Z) (done : bool) (host username password path : gostring)
    (sm : StreamManager) : StreamManager * nat :=
  let key := stream_key host username password path in
  match mg_streams sm !! key with
  | Some id => (sm, id)
  | None =>
      let id := fresh (dom (mg_heap sm)) in
      let stream := NewStream host username password path idleTimeout now done in
      (mkManager (<[key := id]> (mg_streams sm)) (<[id := stream]> (mg_heap sm))
         (<[id := key]> (mg_key sm)) (add_ActiveStreams (mg_metrics sm) 1), id)
  end.

Definition RemoveStream (key : gostring) (sm : StreamManager) : StreamManager :=
  mkManager (delete key (mg_streams sm)) (mg_heap sm) (mg_key sm) (mg_metrics sm).

Section Manager.
Context `{GoRuntime, NetURL, Crypto}.

(** [s.wg.Wait()] when it returns: the connect loop, if one ran, has ended
    ([Lifecycle.destroyed_loop_ends]). *)
Definition await_loop (s : Stream) : Stream := if Destroy_returns s then s else endConnectLoop s.

(** The whole of [Destroy] on a registered stream: [Stream.Destroy], the
    [onDestroy] callback of [GetStream], the wait. *)
Definition destroy_stream (env : nat -> NetEnv) (buf : nat -> gostring) (now : Z) (id : nat)
    (sm : StreamManager) : outcome StreamManager :=
  match mg_heap sm !! id with
  | None => Panic NilDeref
  | Some s =>
      let! (s', mt, _) := Destroy env buf now s (mg_metrics sm) in
      let sm := mkManager (mg_streams sm) (mg_heap sm) (mg_key sm) mt in
      let sm := match mg_key sm !! id with
                | None => sm
                | Some key =>
                    let sm := RemoveStream key sm in
                    mkManager (mg_streams sm) (mg_heap sm) (mg_key sm)
                      (add_ActiveStreams (mg_metrics sm) (-1))
                end in
      Done (mkManager (mg_streams sm) (<[id := await_loop s']> (mg_heap sm)) (mg_key sm) (mg_metrics sm))
  end.

Fixpoint destroy_all (env : nat -> NetEnv) (buf : nat -> gostring) (now : Z) (ids : list nat)
    (sm : StreamManager) : outcome StreamManager :=
  match ids with
  | [] => Done sm
  | id :: ids' =>
      let! sm := destroy_stream env buf now id sm in
      destroy_all env buf now ids' sm
  end.

(** [Shutdown]: the snapshot of the map, then [Destroy] on each. *)
Definition sm_Shutdown (env : nat -> NetEnv) (buf : nat -> gostring) (now : Z) (sm : StreamManager)
  : outcome StreamManager :=
  destroy_all env buf now (map snd (map_range (mg_streams sm))) sm.

(** The registry while the server runs ([done] is the server's context):
    streams are asked for, each stream takes its steps ([Stream.st_step]),
    and the counters other than the gauge of streams move. *)
Inductive mg_step (queue : Z) (done : bool) : StreamManager -> StreamManager -> Prop :=
| MgGet idle now host user pass path sm :
    mg_step queue done sm (GetStream idle now done host user pass path sm).1
| MgStream id s s' sm :
    mg_heap sm !! id = Some s -> st_step queue s s' ->
    mg_step queue done sm
      (mkManager (mg_streams sm) (<[id := s']> (mg_heap sm)) (mg_key sm) (mg_metrics sm))
| MgMetrics mt sm :
    m_ActiveStreams mt = m_ActiveStreams (mg_metrics sm) ->
    mg_step queue done sm (mkManager (mg_streams sm) (mg_heap sm) (mg_key sm) mt).

End Manager.

(** ** Invariant *)

(** The names a key can be read back from. *)
Definition separable (host username password path : gostring) : Prop :=
  (":"%char ∉ username) /\ ("@"%char ∉ password) /\ ("/"%char ∉ host)
  /\ (path = [] \/ head path = Some "/"%char).

Definition ident_key (i : Ident) : gostring :=
  stream_key (id_Host i) (id_Username i) (id_Password i) (id_Path i).

Record manager_inv (sm : StreamManager) : Prop := {
  mi_entry : forall key id, mg_streams sm !! key = Some id ->
    mg_key sm !! id = Some key
    /\ exists s, mg_heap sm !! id = Some s /\ ident_key (st_ident s) = key /\ stream_inv s;
  mi_gauge : m_ActiveStreams (mg_metrics sm) = int64_wrap (Z.of_nat (size (mg_streams sm)))
}.

(** ** Lemmas *)

Lemma app_sep_inj (a b s t : gostring) (c : ascii) :
  c ∉ a -> c ∉ b -> a ++ c :: s = b ++ c :: t -> a = b /\ s = t.
Proof.
  revert b. induction a as [|x a IH]; intros [|y b] Ha Hb E; cbn in E.
  - by injection E.
  - injection E as -> _. set_solver.
  - injection E as <- _. set_solver.
  - injection E as <- E. destruct (IH b) as [-> ->]; [set_solver..|done|done].
Qed.

Lemma host_path_inj (h1 h2 p1 p2 : gostring) :
  "/"%char ∉ h1 -> "/"%char ∉ h2 ->
  (p1 = [] \/ head p1 = Some "/"%char) -> (p2 = [] \/ head p2 = Some "/"%char) ->
  h1 ++ p1 = h2 ++ p2 -> h1 = h2 /\ p1 = p2.
Proof.
  intros Hh1 Hh2 Hp1 Hp2 E.
  assert (Hcase : forall p, (p = [] \/ head p = Some "/"%char) -> p = [] \/ exists q, p = "/"%char :: q).
  { intros [|x q] [Hq|Hq]; [by left|done|done|]. right. injection Hq as ->. by eexists. }
  destruct (Hcase p1 Hp1) as [-> |[q1 ->]], (Hcase p2 Hp2) as [-> |[q2 ->]].
  - rewrite !app_nil_r in E. by subst.
  - rewrite app_nil_r in E. subst h1. set_solver.
  - rewrite app_nil_r in E. subst h2. set_solver.
  - apply app_sep_inj in E as [-> ->]; done.
Qed.

Lemma stream_key_inj (h1 u1 w1 p1 h2 u2 w2 p2 : gostring) :
  separable h1 u1 w1 p1 -> separable h2 u2 w2 p2 ->
  stream_key h1 u1 w1 p1 = stream_key h2 u2 w2 p2 ->
  (h1, u1, w1, p1) = (h2, u2, w2, p2).
Proof.
  unfold stream_key. intros (A1 & A2 & A3 & A4) (B1 & B2 & B3 & B4) E.
  apply app_sep_inj in E as [-> E]; [|done..]. apply app_sep_inj in E as [-> E]; [|done..].
  apply host_path_inj in E as [-> ->]; done.
Qed.

Lemma int64_wrap_add (a b : Z) : int64_wrap (int64_wrap a + b) = int64_wrap (a + b).
Proof.
  unfold int64_wrap. f_equal.
  replace ((a + 2 ^ 63) mod 2 ^ 64 - 2 ^ 63 + b + 2 ^ 63)%Z with ((a + 2 ^ 63) mod 2 ^ 64 + b)%Z by lia.
  rewrite Z.add_mod_idemp_l by lia. f_equal. lia.
Qed.

Lemma GetStream_inv (idle now : Z) (done : bool) (host user pass path : gostring) (sm : StreamManager) :
  manager_inv sm -> manager_inv (GetStream idle now done host user pass path sm).1.
Proof.
  intros [He Hg]. unfold GetStream.
  destruct (mg_streams sm !! stream_key host user pass path) as [id|] eqn:E; [by split|].
  set (id := fresh (dom (mg_heap sm))).
  assert (Hfresh : mg_heap sm !! id = None) by apply not_elem_of_dom, is_fresh.
  split; cbn.
  - intros key id'. rewrite lookup_insert_Some. intros [[<- <-]|[Hk Hl]].
    + rewrite !lookup_insert_eq. split; [done|]. eexists. split; [done|]. split; [done|].
      apply NewStream_inv.
    + destruct (He key id' Hl) as (Hk' & s & Hs & Hid & Hi).
      assert (id <> id') by (intros <-; congruence).
      rewrite !lookup_insert_ne by done. eauto.
  - rewrite Hg, int64_wrap_add. rewrite map_size_insert_None by done. f_equal. lia.
Qed.

(** A step of one stream keeps what it is registered under. *)
Lemma st_step_ident `{GoRuntime} (queue : Z) (s s' : Stream) :
  st_step queue s s' -> st_ident s' = st_ident s.
Proof.
  assert (Hu : forall now to s0, st_ident (unsafeSetState now to s0) = st_ident s0)
    by (intros; apply unsafeSetState_frame).
  assert (Hl : forall s0, st_ident (startConnectLoop s0) = st_ident s0)
    by (intros s0; unfold startConnectLoop; by destruct (st_loop s0)).
  assert (Ht : forall s0, st_ident (stopIdleTimer s0) = st_ident s0)
    by (intros s0; unfold stopIdleTimer; by destruct (st_timer s0)).
  destruct 1 as [now to s|now s|client id s s' cs E|now client s s' E| | |? ? ? s s' E| | | | | | | | | |s]; try done.
  - destruct (transition_cases now to s) as [->|[_ ->]]; [done|apply Hu].
  - unfold Start. destruct (negb _); [done|]. rewrite Hl, Hu. by destruct (bool_decide _).
  - unfold AddClient in E. destruct (_ !! client); [by injection E as <- _|].
    destruct (NewClientSession queue id); [|done]. injection E as <- _.
    destruct (_ =st _); [rewrite Hl|]; apply (Ht s).
  - unfold RemoveClient in E. destruct (_ !! client) as [cs|]; [destruct (cs_Stop cs); [|done]|];
      cbn [outcome_bind] in E; by case_if; injection E as <-.
  - unfold Stream_deliver in E. destruct (deliver_one _ _ _ _ _) as [[m d]|]; [|done]. by injection E as <-.
  - unfold LookupSession. by destruct (_ !! _).
  - apply (Ht (with_sessions (with_clients (with_remote s None) ∅) ∅)).
Qed.

Lemma mg_step_inv `{GoRuntime} (queue : Z) (done : bool) (sm sm' : StreamManager) :
  mg_step queue done sm sm' -> manager_inv sm -> manager_inv sm'.
Proof.
  intros Hs Hi. destruct Hs as [idle now host user pass path sm|id s s' sm Hl Hst|mt sm Hm].
  - by apply GetStream_inv.
  - destruct Hi as [He Hg]. split; [|done]. cbn. intros key i Hk.
    destruct (He key i Hk) as (Hkey & s0 & Hs0 & Hid & Hin). split; [done|].
    destruct (decide (i = id)) as [->|Hne]; [|by exists s0; rewrite lookup_insert_ne].
    rewrite lookup_insert_eq. exists s'. simplify_eq. split; [done|].
    by rewrite (st_step_ident _ _ _ Hst); eauto using st_step_inv.
  - destruct Hi as [He Hg]. split; [done|]. cbn. by rewrite Hm.
Qed.

Lemma NewStreamManager_inv (mt : Metrics) :
  m_ActiveStreams mt = 0%Z -> manager_inv (NewStreamManager mt).
Proof.
  intros Hm. split; cbn; [|done]. intros key id Hl. by rewrite lookup_empty in Hl.
Qed.

(** Requests on the wire change no gauge. *)
Section ManagerLemmas.
Context `{GoRuntime, NetURL, Crypto}.

Lemma dialLocked_gauge (env : NetEnv) (r r' : Remote) (mt mt' : Metrics) (e : option goerror) :
  dialLocked env r mt = Done (r', mt', e) -> m_ActiveStreams mt' = m_ActiveStreams mt.
Proof.
  unfold dialLocked. destruct (ne_shutdown env); [by intros [= _ <- _]|].
  destruct (ne_dial env) as [[l rm]|]; [|by intros [= _ <- _]].
  destruct (Split l _) as [|? [|? ?]]; try done. destruct (Split rm _) as [|? [|? ?]]; try done.
  by intros [= _ <- _].
Qed.

Lemma SendRequest_gauge (env : NetEnv) (buf : gostring) (r : Remote) (q : Request) (mt : Metrics) x :
  SendRequest env buf r q mt = Done x -> m_ActiveStreams x.1.1.2 = m_ActiveStreams mt.
Proof.
  unfold SendRequest.
  destruct (if r_conn r then _ else _) as [[[r1 mt1] e]|] eqn:E; [|done]. cbn [outcome_bind].
  assert (Hm : m_ActiveStreams mt1 = m_ActiveStreams mt).
  { destruct (r_conn r); [by injection E as _ <- _|by eapply dialLocked_gauge]. }
  destruct e; [by intros [= <-]|].
  destruct (createAuthenticatorStr _ _ _) as [[r2 q2]|]; [|done]. cbn [outcome_bind].
  destruct (Request_String q2); [|done]. cbn [outcome_bind]. by case_if; intros [= <-].
Qed.

Lemma teardown_all_gauge (env : nat -> NetEnv) (buf : nat -> gostring) (i : nat) (path : gostring)
    (ids : list gostring) (r : Remote) (mt : Metrics) x :
  teardown_all env buf i path ids r mt = Done x -> m_ActiveStreams x.1.2 = m_ActiveStreams mt.
Proof.
  revert i r mt x. induction ids as [|id ids IH]; intros i r mt x; cbn [teardown_all];
    [by intros [= <-]|].
  unfold SendTeardown at 1. destruct (SendRequest _ _ _ _ _) as [[[[[r1 q1] mt1] raw] e]|] eqn:E; [|done].
  cbn [outcome_bind]. apply SendRequest_gauge in E. cbn in E.
  destruct (teardown_all _ _ _ _ ids r1 mt1) as [[[r2 mt2] raws]|] eqn:E2; [|done].
  cbn [outcome_bind]. intros [= <-]. apply IH in E2. cbn in *. congruence.
Qed.

(** [Destroy] of a stream in order returns. *)
Lemma Destroy_gauge (env : nat -> NetEnv) (buf : nat -> gostring) (now : Z) (s : Stream) (mt : Metrics) :
  stream_inv s -> (forall i, dial_ok (env i)) ->
  exists mt' rel, Destroy env buf now s mt = Done (Destroy_begin now s, mt', rel)
    /\ m_ActiveStreams mt' = m_ActiveStreams mt.
Proof.
  intros Hi Hd. unfold Destroy.
  destruct (hang_up_total env buf (id_Path (st_ident s)) (st_sessions s) (st_remote s) mt Hd)
    as (r' & mt' & raws & E & _).
  assert (Hm : m_ActiveStreams mt' = m_ActiveStreams mt).
  { unfold hang_up in E. destruct (st_remote s); [|by injection E as _ <- _].
    destruct (teardown_all _ _ _ _ _ _ _) as [[[r1 mt1] ws]|] eqn:Et; [|done].
    injection E as _ <- _. by apply teardown_all_gauge in Et. }
  rewrite E. cbn [outcome_bind].
  destruct (stop_clients_total (map_range (st_clients s))) as (stopped & -> & _).
  { rewrite (map_range_perm _ _ _ _ (st_clients s)). apply Forall_forall.
    intros [k cs] Hin%elem_of_map_to_list. by apply (si_clients s Hi k cs). }
  cbn [outcome_bind]. by eexists _, _.
Qed.

Lemma destroy_stream_spec (env : nat -> NetEnv) (buf : nat -> gostring) (now : Z) (key : gostring)
    (id : nat) (sm : StreamManager) :
  manager_inv sm -> (forall i, dial_ok (env i)) -> mg_streams sm !! key = Some id ->
  exists sm' s, destroy_stream env buf now id sm = Done sm' /\ manager_inv sm'
    /\ mg_streams sm' = delete key (mg_streams sm)
    /\ mg_heap sm' = <[id := await_loop (Destroy_begin now s)]> (mg_heap sm)
    /\ mg_heap sm !! id = Some s /\ stream_inv s.
Proof.
  intros [He Hg] Hd Hk. destruct (He key id Hk) as (Hkey & s & Hs & Hid & Hi).
  destruct (Destroy_gauge env buf now s (mg_metrics sm) Hi Hd) as (mt' & rel & E & Hm).
  unfold destroy_stream. rewrite Hs, E. cbn [outcome_bind mg_key]. rewrite Hkey.
  eexists _, s. split; [done|]. split; [|done]. cbn [RemoveStream mg_streams mg_heap mg_key mg_metrics].
  split; cbn [mg_streams mg_heap mg_key mg_metrics].
  - intros key' id' Hl. apply lookup_delete_Some in Hl as [Hne Hl].
    destruct (He key' id' Hl) as (Hk' & s' & Hs' & Hrest). split; [done|].
    assert (id <> id') by (intros <-; congruence).
    exists s'. by rewrite lookup_insert_ne.
  - cbn. rewrite Hm, Hg, int64_wrap_add.
    rewrite map_size_delete, Hk. f_equal.
    assert (0 < size (mg_streams sm))%nat; [|lia].
    apply Nat.neq_0_lt_0. intros Hz%map_size_empty_inv. by rewrite Hz, lookup_empty in Hk.
Qed.

Definition destroyed_in (sm : StreamManager) (id : nat) : Prop :=
  exists s, mg_heap sm !! id = Some s /\ st_state s = StateDestroyed /\ Destroy_returns s = true.

Lemma await_loop_returns (now : Z) (s : Stream) :
  stream_inv s -> st_state (await_loop (Destroy_begin now s)) = StateDestroyed
  /\ Destroy_returns (await_loop (Destroy_begin now s)) = true.
Proof.
  intros Hi. assert (HD : st_state (Destroy_begin now s) = StateDestroyed).
  { destruct (Destroy_begin_chans now s) as [_ ->]. apply transition_destroyed, Hi. }
  pose proof (si_loop _ (Destroy_begin_inv now s Hi)) as Hl.
  generalize dependent (Destroy_begin now s). intros d HD Hl. unfold await_loop.
  destruct (Destroy_returns d) eqn:E; [done|]. split; [exact HD|].
  unfold Destroy_returns. cbn. rewrite Hl. by destruct (st_loop d).
Qed.

(** The loop of [Shutdown] on streams that are registered. *)
Lemma destroy_all_spec (env : nat -> NetEnv) (buf : nat -> gostring) (now : Z)
    (es : list (gostring * nat)) (sm : StreamManager) :
  manager_inv sm -> (forall i, dial_ok (env i)) -> NoDup es.*1 ->
  Forall (fun e => mg_streams sm !! e.1 = Some e.2) es ->
  exists sm', destroy_all env buf now (map snd es) sm = Done sm' /\ manager_inv sm'
    /\ (forall key id, mg_streams sm' !! key = Some id ->
        mg_streams sm !! key = Some id /\ key ∉ es.*1)
    /\ (forall id, id ∈ es.*2 \/ destroyed_in sm id -> destroyed_in sm' id).
Proof.
  intros Hi Hd Hnd. revert sm Hi. induction es as [|[key id] es IH]; intros sm Hi HF.
  - exists sm. split; [done|]. split; [done|]. split; [set_solver|]. intros id [Hin|?]; [set_solver|done].
  - apply NoDup_cons in Hnd as [Hn Hnd]. inversion HF as [|? ? Hk HF']; subst. cbn in Hk.
    destruct (destroy_stream_spec env buf now key id sm Hi Hd Hk)
      as (sm1 & s & E & Hi1 & Es & Eh & Hs & His).
    destruct (IH Hnd sm1 Hi1) as (sm' & E' & Hi' & Hm & Hst).
    { apply Forall_forall. intros [k i] Hin. rewrite Es. cbn.
      rewrite lookup_delete_ne; [by rewrite Forall_forall in HF'; apply (HF' (k, i))|].
      intros ->. apply Hn. apply list_elem_of_fmap. by exists (k, i). }
    exists sm'. cbn [map destroy_all snd]. rewrite E. cbn [outcome_bind]. split; [done|]. split; [done|].
    split.
    + intros k i Hl. apply Hm in Hl as [Hl Hnk]. rewrite Es in Hl.
      apply lookup_delete_Some in Hl as [Hne Hl]. split; [done|].
      change ((key, id) :: es).*1 with (key :: es.*1). set_solver.
    + assert (HD : forall i, i = id \/ destroyed_in sm i -> destroyed_in sm1 i).
      { intros i Hi0. unfold destroyed_in. rewrite Eh. destruct (decide (i = id)) as [->|Hne].
        - rewrite lookup_insert_eq. eexists. split; [done|].
          by apply await_loop_returns.
        - rewrite lookup_insert_ne by done. by destruct Hi0. }
      intros i [Hin|Hdi]; apply Hst; [|right; apply HD; by right].
      change ((key, id) :: es).*2 with (id :: es.*2) in Hin.
      apply elem_of_cons in Hin as [->|Hin]; [right; apply HD; by left|by left].
Qed.

End ManagerLemmas.

(** ** Properties *)

(** C8: The registry keeps one stream per identity: for names that can be
    told apart in a key (no colon in user names, no at sign in passwords,
    no slash in hosts, paths that are empty or start with a slash),
    [GetStream] returns a stream with exactly the requested host, user
    name, password and path; asking again returns the same stream and
    changes nothing; two different identities never share a stream; and
    the gauge stays the number of registered streams. *)
Theorem GetStream_isolation (idle now : Z) (done : bool) (host user pass path : gostring)
    (sm : StreamManager) :
  manager_inv sm -> separable host user pass path ->
  (forall key id s, mg_streams sm !! key = Some id -> mg_heap sm !! id = Some s ->
     let i := st_ident s in separable (id_Host i) (id_Username i) (id_Password i) (id_Path i)) ->
  let '(sm', id) := GetStream idle now done host user pass path sm in
  manager_inv sm'
  /\ GetStream idle now done host user pass path sm' = (sm', id)
  /\ (exists s, mg_heap sm' !! id = Some s
      /\ (id_Host (st_ident s), id_Username (st_ident s), id_Password (st_ident s), id_Path (st_ident s))
         = (host, user, pass, path))
  /\ forall h2 u2 w2 p2 sm2 id2,
     separable h2 u2 w2 p2 -> (h2, u2, w2, p2) <> (host, user, pass, path) ->
     GetStream idle now done h2 u2 w2 p2 sm' = (sm2, id2) -> id2 <> id.
Proof.
  intros Hi Hsep Hall. pose proof (GetStream_inv idle now done host user pass path sm Hi) as Hi'.
  destruct (GetStream idle now done host user pass path sm) as [sm' id] eqn:E. cbn [fst] in Hi'.
  assert (Hreg : mg_streams sm' !! stream_key host user pass path = Some id).
  { unfold GetStream in E. destruct (mg_streams sm !! _) eqn:El; injection E as <- <-; [done|].
    cbn. by rewrite lookup_insert_eq. }
  split; [done|]. split; [unfold GetStream; by rewrite Hreg|]. split.
  - unfold GetStream in E. destruct (mg_streams sm !! _) as [id0|] eqn:El; injection E as <- <-.
    + destruct (mi_entry _ Hi _ _ El) as (_ & s & Hs & Hkey & _). exists s. split; [done|].
      apply stream_key_inj; [by apply (Hall _ _ _ El Hs)|done|done].
    + cbn. rewrite lookup_insert_eq. by eexists.
  - intros h2 u2 w2 p2 sm2 id2 Hsep2 Hne E2 ->.
    assert (Hreg2 : mg_streams sm2 !! stream_key h2 u2 w2 p2 = Some id).
    { unfold GetStream in E2. destruct (mg_streams sm' !! stream_key h2 u2 w2 p2) eqn:El;
        injection E2 as <- <-; [done|]. cbn. by rewrite lookup_insert_eq. }
    pose proof (GetStream_inv idle now done h2 u2 w2 p2 sm' Hi') as Hi2. rewrite E2 in Hi2.
    assert (Hreg' : mg_streams sm2 !! stream_key host user pass path = Some id).
    { unfold GetStream in E2. destruct (mg_streams sm' !! stream_key h2 u2 w2 p2) eqn:El;
        injection E2 as <- _; [done|]. cbn. rewrite lookup_insert_ne; [done|congruence]. }
    destruct (mi_entry _ Hi2 _ _ Hreg2) as [K1 _]. destruct (mi_entry _ Hi2 _ _ Hreg') as [K2 _].
    apply Hne, stream_key_inj; [done|done|congruence].
Qed.

Lemma GetStream_isolation_witness :
  let '(sm', id) := GetStream 60 0 false (str "cam:554") (str "u") (str "p") (str "/s")
                      (NewStreamManager metrics_zero) in
  manager_inv sm' /\ GetStream 60 0 false (str "cam:554") (str "u") (str "p") (str "/s") sm' = (sm', id).
Proof.
  pose proof (GetStream_isolation 60 0 false (str "cam:554") (str "u") (str "p") (str "/s")
    (NewStreamManager metrics_zero)) as H.
  destruct (GetStream _ _ _ _ _ _ _ (NewStreamManager metrics_zero)) as [sm' id].
  destruct H as (H1 & H2 & _); [| | |split; assumption].
  - by apply NewStreamManager_inv.
  - split_and!; [apply (bool_decide_unpack _); by vm_compute..|by right].
  - cbn. intros key i s Hl. by rewrite lookup_empty in Hl.
Defined.

(** The condition is needed: without it two sets of credentials share a
    stream, and the second client is served with the first one's. *)
Example shared_key :
  let '(sm1, id1) := GetStream 60 0 false (str "cam") (str "a:b") (str "c") (str "/s")
                       (NewStreamManager metrics_zero) in
  let '(sm2, id2) := GetStream 60 0 false (str "cam") (str "a") (str "b:c") (str "/s") sm1 in
  id1 = id2 /\ (st_ident <$> mg_heap sm2 !! id2)
               = Some (mkIdent (str "cam") (str "a:b") (str "c") (str "/s") 60).
Proof. by vm_compute. Qed.

Lemma sm_Shutdown_result `{GoRuntime, NetURL, Crypto} (env : nat -> NetEnv) (buf : nat -> gostring)
    (now : Z) (sm : StreamManager) :
  manager_inv sm -> (forall i, dial_ok (env i)) ->
  exists sm', sm_Shutdown env buf now sm = Done sm'
    /\ mg_streams sm' = ∅ /\ m_ActiveStreams (mg_metrics sm') = 0%Z
    /\ forall key id, mg_streams sm !! key = Some id -> destroyed_in sm' id.
Proof.
  intros Hi Hd. unfold sm_Shutdown.
  pose proof (map_range_perm _ _ _ _ (mg_streams sm)) as Hp.
  destruct (destroy_all_spec env buf now (map_range (mg_streams sm)) sm Hi Hd)
    as (sm' & E & Hi' & Hm & Hst).
  - rewrite Hp. apply NoDup_fst_map_to_list.
  - rewrite Hp. apply Forall_forall. intros [k i]. by rewrite elem_of_map_to_list.
  - assert (Hall : forall key id, mg_streams sm !! key = Some id -> (key, id) ∈ map_range (mg_streams sm)).
    { intros key id Hl. rewrite Hp. by apply elem_of_map_to_list. }
    assert (He : mg_streams sm' = ∅).
    { apply map_empty. intros key. destruct (mg_streams sm' !! key) as [id|] eqn:El; [|done].
      apply Hm in El as [El Hn]. destruct Hn. apply Hall in El.
      apply list_elem_of_fmap. by exists (key, id). }
    exists sm'. split; [done|]. split; [done|]. split.
    + rewrite (mi_gauge _ Hi'), He. done.
    + intros key id Hl. apply Hst. left. apply Hall in Hl.
      apply list_elem_of_fmap. by exists (key, id).
Qed.

(** [Shutdown] of a registry in order returns, whatever the cameras
    do to the TEARDOWNs: every stream that was registered is destroyed,
    none is left in the map and the gauge is back at zero. *)
Theorem Shutdown_destroys_all `{GoRuntime, NetURL, Crypto} (env : nat -> NetEnv) (buf : nat -> gostring)
    (now : Z) (sm : StreamManager) :
  manager_inv sm -> (forall i, dial_ok (env i)) ->
  exists sm', sm_Shutdown env buf now sm = Done sm'
    /\ mg_streams sm' = ∅ /\ m_ActiveStreams (mg_metrics sm') = 0%Z
    /\ forall key id, mg_streams sm !! key = Some id -> destroyed_in sm' id.
Proof. by apply sm_Shutdown_result. Qed.

Lemma Shutdown_destroys_all_witness :
  let sm := (GetStream 60 0 false (str "cam:554") (str "u") (str "p") (str "/s")
               (NewStreamManager metrics_zero)).1 in
  exists sm', @sm_Shutdown sample_runtime sample_neturl sample_crypto (fun _ => sample_env true)
      (fun _ => []) 9 sm = Done sm' /\ mg_streams sm' = ∅.
Proof.
  intros sm.
  destruct (@Shutdown_destroys_all sample_runtime sample_neturl sample_crypto (fun _ => sample_env true)
    (fun _ => []) 9 sm) as (sm' & E & Hs & _).
  - by apply GetStream_inv, NewStreamManager_inv.
  - intros _. split; apply (bool_decide_unpack _); by vm_compute.
  - exists sm'. split; [exact E|exact Hs].
Defined.
