(* ===== verification/Report.v ===== *)
(** * Logging and the periodic report

    src/rtspproxy/logger.go, [GetBitrate] and [ReportMetrics] of
    src/rtspproxy/stream.go and [metricsLoop] of
    src/rtspproxy/stream_manager.go.  What is logged is the list of calls
    of [log.Printf]: a format and its arguments, not the text made of
    them.  Floating-point numbers are IEEE 754 double precision, computed
    by the Standard Library's [SpecFloat]. *)

From stdpp Require Import gmap strings list fin_maps.
From Stdlib Require Import Ascii ZArith Lia SpecFloat.
From S2P Require Import Prelude GoStrings Request Config Metrics Digest Remote Session Fanout Stream StreamManager.

Local Open Scope go_scope.

(** ** Definitions: logger.go *)

Inductive arg : Type :=
| AString (s : gostring)
| AInt (n : Z)
| ADuration (d : Z)
| AFloat (f : spec_float)
| AError (e : goerror).

(** A call of [log.Printf]. *)
Record entry := mkEntry { en_format : gostring; en_args : list arg }.

(** The package variable [verbose] and what has been printed. *)
Record Logger := mkLogger { lg_verbose : bool; lg_out : list entry }.

Definition SetVerbose (v : bool) (lg : Logger) : Logger := mkLogger v (lg_out lg).

Definition LogCriticalf (format : gostring) (v : list arg) (lg : Logger) : Logger :=
  mkLogger (lg_verbose lg) (lg_out lg ++ [mkEntry format v]).

Definition Logf (format : gostring) (v : list arg) (lg : Logger) : Logger :=
  if lg_verbose lg then LogCriticalf format v lg else lg.

(** ** Definitions: floating point *)

Definition float64_of (n : Z) : spec_float := binary_normalize 53 1024 n 0 false.
Definition fadd : spec_float -> spec_float -> spec_float := SFadd 53 1024.
Definition fdiv : spec_float -> spec_float -> spec_float := SFdiv 53 1024.

(** [uint64(f)]: truncation; outside the range of the type the result is
    implementation-defined. *)
Definition uint64_of (f : spec_float) : option Z :=
  match f with
  | S754_zero _ => Some 0%Z
  | S754_finite sign m e =>
      let v := if (0 <=? e)%Z then Z.shiftl (Zpos m) e else Z.shiftr (Zpos m) (- e) in
      if sign then if (v =? 0)%Z then Some 0%Z else None
      else if (v <? 2 ^ 64)%Z then Some v else None
  | _ => None
  end.

(** [time.Since], which saturates, and [Duration.Seconds]. *)
Definition since (now start : Z) : Z := Z.max int64_min (Z.min int64_max (now - start)).

Definition Seconds (d : Z) : spec_float :=
  fadd (float64_of (Z.quot d Second)) (fdiv (float64_of (Z.rem d Second)) (float64_of Second)).

(** ** Definitions: the report of a stream *)

Definition session_start (s : Stream) : Z :=
  if (SessionStartTime (st_times s) =? 0)%Z then StartTime (st_times s) else SessionStartTime (st_times s).

Definition GetBitrate (now : Z) (s : Stream) : option Z :=
  let elapsed := Seconds (since now (session_start s)) in
  if SFltb elapsed (float64_of 1) then Some 0%Z
  else uint64_of (fdiv (float64_of (uint64_wrap (SessionBytesForwarded (st_stats s) * 8))) elapsed).

(** The sum over the clients, in the order the map is visited. *)
Fixpoint total_depth (entries : list (nat * ClientSession)) (total : Z) : Z :=
  match entries with
  | [] => total
  | (_, cs) :: es => total_depth es (int64_wrap (total + QueueDepth cs))
  end.

Definition avgQueue `{GoRuntime} (s : Stream) : Z :=
  let n := Z.of_nat (size (st_clients s)) in
  if (0 <? n)%Z then Z.quot (total_depth (map_range (st_clients s)) 0) n else 0.

(** [Truncate(time.Millisecond)]. *)
Definition truncate_ms (d : Z) : Z := d - Z.rem d 1000000.

Section Report.
Context `{GoRuntime}.

Definition ReportMetrics (now : Z) (s : Stream) (lg : Logger) : Logger :=
  let bitrate := match GetBitrate now s with Some b => [AInt b] | None => [] end in
  let lg := Logf (str "📊 Stream [%s] Metrics:") [AString (id_Path (st_ident s))] lg in
  let lg := Logf (str "  State: %s") [AString (StreamState_String (st_state s))] lg in
  let lg := Logf (str "  Clients: %d") [AInt (Z.of_nat (size (st_clients s)))] lg in
  let lg := Logf (str "  Reconnects: %d (Total Downtime: %v)")
              [AInt (ReconnectCount (st_reconn s)); ADuration (ReconnectTotal (st_reconn s))] lg in
  let lg := Logf (str "  Packets (Fwd/Drop): %d / %d")
              [AInt (PacketsForwarded (st_stats s)); AInt (PacketsDropped (st_stats s))] lg in
  let lg := Logf (str "  Throughput: %d bytes (Avg %d bps)")
              (AInt (BytesForwarded (st_stats s)) :: bitrate) lg in
  let lg := Logf (str "  Avg Queue Depth: %d") [AInt (avgQueue s)] lg in
  let lg := Logf (str "  Uptime: %.1fs") [AFloat (Seconds (since now (StartTime (st_times s))))] lg in
  if (LastPktTime (st_times s) =? 0)%Z then lg
  else Logf (str "  Last Packet: %s ago") [ADuration (truncate_ms (since now (LastPktTime (st_times s))))] lg.

(** The streams of the registry, in the order the map is visited. *)
Definition registered_streams (sm : StreamManager) : list Stream :=
  omap (fun e => mg_heap sm !! e.2) (map_range (mg_streams sm)).

Definition metrics_tick (now : Z) (sm : StreamManager) (lg : Logger) : Logger :=
  let streams := registered_streams sm in
  match streams with
  | [] => lg
  | _ =>
      let lg := Logf (str "📈 --- Global Proxy Metrics ---") [] lg in
      let lg := Logf (str "Active Streams: %d") [AInt (slen streams)] lg in
      let lg := foldl (fun lg s => ReportMetrics now s lg) lg streams in
      Logf (str "-------------------------------") [] lg
  end.

(** What an iteration of [metricsLoop] meets: the cancelled context, or a
    tick at a time with the registry as it is then. *)
Inductive report_event := RDone | RTick (now : Z) (sm : StreamManager).

Fixpoint metricsLoop (evs : list report_event) (lg : Logger) : Logger * bool :=
  match evs with
  | [] => (lg, false)
  | RDone :: _ => (lg, true)
  | RTick now sm :: evs => metricsLoop evs (metrics_tick now sm lg)
  end.

End Report.

(** ** Lemmas *)

(** The exact sum of the queue depths. *)
Definition depths (entries : list (nat * ClientSession)) : Z :=
  foldr (fun e total => QueueDepth e.2 + total)%Z 0%Z entries.

Lemma depths_bounds (cap : nat) (entries : list (nat * ClientSession)) :
  Forall (fun e => length (cs_queue e.2) <= cap)%nat entries ->
  (0 <= depths entries <= slen entries * Z.of_nat cap)%Z.
Proof.
  induction 1 as [|e es He _ IH]; [done|]. unfold depths, slen in *. cbn [foldr length] in *.
  assert (Hq : (0 <= QueueDepth e.2 <= Z.of_nat cap)%Z) by (unfold QueueDepth, slen; lia). nia.
Qed.

Lemma depths_perm (es es' : list (nat * ClientSession)) : es ≡ₚ es' -> depths es = depths es'.
Proof. induction 1; unfold depths in *; cbn; lia. Qed.

Lemma total_depth_exact (cap : nat) (entries : list (nat * ClientSession)) (total : Z) :
  Forall (fun e => length (cs_queue e.2) <= cap)%nat entries ->
  (0 <= total)%Z -> (total + slen entries * Z.of_nat cap <= int64_max)%Z ->
  total_depth entries total = (total + depths entries)%Z.
Proof.
  intros He. revert total. induction He as [|[k cs] es Hc _ IH]; intros total Ht Hb; [cbn; lia|].
  cbn [total_depth]. cbn in Hc. unfold slen in Hb. cbn [length] in Hb.
  assert (Hq : (0 <= QueueDepth cs <= Z.of_nat cap)%Z) by (unfold QueueDepth, slen; lia).
  rewrite int64_wrap_small by (unfold int64_min, slen in *; nia).
  rewrite IH by (unfold slen; nia). unfold depths. cbn. lia.
Qed.

(** Printing only adds at the end. *)
Definition logged (new : list entry) (lg lg' : Logger) : Prop :=
  lg_verbose lg' = lg_verbose lg /\ lg_out lg' = lg_out lg ++ (if lg_verbose lg then new else []).

Lemma Logf_logged (format : gostring) (v : list arg) (lg : Logger) :
  logged [mkEntry format v] lg (Logf format v lg).
Proof. unfold logged, Logf. destruct (lg_verbose lg) eqn:E; cbn; rewrite ?E, ?app_nil_r; done. Qed.

Lemma logged_trans (a b : list entry) (lg lg1 lg2 : Logger) :
  logged a lg lg1 -> logged b lg1 lg2 -> logged (a ++ b) lg lg2.
Proof.
  intros [V1 O1] [V2 O2]. split; [congruence|]. rewrite O2, O1, V1, <- app_assoc. by destruct (lg_verbose lg).
Qed.

(** The streams named in a log. *)
Definition reported (es : list entry) : list gostring :=
  omap (fun e => if en_format e =s str "📊 Stream [%s] Metrics:"
                 then match en_args e with [AString p] => Some p | _ => None end else None) es.

Section Reports.
Context `{GoRuntime}.

(** A report is a block of lines that names its stream once. *)
Lemma ReportMetrics_logged (now : Z) (s : Stream) (lg : Logger) :
  exists new, logged new lg (ReportMetrics now s lg) /\ reported new = [id_Path (st_ident s)]
    /\ (8 <= length new <= 9)%nat.
Proof.
  unfold ReportMetrics. set (rate := match GetBitrate now s with Some b => [AInt b] | None => [] end).
  destruct (LastPktTime (st_times s) =? 0)%Z.
  - eexists. split; [repeat first [apply Logf_logged|eapply logged_trans; [|apply Logf_logged]]|]. split; [done|]. cbn. lia.
  - eexists. split; [repeat first [apply Logf_logged|eapply logged_trans; [|apply Logf_logged]]|]. split; [done|]. cbn. lia.
Qed.

Lemma reports_logged (now : Z) (ss : list Stream) (lg : Logger) :
  exists new, logged new lg (foldl (fun lg s => ReportMetrics now s lg) lg ss)
    /\ reported new = (fun s => id_Path (st_ident s)) <$> ss.
Proof.
  revert lg. induction ss as [|s ss IH]; intros lg; cbn [foldl].
  - exists []. split; [|done]. split; [done|]. by destruct (lg_verbose lg); rewrite app_nil_r.
  - destruct (ReportMetrics_logged now s lg) as (n1 & L1 & R1 & _).
    destruct (IH (ReportMetrics now s lg)) as (n2 & L2 & R2). exists (n1 ++ n2).
    split; [by eapply logged_trans|]. unfold reported in *. by rewrite omap_app, R1, R2.
Qed.

Lemma metrics_tick_logged (now : Z) (sm : StreamManager) (lg : Logger) :
  exists new, logged new lg (metrics_tick now sm lg)
    /\ reported new = (fun s => id_Path (st_ident s)) <$> registered_streams sm.
Proof.
  unfold metrics_tick. destruct (registered_streams sm) as [|s ss] eqn:E.
  - exists []. split; [|done]. split; [done|]. by destruct (lg_verbose lg); rewrite app_nil_r.
  - match goal with |- context [foldl _ ?lg2 (s :: ss)] =>
      destruct (reports_logged now (s :: ss) lg2) as (new & L & R) end.
    eexists. split; [eapply logged_trans; [eapply logged_trans; [eapply logged_trans; apply Logf_logged|exact L]
      |apply Logf_logged]|].
    unfold reported in *. rewrite !omap_app, R. cbn. by rewrite app_nil_r.
Qed.

End Reports.

(** ** Properties *)

(** The average queue depth of a report is the integer quotient of the
    sum of the clients' queue lengths by their number (0 without clients),
    whatever order the map is visited in, and lies between 0 and the
    queue capacity. *)
Theorem avgQueue_spec `{GoRuntime} (cap : nat) (s : Stream) :
  map_Forall (fun _ cs => length (cs_queue cs) <= cap)%nat (st_clients s) ->
  (Z.of_nat (size (st_clients s)) * Z.of_nat cap <= int64_max)%Z ->
  avgQueue s = (depths (map_to_list (st_clients s)) / Z.of_nat (size (st_clients s)))%Z
  /\ (0 <= avgQueue s <= Z.of_nat cap)%Z.
Proof.
  intros Hq Hn. unfold avgQueue. set (n := Z.of_nat (size (st_clients s))) in *.
  pose proof (map_range_perm _ _ _ _ (st_clients s)) as Hp.
  assert (Hf : Forall (fun e => length (cs_queue e.2) <= cap)%nat (map_range (st_clients s))).
  { rewrite Hp. by apply map_Forall_to_list in Hq; rewrite Forall_forall in *; intros [k cs] He; apply (Hq (k, cs)). }
  assert (Hlen : slen (map_range (st_clients s)) = n).
  { unfold slen, n. by rewrite Hp, length_map_to_list. }
  pose proof (depths_bounds cap _ Hf) as Hd. rewrite Hlen in Hd.
  destruct (0 <? n)%Z eqn:E; reflect_bool.
  - rewrite (total_depth_exact cap) by (done || lia). rewrite Z.add_0_l, Z.quot_div_nonneg by lia.
    rewrite (depths_perm _ _ Hp) in *. split; [done|]. split; [apply Z.div_pos; lia|].
    apply Z.div_le_upper_bound; lia.
  - assert (n = 0%Z) as -> by lia. rewrite Z.div_0_r. lia.
Qed.

Lemma avgQueue_spec_witness :
  let cs n := mkClientSession [] (replicate n (str "p")) 5 true false ∅ in
  let s := with_clients fresh_stream (<[1%nat := cs 2%nat]> {[2%nat := cs 5%nat]}) in
  @avgQueue sample_runtime s = 3%Z /\ (0 <= @avgQueue sample_runtime s <= 5)%Z.
Proof.
  intros cs s. destruct (@avgQueue_spec sample_runtime 5 s) as [H1 H2].
  - apply (bool_decide_unpack _). vm_compute. exact I.
  - vm_compute. discriminate.
  - split; [rewrite H1; vm_compute; reflexivity|exact H2].
Defined.

(** Each tick of the metrics loop reports every stream of the registry
    once, in the order it visits the map; without [-verbose] nothing is
    printed at all, whatever the streams do. *)
Theorem metricsLoop_reports `{GoRuntime} (ticks : list (Z * StreamManager)) (lg : Logger) :
  let evs := map (fun t => RTick t.1 t.2) ticks in
  exists new, lg_out (metricsLoop (evs ++ [RDone]) lg).1 = lg_out lg ++ new
    /\ (metricsLoop (evs ++ [RDone]) lg).2 = true
    /\ if lg_verbose lg then
         reported new = concat (map (fun t => (fun s => id_Path (st_ident s)) <$> registered_streams t.2) ticks)
       else new = [].
Proof.
  cbn zeta. revert lg. induction ticks as [|[now sm] ticks IH]; intros lg; cbn [map app metricsLoop fst snd].
  { exists []. rewrite app_nil_r. split; [done|]. split; [done|]. by destruct (lg_verbose lg). }
  destruct (metrics_tick_logged now sm lg) as (n1 & [V1 O1] & R1).
  destruct (IH (metrics_tick now sm lg)) as (n2 & O2 & F2 & R2). rewrite O2, O1, V1 in *. rewrite <- app_assoc.
  eexists. split; [done|]. split; [done|]. destruct (lg_verbose lg); [|by rewrite R2].
  unfold reported in *. cbn [concat map]. by rewrite omap_app, R1, R2.
Qed.

(** The bit rate in double precision: a megabyte in eight seconds, one in
    less than a second, and a count at the end of its range. *)
Example GetBitrate_samples :
  let s bytes := with_stats (with_times fresh_stream (mkTimes 1 Second 0)) (mkStats 0 0 0 bytes) in
  GetBitrate (9 * Second) (s 1000000%Z) = Some 1000000%Z
  /\ GetBitrate (2 * Second - 1) (s 1000000%Z) = Some 0%Z
  /\ GetBitrate (4 * Second + 500000000) (s 1%Z) = Some 2%Z
  /\ GetBitrate (2 * Second) (s (2 ^ 61 - 1)%Z) = None.
Proof. by vm_compute. Qed.
