(* ===== verification/ClientReader.v ===== *)
(** * What a client sends: the reading half of [incomingRequestHandler]

    src/rtspproxy/client.go: the buffer of a client connection, the
    interleaved frames and requests taken from it, the translation of a
    client's channel back to the camera's, and the forwarding of a frame
    to the camera. *)

From stdpp Require Import gmap strings list fin_maps.
From Stdlib Require Import Ascii ZArith Lia.
From S2P Require Import Prelude GoStrings Message Framing Digest Metrics Remote Fanout Stream.

Local Open Scope go_scope.

(** ** Definitions *)

Definition rtspBufferSize : nat := Z.to_nat 65536.

Definition streamHeaderLength : nat := 4.

(** What the loop hands on. *)
Inductive client_event : Type :=
| CFrame (tcpChannel : Z) (data : gostring)
| CRequest (text : gostring).

(** What follows a read: with an empty buffer or an incomplete frame the
    next thing is another read (at one of the three [Read] calls, which
    treat context, timeout and errors alike); a complete frame is cut off
    the front of the buffer; anything else is taken as one request, the
    whole buffer. *)
Inductive client_step : Type :=
| CMore
| CEvent (ev : client_event) (rest : gostring).

Definition client_next (buf : gostring) : client_step :=
  match buf with
  | [] => CMore
  | b0 :: t =>
      if b0 =c DOLLAR then
        match t with
        | b1 :: b2 :: b3 :: t' =>
            let streamDataLength := be16 b2 b3 in
            if (slen t' <? streamDataLength)%Z then CMore
            else CEvent (CFrame (byte_val b1) (take (Z.to_nat streamDataLength) t'))
                        (drop (Z.to_nat streamDataLength) t')
        | _ => CMore
        end
      else CEvent (CRequest buf) []
  end.

Inductive client_exit : Type :=
| CReading (buf input : gostring)
| CEnded.

(** The reads of a connection; each takes at most the free part of the
    buffer, so a full buffer makes every further read return nothing. *)
Fixpoint client_reader (cap : nat) (its : list iteration) (buf input : gostring)
  : list client_event * client_exit :=
  match its with
  | [] => ([], CReading buf input)
  | CtxDone :: _ | ReadErr :: _ => ([], CEnded)
  | Timeout :: its' => client_reader cap its' buf input
  | Ready k :: its' =>
      let n := Nat.min k (cap - length buf) in
      let buf := buf ++ take n input in
      let input := drop n input in
      match client_next buf with
      | CMore => client_reader cap its' buf input
      | CEvent ev rest =>
          let '(evs, e) := client_reader cap its' rest input in (ev :: evs, e)
      end
  end.

(** The search through [cs.channels] for the camera's channel. *)
Fixpoint find_upstream (entries : list (Z * Z)) (tcpChannel : Z) : Z :=
  match entries with
  | [] => tcpChannel
  | (u, c) :: es => if (c =? tcpChannel)%Z then u else find_upstream es tcpChannel
  end.

Definition upstreamChannel `{GoRuntime} (clients : gmap nat ClientSession) (client : nat) (tcpChannel : Z)
  : Z :=
  match clients !! client with
  | None => tcpChannel
  | Some cs => find_upstream (map_range (cs_channels cs)) tcpChannel
  end.

(** A frame forwarded to the camera, when the client has a stream with a
    connection object: the stream and the bytes written. *)
Definition forward_frame `{GoRuntime} (header_ok data_ok : bool) (client : nat) (tcpChannel : Z)
    (data : gostring) (s : Stream) : Stream * gostring :=
  match st_remote s with
  | None => (s, [])
  | Some r =>
      let '(r', wire, _) := SendBinary header_ok data_ok r
                              (upstreamChannel (st_clients s) client tcpChannel) data in
      (with_remote s (Some r'), wire)
  end.

(** ** Specification *)

(** The frames a client means to send. *)
Definition client_frame (f : ascii * gostring) : wire_frame := WPacket f.1 f.2.

Definition frame_event_of (f : ascii * gostring) : client_event := CFrame (byte_val f.1) f.2.

(** ** Lemmas *)

Lemma client_next_complete (ch : ascii) (p rest : gostring) :
  (slen p < 65536)%Z ->
  client_next (encode (WPacket ch p) ++ rest) = CEvent (CFrame (byte_val ch) p) rest.
Proof.
  intros Hp. pose proof (slen_nonneg p). pose proof (slen_nonneg rest).
  change (client_next (encode (WPacket ch p) ++ rest))
    with (if (slen (p ++ rest) <? be16 (to_byte (slen p / 256)) (to_byte (slen p)))%Z then CMore
          else CEvent (CFrame (byte_val ch)
                 (take (Z.to_nat (be16 (to_byte (slen p / 256)) (to_byte (slen p)))) (p ++ rest)))
                 (drop (Z.to_nat (be16 (to_byte (slen p / 256)) (to_byte (slen p)))) (p ++ rest))).
  rewrite be16_split, slen_app by lia. destruct (_ <? _)%Z eqn:E; reflect_bool; [lia|].
  by rewrite take_app_slen, drop_app_slen.
Qed.

(** On a buffer that starts a frame, the client side waits exactly when
    the camera side does. *)
Lemma client_next_more (buf : gostring) :
  frame_next buf = NeedMore -> (buf = [] \/ head buf = Some DOLLAR) -> client_next buf = CMore.
Proof.
  intros Hf [-> |Hh]; [done|]. destruct buf as [|b0 t]; [done|]. injection Hh as ->.
  destruct t as [|b1 [|b2 [|b3 t]]]; try done.
  rewrite frame_next_dollar in Hf. cbn [client_next]. rewrite ceq_refl.
  destruct (slen (DOLLAR :: b1 :: b2 :: b3 :: t) <? 4 + be16 b2 b3)%Z eqn:E; [|done]. reflect_bool.
  unfold slen in E. cbn [length] in E.
  rewrite (proj2 (Z.ltb_lt _ _)); [done|]. unfold slen. lia.
Qed.

Lemma wire_head (fs : list (ascii * gostring)) (buf input : gostring) :
  buf ++ input = wire (map client_frame fs) -> buf = [] \/ head buf = Some DOLLAR.
Proof.
  intros H. destruct buf as [|b buf]; [by left|]. right.
  destruct fs as [|[ch p] fs]; [done|]. by injection H as -> _.
Qed.

Lemma client_next_short (ch : ascii) (p buf input tail : gostring) :
  (slen p < 65536)%Z -> buf ++ input = encode (WPacket ch p) ++ tail -> (length buf < 4 + length p)%nat ->
  client_next buf = CMore.
Proof.
  intros Hp Hb Hl. pose proof (slen_nonneg p).
  assert (Hpre : buf = take (length buf) (encode (WPacket ch p))).
  { apply (f_equal (take (length buf))) in Hb. rewrite take_app_length, take_app_le in Hb; [done|].
    change (length (encode (WPacket ch p))) with (4 + length p)%nat. lia. }
  rewrite Hpre. destruct (length buf) as [|[|[|[|m]]]]; [done..|].
  change (take (S (S (S (S m)))) (encode (WPacket ch p)))
    with (DOLLAR :: ch :: to_byte (slen p / 256) :: to_byte (slen p) :: take m p).
  cbn [client_next]. rewrite ceq_refl, be16_split by lia.
  rewrite (proj2 (Z.ltb_lt _ _)); [done|]. unfold slen. rewrite length_take. lia.
Qed.

(** The invariant of the reading loop on a client that sends frames. *)
Lemma client_reader_frames (cap : nat) (its : list iteration) (fs : list (ascii * gostring))
    (buf input : gostring) :
  Forall (fun it => live it = true) its -> Forall (fun f => slen f.2 < 65536)%Z fs ->
  buf ++ input = wire (map client_frame fs) ->
  exists handed todo buf' input',
    fs = handed ++ todo
    /\ client_reader cap its buf input = (map frame_event_of handed, CReading buf' input')
    /\ buf' ++ input' = wire (map client_frame todo).
Proof.
  intros Hl. revert fs buf input. induction Hl as [|it its Hit Hl IH]; intros fs buf input Hv Hb.
  { by exists [], fs, buf, input. }
  destruct it as [|k| |]; try done; [|by apply IH].
  cbn [client_reader]. set (n := Nat.min k (cap - length buf)).
  assert (Hb' : (buf ++ take n input) ++ drop n input = wire (map client_frame fs))
    by by rewrite <-app_assoc, take_drop.
  set (buf' := buf ++ take n input) in *. set (input' := drop n input) in *.
  assert (HF : Forall valid_frame (map client_frame fs)).
  { apply Forall_fmap. eapply Forall_impl; [exact Hv|]. by intros [ch p]. }
  destruct (wire_prefix _ buf' input' HF Hb') as (d & t & partial & Ed & Eb & Ht & Hn & _).
  destruct d as [|f d].
  - cbn in Eb, Ed. subst partial t.
    rewrite (client_next_more buf' Hn (wire_head fs buf' input' Hb')). by apply IH.
  - destruct fs as [|[ch p] fs]; [done|]. injection Ed as Ef Ed. subst f.
    inversion Hv as [|? ? Hp Hv']; subst. cbn [snd] in Hp.
    unfold wire in Eb. cbn [map concat] in Eb. fold (wire d) in Eb. rewrite <-app_assoc in Eb.
    rewrite Eb. unfold client_frame at 1. cbn [fst snd]. rewrite client_next_complete by done.
    rewrite Eb in Hb'. unfold wire at 2 in Hb'. cbn [map concat] in Hb'.
    unfold client_frame at 1 2 in Hb'. cbn [fst snd] in Hb'.
    rewrite <-app_assoc in Hb'. apply app_inv_head in Hb'.
    destruct (IH fs (wire d ++ partial) input' Hv' Hb') as (h & td & b & i & -> & E & Hw).
    rewrite E. by exists ((ch, p) :: h), td, b, i.
Qed.

Lemma encode_length (ch : ascii) (p : gostring) : length (encode (WPacket ch p)) = (4 + length p)%nat.
Proof. done. Qed.

(** A buffer that holds as many bytes as the next frame has holds that
    frame. *)
Lemma client_next_front (ch : ascii) (p buf input tail : gostring) :
  (slen p < 65536)%Z -> buf ++ input = encode (WPacket ch p) ++ tail -> (4 + length p <= length buf)%nat ->
  exists rest, buf = encode (WPacket ch p) ++ rest
    /\ client_next buf = CEvent (CFrame (byte_val ch) p) rest /\ rest ++ input = tail.
Proof.
  intros Hp Hb Hl. apply (f_equal (take (length (encode (WPacket ch p))))) in Hb as Ht.
  rewrite take_app_length, take_app_le in Ht by (rewrite encode_length; lia).
  exists (drop (length (encode (WPacket ch p))) buf).
  assert (E : buf = encode (WPacket ch p) ++ drop (length (encode (WPacket ch p))) buf)
    by by rewrite <- Ht at 1; rewrite take_drop.
  split; [done|]. rewrite E in Hb. rewrite <- app_assoc in Hb. apply app_inv_head in Hb. split; [|done].
  rewrite E at 1. by apply client_next_complete.
Qed.

(** One read: the next frame is handed on exactly when it is complete. *)
Lemma client_reader_once (cap k : nat) (ch : ascii) (p : gostring) (fs : list (ascii * gostring))
    (buf input : gostring) :
  (slen p < 65536)%Z -> buf ++ input = wire (map client_frame ((ch, p) :: fs)) ->
  let n := Nat.min k (cap - length buf) in
  let buf' := buf ++ take n input in
  if (4 + length p <=? length buf')%nat
  then exists rest, client_reader cap [Ready k] buf input = ([frame_event_of (ch, p)], CReading rest (drop n input))
       /\ rest ++ drop n input = wire (map client_frame fs)
  else client_reader cap [Ready k] buf input = ([], CReading buf' (drop n input)).
Proof.
  intros Hp Hb n buf'. assert (Hb' : buf' ++ drop n input = encode (WPacket ch p) ++ wire (map client_frame fs))
    by (subst buf'; rewrite <-app_assoc, take_drop; exact Hb).
  cbn [client_reader]. fold n. fold buf'. destruct (_ <=? _)%nat eqn:E.
  - apply Nat.leb_le in E. destruct (client_next_front ch p buf' _ _ Hp Hb' E) as (rest & _ & -> & Hr).
    by exists rest.
  - apply Nat.leb_gt in E. assert (Hh : buf' = [] \/ head buf' = Some DOLLAR)
      by by apply (wire_head ((ch, p) :: fs) _ (drop n input)).
    rewrite (client_next_short ch p buf' (drop n input) (wire (map client_frame fs))); done.
Qed.

(** Reads that find the buffer's room filled hand on one frame each. *)
Lemma client_reader_all (cap : nat) (fs : list (ascii * gostring)) (buf input : gostring) :
  Forall (fun f => slen f.2 < 65536 /\ (4 + length f.2 <= cap)%nat)%Z fs ->
  buf ++ input = wire (map client_frame fs) ->
  client_reader cap (replicate (length fs) (Ready cap)) buf input = (map frame_event_of fs, CReading [] []).
Proof.
  intros Hv. revert buf input. induction Hv as [|[ch p] fs [Hp Hc] _ IH]; intros buf input Hb.
  { destruct buf, input; done. }
  cbn [length replicate client_reader]. set (n := Nat.min cap (cap - length buf)).
  set (buf' := buf ++ take n input). cbn [snd] in *.
  assert (Hb' : buf' ++ drop n input = encode (WPacket ch p) ++ wire (map client_frame fs))
    by (subst buf'; rewrite <-app_assoc, take_drop; exact Hb).
  assert (Hl : (4 + length p <= length buf')%nat).
  { destruct (decide (n <= length input)%nat) as [Hn|Hn].
    - subst buf'. rewrite length_app, length_take. lia.
    - rewrite drop_ge, app_nil_r in Hb' by lia. rewrite Hb', length_app, encode_length. lia. }
  destruct (client_next_front ch p buf' _ _ Hp Hb' Hl) as (rest & _ & -> & Hr). by rewrite (IH rest _ Hr).
Qed.

Lemma client_reader_app (cap : nat) (its more : list iteration) (buf input buf' input' : gostring)
    (evs : list client_event) :
  client_reader cap its buf input = (evs, CReading buf' input') ->
  client_reader cap (its ++ more) buf input
  = (evs ++ (client_reader cap more buf' input').1, (client_reader cap more buf' input').2).
Proof.
  revert buf input evs. induction its as [|it its IH]; intros buf input evs; cbn [client_reader app].
  - intros [= <- <- <-]. by destruct (client_reader cap more buf input).
  - destruct it as [|k| |]; [done| |apply IH|done].
    destruct (client_next _) as [|ev rest]; [apply IH|].
    destruct (client_reader cap its rest _) as [evs1 e1] eqn:E. intros [= <- ->].
    by rewrite (IH _ _ _ E).
Qed.

Lemma find_upstream_spec (es : list (Z * Z)) (u c : Z) :
  (u, c) ∈ es -> (forall u1 u2, (u1, c) ∈ es -> (u2, c) ∈ es -> u1 = u2) -> find_upstream es c = u.
Proof.
  induction es as [|[u0 c0] es IH]; intros Hin Hinj; [set_solver|]. cbn [find_upstream].
  destruct (c0 =? c)%Z eqn:E; reflect_bool.
  - subst c0. apply (Hinj u0 u); set_solver.
  - apply IH; [set_solver|]. intros u1 u2 H1 H2. apply Hinj; set_solver.
Qed.

Lemma find_upstream_missing (es : list (Z * Z)) (c : Z) :
  Forall (fun e => e.2 <> c) es -> find_upstream es c = c.
Proof.
  induction 1 as [|[u0 c0] es Hne _ IH]; [done|]. cbn in Hne |- *.
  by rewrite (proj2 (Z.eqb_neq _ _) Hne).
Qed.

(** ** Properties *)



(** Two frames in one read: the second is handed on only after another
    read, and never if the client has closed the connection. *)
Example second_frame_waits :
  let fs := [("001"%char, str "abc"); ("002"%char, str "de")] in
  client_reader 64 [Ready 100; ReadErr] [] (wire (map client_frame fs)) = ([CFrame 1 (str "abc")], CEnded).
Proof. by vm_compute. Qed.

(** A frame whose announced payload is longer than 65532 bytes blocks
    its client for good: once the buffer is full no read can add to it,
    the frame never completes, and nothing is handed on any more, however
    often the loop runs. *)
Theorem long_frame_blocks (its : list iteration) (b1 b2 b3 : ascii) (t input : gostring) :
  Forall (fun it => live it = true) its ->
  let buf := DOLLAR :: b1 :: b2 :: b3 :: t in
  length buf = rtspBufferSize -> (65532 < be16 b2 b3)%Z ->
  client_reader rtspBufferSize its buf input = ([], CReading buf input).
Proof.
  intros Hl buf Hb Hlen. induction Hl as [|it its Hit Hl IH]; [done|].
  destruct it as [|k| |]; try done. cbn [client_reader].
  rewrite Hb, Nat.sub_diag, Nat.min_0_r, take_0, drop_0, app_nil_r.
  assert (E : client_next buf = CMore).
  { unfold buf. cbn [client_next]. rewrite ceq_refl.
    destruct (slen t <? be16 b2 b3)%Z eqn:Et; [done|]. reflect_bool.
    unfold buf, rtspBufferSize in Hb. cbn [length] in Hb. unfold slen in Et. lia. }
  by rewrite E.
Qed.

Lemma long_frame_blocks_witness :
  let buf := DOLLAR :: "000"%char :: "255"%char :: "255"%char :: replicate (Z.to_nat 65532) "x"%char in
  client_reader rtspBufferSize [Ready 100; Ready 9] buf (str "more") = ([], CReading buf (str "more")).
Proof.
  apply (long_frame_blocks [Ready 100; Ready 9] "000"%char "255"%char "255"%char
           (replicate (Z.to_nat 65532) "x"%char) (str "more")).
  - by repeat constructor.
  - cbn [length]. rewrite length_replicate. unfold rtspBufferSize. lia.
  - by vm_compute.
Defined.

(** C25: The way back: a frame a client sends on a channel it was given in
    SETUP goes to the camera as one interleaved frame with the same
    payload on the camera channel that is mapped to it, whatever the
    order in which the run time visits the mapping, as long as no two
    camera channels are mapped to one client channel; a frame on an
    unmapped channel keeps its number. *)
Theorem client_frame_forwarded `{GoRuntime} (s : Stream) (r : Remote) (client : nat) (cs : ClientSession)
    (c : Z) (data : gostring) :
  st_remote s = Some r -> r_conn r = true -> st_clients s !! client = Some cs ->
  (forall u1 u2, cs_channels cs !! u1 = Some c -> cs_channels cs !! u2 = Some c -> u1 = u2) ->
  (forall u, cs_channels cs !! u = Some c ->
     forward_frame true true client c data s = (s, SendBinary_bytes u data))
  /\ ((forall u, cs_channels cs !! u <> Some c) ->
     forward_frame true true client c data s = (s, SendBinary_bytes c data)).
Proof.
  intros Hr Hc Hcs Hinj.
  assert (Hs : with_remote s (Some r) = s) by (destruct s; cbn in Hr |- *; by rewrite Hr).
  pose proof (map_range_perm _ _ _ _ (cs_channels cs)) as Hp.
  unfold forward_frame. rewrite Hr. unfold SendBinary, upstreamChannel. rewrite Hc, Hcs, Hs.
  split.
  - intros u Hu. rewrite (find_upstream_spec _ u c); [done| |].
    + rewrite Hp. by apply elem_of_map_to_list.
    + intros u1 u2. rewrite !Hp, !elem_of_map_to_list. apply Hinj.
  - intros Hno. rewrite find_upstream_missing; [done|]. rewrite Hp. apply Forall_forall.
    intros [u c'] Hin%elem_of_map_to_list. cbn. intros ->. by apply (Hno u).
Qed.

Lemma client_frame_forwarded_witness :
  let cs := mkClientSession (str "1") [] 10 true false {[2%Z := 0%Z; 3%Z := 1%Z]} in
  let r := mkRemote (str "cam:554") true [] [] [] [] 0 [] NewDigest in
  let s := with_clients (with_remote fresh_stream (Some r)) {[7%nat := cs]} in
  @forward_frame sample_runtime true true 7 1 (str "rtcp") s = (s, SendBinary_bytes 3 (str "rtcp")).
Proof.
  intros cs r s.
  apply (@client_frame_forwarded sample_runtime s r 7 cs 1 (str "rtcp")); [done|done|done| |done].
  intros u1 u2. subst cs. cbn [cs_channels].
  rewrite !lookup_insert_Some, !lookup_singleton_Some. lia.
Defined.
