(* ===== verification/Client.v ===== *)
(** * Serving a client: requests and responses of src/rtspproxy/client.go

    The resolution of the camera a client asks for, the dispatch on the
    method, the handlers and what every response is completed with.
    Handlers that wait for the stream are split at the wait: the first
    part runs on the stream before it, the second on the stream as other
    goroutines left it, told by [waited] which case of the select fired. *)

From stdpp Require Import gmap strings list fin_maps.
From Stdlib Require Import Ascii ZArith Lia.
From S2P Require Import Prelude GoStrings Message HeaderBlock Response Request Digest Metrics Remote Session Fanout Stream.

Local Open Scope go_scope.

(** ** Definitions *)

Record Client := mkClient {
  cl_localAddr : gostring;
  cl_remoteAddr : gostring;
  cl_host : gostring;
  cl_basePath : gostring;
  cl_username : gostring;
  cl_password : gostring
}.

Definition set_path (request : Request) (u : URL) (path : gostring) : Request :=
  mkRequest (req_Method request) (req_RawURL request)
    (Some (mkURL (Scheme u) (User u) (Host u) path (url_rest u)))
    (req_ProtocolVersion request) (req_Headers request) (req_Body request)
    (req_Attempts request) (req_Subscriptions request).

Definition rsp_set (response : Response) (k v : gostring) : Response :=
  mkResponse (rsp_Status response) (rsp_ProtocolVersion response) (rsp_Code response)
    (<[k := v]> (rsp_Headers response)) (rsp_Body response).

Definition PUBLIC : gostring := str "OPTIONS, DESCRIBE, SETUP, PLAY, TEARDOWN, GET_PARAMETER".
Definition PROXY_SERVER : gostring := str "RTSP-Proxy/1.0".

Definition responseNotFound : Response := NewResponse 404 [str "Stream Not Found"].
Definition responseBadRequest : Response := NewResponse 400 [str "Bad Request"].
Definition responseUnauthorized : Response := NewResponse 401 [str "Unauthorized"].
Definition responseUnsupportedTransport : Response :=
  rsp_set (rsp_set (NewResponse 461 [str "Unsupported Transport"])
    (str "Transport") (str "RTP/AVP/TCP;unicast;interleaved=0-1"))
    (str "Supported") (str "RTP/AVP/TCP").

(** What the first request of a connection leads to: a client that knows
    its camera, or the answer to a probe, after which the connection is
    closed. *)
Inductive target : Type :=
| Resolved (client : Client) (request : Request)
| Probe (response : Response).

(** Credentials in front of the host. *)
Definition split_credentials (host username password : gostring) : gostring * gostring * gostring :=
  if Contains host (str "@") then
    match SplitN host "@"%char 2 with
    | [auth; h] =>
        match SplitN auth ":"%char 2 with
        | [u; p] => (h, u, p)
        | _ => (h, username, password)
        end
    | _ => (host, username, password)
    end
  else (host, username, password).

Section Client.
Context `{GoRuntime}.

Definition getHeader (request : Request) (key : gostring) : gostring := headerGet (req_Headers request) key.

Definition resolve_target (client : Client) (request : Request) : outcome target :=
  if negb (cl_host client =s []) then Done (Resolved client request)
  else match req_URL request with
  | None => Panic NilDeref
  | Some u =>
      let username := match User u with Some (n, _) => n | None => [] end in
      let password := match User u with Some (_, Some p) => p | _ => [] end in
      let trimmedPath := TrimPrefix (Path u) (str "/") in
      let finish host path :=
        let '(h, n, p) := split_credentials host username password in
        Done (Resolved (mkClient (cl_localAddr client) (cl_remoteAddr client) h path n p)
                (set_path request u path)) in
      let direct :=
        if (req_Method request =s str "OPTIONS")
           && ((Path u =s str "*") || (Path u =s str "/") || (Path u =s []))
        then Done (Probe (rsp_set (rsp_set (rsp_set (NewResponse 200 [str "OK"])
                (str "Public") PUBLIC) (str "Server") PROXY_SERVER)
                (str "CSeq") (getHeader request (str "CSeq"))))
        else finish (Host u) (Path u) in
      match SplitN trimmedPath "/"%char 3 with
      | p0 :: p1 :: rest =>
          if p0 =s str "rtsp" then
            finish p1 (match rest with p2 :: _ => str "/" ++ p2 | [] => str "/" end)
          else direct
      | _ => direct
      end
  end.

(** What every response gets before it is written. *)
Definition finish_response (request : Request) (response : Response) : Response :=
  let response := rsp_set response (str "Via") (str "RTSP-Proxy") in
  let cseq := getHeader request (str "CSeq") in
  let response := if negb (cseq =s []) then rsp_set response (str "CSeq") cseq else response in
  match rsp_Headers response !! str "Server" with
  | Some server => if server =s [] then rsp_set response (str "Server") PROXY_SERVER else response
  | None => rsp_set response (str "Server") PROXY_SERVER
  end.

(** *** The handlers *)

Inductive waited : Type :=
| WaitShutdown        (* the server context *)
| WaitSignal          (* the channel was closed *)
| WaitTimeout.

Definition Server_header (s : Stream) : gostring := Server (st_meta s).

Definition handleGetParameter (s : Stream) (request : Request) : Response :=
  rsp_set (rsp_set (NewResponse 200 [str "OK"])
    (str "Session") (getHeader request (str "Session"))) (str "Server") (Server_header s).

Definition handleOptions_begin (now : Z) (s : Stream) : Stream :=
  if GetOptions s =s [] then Start now s else s.

Definition handleOptions_end (s : Stream) : Response :=
  let opts := GetOptions s in
  rsp_set (rsp_set (NewResponse 200 [str "OK"])
    (str "Public") (if negb (opts =s []) then opts else PUBLIC)) (str "Server") (Server_header s).

Definition proxyIP (client : Client) : gostring :=
  if cl_localAddr client =s str "0.0.0.0" then str "127.0.0.1" else cl_localAddr client.

Definition handleDescribe_begin (now : Z) (s : Stream) : Stream := Start now s.

Definition handleDescribe_end (client : Client) (w : waited) (s : Stream) : Response :=
  let answer :=
    let rewrittenSDP := ReplaceAll (GetSDP s) (str "0.0.0.0") (proxyIP client) in
    let r := rsp_set (rsp_set (rsp_set (NewResponse 200 [str "OK"])
               (str "Content-Type") (str "application/sdp")) (str "Server") (Server_header s))
               (str "Content-Length") (Itoa (slen rewrittenSDP)) in
    mkResponse (rsp_Status r) (rsp_ProtocolVersion r) (rsp_Code r) (rsp_Headers r) rewrittenSDP in
  match w with
  | WaitShutdown => responseBadRequest
  | WaitSignal => if GetState s =st StateDestroyed then responseNotFound else answer
  | WaitTimeout => if GetSDP s =s [] then responseBadRequest else answer
  end.

Definition handlePlay (client : Client) (s : Stream) (request : Request) : Response :=
  rsp_set (rsp_set (rsp_set (rsp_set (NewResponse 200 [str "OK"])
    (str "Range") (getHeader request (str "Range")))
    (str "Session") (getHeader request (str "Session")))
    (str "Server") (Server_header s))
    (str "RTP-Info") (str "url=rtsp://" ++ proxyIP client ++ id_Path (st_ident s)
                        ++ str ";seq=0;rtptime=0").

Definition handleTeardown (now : Z) (client : nat) (s : Stream) (request : Request)
  : outcome (Stream * Response) :=
  let! s := RemoveClient now client s in
  Done (s, rsp_set (rsp_set (NewResponse 200 [str "OK"])
             (str "Session") (getHeader request (str "Session"))) (str "Server") (Server_header s)).

(** The expression [;?(destination|source)=[^;]+] at the start of a
    string: what is behind the match. *)
Definition match_endpoint (s : gostring) : option gostring :=
  let t := match s with c :: t => if c =c ";"%char then t else s | [] => [] end in
  let value v := match span (fun c => c <>c ";"%char) v with
                 | ([], _) => None
                 | (_, rest) => Some rest
                 end in
  if HasPrefix t (str "destination=") then value (drop 12 t)
  else if HasPrefix t (str "source=") then value (drop 7 t)
  else None.

(** [ReplaceAllString] of it with the empty string; each pass consumes at
    least one byte. *)
Fixpoint clean_loop (fuel : nat) (s : gostring) : gostring :=
  match fuel, s with
  | S f, c :: t =>
      match match_endpoint s with
      | Some rest => clean_loop f rest
      | None => c :: clean_loop f t
      end
  | _, _ => []
  end.

Definition cleanTransport (transport : gostring) : gostring := clean_loop (length transport) transport.

Definition handleSetup_begin (now : Z) (s : Stream) : Stream := Start now s.

(** [stream.MapChannel] for the channels of the client's [interleaved]
    parameter; a missing substream of the camera's transport is a nil
    dereference. *)
Definition map_channels (cid : nat) (interleaved : gostring) (t : Transport) (s : Stream)
  : outcome Stream :=
  if interleaved =s [] then Done s
  else match Split interleaved "-"%char with
       | c1 :: rest =>
           match Substreams t !! 0%Z with
           | None => Panic NilDeref
           | Some sub0 =>
               let s := Stream_MapChannel cid (sub_Channel sub0) (Atoi c1).1 s in
               match rest with
               | [] => Done s
               | c2 :: _ =>
                   match Substreams t !! 1%Z with
                   | None => Panic NilDeref
                   | Some sub1 => Done (Stream_MapChannel cid (sub_Channel sub1) (Atoi c2).1 s)
                   end
               end
           end
       | [] => Done s
       end.

(** After the wait: [LookupTransport], [AddClient] and the two
    [MapChannel]s each take the lock for themselves; here they follow each
    other without interference, [Relay.rl_step] has joining and mapping as
    steps of their own. *)
Definition handleSetup_end (queue : Z) (cid : nat) (client : Client) (w : waited) (request : Request)
    (s : Stream) : outcome (Stream * Response) :=
  let! u := GetURL request in
  let substreamName := (path_split (Path u)).2 in
  let transport := getHeader request (str "Transport") in
  let '(protocol, comType, params) := parseTransport transport in
  let serve :=
    match LookupTransport substreamName protocol comType s with
    | None => Done (s, responseBadRequest)
    | Some (_, _, t) =>
        let sessionID := tr_Session t in
        let! (s, _) := AddClient queue cid sessionID s in
        let! s := map_channels cid (map_get params (str "interleaved")) t s in
        Done (s, rsp_set (rsp_set (rsp_set (rsp_set (NewResponse 200 [str "OK"])
          (str "Transport") (cleanTransport transport ++ str ";ssrc=" ++ Ssrc t ++ str ";destination="
             ++ cl_remoteAddr client ++ str ";source=" ++ proxyIP client))
          (str "Cache-Control") (str "must-revalidate"))
          (str "Session") (sessionID ++ str ";timeout=60"))
          (str "Server") (Server_header s))
    end in
  match w with
  | WaitShutdown => Done (s, responseBadRequest)
  | WaitSignal => if GetState s =st StateDestroyed then Done (s, responseNotFound) else serve
  | WaitTimeout => if negb (GetState s =st StatePlaying) then Done (s, responseBadRequest) else serve
  end.

(** The method switch; a SETUP for a transport other than TCP is refused
    before the stream is touched. *)
Inductive route : Type :=
| ROptions | RDescribe | RSetup | RUnsupported | RPlay | RTeardown | RGetParameter | RBadRequest.

Definition route_of (request : Request) : route :=
  let m := req_Method request in
  if m =s str "OPTIONS" then ROptions
  else if m =s str "DESCRIBE" then RDescribe
  else if m =s str "SETUP" then
    let transport := getHeader request (str "Transport") in
    if negb (transport =s []) && Contains transport (str "RTP/AVP")
       && negb (Contains transport (str "RTP/AVP/TCP"))
    then RUnsupported else RSetup
  else if m =s str "PLAY" then RPlay
  else if m =s str "TEARDOWN" then RTeardown
  else if m =s str "GET_PARAMETER" then RGetParameter
  else RBadRequest.

(** The part of a request's handling before a wait ... *)
Definition serve_begin (now : Z) (request : Request) (s : Stream) : Stream :=
  match route_of request with
  | ROptions => handleOptions_begin now s
  | RDescribe => handleDescribe_begin now s
  | RSetup => handleSetup_begin now s
  | _ => s
  end.

(** ... and the rest, up to the response that is written. *)
Definition serve_end (queue now : Z) (cid : nat) (client : Client) (w : waited) (request : Request)
    (s : Stream) : outcome (Stream * Response) :=
  let! (s, response) :=
    match route_of request with
    | ROptions => Done (s, handleOptions_end s)
    | RDescribe => Done (s, handleDescribe_end client w s)
    | RSetup => handleSetup_end queue cid client w request s
    | RUnsupported => Done (s, responseUnsupportedTransport)
    | RPlay => Done (s, handlePlay client s request)
    | RTeardown => handleTeardown now cid s request
    | RGetParameter => Done (s, handleGetParameter s request)
    | RBadRequest => Done (s, responseBadRequest)
    end in
  Done (s, finish_response request response).

End Client.

(** ** Lemmas *)

Lemma SplitN_app (s t : gostring) (sep : ascii) (n : nat) :
  sep ∉ s -> SplitN (s ++ sep :: t) sep (S (S n)) = s :: SplitN t sep (S n).
Proof.
  intros Hn. cbn [SplitN]. rewrite IndexByte_app by done. rewrite take_app_length.
  replace (S (length s)) with (length (s ++ [sep])) by (rewrite length_app; simpl; lia).
  replace (s ++ sep :: t) with ((s ++ [sep]) ++ t) by (by rewrite <-app_assoc).
  by rewrite drop_app_length.
Qed.

Lemma Contains_char (s t : gostring) (c : ascii) : Contains (s ++ c :: t) [c] = true.
Proof. apply Contains_spec. by exists s, t. Qed.

Lemma split_credentials_full (user pass host u0 p0 : gostring) :
  ("@"%char ∉ user) -> ("@"%char ∉ pass) -> (":"%char ∉ user) ->
  split_credentials (user ++ ":"%char :: pass ++ "@"%char :: host) u0 p0 = (host, user, pass).
Proof.
  intros Hu Hp Hc. unfold split_credentials.
  replace (user ++ ":"%char :: pass ++ "@"%char :: host)
    with ((user ++ ":"%char :: pass) ++ "@"%char :: host) by (by rewrite <-app_assoc).
  change (str "@") with ["@"%char]. rewrite Contains_char.
  rewrite SplitN2_app; [|rewrite not_elem_of_app, not_elem_of_cons; done].
  by rewrite SplitN2_app.
Qed.

Lemma MapChannel_lookup (m : gmap nat ClientSession) (cid : nat) (cs : ClientSession) (u c : Z) :
  m !! cid = Some cs -> MapChannel m cid u c !! cid = Some (cs_map cs u c).
Proof. intros Hm. unfold MapChannel. rewrite Hm. by rewrite lookup_insert_eq. Qed.

Lemma AddClient_registers (queue : Z) (cid : nat) (id : gostring) (s : Stream) :
  (0 <= queue)%Z ->
  exists s' cs, AddClient queue cid id s = Done (s', cs) /\ st_clients s' !! cid = Some cs
    /\ st_state s' = st_state s /\ st_sessions s' = st_sessions s /\ st_remote s' = st_remote s
    /\ st_meta s' = st_meta s
    /\ forall other, other <> cid -> st_clients s' !! other = st_clients s !! other.
Proof.
  intros Hq. destruct (AddClient_spec queue cid id s Hq) as (s' & cs & E & Hsp).
  exists s', cs. split; [done|].
  destruct (stopIdleTimer_frame s) as (F1 & F2 & F3 & F4 & F5 & F6).
  assert (F7 : st_meta (stopIdleTimer s) = st_meta s) by (unfold stopIdleTimer; by destruct (st_timer s)).
  destruct (st_clients s !! cid) as [cs0|] eqn:El.
  - destruct Hsp as [-> ->]. by rewrite F2, F3, F4, F5, F7.
  - destruct Hsp as [-> ->].
    set (cs := mkClientSession _ _ _ _ _ _).
    set (s1 := with_clients (stopIdleTimer s) (<[cid := cs]> (st_clients s))).
    assert (G : forall s2, (s2 = s1 \/ s2 = startConnectLoop s1) ->
      st_clients s2 = <[cid := cs]> (st_clients s) /\ st_state s2 = st_state s
      /\ st_sessions s2 = st_sessions s /\ st_remote s2 = st_remote s /\ st_meta s2 = st_meta s).
    { intros s2 Hs2. unfold startConnectLoop in Hs2.
      destruct (st_loop s1), Hs2 as [-> | ->]; cbn; by rewrite ?F2, ?F4, ?F5, ?F7. }
    cbn zeta. destruct (G (if st_state s =st StateDisconnected then startConnectLoop s1 else s1))
      as (G1 & G2 & G3 & G4 & G5); [destruct (_ =st _); auto|].
    rewrite G1, G2, G3, G4, G5, lookup_insert_eq. split_and!; try done.
    intros other Ho. by rewrite lookup_insert_ne.
Qed.

(** The two channels of a client's SETUP, mapped. *)
Lemma map_channels_pair (cid : nat) (a b : Z) (t : Transport) (sub0 sub1 : Substream) (s : Stream)
    (cs : ClientSession) :
  (0 <= a <= int64_max)%Z -> (0 <= b <= int64_max)%Z ->
  Substreams t !! 0%Z = Some sub0 -> Substreams t !! 1%Z = Some sub1 ->
  st_clients s !! cid = Some cs ->
  exists s', map_channels cid (Itoa a ++ str "-" ++ Itoa b) t s = Done s'
    /\ st_clients s' !! cid
       = Some (cs_map (cs_map cs (sub_Channel sub0) a) (sub_Channel sub1) b)
    /\ st_state s' = st_state s /\ st_meta s' = st_meta s /\ st_sessions s' = st_sessions s.
Proof.
  intros Ha Hb H0 H1 Hcs. unfold map_channels.
  assert (Hne : (Itoa a ++ str "-" ++ Itoa b =s []) = false).
  { apply bool_decide_eq_false_2. pose proof (Itoa_nonempty a). by destruct (Itoa a). }
  rewrite Hne. change (str "-" ++ Itoa b) with ("-"%char :: Itoa b).
  rewrite Split_app, Split_no_sep by (apply Itoa_no_dash; lia).
  rewrite H0, H1, !Atoi_Itoa by done. cbn [fst].
  eexists. split; [done|]. split; [|done]. cbn.
  apply MapChannel_lookup, MapChannel_lookup, Hcs.
Qed.

(** The last part of [finish_response]: a server is named. *)
Lemma server_named (r : Response) :
  let r' := match rsp_Headers r !! str "Server" with
            | Some server => if server =s [] then rsp_set r (str "Server") PROXY_SERVER else r
            | None => rsp_set r (str "Server") PROXY_SERVER
            end in
  exists sv, sv <> [] /\ rsp_Headers r' !! str "Server" = Some sv
    /\ (forall k, k <> str "Server" -> rsp_Headers r' !! k = rsp_Headers r !! k)
    /\ (rsp_Code r', rsp_Status r', rsp_Body r') = (rsp_Code r, rsp_Status r, rsp_Body r)
    /\ (forall server, rsp_Headers r !! str "Server" = Some server -> server <> [] -> sv = server).
Proof.
  cbn zeta. destruct (rsp_Headers r !! str "Server") as [server|] eqn:E;
    [destruct (server =s []) eqn:EE; reflect_bool|].
  - exists PROXY_SERVER. cbn [rsp_set rsp_Headers]. rewrite lookup_insert_eq. split_and!; try done.
    + intros k Hk. by rewrite lookup_insert_ne.
    + intros sv' [= <-] Hn. by subst.
  - exists server. split_and!; try done. congruence.
  - exists PROXY_SERVER. cbn [rsp_set rsp_Headers]. rewrite lookup_insert_eq. split_and!; try done.
    intros k Hk. by rewrite lookup_insert_ne.
Qed.

(** ** Properties *)

(** C35: The path form of the proxy URL resolves to its camera: the first
    request of a connection for [/rtsp/user:pass@host/rest] makes the
    client's target exactly that host, user name, password and path, and
    the request's path is rewritten to the camera's; later requests of
    the same connection keep the target, whatever their URL. *)
Theorem target_resolved `{GoRuntime} (client : Client) (request : Request) (u : URL)
    (user pass host rest : gostring) :
  cl_host client = [] -> req_URL request = Some u ->
  Path u = str "/rtsp/" ++ user ++ ":"%char :: pass ++ "@"%char :: host ++ "/"%char :: rest ->
  ("/"%char ∉ user) -> ("/"%char ∉ pass) -> ("/"%char ∉ host) ->
  ("@"%char ∉ user) -> ("@"%char ∉ pass) -> (":"%char ∉ user) -> host <> [] ->
  let client' := mkClient (cl_localAddr client) (cl_remoteAddr client) host (str "/" ++ rest) user pass in
  resolve_target client request = Done (Resolved client' (set_path request u (str "/" ++ rest)))
  /\ forall later, resolve_target client' later = Done (Resolved client' later).
Proof.
  intros Hh Hu Hpath Hs1 Hs2 Hs3 Ha1 Ha2 Hc Hne client'. split.
  - unfold resolve_target. rewrite Hh, Hu. cbn [negb seq_eqb]. rewrite Hpath.
    assert (Htrim : TrimPrefix (str "/rtsp/" ++ user ++ ":"%char :: pass ++ "@"%char :: host ++ "/"%char :: rest)
      (str "/") = str "rtsp" ++ "/"%char :: (user ++ ":"%char :: pass ++ "@"%char :: host) ++ "/"%char :: rest).
    { change (str "/rtsp/" ++ user ++ ":"%char :: pass ++ "@"%char :: host ++ "/"%char :: rest)
        with (str "/" ++ (str "rtsp" ++ "/"%char :: user ++ ":"%char :: pass ++ "@"%char :: host ++ "/"%char :: rest)).
      rewrite TrimPrefix_app. f_equal. f_equal.
      rewrite <-app_assoc. cbn [app]. f_equal. f_equal. by rewrite <-app_assoc. }
    rewrite Htrim. rewrite SplitN_app by (apply (bool_decide_unpack _); by vm_compute).
    rewrite SplitN2_app.
    2:{ rewrite not_elem_of_app, not_elem_of_cons, not_elem_of_app, not_elem_of_cons. done. }
    change (bool_decide ([] = [])) with true.
    change (str "rtsp" =s str "rtsp") with true. cbv match beta.
    by rewrite split_credentials_full.
  - intros later. unfold resolve_target. subst client'. cbn [cl_host].
    unfold seq_eqb. by rewrite bool_decide_eq_false_2.
Qed.

Definition new_client : Client := mkClient (str "10.0.0.1") (str "10.0.0.7") [] [] [] [].

Lemma target_resolved_witness :
  let request := NewRequest (str "DESCRIBE")
    (Some (mkURL (str "rtsp") None (str "proxy:8554") (str "/rtsp/admin:pw@cam:554/live/1") [])) [] in
  exists request', @resolve_target sample_runtime new_client request
    = Done (Resolved (mkClient (str "10.0.0.1") (str "10.0.0.7") (str "cam:554") (str "/live/1")
              (str "admin") (str "pw")) request').
Proof.
  intros request. eexists.
  refine (proj1 (@target_resolved sample_runtime new_client request
    (mkURL (str "rtsp") None (str "proxy:8554") (str "/rtsp/admin:pw@cam:554/live/1") [])
    (str "admin") (str "pw") (str "cam:554") (str "live/1") _ _ _ _ _ _ _ _ _ _));
    first [reflexivity | discriminate | apply (bool_decide_unpack _); by vm_compute].
Defined.

(** What every response of the proxy carries: whatever the method, the
    route and the state of the stream, a response that is written names
    the proxy in Via, repeats the request's CSeq when it has one, names a
    server, and keeps the code, body and other headers of the handler. *)
Theorem response_completed `{GoRuntime} (request : Request) (response : Response) :
  let r := finish_response request response in
  let cseq := getHeader request (str "CSeq") in
  rsp_Headers r !! str "Via" = Some (str "RTSP-Proxy")
  /\ (cseq <> [] -> rsp_Headers r !! str "CSeq" = Some cseq)
  /\ (exists server, rsp_Headers r !! str "Server" = Some server /\ server <> [])
  /\ (forall server, rsp_Headers response !! str "Server" = Some server -> server <> [] ->
      rsp_Headers r !! str "Server" = Some server)
  /\ (rsp_Code r, rsp_Status r, rsp_Body r) = (rsp_Code response, rsp_Status response, rsp_Body response)
  /\ forall k, k <> str "Via" -> k <> str "CSeq" -> k <> str "Server" ->
     rsp_Headers r !! k = rsp_Headers response !! k.
Proof.
  intros r cseq. unfold r, finish_response. fold cseq.
  set (r1 := rsp_set response (str "Via") (str "RTSP-Proxy")).
  set (r2 := if negb (cseq =s []) then rsp_set r1 (str "CSeq") cseq else r1).
  assert (HV : rsp_Headers r2 !! str "Via" = Some (str "RTSP-Proxy")).
  { subst r2 r1. destruct (negb _); cbn; by rewrite ?lookup_insert_ne, lookup_insert_eq by done. }
  assert (HC : cseq <> [] -> rsp_Headers r2 !! str "CSeq" = Some cseq).
  { intros Hc. subst r2. unfold seq_eqb. rewrite bool_decide_eq_false_2 by done. cbn.
    by rewrite lookup_insert_eq. }
  assert (HO : forall k, k <> str "Via" -> k <> str "CSeq" ->
    rsp_Headers r2 !! k = rsp_Headers response !! k).
  { intros k Hk1 Hk2. subst r2 r1. destruct (negb _); cbn; by rewrite !lookup_insert_ne by done. }
  assert (HB : (rsp_Code r2, rsp_Status r2, rsp_Body r2)
    = (rsp_Code response, rsp_Status response, rsp_Body response)) by (subst r2; by destruct (negb _)).
  clearbody r2. clear r1 r. destruct (server_named r2) as (sv & Hsv & HS & Hk & Hbody & Hsame).
  split_and!.
  - by rewrite Hk.
  - intros Hc. rewrite Hk by done. by apply HC.
  - by exists sv.
  - intros server Hs Hn. rewrite HS. f_equal. apply Hsame; [|done]. by rewrite HO.
  - congruence.
  - intros k H1 H2 H3. rewrite Hk by done. by apply HO.
Qed.

(** C17: A successful SETUP connects the client to the camera's channels:
    when the stream is up and knows the track with two camera channels,
    the answer is 200 with the upstream session, the client is registered,
    and packets the camera sends on its first (second) channel are queued
    for the client unchanged but for the channel number, which is the
    first (second) one the client asked for. *)
Theorem setup_maps_channels `{GoRuntime} (queue : Z) (cid : nat) (client : Client) (request : Request)
    (s : Stream) (u : URL) (protocol comType sid : gostring) (i : nat) (t : Transport)
    (params : gmap gostring gostring) (a b u0 u1 : Z) (sub0 sub1 : Substream) :
  (0 <= queue)%Z -> GetURL request = Done u ->
  parseTransport (getHeader request (str "Transport")) = (protocol, comType, params) ->
  params !! str "interleaved" = Some (Itoa a ++ str "-" ++ Itoa b) ->
  (0 <= a <= int64_max)%Z -> (0 <= b <= int64_max)%Z ->
  LookupTransport (path_split (Path u)).2 protocol comType s = Some (sid, i, t) ->
  Substreams t !! 0%Z = Some sub0 -> Substreams t !! 1%Z = Some sub1 ->
  sub_Channel sub0 = u0 -> sub_Channel sub1 = u1 -> u0 <> u1 ->
  GetState s <> StateDestroyed ->
  exists s' response cs,
    handleSetup_end queue cid client WaitSignal request s = Done (s', response)
    /\ rsp_Code response = 200%Z
    /\ rsp_Headers response !! str "Session" = Some (tr_Session t ++ str ";timeout=60")
    /\ st_clients s' !! cid = Some cs
    /\ (forall packet, dispatch_one u0 packet cs = (Push cs (remapped packet a)).1)
    /\ (forall packet, dispatch_one u1 packet cs = (Push cs (remapped packet b)).1)
    /\ st_state s' = st_state s /\ st_sessions s' = st_sessions s.
Proof.
  intros Hq Hu Ht Hi Ha Hb Hl H0 H1 <- <- Hne Hd.
  unfold handleSetup_end. rewrite Hu. cbn [outcome_bind]. rewrite Ht.
  rewrite (proj2 (state_eqb_false _ _) Hd), Hl.
  destruct (AddClient_registers queue cid (tr_Session t) s Hq)
    as (s1 & cs & E & Hcs & Es & Ess & _ & Em & _). rewrite E. cbn [outcome_bind].
  unfold map_get. rewrite Hi. cbn [default].
  destruct (map_channels_pair cid a b t sub0 sub1 s1 cs Ha Hb H0 H1 Hcs)
    as (s2 & E2 & Hcs2 & Es2 & Em2 & Ess2).
  unfold from_option, id. rewrite E2. cbn [outcome_bind].
  eexists _, _, _. split; [done|]. split; [done|].
  split; [cbn; by rewrite !lookup_insert_ne, lookup_insert_eq by done|].
  split; [exact Hcs2|]. unfold dispatch_one. cbn [cs_map cs_channels].
  rewrite lookup_insert_ne, !lookup_insert_eq by done.
  split_and!; [done|done|congruence|congruence].
Qed.

(** A stream that plays one track on the camera channels 0 and 1. *)
Definition playing_stream : Stream :=
  let t := mkTransport (str "track1") (str "77") (str "RTP/AVP/TCP") (str "unicast") (str "AB")
    {[0%Z := mkSubstream (str "track1") 0 0 [] 0 0; 1%Z := mkSubstream (str "track1") 0 1 [] 0 0]} in
  with_sessions
    (with_remote (transition 3 StatePlaying (Start 1 fresh_stream)).1
       (Some (mkRemote (str "cam:554") true [] [] [] [] 4 [] NewDigest)))
    {[str "77" := mkSession (str "77") 60 [t] true]}.

Definition setup_request : Request :=
  set_header (NewRequest (str "SETUP") (rtsp_url (str "cam") (str "/s/track1")) [])
    (str "Transport") (str "RTP/AVP/TCP;unicast;interleaved=4-5").

Lemma setup_maps_channels_witness :
  exists s' response cs,
    @handleSetup_end sample_runtime 100 7 new_client WaitSignal setup_request playing_stream
    = Done (s', response)
    /\ rsp_Code response = 200%Z /\ st_clients s' !! 7%nat = Some cs
    /\ forall packet, dispatch_one 1 packet cs = (Push cs (remapped packet 5)).1.
Proof.
  edestruct (@setup_maps_channels sample_runtime 100 7 new_client setup_request playing_stream
    (mkURL (str "rtsp") None (str "cam") (str "/s/track1") []) (str "RTP/AVP/TCP") (str "unicast")
    (str "77") 0
    (mkTransport (str "track1") (str "77") (str "RTP/AVP/TCP") (str "unicast") (str "AB")
       {[0%Z := mkSubstream (str "track1") 0 0 [] 0 0; 1%Z := mkSubstream (str "track1") 0 1 [] 0 0]})
    {[str "interleaved" := str "4-5"]} 4 5 0 1
    (mkSubstream (str "track1") 0 0 [] 0 0) (mkSubstream (str "track1") 0 1 [] 0 0))
    as (s' & response & cs & E & Hc & _ & Hcs & _ & Hp & _).
  - lia.
  - reflexivity.
  - vm_compute. reflexivity.
  - vm_compute. reflexivity.
  - split; vm_compute; discriminate.
  - split; vm_compute; discriminate.
  - vm_compute. reflexivity.
  - reflexivity.
  - reflexivity.
  - reflexivity.
  - reflexivity.
  - discriminate.
  - discriminate.
  - exists s', response, cs. split; [exact E|]. split; [exact Hc|]. split; [exact Hcs|exact Hp].
Defined.

(** The answer to DESCRIBE: it is a 200 exactly when the signal came
    and the stream is not destroyed, or the wait ran out with an SDP at
    hand; its body is the SDP with the unspecified address replaced by
    the proxy's own, and the announced length is the length of that body.
    The signal alone does not promise an SDP: with none the answer is
    still 200, with an empty body. *)
Theorem describe_answers (client : Client) (w : waited) (s : Stream) :
  let r := handleDescribe_end client w s in
  (rsp_Code r = 200%Z <->
     (w = WaitSignal /\ GetState s <> StateDestroyed) \/ (w = WaitTimeout /\ GetSDP s <> []))
  /\ (rsp_Code r = 200%Z ->
      rsp_Body r = ReplaceAll (GetSDP s) (str "0.0.0.0") (proxyIP client)
      /\ rsp_Headers r !! str "Content-Length" = Some (Itoa (slen (rsp_Body r)))
      /\ rsp_Headers r !! str "Content-Type" = Some (str "application/sdp"))
  /\ (w = WaitSignal -> GetState s <> StateDestroyed -> GetSDP s = [] ->
      rsp_Code r = 200%Z /\ rsp_Body r = []).
Proof.
  cbn zeta. unfold handleDescribe_end, state_eqb, seq_eqb.
  destruct w; repeat case_bool_decide; cbn; split_and!; try done; try naive_solver.
  all: try (intros _ _ ->; done).
Qed.
