(* ===== verification/Handler.v ===== *)
(** * A client's connection from its bytes to its answers

    [incomingRequestHandler] of src/rtspproxy/client.go as a whole: the
    reads, the frames forwarded to the camera, the parser, the choice of
    the camera, the lookup in the registry, the handlers with their waits,
    the answers written and what happens when the reader returns.  What
    the other goroutines do to the registry and its streams meanwhile is
    an argument of each turn. *)

From stdpp Require Import gmap strings list fin_maps.
From Stdlib Require Import Ascii ZArith Lia.
From S2P Require Import Prelude GoStrings Message HeaderBlock Response Request Metrics Digest Framing Remote Session Fanout Stream StreamManager ClientReader Client.

Local Open Scope go_scope.

(** ** Definitions *)

(** What the reader knows of its connection: the pointer that names the
    client in the streams, the client and [currentStream]. *)
Record Handler := mkHandler {
  hd_id : nat;
  hd_client : Client;
  hd_stream : option nat
}.

(** One turn of the loop: what the read meets, the other goroutines before
    the bytes are there and while a handler waits, how the wait ends, and
    the two writes of a forwarded frame. *)
Record turn := mkTurn {
  tn_read : iteration;
  tn_now : Z;
  tn_done : bool;
  tn_before : StreamManager -> StreamManager;
  tn_during : StreamManager -> StreamManager;
  tn_wait : waited;
  tn_send : bool * bool
}.

(** What a turn is seen to do. *)
Inductive served : Type :=
| Answered (stream : nat) (request : Request) (response : Response)
| Probed (text : gostring)
| Forwarded (stream : nat) (wire : gostring).

Inductive handler_exit : Type :=
| HReading (buf input : gostring) (h : Handler) (sm : StreamManager)
| HReturned (h : Handler) (sm : StreamManager).

(** Up to the wait of the handler. *)
Inductive begun : Type :=
| BReturn (written : list served)
| BServe (h : Handler) (stream : nat) (request : Request) (sm : StreamManager).

Definition set_stream (sm : StreamManager) (id : nat) (s : Stream) : StreamManager :=
  mkManager (mg_streams sm) (<[id := s]> (mg_heap sm)) (mg_key sm) (mg_metrics sm).

(** An operation on the stream a pointer names. *)
Definition on_stream (sm : StreamManager) (id : nat) (f : Stream -> outcome Stream) : outcome StreamManager :=
  match mg_heap sm !! id with
  | None => Panic NilDeref
  | Some s => let! s := f s in Done (set_stream sm id s)
  end.

Section Handler.
Context `{GoRuntime, NetURL}.
Variables (cap : nat) (queue idle : Z).

(** A request up to the wait of its handler: a text that does not parse
    and a probe of the proxy itself end the connection. *)
Definition message_begin (t : turn) (reqStr : gostring) (h : Handler) (sm : StreamManager) : outcome begun :=
  match NewRequestFromBuffer reqStr with
  | Err _ => Done (BReturn [])
  | Ok request =>
      let! target := resolve_target (hd_client h) request in
      match target with
      | Probe response => Done (BReturn [Probed (Response_String response)])
      | Resolved client request =>
          let '(sm, id) := GetStream idle (tn_now t) (tn_done t) (cl_host client) (cl_username client)
                             (cl_password client) (cl_basePath client) sm in
          let! sm := on_stream sm id (fun s => Done (serve_begin (tn_now t) request s)) in
          Done (BServe (mkHandler (hd_id h) client (Some id)) id request sm)
      end
  end.

(** From the end of the wait to the answer. *)
Definition message_end (t : turn) (h : Handler) (id : nat) (request : Request) (sm : StreamManager)
  : outcome (StreamManager * Response) :=
  match mg_heap sm !! id with
  | None => Panic NilDeref
  | Some s =>
      let! (s, response) := serve_end queue (tn_now t) (hd_id h) (hd_client h) (tn_wait t) request s in
      Done (set_stream sm id s, response)
  end.

(** An interleaved frame, for the camera of the current stream. *)
Definition frame_turn (t : turn) (channel : Z) (data : gostring) (h : Handler) (sm : StreamManager)
  : list served * StreamManager :=
  match hd_stream h with
  | None => ([], sm)
  | Some id =>
      match mg_heap sm !! id with
      | None => ([], sm)
      | Some s =>
          let '(s', wire) := forward_frame (tn_send t).1 (tn_send t).2 (hd_id h) channel data s in
          ([Forwarded id wire], set_stream sm id s')
      end
  end.

(** The deferred [RemoveClient]; [Destroy] follows on the connection. *)
Definition leave (now : Z) (h : Handler) (sm : StreamManager) : outcome StreamManager :=
  match hd_stream h with
  | None => Done sm
  | Some id => on_stream sm id (RemoveClient now (hd_id h))
  end.

Definition handler_return (t : turn) (written : list served) (h : Handler) (sm : StreamManager)
  : outcome (list served * handler_exit) :=
  let! sm := leave (tn_now t) h sm in
  Done (written, HReturned h sm).

Fixpoint incomingRequestHandler (turns : list turn) (buf input : gostring) (h : Handler) (sm : StreamManager)
  : outcome (list served * handler_exit) :=
  match turns with
  | [] => Done ([], HReading buf input h sm)
  | t :: ts =>
      let sm := tn_before t sm in
      match tn_read t with
      | CtxDone | ReadErr => handler_return t [] h sm
      | Timeout => incomingRequestHandler ts buf input h sm
      | Ready k =>
          let n := Nat.min k (cap - length buf) in
          let buf := buf ++ take n input in
          let input := drop n input in
          match client_next buf with
          | CMore => incomingRequestHandler ts buf input h sm
          | CEvent (CFrame channel data) rest =>
              let '(done, sm) := frame_turn t channel data h sm in
              let! (more, e) := incomingRequestHandler ts rest input h sm in
              Done (done ++ more, e)
          | CEvent (CRequest reqStr) rest =>
              let! b := message_begin t reqStr h sm in
              match b with
              | BReturn written => handler_return t written h sm
              | BServe h id request sm =>
                  let! (sm, response) := message_end t h id request (tn_during t sm) in
                  let! (more, e) := incomingRequestHandler ts rest input h sm in
                  Done (Answered id request response :: more, e)
              end
          end
      end
  end.

End Handler.

(** ** Specification *)

(** The key of the camera a client has chosen. *)
Definition target_key (c : Client) : gostring :=
  stream_key (cl_host c) (cl_username c) (cl_password c) (cl_basePath c).

(** The camera named its channels for every track: without this [handleSetup]
    dereferences a missing substream. *)
Definition channels_known (s : Stream) : Prop :=
  map_Forall (fun _ ss => Forall (fun t => is_Some (Substreams t !! 0%Z) /\ is_Some (Substreams t !! 1%Z))
                            (sess_Transports ss)) (st_sessions s).

(** A registry in order whose cameras named their channels. *)
Record registry_ok (sm : StreamManager) : Prop := {
  ro_manager : manager_inv sm;
  ro_channels : map_Forall (fun _ => channels_known) (mg_heap sm)
}.

(** The client is known to no stream but its current one. *)
Definition confined (h : Handler) (sm : StreamManager) : Prop :=
  forall id s, mg_heap sm !! id = Some s -> is_Some (st_clients s !! hd_id h) -> hd_stream h = Some id.

(** How a registry may change: streams stay registered, and the client
    [cid] is registered with no further stream, except the one of the key
    [may] if there is one. *)
Record evolved (cid : nat) (may : option gostring) (sm sm' : StreamManager) : Prop := {
  ev_ok : registry_ok sm';
  ev_streams : mg_streams sm ⊆ mg_streams sm';
  ev_clients : forall id s', mg_heap sm' !! id = Some s' -> is_Some (st_clients s' !! cid) ->
    (exists s, mg_heap sm !! id = Some s /\ is_Some (st_clients s !! cid))
    \/ (exists key, may = Some key /\ mg_streams sm' !! key = Some id)
}.

Definition evolves (cid : nat) (may : option gostring) (sm sm' : StreamManager) : Prop :=
  registry_ok sm -> evolved cid may sm sm'.

(** What the other goroutines may do: streams are destroyed only when
    every reader has returned, and a client is registered by its own
    reader only. *)
Definition others_ok (cid : nat) (f : StreamManager -> StreamManager) : Prop :=
  forall sm, evolves cid None sm (f sm).

Definition turn_ok (cid : nat) (t : turn) : Prop := others_ok cid (tn_before t) /\ others_ok cid (tn_during t).

(** What the reader relies on between its turns. *)
Record handler_inv (h : Handler) (sm : StreamManager) : Prop := {
  hv_registry : registry_ok sm;
  hv_stream : forall id, hd_stream h = Some id -> mg_streams sm !! target_key (hd_client h) = Some id
}.

(** The requests among what a reader cuts out of the bytes. *)
Definition requests_of (evs : list client_event) : list gostring :=
  omap (fun ev => match ev with CRequest text => Some text | CFrame _ _ => None end) evs.

Definition answers_of (evs : list served) : list (Request * Response) :=
  omap (fun ev => match ev with Answered _ request response => Some (request, response) | _ => None end) evs.

(** The streams that served. *)
Definition streams_of (evs : list served) : list nat :=
  omap (fun ev => match ev with Answered id _ _ | Forwarded id _ => Some id | Probed _ => None end) evs.

(** An answer to a text: the request it parses to (its URL may have been
    rewritten), and a response with its sequence number that names the
    proxy and a server. *)
Definition answers `{GoRuntime, NetURL} (text : gostring) (x : Request * Response) : Prop :=
  exists request0, NewRequestFromBuffer text = Ok request0
    /\ req_Method x.1 = req_Method request0 /\ req_Headers x.1 = req_Headers request0
    /\ (let cseq := getHeader request0 (str "CSeq") in
        cseq <> [] -> rsp_Headers x.2 !! str "CSeq" = Some cseq)
    /\ rsp_Headers x.2 !! str "Via" = Some (str "RTSP-Proxy")
    /\ exists server, rsp_Headers x.2 !! str "Server" = Some server /\ server <> [].

(** A request that one read can return as it is. *)
Definition one_read (cap : nat) (text : gostring) : Prop :=
  text <> [] /\ head text <> Some DOLLAR /\ (length text <= cap)%nat.

(** The two kinds of text on which the reader returns: one that does not
    parse, and an OPTIONS for the proxy itself, whose answer, with the
    sequence number of the request, is the last thing written. *)
Definition ends_reader `{GoRuntime, NetURL} (written : list served) (text : gostring) : Prop :=
  (exists err, NewRequestFromBuffer text = Err err)
  \/ exists request u response, NewRequestFromBuffer text = Ok request
     /\ req_Method request = str "OPTIONS" /\ req_URL request = Some u
     /\ (Path u = str "*" \/ Path u = str "/" \/ Path u = [])
     /\ rsp_Code response = 200%Z
     /\ rsp_Headers response !! str "CSeq" = Some (getHeader request (str "CSeq"))
     /\ last written = Some (Probed (Response_String response)).

Definition exit_handler (e : handler_exit) : Handler :=
  match e with HReading _ _ h _ | HReturned h _ => h end.
Definition exit_manager (e : handler_exit) : StreamManager :=
  match e with HReading _ _ _ sm | HReturned _ sm => sm end.
Definition returned (e : handler_exit) : bool := match e with HReading _ _ _ _ => false | HReturned _ _ => true end.

(** What a request may do to its stream on behalf of the client. *)
Record touches (cid : nat) (s s' : Stream) : Prop := {
  tc_ident : st_ident s' = st_ident s;
  tc_meta : st_meta s' = st_meta s;
  tc_sessions : st_sessions s' = st_sessions s;
  tc_clients : forall other, other <> cid -> st_clients s' !! other = st_clients s !! other;
  tc_inv : stream_inv s -> stream_inv s'
}.

(** ** Lemmas: one stream *)

#[global] Instance touches_preorder (cid : nat) : PreOrder (touches cid).
Proof.
  split; [by intros s; split|]. intros s1 s2 s3 [A1 A2 A3 A4 A5] [B1 B2 B3 B4 B5].
  split; [congruence..| |auto]. intros o Ho. by rewrite B4, A4.
Qed.

Section Touches.
Context `{GoRuntime}.
Implicit Types (s : Stream) (cid : nat).

Lemma startConnectLoop_touches cid s : touches cid s (startConnectLoop s).
Proof. split; [unfold startConnectLoop; by destruct (st_loop s)..|apply startConnectLoop_inv]. Qed.

Lemma Start_touches cid (now : Z) s : touches cid s (Start now s).
Proof.
  split; [..|apply Start_inv];
    unfold Start; destruct (negb _); try done; unfold startConnectLoop, unsafeSetState;
    case_bool_decide; cbn; repeat case_match; done.
Qed.

Lemma AddClient_touches (queue : Z) cid (id : gostring) s :
  (0 <= queue)%Z -> exists s' cs, AddClient queue cid id s = Done (s', cs) /\ touches cid s s'.
Proof.
  intros Hq. destruct (AddClient_spec queue cid id s Hq) as (s' & cs & E & Hsp).
  exists s', cs. split; [done|]. split; [..|by eapply AddClient_inv];
    destruct (st_clients s !! cid); destruct Hsp as [-> ->]; unfold stopIdleTimer, startConnectLoop;
    destruct (st_timer s); cbn; try done; destruct (_ =st _); cbn; try (by destruct (st_loop s)).
  all: intros o Ho; try (destruct (st_loop s); cbn); by rewrite lookup_insert_ne.
Qed.

Lemma RemoveClient_touches (now : Z) cid s :
  stream_inv s -> exists s', RemoveClient now cid s = Done s' /\ touches cid s s' /\ st_clients s' !! cid = None.
Proof.
  intros Hi. pose proof (RemoveClient_spec now cid s Hi) as E. eexists. split; [exact E|].
  split; [|by destruct (_ && _); cbn; rewrite lookup_delete_eq].
  split; [by destruct (_ && _)..| |intros _; by eapply RemoveClient_inv].
  intros o Ho. destruct (_ && _); cbn; by rewrite lookup_delete_ne.
Qed.

Lemma MapChannel_touches cid (u c : Z) s : touches cid s (Stream_MapChannel cid u c s).
Proof.
  split; [done..| |].
  - intros o Ho. cbn. unfold MapChannel. destruct (_ !! cid); [|done]. by rewrite lookup_insert_ne.
  - intros Hs. apply with_clients_inv; [|done]. apply MapChannel_registered. apply Hs.
Qed.

Lemma with_remote_touches cid (r : option Remote) s : touches cid s (with_remote s r).
Proof. split; try done. by apply (stream_inv_frame s). Qed.

End Touches.

(** ** Lemmas: a request on its stream *)

Section Serving.
Context `{GoRuntime}.
Implicit Types (s : Stream) (cid : nat).

Lemma serve_begin_touches cid (now : Z) (request : Request) s : touches cid s (serve_begin now request s).
Proof.
  unfold serve_begin, handleOptions_begin, handleDescribe_begin, handleSetup_begin.
  destruct (route_of request); try reflexivity; try apply Start_touches.
  destruct (_ =s _); [apply Start_touches|reflexivity].
Qed.

Lemma transport_in_elem (p : Transport -> bool) (entries : list (gostring * Session)) x :
  transport_in entries p = Some x -> exists e, e ∈ entries /\ x.2 ∈ sess_Transports e.2 /\ x.1.1 = e.1.
Proof.
  induction entries as [|[id session] es IH]; [done|]. cbn [transport_in].
  destruct (find_transport p (sess_Transports session)) as [[i t]|] eqn:E.
  - intros [= <-]. exists (id, session). split; [apply list_elem_of_here|]. split; [|done].
    by eapply list_elem_of_lookup_2, find_transport_Some.
  - intros Hx. destruct (IH Hx) as (e & He & Ht). exists e. split; [by apply list_elem_of_further|done].
Qed.

Lemma LookupTransport_elem (n p c : gostring) s x :
  LookupTransport n p c s = Some x ->
  exists session, st_sessions s !! x.1.1 = Some session /\ x.2 ∈ sess_Transports session.
Proof.
  unfold LookupTransport. destruct (st_remote s); [|done]. intros Hx.
  apply transport_in_elem in Hx as ([id session] & He & Ht & ->). rewrite map_range_perm in He.
  exists session. split; [by apply elem_of_map_to_list|done].
Qed.

Lemma map_channels_touches cid (interleaved : gostring) (t : Transport) s :
  is_Some (Substreams t !! 0%Z) -> is_Some (Substreams t !! 1%Z) ->
  exists s', map_channels cid interleaved t s = Done s' /\ touches cid s s'.
Proof.
  intros [s0 H0] [s1 H1]. unfold map_channels. rewrite H0, H1.
  destruct (_ =s _); [by exists s|]. destruct (Split _ _) as [|c1 [|c2 rest]]; [by exists s|..];
    (eexists; split; [reflexivity|]); [apply MapChannel_touches|].
  etrans; apply MapChannel_touches.
Qed.

Lemma handleSetup_total (queue : Z) cid (client : Client) (w : waited) (request : Request) s :
  (0 <= queue)%Z -> is_Some (req_URL request) -> channels_known s ->
  exists s' r, handleSetup_end queue cid client w request s = Done (s', r) /\ touches cid s s'.
Proof.
  intros Hq [u Hu] Hc. unfold handleSetup_end, GetURL. rewrite Hu. cbn [outcome_bind Path].
  destruct (parseTransport _) as [[protocol comType] params].
  set (serve := match LookupTransport _ _ _ s with Some _ => _ | None => _ end).
  assert (Hserve : exists s' r, serve = Done (s', r) /\ touches cid s s').
  { subst serve. destruct (LookupTransport _ _ _ s) as [[[sid i] t]|] eqn:El; [|by exists s, responseBadRequest].
    destruct (LookupTransport_elem _ _ _ _ _ El) as (session & Hs & Ht). cbn [fst snd] in Hs, Ht.
    pose proof (Hc _ _ Hs) as Hf. rewrite Forall_forall in Hf. destruct (Hf t Ht) as [H0 H1].
    destruct (AddClient_touches queue cid (tr_Session t) s Hq) as (s1 & cs & E1 & T1). rewrite E1. cbn [outcome_bind].
    destruct (map_channels_touches cid (map_get params (str "interleaved")) t s1 H0 H1) as (s2 & E2 & T2).
    rewrite E2. cbn [outcome_bind]. eexists _, _. split; [reflexivity|]. by etrans. }
  clearbody serve. destruct w; [by exists s, responseBadRequest|destruct (_ =st _)..];
    first [exact Hserve | by eexists s, _].
Qed.

(** Every route ends in an answer, completed. *)
Lemma serve_end_total (queue now : Z) cid (client : Client) (w : waited) (request : Request) s :
  (0 <= queue)%Z -> is_Some (req_URL request) -> channels_known s -> stream_inv s ->
  exists s' r, serve_end queue now cid client w request s = Done (s', finish_response request r)
    /\ touches cid s s'.
Proof.
  intros Hq Hu Hc Hi. unfold serve_end. destruct (route_of request); try (eexists s, _; by split).
  - destruct (handleSetup_total queue cid client w request s Hq Hu Hc) as (s' & r & E & T).
    rewrite E. by exists s', r.
  - unfold handleTeardown. destruct (RemoveClient_touches now cid s Hi) as (s' & E & T & _).
    rewrite E. cbn [outcome_bind]. by eexists s', _.
Qed.

End Serving.

(** ** Lemmas: the registry *)

#[global] Instance evolves_preorder (cid : nat) (may : option gostring) : PreOrder (evolves cid may).
Proof.
  split.
  - intros sm Hok. split; [done..|]. intros id s' Hs Hc. left. by exists s'.
  - intros sm1 sm2 sm3 H12 H23 Hok. destruct (H12 Hok) as [O2 S2 C2]. destruct (H23 O2) as [O3 S3 C3].
    split; [done|by etrans|]. intros id s3 Hs Hc.
    destruct (C3 id s3 Hs Hc) as [(s2 & Hs2 & Hc2)|Hm]; [|by right].
    destruct (C2 id s2 Hs2 Hc2) as [Hs1|(key & -> & Hm)]; [by left|]. right. exists key. split; [done|].
    by eapply lookup_weaken.
Qed.

Lemma evolves_may (cid : nat) (may : option gostring) (sm sm' : StreamManager) :
  evolves cid None sm sm' -> evolves cid may sm sm'.
Proof.
  intros He Hok. destruct (He Hok) as [E1 E2 E3]. split; try done.
  intros id s' Hs Hc. destruct (E3 id s' Hs Hc) as [?|(? & ? & _)]; [by left|done].
Qed.

Lemma set_stream_evolves (cid : nat) (key : gostring) (id : nat) (s s' : Stream) (sm : StreamManager) :
  mg_heap sm !! id = Some s -> mg_streams sm !! key = Some id -> touches cid s s' ->
  evolves cid (Some key) sm (set_stream sm id s').
Proof.
  intros Hs Hk [T1 T2 T3 T4 T5] [[Me Mg] Rc]. split; [split; [split|..]|done|]; cbn.
  - intros k i Hl. destruct (Me k i Hl) as (Hki & s0 & Hs0 & Hid & Hi). split; [done|].
    destruct (decide (i = id)) as [-> |Hne]; [|exists s0; by rewrite lookup_insert_ne].
    exists s'. rewrite lookup_insert_eq. assert (s0 = s) as -> by congruence.
    split; [done|]. split; [by rewrite T1|auto].
  - done.
  - apply map_Forall_insert_2; [|done]. unfold channels_known. rewrite T3. by apply (Rc id).
  - intros i s0. rewrite lookup_insert_Some. intros [[<- <-]|[Hne Hl]] Hc; [|left; by exists s0].
    right. by exists key.
Qed.

Lemma GetStream_evolves (cid : nat) (idle now : Z) (done : bool) (host user pass path : gostring)
    (sm : StreamManager) :
  evolves cid None sm (GetStream idle now done host user pass path sm).1.
Proof.
  intros [Hm Hc]. pose proof (GetStream_inv idle now done host user pass path sm Hm) as Hm'.
  unfold GetStream in *. destruct (mg_streams sm !! _) as [id|] eqn:E.
  { split; [by split|done|]. intros i s Hs Hi. left. by exists s. }
  cbn [fst] in *. split; [split; [done|]|..]; cbn.
  - apply map_Forall_insert_2; [apply map_Forall_empty|done].
  - by apply insert_subseteq.
  - intros i s'. rewrite lookup_insert_Some. intros [[<- <-]|[Hne Hl]] Hi; [by destruct Hi|].
    left. by exists s'.
Qed.

(** A registered stream is on the heap and in order. *)
Lemma registered_stream (key : gostring) (id : nat) (sm : StreamManager) :
  registry_ok sm -> mg_streams sm !! key = Some id ->
  exists s, mg_heap sm !! id = Some s /\ stream_inv s /\ channels_known s /\ ident_key (st_ident s) = key.
Proof.
  intros [Hm Hc] Hk. destruct (mi_entry _ Hm _ _ Hk) as (_ & s & Hs & Hid & Hi).
  exists s. split_and!; try done. by apply (Hc id).
Qed.

Lemma GetStream_registered (idle now : Z) (done : bool) (host user pass path : gostring) (sm : StreamManager) :
  let found := GetStream idle now done host user pass path sm in
  mg_streams found.1 !! stream_key host user pass path = Some found.2.
Proof.
  cbn. unfold GetStream. destruct (mg_streams sm !! _) as [id|] eqn:E; [done|]. cbn. by rewrite lookup_insert_eq.
Qed.

(** ** Lemmas: the turns of a reader *)

Lemma one_read_each (cap : nat) (sent : list gostring) (more : gostring) :
  Forall (one_read cap) sent ->
  requests_of (client_reader cap ((fun text => Ready (length text)) <$> sent) [] (concat sent ++ more)).1 = sent.
Proof.
  induction 1 as [|text sent (Hn & Hd & Hl) _ IH]; [done|]. cbn [fmap list_fmap client_reader concat].
  rewrite <- app_assoc. cbn [app length]. rewrite Nat.sub_0_r, Nat.min_l by done.
  rewrite take_app_length, drop_app_length.
  assert (En : client_next text = CEvent (CRequest text) []).
  { destruct text as [|c text]; [done|]. cbn [client_next]. destruct (c =c DOLLAR) eqn:E; [|done].
    reflect_bool. destruct Hd. by rewrite E. }
  rewrite En. destruct (client_reader _ _ _ _) as [evs e]. cbn in *. by f_equal.
Qed.

Section Turns.
Context `{GoRuntime, NetURL}.
Variables (cap : nat) (queue idle : Z).
Hypothesis Hq : (0 <= queue)%Z.

Lemma parsed_url (text : gostring) (request : Request) :
  text <> [] -> NewRequestFromBuffer text = Ok request -> is_Some (req_URL request).
Proof.
  intros Ht. unfold NewRequestFromBuffer. destruct text as [|c t]; [done|]. unfold ParseRequest.
  destruct (sharedLineSplit (c :: t)) as [next line]. unfold ParseCommand.
  destruct (token_loop line) as [m b1]. destruct (token_loop (drop 1 b1)) as [u b2].
  destruct (token_loop (drop 1 b2)) as [v b3]. destruct (_ || _); [done|].
  destruct (url_Parse _) as [url|e]; [|done]. cbn [result_bind].
  destruct (parse_headers _ _) as [[hs rest]|e]; [|done]. cbn [result_bind]. by intros [= <-].
Qed.

(** The camera is chosen once; the request keeps its method and headers. *)
Lemma resolve_total (client : Client) (request : Request) :
  is_Some (req_URL request) ->
  exists t, resolve_target client request = Done t
    /\ match t with
       | Resolved client' request' =>
           is_Some (req_URL request') /\ req_Headers request' = req_Headers request
           /\ req_Method request' = req_Method request /\ (cl_host client <> [] -> client' = client)
       | Probe r =>
           cl_host client = [] /\ req_Method request = str "OPTIONS"
           /\ (exists u, req_URL request = Some u /\ (Path u = str "*" \/ Path u = str "/" \/ Path u = []))
           /\ rsp_Code r = 200%Z /\ rsp_Headers r !! str "CSeq" = Some (getHeader request (str "CSeq"))
       end.
Proof.
  intros [u Hu]. unfold resolve_target. rewrite Hu. destruct (cl_host client =s []) eqn:Eh; reflect_bool; cbn [negb].
  2:{ eexists. split; [done|]. split_and!; [by rewrite Hu|done..]. }
  assert (Hprobe : (req_Method request =s str "OPTIONS")
      && ((Path u =s str "*") || (Path u =s str "/") || (Path u =s [])) = true ->
    req_Method request = str "OPTIONS" /\ (Path u = str "*" \/ Path u = str "/" \/ Path u = [])).
  { unfold seq_eqb. rewrite andb_true_iff, !orb_true_iff, !bool_decide_eq_true. tauto. }
  repeat first [destruct (split_credentials _ _ _) as [[? ?] ?] | destruct (_ && _)
               | destruct (SplitN _ _ _) as [|? [|? [|? ?]]] | destruct (_ =s str "rtsp")];
    (eexists; split; [reflexivity|]); try by split_and!.
  all: destruct (Hprobe eq_refl) as [Hm Hp]; split_and!; [done|done|by exists u|done|].
  all: cbn; by rewrite lookup_insert_eq.
Qed.

Lemma message_begin_spec (t : turn) (text : gostring) (h : Handler) (sm : StreamManager) :
  handler_inv h sm -> text <> [] ->
  exists b, message_begin idle t text h sm = Done b
    /\ match b with
       | BReturn written =>
           ends_reader written text /\ (written = [] \/ exists r, written = [Probed (Response_String r)])
       | BServe h' id request sm' =>
           hd_id h' = hd_id h /\ hd_stream h' = Some id /\ is_Some (req_URL request)
           /\ (exists request0, NewRequestFromBuffer text = Ok request0
               /\ req_Headers request = req_Headers request0 /\ req_Method request = req_Method request0)
           /\ (cl_host (hd_client h) <> [] -> hd_client h' = hd_client h)
           /\ mg_streams sm' !! target_key (hd_client h') = Some id
           /\ evolves (hd_id h) (Some (target_key (hd_client h'))) sm sm'
       end.
Proof.
  intros [Hok _] Ht. unfold message_begin.
  destruct (NewRequestFromBuffer text) as [request0|e] eqn:Ep; [|by eexists; split; [done|]; split; [left; eauto|left]].
  destruct (resolve_total (hd_client h) request0 (parsed_url _ _ Ht Ep)) as (target & E & Hr).
  rewrite E. cbn [outcome_bind]. destruct target as [client request|r]; cycle 1.
  { destruct Hr as (_ & Hm & (u & Hu & Hp) & Hcode & Hcseq).
    eexists. split; [done|]. split; [right; by exists request0, u, r|right; by eexists]. }
  destruct Hr as (Hu & Hh & Hm & Hc).
  pose proof (GetStream_registered idle (tn_now t) (tn_done t) (cl_host client) (cl_username client)
    (cl_password client) (cl_basePath client) sm) as Hreg. cbn zeta in Hreg.
  pose proof (GetStream_evolves (hd_id h) idle (tn_now t) (tn_done t) (cl_host client) (cl_username client)
    (cl_password client) (cl_basePath client) sm) as Hev.
  destruct (GetStream idle _ _ _ _ _ _ sm) as [sm1 id]. cbn [fst snd] in *.
  destruct (registered_stream _ _ _ (ev_ok _ _ _ _ (Hev Hok)) Hreg) as (s & Hs & Hi & _).
  unfold on_stream. rewrite Hs. cbn [outcome_bind]. eexists. split; [done|].
  split_and!; try done; [by exists request0|]. cbn [hd_client]. transitivity sm1; [by apply evolves_may|].
  apply (set_stream_evolves _ _ _ s); [done|done|apply serve_begin_touches].
Qed.

Lemma message_end_spec (t : turn) (h : Handler) (id : nat) (request : Request) (sm : StreamManager) :
  registry_ok sm -> mg_streams sm !! target_key (hd_client h) = Some id -> is_Some (req_URL request) ->
  exists sm' r, message_end queue t h id request sm = Done (sm', finish_response request r)
    /\ mg_streams sm' = mg_streams sm
    /\ evolves (hd_id h) (Some (target_key (hd_client h))) sm sm'.
Proof.
  intros Hok Hreg Hu. destruct (registered_stream _ _ _ Hok Hreg) as (s & Hs & Hi & Hc & _).
  unfold message_end. rewrite Hs.
  destruct (serve_end_total queue (tn_now t) (hd_id h) (hd_client h) (tn_wait t) request s Hq Hu Hc Hi)
    as (s' & r & E & T). rewrite E. cbn [outcome_bind]. eexists _, r. split; [done|]. split; [done|].
  by apply (set_stream_evolves _ _ _ s).
Qed.

Lemma frame_turn_spec (t : turn) (channel : Z) (data : gostring) (h : Handler) (sm : StreamManager) :
  handler_inv h sm ->
  let '(done, sm') := frame_turn t channel data h sm in
  (done = [] \/ exists id wire, done = [Forwarded id wire] /\ hd_stream h = Some id)
  /\ mg_streams sm' = mg_streams sm
  /\ evolves (hd_id h) (Some (target_key (hd_client h))) sm sm'.
Proof.
  intros [Hok Hst]. unfold frame_turn. destruct (hd_stream h) as [id|]; [|split; [by left|done]].
  specialize (Hst id eq_refl). destruct (registered_stream _ _ _ Hok Hst) as (s & Hs & _). rewrite Hs.
  destruct (forward_frame _ _ _ _ _ s) as [s' wire] eqn:E. split; [right; by exists id, wire|]. split; [done|].
  apply (set_stream_evolves _ _ _ s); [done|done|]. unfold forward_frame in E.
  destruct (st_remote s); [|by injection E as <- _]. destruct (SendBinary _ _ _ _ _) as [[r' w'] ?].
  injection E as <- _. apply with_remote_touches.
Qed.

Lemma leave_spec (now : Z) (h : Handler) (sm : StreamManager) :
  handler_inv h sm ->
  exists sm', leave now h sm = Done sm'
    /\ evolves (hd_id h) (Some (target_key (hd_client h))) sm sm'
    /\ mg_streams sm' = mg_streams sm
    /\ forall id s, hd_stream h = Some id -> mg_heap sm' !! id = Some s -> st_clients s !! hd_id h = None.
Proof.
  intros [Hok Hst]. unfold leave. destruct (hd_stream h) as [id|]; [|by exists sm].
  specialize (Hst id eq_refl). destruct (registered_stream _ _ _ Hok Hst) as (s & Hs & Hi & _).
  unfold on_stream. rewrite Hs. destruct (RemoveClient_touches now (hd_id h) s Hi) as (s' & E & T & Hn).
  rewrite E. cbn [outcome_bind]. eexists. split; [done|]. split; [by apply (set_stream_evolves _ _ _ s)|].
  split; [done|]. intros i s0 [= <-]. cbn. rewrite lookup_insert_eq. by intros [= <-].
Qed.

(** *** Whole runs *)

(** What is kept of a run that starts in [h] and [sm]. *)
Record confined_run (h : Handler) (sm : StreamManager) (evs : list served) (e : handler_exit) : Prop := {
  cr_client : hd_client (exit_handler e) = hd_client h;
  cr_streams : mg_streams sm ⊆ mg_streams (exit_manager e);
  cr_served : Forall (fun id => mg_streams (exit_manager e) !! target_key (hd_client h) = Some id) (streams_of evs);
  cr_confined : confined (exit_handler e) (exit_manager e);
  cr_left : returned e = true ->
    map_Forall (fun _ s => st_clients s !! hd_id h = None) (mg_heap (exit_manager e))
}.

Record run_result (turns : list turn) (buf input : gostring) (h : Handler) (sm : StreamManager)
    (evs : list served) (e : handler_exit) : Prop := {
  rr_answers : exists done rest,
    requests_of (client_reader cap (tn_read <$> turns) buf input).1 = done ++ rest
    /\ Forall2 answers done (answers_of evs)
    /\ match rest with [] => True | text :: _ => returned e = true /\ ends_reader evs text end;
  rr_inv : handler_inv (exit_handler e) (exit_manager e);
  rr_id : hd_id (exit_handler e) = hd_id h;
  rr_confined : cl_host (hd_client h) <> [] -> confined h sm -> confined_run h sm evs e
}.

Lemma handler_evolves (h : Handler) (may : option gostring) (sm sm' : StreamManager) :
  evolves (hd_id h) may sm sm' -> handler_inv h sm -> handler_inv h sm'.
Proof.
  intros He [Hok Hst]. destruct (He Hok) as [O S _]. split; [done|]. intros id Hid. by eapply lookup_weaken, S; auto.
Qed.

Lemma others_confined (h : Handler) (sm sm' : StreamManager) :
  registry_ok sm -> evolves (hd_id h) None sm sm' -> confined h sm -> confined h sm'.
Proof.
  intros Hok He Hc id s Hs Hi. destruct (He Hok) as [_ _ C].
  destruct (C id s Hs Hi) as [(s0 & K0 & C0)|(? & ? & _)]; [|done]. by apply (Hc id s0).
Qed.

Lemma own_confined (h h' : Handler) (id : nat) (sm sm' : StreamManager) :
  handler_inv h sm -> hd_id h' = hd_id h -> hd_client h' = hd_client h -> hd_stream h' = Some id ->
  mg_streams sm' !! target_key (hd_client h) = Some id ->
  evolves (hd_id h) (Some (target_key (hd_client h))) sm sm' -> confined h sm -> confined h' sm'.
Proof.
  intros [Hok Hst] Hid Hcl Hs' Hreg He Hc i s Hs Hi. rewrite Hid in Hi. destruct (He Hok) as [_ S C].
  rewrite Hs'. destruct (C i s Hs Hi) as [(s0 & K0 & C0)|(? & [= <-] & ?)]; [|congruence].
  pose proof (lookup_weaken _ _ _ _ (Hst i (Hc i s0 K0 C0)) S). congruence.
Qed.


(** A step in front of a run keeps what the run keeps. *)
Lemma confined_run_step (h h' : Handler) (sm sm' : StreamManager) (first evs : list served) (e : handler_exit) :
  hd_id h' = hd_id h -> hd_client h' = hd_client h -> mg_streams sm ⊆ mg_streams sm' ->
  Forall (fun id => mg_streams sm' !! target_key (hd_client h) = Some id) (streams_of first) ->
  confined_run h' sm' evs e -> confined_run h sm (first ++ evs) e.
Proof.
  intros Hid Hcl Hs Hf [A B C D E]. rewrite Hcl in *. rewrite Hid in *. split; [done|by etrans| |done|done].
  unfold streams_of. rewrite omap_app. apply Forall_app. split; [|done].
  eapply Forall_impl; [exact Hf|]. intros id Hi. exact (lookup_weaken _ _ _ _ Hi B).
Qed.

Lemma handler_return_spec (t : turn) (written : list served) (h : Handler) (sm : StreamManager) :
  handler_inv h sm -> streams_of written = [] ->
  exists e, handler_return t written h sm = Done (written, e) /\ returned e = true
    /\ exit_handler e = h /\ handler_inv h (exit_manager e)
    /\ (confined h sm -> confined_run h sm written e).
Proof.
  intros Hi Hw. destruct (leave_spec (tn_now t) h sm Hi) as (sm' & E & He & Hs & Hn).
  unfold handler_return. rewrite E. cbn [outcome_bind]. eexists. split; [reflexivity|]. cbn.
  split; [done|]. split; [done|]. split; [by apply (handler_evolves h _ sm sm' He)|]. intros Hc.
  assert (Hnone : map_Forall (fun _ s => st_clients s !! hd_id h = None) (mg_heap sm')).
  { intros id s Hl. apply eq_None_not_Some. intros Hi'. destruct (He (hv_registry _ _ Hi)) as [_ _ C].
    assert (hd_stream h = Some id) as Hid; [|rewrite (Hn id s Hid Hl) in Hi'; by destruct Hi'].
    destruct (C id s Hl Hi') as [(s0 & K0 & C0)|(key & [= <-] & Hk)]; [by apply (Hc id s0)|].
    unfold leave in E. destruct (hd_stream h) as [i|] eqn:Eh; [|injection E as <-; rewrite <-Eh; by apply (Hc id s)].
    pose proof (hv_stream _ _ Hi i Eh). congruence. }
  split; cbn; [done|by rewrite Hs|by rewrite Hw| |done].
  intros id s Hl Hi'. rewrite (Hnone id s Hl) in Hi'. by destruct Hi'.
Qed.

Lemma others_turn (t : turn) (f : StreamManager -> StreamManager) (h : Handler) (sm : StreamManager) :
  others_ok (hd_id h) f -> handler_inv h sm ->
  handler_inv h (f sm) /\ mg_streams sm ⊆ mg_streams (f sm) /\ (confined h sm -> confined h (f sm)).
Proof.
  intros Hf Hi. split; [by apply (handler_evolves h _ sm _ (Hf sm))|]. destruct (Hf sm (hv_registry _ _ Hi)) as [_ S _].
  split; [done|]. apply others_confined; [apply Hi|apply Hf].
Qed.

(** The end of the run when the reader returns. *)
Lemma return_result (t : turn) (ts : list turn) (buf input : gostring) (written : list served)
    (h : Handler) (sm sm1 : StreamManager) :
  handler_inv h sm1 -> mg_streams sm ⊆ mg_streams sm1 -> (confined h sm -> confined h sm1) ->
  streams_of written = [] -> answers_of written = [] ->
  match requests_of (client_reader cap (tn_read <$> t :: ts) buf input).1 with
  | [] => True
  | text :: _ => ends_reader written text
  end ->
  exists e, handler_return t written h sm1 = Done (written, e)
    /\ run_result (t :: ts) buf input h sm written e.
Proof.
  intros Hi Hs Hcc Hw Ha Hend. destruct (handler_return_spec t written h sm1 Hi Hw) as (e & E & Hr & Hh & He & Hc).
  exists e. split; [done|]. split.
  - exists [], (requests_of (client_reader cap (tn_read <$> t :: ts) buf input).1).
    rewrite Ha, Hr. split; [done|]. split; [done|]. by destruct (requests_of _).
  - by rewrite Hh.
  - by rewrite Hh.
  - intros _ Hc0. apply (confined_run_step h h sm sm1 [] written); auto.
Qed.

(** A turn that keeps reading, in front of a run. *)
Lemma continue_result (t : turn) (ts : list turn) (buf input buf' input' : gostring) (first evs : list served)
    (texts : list gostring) (h h' : Handler) (sm sm' : StreamManager) (e : handler_exit) :
  requests_of (client_reader cap (tn_read <$> t :: ts) buf input).1
    = texts ++ requests_of (client_reader cap (tn_read <$> ts) buf' input').1 ->
  Forall2 answers texts (answers_of first) -> hd_id h' = hd_id h ->
  (cl_host (hd_client h) <> [] -> confined h sm ->
   hd_client h' = hd_client h /\ confined h' sm' /\ mg_streams sm ⊆ mg_streams sm'
   /\ Forall (fun id => mg_streams sm' !! target_key (hd_client h) = Some id) (streams_of first)) ->
  run_result ts buf' input' h' sm' evs e -> run_result (t :: ts) buf input h sm (first ++ evs) e.
Proof.
  intros Htexts Hf Hid Hc [(dn & rest & Hd & Ha & Hr) Hi Hid' Hc']. split; [|done|congruence|].
  - exists (texts ++ dn), rest. rewrite Htexts, Hd. split; [by rewrite app_assoc|]. split.
    { unfold answers_of. rewrite omap_app. by apply Forall2_app. }
    destruct rest as [|text rest]; [done|]. destruct Hr as [Hr He]. split; [done|].
    destruct He as [He|(q & u & r & He)]; [by left|]. right. exists q, u, r.
    split_and!; try apply He. rewrite last_app. destruct He as (_ & _ & _ & _ & _ & _ & ->). done.
  - intros Hh Hconf. destruct (Hc Hh Hconf) as (Hcl & Hcf & Hs & Hfirst).
    apply (confined_run_step h h' sm sm'); try done. apply Hc'; [by rewrite Hcl|done].
Qed.

Lemma client_next_request (buf text rest : gostring) :
  client_next buf = CEvent (CRequest text) rest -> text <> [].
Proof.
  destruct buf as [|b0 t]; [done|]. cbn [client_next]. destruct (_ =c _); [|by intros [= <- _]].
  destruct t as [|? [|? [|? ?]]]; try done. by destruct (_ <? _)%Z.
Qed.

Lemma finished_answers (text : gostring) (request0 request : Request) (r : Response) :
  NewRequestFromBuffer text = Ok request0 ->
  req_Headers request = req_Headers request0 -> req_Method request = req_Method request0 ->
  answers text (request, finish_response request r).
Proof.
  intros Hp Hh Hm. exists request0. destruct (response_completed request r) as (Hv & Hc & Hs & _).
  split_and!; try done. unfold getHeader in *. by rewrite Hh in Hc.
Qed.

(** One turn on a request, up to the rest of the run. *)
Lemma request_turn (t : turn) (text : gostring) (h : Handler) (sm : StreamManager) :
  turn_ok (hd_id h) t -> handler_inv h sm -> text <> [] ->
  (exists written, message_begin idle t text h sm = Done (BReturn written)
     /\ streams_of written = [] /\ answers_of written = [] /\ ends_reader written text)
  \/ exists h' id request sm1 sm2 response,
     message_begin idle t text h sm = Done (BServe h' id request sm1)
     /\ message_end queue t h' id request (tn_during t sm1) = Done (sm2, response)
     /\ hd_id h' = hd_id h /\ handler_inv h' sm2 /\ answers text (request, response)
     /\ (cl_host (hd_client h) <> [] -> confined h sm ->
         hd_client h' = hd_client h /\ confined h' sm2 /\ mg_streams sm ⊆ mg_streams sm2
         /\ mg_streams sm2 !! target_key (hd_client h) = Some id).
Proof.
  intros [_ Hd] Hi Ht. destruct (message_begin_spec t text h sm Hi Ht) as (b & E & Hb).
  destruct b as [written|h' id request sm1]; [left|right].
  { exists written. split; [done|]. destruct Hb as [Hb [-> |[r ->]]]; done. }
  destruct Hb as (Hid & Hst & Hu & (request0 & Hp & Hh & Hm) & Hcl & Hreg & Hev).
  destruct (Hev (hv_registry _ _ Hi)) as [O1 S1 _].
  assert (Hi1 : handler_inv h' sm1) by (split; [done|]; rewrite Hst; by intros ? [= <-]).
  destruct (others_turn t (tn_during t) h' sm1) as (Hi2 & S2 & Hc2); [by rewrite Hid|done|].
  assert (Hreg2 : mg_streams (tn_during t sm1) !! target_key (hd_client h') = Some id) by (by apply Hi2).
  destruct (message_end_spec t h' id request _ (hv_registry _ _ Hi2) Hreg2 Hu) as (sm2 & r & E2 & S3 & Hev2).
  exists h', id, request, sm1, sm2, (finish_response request r).
  split; [done|]. split; [done|]. split; [done|].
  assert (Hi3 : handler_inv h' sm2) by (by apply (handler_evolves h' _ _ _ Hev2)).
  split; [done|]. split; [by apply (finished_answers text request0)|].
  intros Hne Hc. specialize (Hcl Hne). rewrite Hcl in *.
  assert (confined h' sm1) as Hc1 by (by apply (own_confined h h' id sm sm1)).
  split; [done|]. split; [|rewrite S3; split; [by etrans|done]].
  eapply (own_confined h' h' id (tn_during t sm1)); try done; rewrite ?Hcl, ?S3; auto.
Qed.

Lemma frame_confined (t : turn) (channel : Z) (data : gostring) (h : Handler) (sm sm' : StreamManager)
    (first : list served) :
  handler_inv h sm -> frame_turn t channel data h sm = (first, sm') ->
  handler_inv h sm' /\ answers_of first = [] /\ mg_streams sm' = mg_streams sm
  /\ Forall (fun id => mg_streams sm' !! target_key (hd_client h) = Some id) (streams_of first)
  /\ (confined h sm -> confined h sm').
Proof.
  intros Hi E. pose proof (frame_turn_spec t channel data h sm Hi) as Hs. rewrite E in Hs.
  destruct Hs as (Hf & Hs & Hev). split; [by apply (handler_evolves h _ _ _ Hev)|].
  rewrite Hs. split; [destruct Hf as [-> |(id & w & -> & _)]; done|]. split; [done|]. split.
  - destruct Hf as [-> |(id & w & -> & Hid)]; [constructor|]. repeat constructor. by apply Hi.
  - intros Hc. destruct (hd_stream h) as [id|] eqn:Eh.
    + eapply (own_confined h h id sm); try done. rewrite Hs. by apply Hi.
    + unfold frame_turn in E. rewrite Eh in E. by injection E as _ <-.
Qed.

Lemma run_spec (turns : list turn) : forall (buf input : gostring) (h : Handler) (sm : StreamManager),
  Forall (turn_ok (hd_id h)) turns -> handler_inv h sm ->
  exists evs e, incomingRequestHandler cap queue idle turns buf input h sm = Done (evs, e)
    /\ run_result turns buf input h sm evs e.
Proof.
  induction turns as [|t ts IH]; intros buf input h sm Hts Hi.
  { eexists _, _. split; [reflexivity|]. split; cbn; [by exists [], []|done|done|]. intros _ Hc. by split. }
  apply Forall_cons in Hts as [Ht Hts]. cbn [incomingRequestHandler].
  destruct (others_turn t (tn_before t) h sm (proj1 Ht) Hi) as (Hi1 & S1 & Hc1).
  set (sm1 := tn_before t sm) in *. clearbody sm1.
  assert (Hreturn : requests_of (client_reader cap (tn_read <$> t :: ts) buf input).1 = [] ->
    exists evs e, handler_return t [] h sm1 = Done (evs, e) /\ run_result (t :: ts) buf input h sm evs e).
  { intros Hnone. destruct (return_result t ts buf input [] h sm sm1) as (e & E & R); try done; [by rewrite Hnone|]. by exists [], e. }
  assert (Hgo : forall buf' input', requests_of (client_reader cap (tn_read <$> t :: ts) buf input).1
      = requests_of (client_reader cap (tn_read <$> ts) buf' input').1 ->
    exists evs e, incomingRequestHandler cap queue idle ts buf' input' h sm1 = Done (evs, e)
      /\ run_result (t :: ts) buf input h sm evs e).
  { intros buf' input' Hsame. destruct (IH buf' input' h sm1 Hts Hi1) as (evs & e & E & R).
    exists evs, e. split; [done|]. eapply (continue_result t ts _ _ buf' input' [] evs [] h h sm sm1); auto. }
  destruct (tn_read t) as [|k| |] eqn:Er;
    [apply Hreturn; by cbn; rewrite Er| |apply Hgo; by cbn; rewrite Er|apply Hreturn; by cbn; rewrite Er].
  clear Hreturn.
  set (buf1 := buf ++ _) in *. set (input1 := drop _ input) in *.
  destruct (client_next buf1) as [|[channel data|text] rest] eqn:En.
  - apply Hgo. cbn. rewrite Er. fold buf1 input1. by rewrite En.
  - destruct (frame_turn t channel data h sm1) as [first sm2] eqn:Ef.
    destruct (frame_confined t channel data h sm1 sm2 first Hi1 Ef) as (Hi2 & Ha & Hs2 & Hf & Hc2).
    destruct (IH rest input1 h sm2 Hts Hi2) as (evs & e & E & R). rewrite E. cbn [outcome_bind].
    eexists _, e. split; [done|].
    eapply (continue_result t ts _ _ rest input1 first evs [] h h sm sm2); try done.
    + cbn. rewrite Er. fold buf1 input1. rewrite En. by destruct (client_reader cap _ rest input1).
    + by rewrite Ha.
    + intros _ Hc. split_and!; auto. by rewrite Hs2.
  - destruct (request_turn t text h sm1 Ht Hi1 (client_next_request _ _ _ En))
      as [(written & Eb & Hw & Ha & Hend)|(h' & id & request & sm2 & sm3 & response & Eb & Ee & Hid & Hi3 & Hans & Hc3)];
      rewrite Eb; cbn [outcome_bind].
    + destruct (return_result t ts buf input written h sm sm1) as (e & E & R); try done; [|by exists written, e].
      cbn. rewrite Er. fold buf1 input1. rewrite En. by destruct (client_reader cap _ rest input1).
    + rewrite Ee. cbn [outcome_bind]. destruct (IH rest input1 h' sm3) as (evs & e & E & R); [by rewrite Hid|done|].
      rewrite E. cbn [outcome_bind]. eexists _, e. split; [done|].
      eapply (continue_result t ts _ _ rest input1 [Answered id request response] evs [text] h h' sm sm3); try done.
      * cbn. rewrite Er. fold buf1 input1. rewrite En. by destruct (client_reader cap _ rest input1).
      * by repeat constructor.
      * intros Hh Hc. destruct (Hc3 Hh (Hc1 Hc)) as (C1 & C2 & C3 & C4). split_and!; try done; [by etrans|].
        by repeat constructor.
Qed.

End Turns.

(** ** Properties *)

(** C6: A connection is served: whatever a client sends, in whatever pieces,
    and whatever the other goroutines do to the streams meanwhile, its
    reader does not panic, provided the queue size is not negative and
    every camera has named its channels in its answers to SETUP
    ([channels_known]; without it [unnamed_channels_panic]).  A request is
    what one read returned, the whole buffer: each is answered once, in
    order, with its own sequence number, by the stream registered for the
    camera the client has chosen.  The reader stops answering only where
    the code returns: at a text that does not parse, which gets no answer,
    or at an OPTIONS for the proxy itself, whose answer is the last.  A
    client that sends each request in a piece of its own, as one does that
    waits for the answers, has exactly its requests served. *)
Theorem requests_answered `{GoRuntime, NetURL} (cap : nat) (queue idle : Z) (turns : list turn)
    (buf input : gostring) (h : Handler) (sm : StreamManager) :
  (0 <= queue)%Z -> Forall (turn_ok (hd_id h)) turns -> registry_ok sm -> hd_stream h = None ->
  let texts := requests_of (client_reader cap (tn_read <$> turns) buf input).1 in
  exists evs e, incomingRequestHandler cap queue idle turns buf input h sm = Done (evs, e)
    /\ (exists done rest, texts = done ++ rest /\ Forall2 answers done (answers_of evs)
        /\ match rest with [] => True | text :: _ => returned e = true /\ ends_reader evs text end)
    /\ (forall sent more, Forall (one_read cap) sent -> buf = [] -> input = concat sent ++ more ->
        tn_read <$> turns = (fun text => Ready (length text)) <$> sent -> texts = sent)
    /\ registry_ok (exit_manager e)
    /\ forall id, hd_stream (exit_handler e) = Some id ->
         mg_streams (exit_manager e) !! target_key (hd_client (exit_handler e)) = Some id.
Proof.
  intros Hq Ht Hok Hs texts.
  destruct (run_spec cap queue idle Hq turns buf input h sm Ht) as (evs & e & E & [Ha [] _ _]).
  { split; [done|]. by rewrite Hs. }
  exists evs, e. split; [done|]. split; [done|]. split; [|done].
  intros sent more Hone -> -> Hread. subst texts. rewrite Hread. by apply one_read_each.
Qed.

(** C5: A client stays with its camera: once the target of a connection is
    set (to a host that is not empty), every later request and frame of it
    is served by the one stream registered under its host, user name,
    password and path, whatever URLs it sends and whatever other clients
    do; no other stream ever knows it; and when its reader returns no
    stream knows it any more. *)
Theorem client_confined `{GoRuntime, NetURL} (cap : nat) (queue idle : Z) (turns : list turn)
    (buf input : gostring) (h : Handler) (sm : StreamManager) :
  (0 <= queue)%Z -> Forall (turn_ok (hd_id h)) turns -> handler_inv h sm -> confined h sm ->
  cl_host (hd_client h) <> [] ->
  exists evs e, incomingRequestHandler cap queue idle turns buf input h sm = Done (evs, e)
    /\ hd_client (exit_handler e) = hd_client h
    /\ Forall (fun id => mg_streams (exit_manager e) !! target_key (hd_client h) = Some id
                /\ exists s, mg_heap (exit_manager e) !! id = Some s
                   /\ ident_key (st_ident s) = target_key (hd_client h)) (streams_of evs)
    /\ (forall id s, mg_heap (exit_manager e) !! id = Some s -> is_Some (st_clients s !! hd_id h) ->
         mg_streams (exit_manager e) !! target_key (hd_client h) = Some id)
    /\ (returned e = true ->
         map_Forall (fun _ s => st_clients s !! hd_id h = None) (mg_heap (exit_manager e))).
Proof.
  intros Hq Ht Hi Hc Hh.
  destruct (run_spec cap queue idle Hq turns buf input h sm Ht Hi) as (evs & e & E & [_ Hi' Hid Hcr]).
  destruct (Hcr Hh Hc) as [C1 C2 C3 C4 C5]. exists evs, e. split; [done|]. split; [done|]. split_and!; [| |done].
  - eapply Forall_impl; [exact C3|]. intros id Hreg. split; [done|].
    destruct (registered_stream _ _ _ (hv_registry _ _ Hi') Hreg) as (s & Hs & _ & _ & Hk). by exists s.
  - intros id s Hs Hsome. rewrite <-C1. apply (hv_stream _ _ Hi'), (C4 id s Hs). by rewrite Hid.
Qed.

(** One request, read in one piece, then the end of the connection. *)
Definition sample_turn (it : iteration) : turn := mkTurn it 5 false id id WaitTimeout (true, true).

Definition sample_turns : list turn := map sample_turn [Ready 1000; Ready 0; ReadErr].

Definition sample_text : gostring :=
  str "OPTIONS rtsp://proxy/rtsp/cam/s RTSP/1.0" ++ CRLF ++ str "CSeq: 3" ++ CRLF ++ CRLF.

Lemma sample_turns_ok (cid : nat) : Forall (turn_ok cid) sample_turns.
Proof. by repeat (apply Forall_cons; split; [split; intros sm; reflexivity|]). Qed.

Lemma empty_registry_ok : registry_ok (NewStreamManager metrics_zero).
Proof. split; [by apply NewStreamManager_inv|apply map_Forall_empty]. Qed.

(** Two requests, each in a read of its own; the second does not parse. *)
Definition two_texts : list gostring := [sample_text; str "x" ++ CRLF ++ CRLF].

Definition two_turns : list turn := map (fun text => sample_turn (Ready (length text))) two_texts.

Lemma two_turns_ok (cid : nat) : Forall (turn_ok cid) two_turns.
Proof. by repeat (apply Forall_cons; split; [split; intros sm; reflexivity|]). Qed.

Lemma two_texts_one_read : Forall (one_read 4096) two_texts.
Proof.
  repeat (apply Forall_cons; split; [split_and!; [discriminate|discriminate|]|]); [| |constructor].
  all: apply Nat.leb_le; vm_compute; reflexivity.
Qed.

(** How many answers a run writes and whether the reader has returned. *)
Definition run_summary (r : outcome (list served * handler_exit)) : option (nat * bool) :=
  match r with Done (evs, e) => Some (length (answers_of evs), returned e) | Panic _ => None end.

Lemma requests_answered_witness :
  exists evs e text rest,
    @incomingRequestHandler sample_runtime sample_neturl 4096 100 60 two_turns [] (concat two_texts)
      (mkHandler 7 new_client None) (NewStreamManager metrics_zero) = Done (evs, e)
    /\ two_texts = [text] ++ rest /\ Forall2 (@answers sample_runtime sample_neturl) [text] (answers_of evs)
    /\ returned e = true.
Proof.
  assert (Hsum : run_summary (@incomingRequestHandler sample_runtime sample_neturl 4096 100 60 two_turns []
      (concat two_texts) (mkHandler 7 new_client None) (NewStreamManager metrics_zero)) = Some (1%nat, true))
    by (vm_compute; reflexivity).
  destruct (@requests_answered sample_runtime sample_neturl 4096 100 60 two_turns [] (concat two_texts)
    (mkHandler 7 new_client None) (NewStreamManager metrics_zero))
    as (evs & e & E & (done & rest & Hd & Ha & _) & Hone & _).
  - lia.
  - apply two_turns_ok.
  - apply empty_registry_ok.
  - reflexivity.
  - rewrite E in Hsum. injection Hsum as Hl Hret.
    rewrite (Hone two_texts [] two_texts_one_read eq_refl (eq_sym (app_nil_r _)) eq_refl) in Hd.
    pose proof (Forall2_length _ _ _ Ha) as Hlen. rewrite Hl in Hlen.
    destruct done as [|text [|]]; [discriminate| |discriminate].
    exists evs, e, text, rest. split; [exact E|]. split; [exact Hd|]. split; [exact Ha|exact Hret].
Defined.

(** Requests that arrive together are one text to the code: the second of
    two sent in one piece is dropped without an answer. *)
Example pipelined_lost :
  exists evs e, @incomingRequestHandler sample_runtime sample_neturl 4096 100 60 sample_turns []
      (sample_text ++ sample_text) (mkHandler 7 new_client None) (NewStreamManager metrics_zero)
    = Done (evs, e) /\ length (answers_of evs) = 1%nat.
Proof. eexists _, _. split; [vm_compute; reflexivity|reflexivity]. Qed.

(** A camera that did not name its channels crashes the proxy at the next
    client's SETUP with an [interleaved] parameter. *)
Example unnamed_channels_panic :
  let t := mkTransport (str "track1") (str "77") (str "RTP/AVP/TCP") (str "unicast") (str "AB") ∅ in
  let s := with_sessions playing_stream {[str "77" := mkSession (str "77") 60 [t] true]} in
  @handleSetup_end sample_runtime 100 7 new_client WaitSignal setup_request s = Panic NilDeref.
Proof. by vm_compute. Qed.

Lemma client_confined_witness :
  let h := mkHandler 7 (mkClient (str "10.0.0.1") (str "10.0.0.7") (str "cam") (str "/s") [] []) None in
  exists evs e, @incomingRequestHandler sample_runtime sample_neturl 4096 100 60 sample_turns [] sample_text
      h (NewStreamManager metrics_zero) = Done (evs, e)
    /\ hd_client (exit_handler e) = hd_client h /\ returned e = true /\ length (streams_of evs) = 1%nat.
Proof.
  intros h. destruct (@client_confined sample_runtime sample_neturl 4096 100 60 sample_turns [] sample_text
    h (NewStreamManager metrics_zero)) as (evs & e & E & Hc & _).
  - lia.
  - apply sample_turns_ok.
  - split; [apply empty_registry_ok|done].
  - intros id s Hs. done.
  - discriminate.
  - exists evs, e. split; [exact E|]. split; [exact Hc|]. vm_compute in E. injection E as <- <-. by split.
Defined.

(** A host that is empty fixes nothing: the target of such a connection is
    chosen anew with every request, and two streams serve it. *)
Example empty_host_retargets :
  let text p := str "DESCRIBE rtsp://proxy/rtsp//" ++ str p ++ str " RTSP/1.0" ++ CRLF ++ CRLF in
  exists evs e, @incomingRequestHandler sample_runtime sample_neturl 4096 100 60
      (map sample_turn [Ready (length (text "a")); Ready 1000]) [] (text "a" ++ text "b")
      (mkHandler 7 new_client None) (NewStreamManager metrics_zero) = Done (evs, e)
    /\ streams_of evs = [0; 1]%nat.
Proof. eexists _, _. split; [vm_compute; reflexivity|reflexivity]. Qed.
