(* ===== verification/Answers.v ===== *)
(** * Answers on the wire

    What a client reads: the text the proxy writes for a request, parsed
    again.  The strings of an answer come from the client's own request
    (src/rtspproxy/client.go) and from the camera (src/rtspproxy/remote.go);
    neither can break out of its header line, because both went through
    the line parser of src/rtspproxy/message.go.  The path of the stream did
    not: it comes out of [net/url] with its escapes resolved. *)

From stdpp Require Import gmap strings list fin_maps.
From Stdlib Require Import Ascii ZArith Lia.
From S2P Require Import Prelude GoStrings Message HeaderBlock Response Request Metrics Digest Framing Remote Session Fanout Stream Sdp Upstream StreamManager ClientReader Client Handler.

Local Open Scope go_scope.

(** ** Specification *)

(** Every header an answer may carry. *)
Definition ANSWER_KEYS : list gostring :=
  [str "Via"; str "CSeq"; str "Server"; str "Public"; str "Session"; str "Content-Type"; CONTENT_LENGTH;
   str "Range"; str "RTP-Info"; str "Transport"; str "Supported"; str "Cache-Control"].

(** An answer that is one message on the wire. *)
Record sendable (r : Response) : Prop := {
  sd_version : rsp_ProtocolVersion r = str "RTSP/1.0";
  sd_code : (100 <= rsp_Code r <= 999)%Z;
  sd_status : rsp_Status r <> [] /\ is_ascii (rsp_Status r) = true /\ no_eol (rsp_Status r);
  sd_headers : map_Forall (fun k v => k ∈ ANSWER_KEYS /\ no_eol v) (rsp_Headers r);
  sd_body : match rsp_Headers r !! CONTENT_LENGTH with
            | None => rsp_Body r = []
            | Some v => v = Itoa (slen (rsp_Body r)) /\ (slen (rsp_Body r) <= int64_max)%Z
            end
}.

(** What a client sees of an answer. *)
Record reads_as (r r' : Response) : Prop := {
  ra_start : (rsp_ProtocolVersion r', rsp_Code r', rsp_Status r')
             = (rsp_ProtocolVersion r, rsp_Code r, rsp_Status r);
  ra_body : rsp_Body r' = rsp_Body r;
  ra_headers : forall k v, rsp_Headers r !! k = Some v ->
    rsp_Headers r' !! canonicalHeaderKey k = Some (normal_value v);
  ra_only : forall k, is_Some (rsp_Headers r' !! k) -> exists k0, k = canonicalHeaderKey k0 /\ is_Some (rsp_Headers r !! k0)
}.

(** A fact about literal strings. *)
Ltac literal := apply (bool_decide_unpack _); by vm_compute.

(** ** Lemmas: the keys of an answer *)

(** The answer keys are header names that stay apart. *)
Lemma answer_keys_apart : NoDup (canonicalHeaderKey <$> ANSWER_KEYS).
Proof. apply (bool_decide_unpack _). by vm_compute. Qed.

Lemma answer_key_ok (k : gostring) :
  k ∈ ANSWER_KEYS -> k <> [] /\ (":"%char ∉ k) /\ no_eol k /\ is_ascii (canonicalHeaderKey k) = true.
Proof.
  revert k. apply Forall_forall. apply (bool_decide_unpack _). by vm_compute.
Qed.

Lemma answer_key_inj (k1 k2 : gostring) :
  k1 ∈ ANSWER_KEYS -> k2 ∈ ANSWER_KEYS -> canonicalHeaderKey k1 = canonicalHeaderKey k2 -> k1 = k2.
Proof.
  intros H1 H2 E. apply list_elem_of_lookup in H1 as [i Hi], H2 as [j Hj].
  assert (i = j) as ->; [|congruence]. apply (NoDup_lookup _ i j (canonicalHeaderKey k1) answer_keys_apart);
    rewrite list_lookup_fmap; [by rewrite Hi|by rewrite Hj, E].
Qed.

(** A header map as the other side reads it. *)
Section Read.
Context `{GoRuntime}.

Lemma answer_keys_distinct (h : header_map) : map_Forall (fun k _ => k ∈ ANSWER_KEYS) h -> apart h.
Proof.
  intros Hk. apply NoDup_fmap_2_strong; [|apply NoDup_fst_map_to_list].
  assert (Hin : forall x, x ∈ (map_to_list h).*1 -> x ∈ ANSWER_KEYS).
  { intros x [[k v] [-> Hx]]%list_elem_of_fmap. by apply (Hk k v), elem_of_map_to_list. }
  intros x y Hx Hy E. by apply answer_key_inj; auto.
Qed.

Lemma answer_parsed_keys (h : header_map) :
  map_Forall (fun k _ => k ∈ ANSWER_KEYS) h -> parsed_keys (normal_headers h).
Proof. intros Hk. apply normal_parsed_keys. intros k v Hl. by apply answer_key_ok, (Hk k v). Qed.

(** The announced length is read back as it was written. *)
Lemma normal_Itoa (n : Z) : (0 <= n)%Z -> normal_value (Itoa n) = Itoa n.
Proof.
  intros Hn. pose proof (Itoa_word n Hn) as [_ Hw]. unfold normal_value.
  assert (Hf : forall s, Forall (fun c => c <> SP /\ c <> TAB /\ c <> CR /\ c <> LF) s ->
    Forall (fun c => is_digit c = true) s -> clean_from false s = true).
  { induction s as [|c s IH]; [done|]. intros [(A & B & C & D) Hs]%Forall_cons [Hd Hds]%Forall_cons. cbn [clean_from].
    rewrite !ceq_neq by done. cbn. rewrite (ceq_neq c ";"%char) by (intros ->; done). auto. }
  assert (Hc : clean_value (Itoa n) = true).
  { unfold clean_value. destruct (Itoa n) as [|c t] eqn:E; [done|]. rewrite <-E in *.
    rewrite Hf; [|done|by apply Itoa_digits]. rewrite E in Hw. apply Forall_cons in Hw as [(A & _) _].
    by rewrite ceq_neq. }
  rewrite skip_blanks_clean by done. by apply value_loop_clean, clean_value_from.
Qed.

Lemma answer_lines (h : header_map) :
  map_Forall (fun k v => k ∈ ANSWER_KEYS /\ no_eol v) h -> map_Forall (fun k v => line_entry (k, v)) h.
Proof.
  intros Hh k v Hin. destruct (Hh k v Hin) as [Hk Hv].
  destruct (answer_key_ok k Hk) as (_ & B & C & _). by split_and!.
Qed.

Lemma normal_length (h : header_map) (body : gostring) :
  map_Forall (fun k _ => k ∈ ANSWER_KEYS) h ->
  match h !! CONTENT_LENGTH with
  | None => body = []
  | Some v => v = Itoa (slen body) /\ (slen body <= int64_max)%Z
  end ->
  let raw := headerGet (normal_headers h) CONTENT_LENGTH in
  (raw = [] /\ body = []) \/ (raw = Itoa (slen body) /\ (slen body <= int64_max)%Z).
Proof.
  intros Hk Hb raw. subst raw. rewrite headerGet_canonical by (done || by apply answer_parsed_keys).
  destruct (h !! CONTENT_LENGTH) as [v|] eqn:E.
  - right. destruct Hb as [-> Hmax]. rewrite (normal_headers_lookup h CONTENT_LENGTH (Itoa (slen body))) by (done || by apply answer_keys_distinct).
    cbn. by rewrite normal_Itoa by apply slen_nonneg.
  - left. split; [|done]. destruct (normal_headers h !! _) as [v|] eqn:E2; [|done].
    apply normal_headers_only in E2 as (k0 & v0 & Hc & _ & Hl).
    assert (CONTENT_LENGTH = k0) as <-; [|congruence].
    apply answer_key_inj; [|by apply (Hk k0 v0)|done]. apply (bool_decide_unpack _). by vm_compute.
Qed.

Lemma sendable_read (r : Response) (tail : gostring) :
  sendable r -> exists r', NewResponseFromBuffer (Response_String r ++ tail) = Ok r' /\ reads_as r r'.
Proof.
  intros [Hv Hc (Hs1 & Hs2 & Hs3) Hh Hb].
  assert (Hkeys : map_Forall (fun k _ => k ∈ ANSWER_KEYS) (rsp_Headers r)) by (intros k v Hl; by apply (Hh k v Hl)).
  exists (mkResponse (rsp_Status r) (rsp_ProtocolVersion r) (rsp_Code r) (normal_headers (rsp_Headers r)) (rsp_Body r)).
  split.
  - assert (Hw : rsp_ProtocolVersion r <> [] /\ word (rsp_ProtocolVersion r)).
    { rewrite Hv. split; [done|]. apply (bool_decide_unpack _). by vm_compute. }
    apply print_parse; try done; try apply Hw; [|by apply normal_length].
    apply parse_printed_map; [by apply answer_lines|by apply answer_keys_distinct].
  - split; cbn; [done|done|..].
    + intros k v. by apply normal_headers_lookup, answer_keys_distinct.
    + intros k [v Hl]. apply normal_headers_only in Hl as (k0 & v0 & -> & _ & Hl). exists k0. by split.
Qed.

End Read.

(** ** Where the strings come from *)

(** A stream whose strings stay on their line. *)
Record clean_stream (s : Stream) : Prop := {
  cs_server : no_eol (Server (st_meta s));
  cs_options : no_eol (Options (st_meta s));
  cs_transports : map_Forall (fun _ ss => Forall (fun t => no_eol (tr_Session t) /\ no_eol (Ssrc t))
                                            (sess_Transports ss)) (st_sessions s)
}.

Definition clean_headers (h : header_map) : Prop := map_Forall (fun _ v => no_eol v) h.

(** *** Parsed messages *)

Lemma normal_no_eol (s : gostring) : no_eol s -> no_eol (normal_value s).
Proof.
  intros Hn. eapply clean_from_no_eol, clean_value_from. by apply parsed_value_clean.
Qed.

(** A property of every value the parser produces holds of every value of
    a parsed map. *)
Lemma parsed_headers_all (P : gostring -> Prop) (next : gostring) : forall (h h' : header_map) (rest : gostring),
  (forall v, no_eol v -> P (normal_value v)) ->
  map_Forall (fun _ => P) h -> parse_headers next h = Ok (h', rest) -> map_Forall (fun _ => P) h'.
Proof.
  remember (length next) as n eqn:Hn. revert next Hn. induction (lt_wf n) as [n _ IH].
  intros next -> h h' rest HP Hh.
  rewrite parse_headers_unfold. pose proof (lineSplit_shorter next) as Hs.
  pose proof (lineSplit_decomposes next) as [Hl _].
  destruct (sharedLineSplit next) as [next' [|c line]]; [by intros [= <- <-]|]. cbn [fst snd] in *.
  destruct (sharedParseHeader (c :: line)) as [[key value]|e] eqn:E; [|done].
  intros Hp. eapply (IH (length next')); [by apply Hs|done|done| |exact Hp].
  apply map_Forall_insert_2; [|done]. unfold sharedParseHeader in E.
  destruct (IndexByte (c :: line) ":"%char) as [i|]; [|done]. injection E as _ <-.
  apply (HP (drop (S i) (c :: line))). by apply no_eol_drop.
Qed.

Section Provenance.
Context `{GoRuntime}.

Lemma headerGet_all (P : gostring -> Prop) (h : header_map) (key : gostring) :
  P [] -> map_Forall (fun _ => P) h -> P (headerGet h key).
Proof.
  intros H0 Hh. unfold headerGet. destruct (h !! key) as [v|] eqn:E1; [by apply (Hh key)|].
  destruct (h !! canonicalHeaderKey key) as [v|] eqn:E2; [by apply (Hh _ v E2)|].
  assert (Hs : forall es, (forall k v, (k, v) ∈ es -> P v) -> forall l, P (header_scan es l)).
  { induction es as [|[k v] es IH]; intros Hes l; cbn; [done|].
    destruct (_ =s _); [by apply (Hes k), list_elem_of_here|].
    apply IH. intros k' v' Hin. by apply (Hes k'), list_elem_of_further. }
  apply Hs. intros k v Hin. rewrite map_range_perm in Hin. apply elem_of_map_to_list in Hin. by apply (Hh k).
Qed.

Lemma headerGet_clean (h : header_map) (key : gostring) : clean_headers h -> no_eol (headerGet h key).
Proof. apply headerGet_all, no_eol_nil. Qed.

Lemma parsed_request_all `{NetURL} (P : gostring -> Prop) (text : gostring) (request : Request) :
  (forall v, no_eol v -> P (normal_value v)) ->
  NewRequestFromBuffer text = Ok request -> map_Forall (fun _ => P) (req_Headers request).
Proof.
  intros HP. unfold NewRequestFromBuffer. destruct text as [|c t]; [intros [= <-]; apply map_Forall_empty|].
  unfold ParseRequest. destruct (sharedLineSplit (c :: t)) as [next line]. unfold ParseCommand.
  destruct (token_loop line) as [m b1]. destruct (token_loop (drop 1 b1)) as [u b2].
  destruct (token_loop (drop 1 b2)) as [v b3]. destruct (_ || _); [done|].
  destruct (url_Parse _) as [url|e]; [|done]. cbn [result_bind req_Headers].
  destruct (parse_headers next ∅) as [[hs rest]|e] eqn:E; [|done]. cbn [result_bind]. intros [= <-].
  eapply parsed_headers_all; [exact HP|apply map_Forall_empty|exact E].
Qed.

(** *** Answers *)

Lemma rsp_set_sendable (r : Response) (k v : gostring) :
  sendable r -> k ∈ ANSWER_KEYS -> k <> CONTENT_LENGTH -> no_eol v -> sendable (rsp_set r k v).
Proof.
  intros [A B C D E] Hk Hne Hv. split; cbn; try done.
  - by apply map_Forall_insert_2.
  - by rewrite lookup_insert_ne.
Qed.

Lemma NewResponse_sendable (code : Z) (status : gostring) :
  (100 <= code <= 999)%Z -> status <> [] -> is_ascii status = true -> no_eol status ->
  sendable (NewResponse code [status]).
Proof. intros Hc H1 H2 H3. by split. Qed.

(** An answer built header by header: what is left are the values. *)
Ltac sendable :=
  repeat (apply rsp_set_sendable; [|literal|discriminate|]); [apply NewResponse_sendable; [lia|discriminate|done|literal]|..].

Lemma finish_sendable (request : Request) (r : Response) :
  clean_headers (req_Headers request) -> sendable r -> sendable (finish_response request r).
Proof.
  intros Hh Hr. unfold finish_response.
  assert (Hset : forall r0 k v, k ∈ ANSWER_KEYS -> k <> CONTENT_LENGTH -> no_eol v -> sendable r0 -> sendable (rsp_set r0 k v))
    by (intros; by apply rsp_set_sendable).
  assert (Hin : forall k, bool_decide (k ∈ ANSWER_KEYS) = true -> k ∈ ANSWER_KEYS) by (intros k; apply bool_decide_eq_true).
  set (r1 := rsp_set r _ _). assert (H1 : sendable r1).
  { apply Hset; [apply Hin; by vm_compute|done|apply (bool_decide_unpack _); by vm_compute|done]. }
  set (r2 := if negb _ then _ else r1). assert (H2 : sendable r2).
  { subst r2. destruct (negb _); [|done]. apply Hset; [apply Hin; by vm_compute|done|by apply headerGet_clean|done]. }
  assert (H3 : sendable (rsp_set r2 (str "Server") PROXY_SERVER)).
  { apply Hset; [apply Hin; by vm_compute|done|apply (bool_decide_unpack _); by vm_compute|done]. }
  destruct (rsp_Headers r2 !! str "Server") as [server|]; [destruct (server =s [])|]; done.
Qed.

Lemma match_endpoint_suffix (s rest : gostring) : match_endpoint s = Some rest -> rest `suffix_of` s.
Proof.
  unfold match_endpoint. set (t := match s with c :: t => _ | [] => [] end).
  assert (Ht : t `suffix_of` s).
  { subst t. destruct s as [|c t]; [done|]. destruct (_ =c _); [by apply suffix_cons_r|done]. }
  assert (Hd : forall n, drop n t `suffix_of` t) by (intros n; exists (take n t); by rewrite take_drop).
  assert (Hv : forall v, v `suffix_of` t -> match span (fun c => c <>c ";"%char) v with
      | ([], _) => None | (_, rest) => Some rest end = Some rest -> rest `suffix_of` s).
  { intros v Hv. pose proof (span_all (fun c => c <>c ";"%char) v) as Hs.
    destruct (span _ v) as [[|c a] b]; [done|]. intros [= <-]. etrans; [|exact Ht]. etrans; [|exact Hv].
    by eexists. }
  destruct (HasPrefix t _); [apply Hv, Hd|]. destruct (HasPrefix t _); [apply Hv, Hd|done].
Qed.

Lemma no_eol_suffix (s t : gostring) : t `suffix_of` s -> no_eol s -> no_eol t.
Proof. intros [p ->]. rewrite no_eol_app. tauto. Qed.

Lemma no_eol_clean_loop (fuel : nat) : forall (s : gostring), no_eol s -> no_eol (clean_loop fuel s).
Proof.
  induction fuel as [|f IH]; intros s Hs; [destruct s; apply no_eol_nil|].
  destruct s as [|c t]; [apply no_eol_nil|]. cbn [clean_loop].
  destruct (match_endpoint (c :: t)) as [rest|] eqn:E.
  - apply IH. eapply no_eol_suffix; [by apply match_endpoint_suffix|done].
  - apply no_eol_cons in Hs as (A & B & Hs). apply no_eol_cons. auto.
Qed.

Lemma no_eol_proxyIP (client : Client) : no_eol (cl_localAddr client) -> no_eol (proxyIP client).
Proof. intros Hl. unfold proxyIP. destruct (_ =s _); [apply (bool_decide_unpack _); by vm_compute|done]. Qed.

Lemma describe_sendable (client : Client) (w : waited) (s : Stream) :
  no_eol (Server (st_meta s)) ->
  (slen (ReplaceAll (GetSDP s) (str "0.0.0.0") (proxyIP client)) <= int64_max)%Z ->
  sendable (handleDescribe_end client w s).
Proof.
  intros Hs Hl. unfold handleDescribe_end.
  set (body := ReplaceAll _ _ _) in *. set (answer := mkResponse _ _ _ _ body).
  assert (Ha : sendable answer).
  { split; [done|cbn; lia|..|].
    - split; [done|]. split; [done|]. literal.
    - cbn. apply map_Forall_insert_2; [split; [literal|by apply word_no_eol, Itoa_word, slen_nonneg]|].
      apply map_Forall_insert_2; [by split; [literal|]|].
      apply map_Forall_insert_2; [by split; literal|apply map_Forall_empty].
    - cbn. by rewrite lookup_insert_eq. }
  destruct w; [sendable|destruct (_ =st _); [sendable|done]|destruct (_ =s _); [sendable|done]].
Qed.

Lemma done_snd {A B} (a a' : A) (b b' : B) : Done (a, b) = Done (a', b') -> b = b'.
Proof. by intros [= _ ->]. Qed.

(** What a client does leaves what the camera announced. *)
Lemma AddClient_meta (queue : Z) (cid : nat) (id : gostring) (s s' : Stream) (cs : ClientSession) :
  AddClient queue cid id s = Done (s', cs) -> st_meta s' = st_meta s.
Proof.
  unfold AddClient, stopIdleTimer, startConnectLoop. destruct (_ !! cid); [by destruct (st_timer s); intros [= <- _]|].
  destruct (NewClientSession queue id) as [cs0|]; [|done]. cbn [outcome_bind]. intros [= <- _].
  destruct (st_timer s), (_ =st _); cbn; try done; by destruct (st_loop s).
Qed.

Lemma RemoveClient_meta (now : Z) (cid : nat) (s s' : Stream) :
  RemoveClient now cid s = Done s' -> st_meta s' = st_meta s.
Proof.
  unfold RemoveClient. destruct (st_clients s !! cid) as [cs|]; [destruct (cs_Stop cs); [|done]|];
    cbn [outcome_bind]; destruct (_ && _); by intros [= <-].
Qed.

Lemma map_channels_meta (cid : nat) (interleaved : gostring) (t : Transport) (s s' : Stream) :
  map_channels cid interleaved t s = Done s' -> st_meta s' = st_meta s.
Proof.
  unfold map_channels. destruct (_ =s _); [by intros [= <-]|].
  destruct (Split _ _) as [|c1 [|c2 rest]]; [by intros [= <-]|..]; destruct (Substreams t !! 0%Z); try done.
  - by intros [= <-].
  - destruct (Substreams t !! 1%Z); [by intros [= <-]|done].
Qed.

Lemma setup_sendable (queue : Z) (cid : nat) (client : Client) (w : waited) (request : Request)
    (s s' : Stream) (r : Response) :
  clean_stream s -> clean_headers (req_Headers request) ->
  no_eol (cl_localAddr client) -> no_eol (cl_remoteAddr client) ->
  handleSetup_end queue cid client w request s = Done (s', r) -> sendable r.
Proof.
  intros [Hs Ho Ht] Hh Hl Hr. unfold handleSetup_end. destruct (GetURL request) as [u|]; [|done].
  cbn [outcome_bind]. destruct (parseTransport _) as [[protocol comType] params].
  set (serve := match LookupTransport _ _ _ s with Some _ => _ | None => _ end).
  assert (Hbad : sendable responseBadRequest) by sendable.
  assert (Hserve : serve = Done (s', r) -> sendable r).
  { subst serve. destruct (LookupTransport _ _ _ s) as [[[sid i] t]|] eqn:El; [|by intros <-%done_snd].
    destruct (LookupTransport_elem _ _ _ _ _ El) as (session & Hss & Hin). cbn [fst snd] in *.
    pose proof (Ht _ _ Hss) as Hf. rewrite Forall_forall in Hf. destruct (Hf t Hin) as [Hsess Hssrc].
    destruct (AddClient queue cid (tr_Session t) s) as [[s1 cs]|] eqn:Ea; [|done]. cbn [outcome_bind].
    destruct (map_channels cid _ t s1) as [s2|] eqn:Em; [|done]. cbn [outcome_bind]. intros <-%done_snd.
    assert (Hmeta : Server_header s2 = Server (st_meta s)).
    { unfold Server_header. by rewrite (map_channels_meta _ _ _ _ _ Em), (AddClient_meta _ _ _ _ _ _ Ea). }
    sendable.
    - rewrite !no_eol_app. split_and!; [|literal|done|literal|done|literal|by apply no_eol_proxyIP].
      by apply no_eol_clean_loop, headerGet_clean.
    - literal.
    - rewrite no_eol_app. by split; [|literal].
    - by rewrite Hmeta. }
  clearbody serve. destruct w; [by intros <-%done_snd|destruct (_ =st _)..]; try done; intros <-%done_snd; [sendable|done].
Qed.

(** The answer of each handler is one message; RTP-Info carries the path of
    the stream. *)
Lemma serve_sendable (queue now : Z) (cid : nat) (client : Client) (w : waited) (request : Request)
    (s s' : Stream) (r : Response) :
  clean_stream s -> clean_headers (req_Headers request) ->
  no_eol (cl_localAddr client) -> no_eol (cl_remoteAddr client) ->
  (route_of request = RPlay -> no_eol (id_Path (st_ident s))) ->
  (slen (ReplaceAll (GetSDP s) (str "0.0.0.0") (proxyIP client)) <= int64_max)%Z ->
  serve_end queue now cid client w request s = Done (s', r) -> sendable r.
Proof.
  intros Hc Hh Hl Hr Hp Hb. unfold serve_end. destruct (Hc) as [Hs Ho _].
  pose proof (fun k => headerGet_clean _ k Hh) as Hget. unfold getHeader in *.
  destruct (route_of request) eqn:Er.
  - intros <-%done_snd. apply finish_sendable; [done|]. unfold handleOptions_end. sendable; [|done].
    destruct (negb _); [done|literal].
  - intros <-%done_snd. apply finish_sendable; [done|]. by apply describe_sendable.
  - destruct (handleSetup_end _ _ _ _ _ _) as [[s1 r1]|] eqn:E; [|done]. intros <-%done_snd.
    apply finish_sendable; [done|]. by eapply setup_sendable.
  - intros <-%done_snd. apply finish_sendable; [done|]. sendable; literal.
  - intros <-%done_snd. apply finish_sendable; [done|]. unfold handlePlay, getHeader. sendable; try done.
    rewrite !no_eol_app. split_and!; [literal|by apply no_eol_proxyIP|by apply Hp|literal].
  - unfold handleTeardown. destruct (RemoveClient now cid s) as [s1|] eqn:E; [|done]. cbn [outcome_bind]. intros <-%done_snd.
    apply finish_sendable; [done|]. unfold getHeader. sendable; [done|].
    unfold Server_header. by rewrite (RemoveClient_meta _ _ _ _ E).
  - intros <-%done_snd. apply finish_sendable; [done|]. unfold handleGetParameter, getHeader. by sendable.
  - intros <-%done_snd. apply finish_sendable; [done|]. sendable.
Qed.

End Provenance.

(** *** What the camera says *)

Definition clean_session (ss : Session) : Prop :=
  Forall (fun t => no_eol (tr_Session t) /\ no_eol (Ssrc t)) (sess_Transports ss).

Lemma Split_no_eol (s : gostring) (sep : ascii) : no_eol s -> Forall no_eol (Split s sep).
Proof.
  induction s as [|c t IH]; intros Hs; [apply Forall_singleton, no_eol_nil|].
  apply no_eol_cons in Hs as (A & B & Hs). specialize (IH Hs). cbn [Split].
  destruct (_ =c _); [by apply Forall_cons; split; [apply no_eol_nil|]|].
  destruct (Split t sep) as [|w ws]; [apply Forall_singleton; apply no_eol_cons; by split_and!; try apply no_eol_nil|].
  apply Forall_cons in IH as [Hw Hws]. apply Forall_cons. split; [by apply no_eol_cons|done].
Qed.

Lemma SplitN_no_eol (n : nat) (sep : ascii) : forall (s : gostring), no_eol s -> Forall no_eol (SplitN s sep n).
Proof.
  induction n as [|n IH]; intros s Hs; [constructor|]. cbn [SplitN]. destruct n as [|n]; [by apply Forall_singleton|].
  destruct (IndexByte s sep) as [i|]; [|by apply Forall_singleton].
  apply Forall_cons. split; [by apply no_eol_take|]. by apply IH, no_eol_drop.
Qed.

Lemma collect_no_eol (elements : list gostring) : forall (params : gmap gostring gostring),
  Forall no_eol elements -> clean_headers params -> clean_headers (collect_params elements params).
Proof.
  induction elements as [|x es IH]; intros params Hx Hp; [done|]. apply Forall_cons in Hx as [Hx Hes].
  cbn [collect_params]. pose proof (SplitN_no_eol 2 "="%char x Hx) as Hs.
  destruct (SplitN x _ 2) as [|k [|v [|? ?]]]; [by apply IH..| |by apply IH].
  apply IH; [done|]. apply map_Forall_insert_2; [|done]. apply Forall_cons in Hs as [_ Hs]. by apply Forall_cons in Hs as [Hv _].
Qed.

Lemma parseTransport_clean (s protocol comType : gostring) (params : gmap gostring gostring) :
  no_eol s -> parseTransport s = (protocol, comType, params) -> clean_headers params.
Proof.
  intros Hs. unfold parseTransport. destruct (_ =s _); [intros [= _ _ <-]; apply map_Forall_empty|].
  pose proof (Split_no_eol s ";"%char Hs) as Hp.
  destruct (Split s _) as [|p [|c rest]]; [intros [= _ _ <-]; apply map_Forall_empty..|].
  intros [= _ _ <-]. apply collect_no_eol; [|apply map_Forall_empty].
  apply Forall_cons in Hp as [_ Hp]. by apply Forall_cons in Hp as [_ Hp].
Qed.

Lemma map_get_clean (params : gmap gostring gostring) (k : gostring) :
  clean_headers params -> no_eol (map_get params k).
Proof.
  intros Hp. unfold map_get. destruct (params !! k) as [v|] eqn:E; [by apply (Hp k)|apply no_eol_nil].
Qed.

(** Sessions under their own names, with clean transports. *)
Record clean_sessions (s : Stream) : Prop := {
  ck_keyed : sessions_keyed s;
  ck_clean : map_Forall (fun _ => clean_session) (st_sessions s)
}.

Lemma set_session_clean (s : Stream) (ss : Session) :
  clean_sessions s -> clean_session ss -> clean_sessions (set_session s ss).
Proof.
  intros [Hk Hc] Hs. split; [by apply map_Forall_insert_2|]. by apply map_Forall_insert_2.
Qed.

Lemma LookupSession_clean (id : gostring) (args : list Z) (s s' : Stream) (ss : Session) :
  LookupSession id args s = (s', ss) -> clean_sessions s ->
  clean_sessions s' /\ clean_session ss /\ sess_Session ss = id /\ st_meta s' = st_meta s.
Proof.
  unfold LookupSession. intros E [Hk Hc]. destruct (st_sessions s !! id) as [ss0|] eqn:El; injection E as <- <-.
  - split; [by split|]. split; [by apply (Hc id)|]. by split; [apply (Hk id)|].
  - split; [|split; [constructor|done]].
    split; apply map_Forall_insert_2; [done|done|constructor|done].
Qed.

Section Camera.
Context `{GoRuntime, NetURL, Crypto}.

Lemma parsed_response_clean (text : gostring) (r : Response) :
  NewResponseFromBuffer text = Ok r -> clean_headers (rsp_Headers r).
Proof.
  unfold NewResponseFromBuffer. destruct text as [|c t]; [intros [= <-]; apply map_Forall_empty|].
  unfold ParseResponse. destruct (sharedLineSplit (c :: t)) as [next line].
  destruct (ParseStatus _ line) as [r0 [e|]] eqn:E0; [done|]. apply ParseStatus_accepts in E0 as (_ & _ & _ & _ & Hh & _).
  rewrite Hh. destruct (parse_headers next _) as [[hs rest]|e] eqn:E; [|done]. cbn [result_bind]. intros [= <-].
  eapply parsed_headers_all; [exact normal_no_eol|apply map_Forall_empty|exact E].
Qed.

Lemma handleSetup_clean (request : Request) (r : Response) (s s' : Stream) :
  clean_headers (rsp_Headers r) -> clean_sessions s ->
  Upstream.handleSetup request r s = Done s' -> clean_sessions s' /\ st_meta s' = st_meta s.
Proof.
  intros Hr Hs. unfold Upstream.handleSetup. destruct (req_URL request) as [u|]; [|done].
  destruct (parseTransport _) as [[protocol comType] params] eqn:Et.
  apply parseTransport_clean in Et; [|by apply headerGet_clean].
  pose proof (Split_no_eol _ ";"%char (headerGet_clean _ (str "Session") Hr)) as Hsp.
  destruct (Split _ _) as [|sid elements]; [by intros [= <-]|]. apply Forall_cons in Hsp as [Hsid _].
  destruct (LookupSession sid [] s) as [s1 ss] eqn:El.
  destruct (LookupSession_clean _ _ _ _ _ El Hs) as (Hs1 & Hss & Hid & Hm).
  destruct (Session_LookupTransport ss _ protocol comType) as [[ss2 i] t] eqn:Ex. intros [= <-].
  split; [|done]. apply set_session_clean; [done|]. unfold clean_session. cbn.
  assert (Hboth : clean_session ss2 /\ no_eol (tr_Session t)).
  { unfold Session_LookupTransport in Ex. destruct (find_transport _ _) as [[j t0]|] eqn:Ef.
    - injection Ex as <- <- <-. split; [done|].
      pose proof (proj1 (find_transport_Some _ _ _ _ Ef)) as Hi. unfold clean_session in Hss.
      rewrite Forall_lookup in Hss. by apply (Hss j t0).
    - injection Ex as <- <- <-. rewrite Hid. split; [|done].
      apply Forall_app. split; [done|]. apply Forall_singleton. split; [done|apply no_eol_nil]. }
  destruct Hboth as [Hss2 Ht]. apply Forall_insert; [done|]. split; [done|]. by apply map_get_clean.
Qed.

Lemma rtp_info_clean (entries : list gostring) : forall (ss ss' : Session),
  clean_session ss -> rtp_info_loop entries ss = Done ss' ->
  clean_session ss' /\ sess_Session ss' = sess_Session ss.
Proof.
  induction entries as [|rtp es IH]; intros ss ss' Hs; cbn [rtp_info_loop]; [by intros [= <-]|].
  destruct (url_Parse _) as [u|e]; [|done]. intros E. apply IH in E; [done|].
  unfold clean_session. cbn. apply Forall_map. eapply Forall_impl; [exact Hs|]. intros t [A B].
  unfold apply_rtp_info. destruct (_ =s _); [|done]. by destruct (Substreams t !! 0%Z).
Qed.

Lemma handlePlay_clean (request : Request) (r : Response) (s s' : Stream) :
  clean_sessions s -> Upstream.handlePlay request r s = Done s' -> clean_sessions s' /\ st_meta s' = st_meta s.
Proof.
  intros Hs. unfold Upstream.handlePlay. destruct (LookupSession _ [] s) as [s1 ss] eqn:El.
  destruct (LookupSession_clean _ _ _ _ _ El Hs) as (Hs1 & Hss & Hid & Hm).
  destruct (if headerGet _ _ =s [] then Done ss else rtp_info_loop _ ss) as [ss1|] eqn:E1; [|done].
  cbn [outcome_bind].
  assert (Hl : clean_session ss1).
  { destruct (_ =s _); [by injection E1 as <-|]. by apply rtp_info_clean in E1 as [? _]. }
  unfold StartUpstream. destruct (sess_started ss1); [|destruct (_ <=? 0)%Z; [done|]]; cbn [outcome_bind];
    intros [= <-]; (split; [by apply set_session_clean|done]).
Qed.

Lemma handleTeardown_clean (request : Request) (r : Response) (s : Stream) :
  clean_sessions s -> clean_sessions (Upstream.handleTeardown request r s)
  /\ st_meta (Upstream.handleTeardown request r s) = st_meta s.
Proof.
  intros Hs. unfold Upstream.handleTeardown. destruct (LookupSession _ [] s) as [s1 ss] eqn:El.
  destruct (LookupSession_clean _ _ _ _ _ El Hs) as (Hs1 & Hss & Hid & Hm).
  split; [|done]. assert (Hset : clean_sessions (set_session s1 (Session_Stop ss))) by (by apply set_session_clean).
  destruct Hset as [Hk Hc]. by split; apply map_Forall_delete.
Qed.

(** What the stream keeps of the camera's answers. *)
Definition clean_camera (s : Stream) : Prop := clean_stream s /\ sessions_keyed s.

Lemma handle_method_clean (request : Request) (r : Response) (s s' : Stream) :
  clean_headers (rsp_Headers r) -> clean_camera s -> handle_method request r s = Done s' -> clean_camera s'.
Proof.
  intros Hr [[Hsv Ho Ht] Hk]. assert (Hs : clean_sessions s) by (by split).
  assert (Hdone : forall s1, clean_sessions s1 /\ st_meta s1 = st_meta s -> clean_camera s1).
  { intros s1 [[K C] M]. split; [|done]. by split; rewrite ?M. }
  unfold handle_method.
  destruct (_ =s _); [intros [= <-]; split; [split; [by apply headerGet_clean..|done]|done]|].
  destruct (_ =s _); [intros [= <-]; by split|].
  destruct (_ =s _); [intros E; by eapply Hdone, handleSetup_clean|].
  destruct (_ =s _); [intros E; by eapply Hdone, handlePlay_clean|].
  destruct (_ =s _); [intros [= <-]; by apply Hdone, handleTeardown_clean|by intros [= <-]].
Qed.

Lemma clean_with_remote (s : Stream) (r : option Remote) : clean_camera s -> clean_camera (with_remote s r).
Proof. by intros [[A B C] D]. Qed.

Lemma finalize_clean (id : nat) (status : gostring) (u : Up) :
  clean_camera (up_stream u) -> clean_camera (up_stream (finalize id status u)).
Proof.
  intros Hu. unfold finalize. destruct (st_remote (up_stream u)) as [r|]; [|done].
  destruct (up_reqs u !! id); [|done]. by case_bool_decide; [apply clean_with_remote|].
Qed.

Lemma HandleUpstreamResponse_clean (env : NetEnv) (buf recv raw : gostring) (u u' : Up) :
  HandleUpstreamResponse env buf recv u = Done (u', raw) -> clean_camera (up_stream u) -> clean_camera (up_stream u').
Proof.
  intros E Hu. unfold HandleUpstreamResponse in E.
  destruct (NewResponseFromBuffer recv) as [response|e] eqn:Ep; [|by injection E as <- _].
  apply parsed_response_clean in Ep. destruct (st_remote (up_stream u)) as [r|]; [|done].
  destruct (r_requests r) as [|id queue]; [by injection E as <- _|].
  destruct (up_reqs u !! id) as [request|]; [|done]. destruct (_ && _).
  - destruct (negb _); [|injection E as <- _; by apply finalize_clean].
    destruct (if _ && _ then handleAuthenticationFailure r _ else (r, false)) as [r' [|]].
    + destruct (SendRequest _ _ _ _ _) as [[[[[r2 q2] mt] raw2] err]|]; [|done]. cbn [outcome_bind] in E.
      injection E as <- _. by apply clean_with_remote.
    + injection E as <- _. apply finalize_clean. by apply clean_with_remote.
  - destruct (400 <=? _)%Z; [injection E as <- _; by apply finalize_clean|].
    destruct (handle_method request response (up_stream u)) as [s1|] eqn:Em; [|done]. cbn [outcome_bind] in E.
    injection E as <- _. apply finalize_clean. by eapply handle_method_clean.
Qed.

End Camera.

(** A new stream has nothing to say yet. *)
Lemma NewStream_clean (host user pass path : gostring) (idle now : Z) (done : bool) :
  clean_camera (NewStream host user pass path idle now done).
Proof. split; [split; [apply no_eol_nil..|apply map_Forall_empty]|apply map_Forall_empty]. Qed.

(** ** Properties *)

(** C11: An answer is one message: whatever a client sends and whatever the
    camera has announced (what it announces keeps a stream clean, see
    [HandleUpstreamResponse_clean]), the text written for a request reads
    back as the response the handler made: its code, its body and exactly
    its headers, with the client's own sequence number; bytes written
    behind it are not taken into it.  No header value can start a new
    line.  Only PLAY needs a path without line ends. *)
Theorem answer_is_one_message `{GoRuntime, NetURL, Crypto} (queue now : Z) (cid : nat) (client : Client)
    (w : waited) (text tail : gostring) (request0 request : Request) (s s' : Stream) (r : Response) :
  NewRequestFromBuffer text = Ok request0 -> req_Headers request = req_Headers request0 ->
  clean_camera s -> no_eol (cl_localAddr client) -> no_eol (cl_remoteAddr client) ->
  (route_of request = RPlay -> no_eol (id_Path (st_ident s))) ->
  (slen (ReplaceAll (GetSDP s) (str "0.0.0.0") (proxyIP client)) <= int64_max)%Z ->
  serve_end queue now cid client w request s = Done (s', r) ->
  exists r', NewResponseFromBuffer (Response_String r ++ tail) = Ok r' /\ reads_as r r'
    /\ (let cseq := getHeader request0 (str "CSeq") in
        cseq <> [] -> rsp_Headers r' !! str "Cseq" = Some cseq).
Proof.
  intros Hp Hh [Hc _] Hl Hr Hpath Hb E.
  assert (Hclean : clean_headers (req_Headers request))
    by (rewrite Hh; by apply (parsed_request_all no_eol text request0 normal_no_eol)).
  pose proof (serve_sendable queue now cid client w request s s' r Hc Hclean Hl Hr Hpath Hb E) as Hs.
  destruct (sendable_read r tail Hs) as (r' & Er & Ha). exists r'. split; [done|]. split; [done|].
  cbn zeta. intros Hne. unfold getHeader in *.
  assert (Hv : clean_value (headerGet (req_Headers request0) (str "CSeq")) = true).
  { apply (headerGet_all (fun v => clean_value v = true)); [done|].
    eapply (parsed_request_all (fun v => clean_value v = true)); [|exact Hp]. apply parsed_value_clean. }
  assert (Hcs : rsp_Headers r !! str "CSeq" = Some (headerGet (req_Headers request0) (str "CSeq"))).
  { unfold serve_end in E.
    destruct (match route_of request with ROptions => _ | _ => _ end) as [[s1 r1]|]; [|done].
    cbn [outcome_bind] in E. apply done_snd in E as <-.
    destruct (response_completed request r1) as (_ & Hcs & _). unfold getHeader in Hcs. rewrite Hh in Hcs. auto. }
  apply (ra_headers _ _ Ha) in Hcs. rewrite normal_clean in Hcs by done. exact Hcs.
Qed.

Definition parameter_text : gostring :=
  str "GET_PARAMETER rtsp://cam/s RTSP/1.0" ++ CRLF ++ str "CSeq: 9" ++ CRLF ++ str "Session: 77" ++ CRLF ++ CRLF.

Definition parameter_request : Request :=
  mkRequest (str "GET_PARAMETER") (str "rtsp://cam/s") (rtsp_url (str "cam") (str "/s")) (str "RTSP/1.0")
    (<[str "Session" := str "77"]> {[str "Cseq" := str "9"]}) [] 0 [].

Lemma answer_is_one_message_witness :
  exists r r', @serve_end sample_runtime 100 5 7 new_client WaitTimeout parameter_request fresh_stream
      = Done (fresh_stream, r)
    /\ @NewResponseFromBuffer sample_runtime (@Response_String sample_runtime r ++ str "$") = Ok r'
    /\ rsp_Headers r' !! str "Cseq" = Some (str "9").
Proof.
  eexists _. edestruct (@answer_is_one_message sample_runtime sample_neturl sample_crypto 100 5 7 new_client WaitTimeout
    parameter_text (str "$") parameter_request parameter_request fresh_stream fresh_stream) as (r' & E & _ & Hc).
  - vm_compute. reflexivity.
  - reflexivity.
  - apply NewStream_clean.
  - literal.
  - literal.
  - discriminate.
  - vm_compute. discriminate.
  - reflexivity.
  - exists r'. split; [reflexivity|]. split; [exact E|]. apply Hc. discriminate.
Defined.

(** A path with an escaped line end, [/s%0d%0aX: y], leaves its header. *)
Example play_path_injects :
  let path := str "/s" ++ CRLF ++ str "X: y" in
  let s := NewStream (str "cam") [] [] path 60 0 false in
  let r := @handlePlay sample_runtime new_client s (NewRequest (str "PLAY") None []) in
  rsp_Headers r !! str "X" = None
  /\ exists r', @NewResponseFromBuffer sample_runtime (@Response_String sample_runtime r) = Ok r'
     /\ rsp_Headers r' !! str "X" = Some (str "y;seq=0;rtptime=0").
Proof.
  cbn zeta. split; [by vm_compute|]. eexists. split; [vm_compute; reflexivity|by vm_compute].
Qed.
