(* ===== verification/Server.v ===== *)
(** * The server: src/rtspproxy/server.go and the life of a client connection

    Accepting connections, the life of each from [NewClient] to the end of
    [Client.Destroy] (src/rtspproxy/client.go), and the order of a
    shutdown.  The goroutines of one connection are its reader
    ([incomingRequestHandler]), its writer ([writer]) and one forwarder
    ([ClientSession.run]) per stream it has joined; their interleavings are
    lists of actions.  Connections and streams are named by numbers, the
    wait group [clients] counts the connections whose reader runs. *)

From stdpp Require Import gmap strings list fin_maps.
From Stdlib Require Import Ascii ZArith Lia.
From S2P Require Import Prelude GoStrings Request Digest Metrics Remote Session Fanout Stream StreamManager Client.

Local Open Scope go_scope.

(** ** Definitions: one connection *)

(** Who is inside [Client.Destroy]. *)
Inductive destroyer := ByReader | ByForwarder (stream : nat).
#[global] Instance destroyer_eq : EqDecision destroyer.
Proof. solve_decision. Defined.

(** The reader reads, handles one request, has left its loop (in the
    deferred function, before and after its [Destroy] is entered), or is
    gone.  A request is what one read returns, so each is read anew. *)
Inductive reader := Reading | Serving | Leaving | Destroying | Returned.
#[global] Instance reader_eq : EqDecision reader.
Proof. solve_decision. Defined.

Record Conn := mkConn {
  cn_client : Client;
  cn_current : option nat;          (* currentStream *)
  cn_sessions : gset nat;           (* streams with this client in their map *)
  cn_forwarders : gset nat;         (* those whose [run] still forwards *)
  cn_destroyed : bool;              (* the atomic flag *)
  cn_closers : list destroyer;      (* past the swap, before the close *)
  cn_closed : bool;                 (* writeChan is closed *)
  cn_waiting : list destroyer;      (* past the close, waiting for the writer *)
  cn_writer : bool;                 (* the writer goroutine runs *)
  cn_reader : reader
}.

(** [NewClient]: the host parts of the two socket addresses. *)
Definition NewClient (local remote : gostring) : outcome Client :=
  match Split local ":"%char, Split remote ":"%char with
  | l0 :: _ :: _, r0 :: _ :: _ => Done (mkClient l0 r0 [] [] [] [])
  | _, _ => Panic SliceBounds
  end.

Definition new_conn (client : Client) : Conn :=
  mkConn client None ∅ ∅ false [] false [] true Reading.

Inductive act : Type :=
| ARequest (stream : nat)        (* a request is read, its target the stream *)
| ASetup                         (* SETUP reaches AddClient and is answered *)
| ATeardown                      (* TEARDOWN: RemoveClient, answered *)
| AServed                        (* any other answer *)
| ALeave                         (* the reader's loop returns, RemoveClient *)
| AReaderDestroy                 (* ... and enters Destroy *)
| AReaderReturns
| AForwarderEnds (stream : nat)  (* run returns: the server's context is done *)
| AForward (stream : nat)        (* run sends a packet to writeChan *)
| ASlow (stream : nat)           (* the send timed out: run enters Destroy *)
| AClose (who : destroyer)       (* Destroy: close(writeChan) *)
| AWriterEnds                    (* the writer has drained the closed channel *)
| AFinish (who : destroyer).     (* Destroy: past wg.Wait *)

(** One caller less inside [Destroy]. *)
Definition without (who : destroyer) (l : list destroyer) : list destroyer := list_difference l [who].
#[global] Arguments without : simpl never.

(** The setters of a connection's fields. *)
Definition with_streams (c : Conn) (cur : option nat) (ss fs : gset nat) : Conn :=
  mkConn (cn_client c) cur ss fs (cn_destroyed c) (cn_closers c) (cn_closed c) (cn_waiting c)
    (cn_writer c) (cn_reader c).
Definition with_reader (c : Conn) (r : reader) : Conn :=
  mkConn (cn_client c) (cn_current c) (cn_sessions c) (cn_forwarders c) (cn_destroyed c) (cn_closers c)
    (cn_closed c) (cn_waiting c) (cn_writer c) r.
Definition with_life (c : Conn) (d : bool) (cl : list destroyer) (closed : bool) (w : list destroyer)
    (wr : bool) : Conn :=
  mkConn (cn_client c) (cn_current c) (cn_sessions c) (cn_forwarders c) d cl closed w wr (cn_reader c).

(** [Client.Destroy] up to and including the swap of the flag: only the
    caller that found it clear goes on. *)
Definition Destroy_swap (who : destroyer) (c : Conn) : Conn :=
  if cn_destroyed c then c
  else with_life c true (who :: cn_closers c) (cn_closed c) (cn_waiting c) (cn_writer c).

(** Then the close of the connection and of the write channel. *)
Definition Destroy_close (who : destroyer) (c : Conn) : outcome Conn :=
  if cn_closed c then Panic CloseOfClosed
  else Done (with_life c (cn_destroyed c) (without who (cn_closers c)) true
               (who :: cn_waiting c) (cn_writer c)).

(** A forwarder inside [Destroy] delays whoever stops its session. *)
Definition in_destroy (who : destroyer) (c : Conn) : bool :=
  bool_decide (who ∈ cn_closers c) || bool_decide (who ∈ cn_waiting c).

(** [Stream.RemoveClient] as the connection sees it. *)
Definition leave_stream (s : nat) (c : Conn) : option Conn :=
  if in_destroy (ByForwarder s) c then None
  else Some (with_streams c (cn_current c) (cn_sessions c ∖ {[s]}) (cn_forwarders c ∖ {[s]})).

(** [Stream.AddClient] as the connection sees it, for a queue size that is
    not negative ([NewClientSession] panics on one that is): a second
    SETUP finds the session. *)
Definition join_stream (s : nat) (c : Conn) : Conn :=
  if bool_decide (s ∈ cn_sessions c) then c
  else with_streams c (cn_current c) ({[s]} ∪ cn_sessions c) ({[s]} ∪ cn_forwarders c).

Definition when {A} (b : bool) (x : option A) : option A := if b then x else None.

(** One action: [None] when it is not enabled.  The stream's lock is not
    part of a connection, so an action that may have to wait for it (a
    reader in [LookupTransport], say: [Locks.lookup_transport_deadlock])
    counts as enabled at once: the runs include all those of the code, and
    what is proved of them is safety. *)
Definition cn_do (a : act) (c : Conn) : option (outcome Conn) :=
  let serving := bool_decide (cn_reader c = Serving) in
  match a with
  | ARequest s =>
      (* the read fails on a closed connection *)
      when (bool_decide (cn_reader c = Reading) && negb (cn_closed c))
        (Some (Done (with_reader (with_streams c (Some s) (cn_sessions c) (cn_forwarders c)) Serving)))
  | ASetup => when serving (s ← cn_current c; Some (Done (with_reader (join_stream s c) Reading)))
  | ATeardown =>
      when serving (s ← cn_current c; (fun c => Done (with_reader c Reading)) <$> leave_stream s c)
  | AServed => when serving (Some (Done (with_reader c Reading)))
  | ALeave =>
      when (bool_decide (cn_reader c = Reading) || serving)
        match cn_current c with
        | Some s => (fun c => Done (with_reader c Leaving)) <$> leave_stream s c
        | None => Some (Done (with_reader c Leaving))
        end
  | AReaderDestroy =>
      when (bool_decide (cn_reader c = Leaving)) (Some (Done (Destroy_swap ByReader (with_reader c Destroying))))
  | AReaderReturns =>
      when (bool_decide (cn_reader c = Destroying) && negb (in_destroy ByReader c))
        (Some (Done (with_reader c Returned)))
  | AForwarderEnds s =>
      when (bool_decide (s ∈ cn_forwarders c))
        (Some (Done (with_streams c (cn_current c) (cn_sessions c) (cn_forwarders c ∖ {[s]}))))
  | AForward s =>
      when (bool_decide (s ∈ cn_forwarders c))
        (Some (if cn_closed c then Panic SendOnClosed else Done c))
  | ASlow s =>
      when (bool_decide (s ∈ cn_forwarders c))
        (Some (Done (Destroy_swap (ByForwarder s)
                       (with_streams c (cn_current c) (cn_sessions c) (cn_forwarders c ∖ {[s]})))))
  | AClose who => when (bool_decide (who ∈ cn_closers c)) (Some (Destroy_close who c))
  | AWriterEnds =>
      when (cn_closed c && cn_writer c)
        (Some (Done (with_life c (cn_destroyed c) (cn_closers c) true (cn_waiting c) false)))
  | AFinish who =>
      when (bool_decide (who ∈ cn_waiting c) && negb (cn_writer c))
        (Some (Done (with_life c (cn_destroyed c) (cn_closers c) (cn_closed c)
                       (without who (cn_waiting c)) false)))
  end.

Fixpoint cn_run (acts : list act) (c : Conn) : option (outcome Conn) :=
  match acts with
  | [] => Some (Done c)
  | a :: acts =>
      match cn_do a c with
      | Some (Done c') => cn_run acts c'
      | other => other
      end
  end.

(** The gauge counts a connection until its [Destroy] has finished. *)
Definition counted (c : Conn) : bool :=
  negb (cn_destroyed c) || negb (bool_decide (cn_closers c = [])) || negb (bool_decide (cn_waiting c = [])).

(** ** Definitions: the server *)

(** Where the goroutine of [Start] is: before the check of the context,
    inside [AcceptTCP], returned; before [Start] there is none. *)
Inductive accept_loop := NotStarted | Checking | Accepting | Stopped.
#[global] Instance accept_loop_eq : EqDecision accept_loop.
Proof. solve_decision. Defined.

Record Server := mkServer {
  sv_done : bool;                  (* the context is cancelled *)
  sv_accept : accept_loop;
  sv_port : Z;
  sv_listening : bool;
  sv_conns : gmap nat Conn;
  sv_active : Z;                   (* GlobalMetrics.ActiveClients *)
  sv_manager : StreamManager
}.

Definition NewServer (mt : Metrics) : Server :=
  mkServer false NotStarted 0 false ∅ 0 (NewStreamManager mt).

(** [Listen] and [setupOurSocket]; the argument is the error of resolving
    or of [ListenTCP], with its text. *)
Definition Listen (failure : option gostring) (portNum : Z) (sv : Server) : Server * option goerror :=
  (mkServer (sv_done sv) (sv_accept sv) portNum (bool_decide (failure = None)) (sv_conns sv) (sv_active sv) (sv_manager sv),
   (fun e => ErrText (str "failed to setup socket: " ++ e)) <$> failure).

Definition with_conn (sv : Server) (id : nat) (c : Conn) (active : Z) : Server :=
  mkServer (sv_done sv) (sv_accept sv) (sv_port sv) (sv_listening sv) (<[id := c]> (sv_conns sv)) active (sv_manager sv).

(** [newClientConnection] up to the start of the reader; the wait group is
    the readers that have not returned. *)
Definition newClientConnection (local remote : gostring) (sv : Server) : outcome Server :=
  let! client := NewClient local remote in
  Done (with_conn sv (fresh (dom (sv_conns sv))) (new_conn client) (int64_wrap (sv_active sv + 1))).

Definition with_manager (sv : Server) (sm : StreamManager) : Server :=
  mkServer (sv_done sv) (sv_accept sv) (sv_port sv) (sv_listening sv) (sv_conns sv) (sv_active sv) sm.

Definition LookupStream (idle now : Z) (host username password path : gostring) (sv : Server) : Server * nat :=
  let found := GetStream idle now (sv_done sv) host username password path (sv_manager sv) in
  (with_manager sv found.1, found.2).

(** What one turn of the accept loop meets. *)
Inductive accepted : Type :=
| AcConn (local remote : gostring)
| AcTimeout
| AcClosed              (* the listener is closed *)
| AcError.              (* any other error *)

Definition with_accept (sv : Server) (a : accept_loop) : Server :=
  mkServer (sv_done sv) a (sv_port sv) (sv_listening sv) (sv_conns sv) (sv_active sv) (sv_manager sv).

Definition Server_Start (sv : Server) : Server := with_accept sv Checking.

(** [incomingConnectionHandler], one turn: the check of the context... *)
Definition accept_check (sv : Server) : Server :=
  with_accept sv (if sv_done sv then Stopped else Accepting).

(** ... and what follows [AcceptTCP], which may have begun before the
    context was cancelled: its errors look at the context again, a
    connection does not. *)
Definition accept_result (ev : accepted) (sv : Server) : outcome Server :=
  match ev with
  | AcClosed => Done (with_accept sv Stopped)
  | AcTimeout | AcError => Done (with_accept sv (if sv_done sv then Stopped else Checking))
  | AcConn local remote =>
      let! sv := newClientConnection local remote sv in
      Done (with_accept sv Checking)
  end.

(** An action of a connection; [Destroy] ends with the gauge. *)
Definition sv_do (id : nat) (a : act) (sv : Server) : option (outcome Server) :=
  c ← sv_conns sv !! id;
  r ← cn_do a c;
  Some (let! c' := r in
        Done (with_conn sv id c'
                match a with
                | AFinish _ => int64_wrap (sv_active sv + -1)
                | _ => sv_active sv
                end)).

(** [Shutdown], first half: the listener is closed, the context cancelled. *)
Definition Shutdown_begin (sv : Server) : Server :=
  mkServer true (sv_accept sv) (sv_port sv) false (sv_conns sv) (sv_active sv) (sv_manager sv).

(** Whether [clients.Wait] would return. *)
Definition all_returned (sv : Server) : bool :=
  forallb (fun e => bool_decide (cn_reader e.2 = Returned)) (map_to_list (sv_conns sv)).

Section ServerShutdown.
Context `{GoRuntime, NetURL, Crypto}.

(** Second half, at the moment the select fires: [None] while it waits.
    [expired] says that the caller's context is done and chosen. *)
Definition Shutdown_finish (env : nat -> NetEnv) (buf : nat -> gostring) (now : Z) (expired : bool)
    (sv : Server) : option (outcome (Server * option goerror)) :=
  if expired then Some (Done (sv, Some (ErrText (str "context deadline exceeded"))))
  else if all_returned sv then
    Some (let! sm := sm_Shutdown env buf now (sv_manager sv) in
          Done (with_manager sv sm, None))
  else None.

End ServerShutdown.

(** The server between its goroutines' steps. *)
Inductive sv_step `{GoRuntime} : Server -> Server -> Prop :=
| SvStart sv : sv_accept sv = NotStarted -> sv_step sv (Server_Start sv)
| SvCheck sv : sv_accept sv = Checking -> sv_step sv (accept_check sv)
| SvAccept ev sv sv' : sv_accept sv = Accepting -> accept_result ev sv = Done sv' -> sv_step sv sv'
| SvAct id a sv sv' : sv_do id a sv = Some (Done sv') -> sv_step sv sv'
| SvListen failure port sv : sv_step sv (Listen failure port sv).1
| SvStreams queue sm sv : mg_step queue (sv_done sv) (sv_manager sv) sm -> sv_step sv (with_manager sv sm)
| SvCancel sv : sv_step sv (Shutdown_begin sv).

Definition sv_steps `{GoRuntime} : Server -> Server -> Prop := rtc sv_step.

Definition sv_reach `{GoRuntime} (sv : Server) : Prop :=
  exists mt, m_ActiveStreams mt = 0%Z /\ sv_steps (NewServer mt) sv.

(** ** Invariant of one connection *)

(** How far its destruction has come. *)
Inductive conn_life (c : Conn) : Prop :=
| life_open : cn_destroyed c = false -> cn_closers c = [] -> cn_closed c = false -> cn_waiting c = [] ->
    cn_writer c = true -> conn_life c
| life_swapped w : cn_destroyed c = true -> cn_closers c = [w] -> cn_closed c = false ->
    cn_waiting c = [] -> cn_writer c = true -> conn_life c
| life_closed w : cn_destroyed c = true -> cn_closers c = [] -> cn_closed c = true ->
    cn_waiting c = [w] -> conn_life c
| life_gone : cn_destroyed c = true -> cn_closers c = [] -> cn_closed c = true ->
    cn_waiting c = [] -> cn_writer c = false -> conn_life c.

Definition inside (who : destroyer) (c : Conn) : Prop := who ∈ cn_closers c ++ cn_waiting c.

Record conn_inv (c : Conn) : Prop := {
  ci_life : conn_life c;
  ci_reader : inside ByReader c -> cn_reader c = Destroying;
  ci_left : cn_reader c = Destroying \/ cn_reader c = Returned -> cn_destroyed c = true
}.

(** A connection all of whose requests go to the stream [s0]. *)
Record one_stream (s0 : nat) (c : Conn) : Prop := {
  os_current : cn_current c = None \/ cn_current c = Some s0;
  os_none : cn_current c = None -> cn_sessions c = ∅;
  os_forwarders : cn_forwarders c ⊆ cn_sessions c;
  os_sessions : cn_sessions c ⊆ {[s0]};
  os_destroyed : cn_destroyed c = true -> cn_forwarders c = ∅;
  os_serving : cn_destroyed c = true -> cn_reader c = Serving -> s0 ∈ cn_sessions c;
  os_inside : forall s, inside (ByForwarder s) c -> s ∈ cn_sessions c;
  os_left : cn_reader c <> Reading -> cn_reader c <> Serving -> cn_sessions c = ∅
}.

Lemma in_destroy_spec (who : destroyer) (c : Conn) : in_destroy who c = true <-> inside who c.
Proof.
  unfold in_destroy, inside. by rewrite elem_of_app, orb_true_iff, !bool_decide_eq_true.
Qed.

Lemma in_destroy_false (who : destroyer) (c : Conn) : in_destroy who c = false <-> ~ inside who c.
Proof. rewrite <- in_destroy_spec. destruct (in_destroy who c); naive_solver. Qed.

Lemma without_self (w : destroyer) : without w [w] = [].
Proof. unfold without. cbn. case_decide as H; [done|]. destruct H. set_solver. Qed.

Lemma when_Some {A} (b : bool) (x : option A) (y : A) : when b x = Some y <-> b = true /\ x = Some y.
Proof. unfold when. destruct b; naive_solver. Qed.

(** *** Every action keeps the invariant, and closing never panics *)

Lemma Destroy_swap_life (who : destroyer) (c : Conn) :
  conn_life c -> (inside ByReader c -> cn_reader c = Destroying) ->
  (who = ByReader -> cn_reader c = Destroying) -> conn_inv (Destroy_swap who c).
Proof.
  intros Hl Hr Hw. unfold Destroy_swap. destruct (cn_destroyed c) eqn:E; [by split|].
  destruct Hl as [_ Hc Hcl Hwt Hwr| | |]; [|congruence..].
  split; [by eapply life_swapped; cbn; rewrite ?Hc| |done].
  unfold inside. cbn. rewrite Hc, Hwt. cbn. rewrite list_elem_of_singleton. naive_solver.
Qed.

Lemma with_streams_inv (c : Conn) (cur : option nat) (ss fs : gset nat) :
  conn_inv c -> conn_inv (with_streams c cur ss fs).
Proof.
  intros [Hl H1 H2]. split; [|done..].
  destruct Hl; [by apply life_open|by eapply life_swapped|by eapply life_closed|by apply life_gone].
Qed.

Lemma with_reader_life (c : Conn) (r : reader) : conn_life c -> conn_life (with_reader c r).
Proof.
  destruct 1; [by apply life_open|by eapply life_swapped|by eapply life_closed|by apply life_gone].
Qed.

(** Between reading, serving and leaving the reader is not inside [Destroy]. *)
Lemma with_reader_inv (c : Conn) (r : reader) :
  conn_inv c -> ~ inside ByReader c -> (r = Destroying \/ r = Returned -> cn_destroyed c = true) ->
  conn_inv (with_reader c r).
Proof. intros [Hl H1 H2] Hn Hr. split; [by apply with_reader_life|done|done]. Qed.

Lemma not_inside (c : Conn) : conn_inv c -> cn_reader c <> Destroying -> ~ inside ByReader c.
Proof. intros Hi Hn Hin. by apply Hn, (ci_reader _ Hi). Qed.

Lemma leave_stream_inv (s : nat) (c c' : Conn) :
  leave_stream s c = Some c' -> conn_inv c ->
  conn_inv c' /\ cn_reader c' = cn_reader c /\ ~ inside (ByForwarder s) c.
Proof.
  unfold leave_stream. destruct (in_destroy _ _) eqn:E; [done|]. intros [= <-] Hi.
  apply in_destroy_false in E. split; [by apply with_streams_inv|done].
Qed.

Lemma Destroy_close_inv (who : destroyer) (c : Conn) :
  conn_inv c -> who ∈ cn_closers c -> exists c', Destroy_close who c = Done c' /\ conn_inv c'.
Proof.
  intros [Hl H1 H2] Hw. destruct Hl as [? Hc|w Hd Hc Hcl Hwt Hwr|? ? Hc|? Hc]; rewrite Hc in Hw;
    [by apply not_elem_of_nil in Hw| |by apply not_elem_of_nil in Hw..].
  apply list_elem_of_singleton in Hw as <-. unfold Destroy_close. rewrite Hcl. eexists. split; [done|].
  rewrite Hc, Hwt, without_self. split; [by eapply life_closed| |done].
  intros Hin. apply H1. unfold inside in *. cbn in Hin. by rewrite Hc, Hwt.
Qed.

(** Only a send on the closed channel can panic. *)
Definition act_outcome (a : act) (r : outcome Conn) : Prop :=
  match r with
  | Done c' => conn_inv c'
  | Panic p => p = SendOnClosed /\ exists s, a = AForward s
  end.

Lemma cn_do_inv (a : act) (c : Conn) (r : outcome Conn) :
  cn_do a c = Some r -> conn_inv c -> act_outcome a r.
Proof.
  intros H Hi. assert (Hn := not_inside c Hi).
  destruct a as [s| | | | | | |s|s|s|w| |w]; cbn in H; apply when_Some in H as [Hb H];
    rewrite ?andb_true_iff, ?orb_true_iff, ?bool_decide_eq_true, ?negb_true_iff in Hb.
  - injection H as <-. destruct Hb as [Hb _]. apply with_reader_inv; [by apply with_streams_inv| |naive_solver].
    apply Hn. congruence.
  - destruct (cn_current c) as [s|]; cbn in H; [|done]. injection H as <-.
    apply with_reader_inv; [| |naive_solver]; unfold join_stream; case_bool_decide; try done;
      try by apply with_streams_inv. all: apply Hn; congruence.
  - destruct (cn_current c) as [s|]; cbn in H; [|done].
    destruct (leave_stream s c) as [c1|] eqn:E; [|done]. injection H as <-.
    destruct (leave_stream_inv s c c1 E Hi) as (H1 & H2 & _).
    apply with_reader_inv; [done| |naive_solver]. apply not_inside; [done|congruence].
  - injection H as <-. apply with_reader_inv; [done| |naive_solver]. apply Hn. congruence.
  - assert (Hnd : cn_reader c <> Destroying) by (intros ?; destruct Hb; congruence).
    destruct (cn_current c) as [s|]; [|injection H as <-; apply with_reader_inv; [done|by apply Hn|naive_solver]].
    destruct (leave_stream s c) as [c1|] eqn:E; [|done]. injection H as <-.
    destruct (leave_stream_inv s c c1 E Hi) as (H1 & H2 & _).
    apply with_reader_inv; [done| |naive_solver]. apply not_inside; [done|congruence].
  - injection H as <-. apply Destroy_swap_life; [apply with_reader_life, Hi|done|done].
  - injection H as <-. destruct Hb as [Hb Hx]. apply in_destroy_false in Hx.
    apply with_reader_inv; [done|done|]. intros _. apply (ci_left _ Hi). by left.
  - injection H as <-. by apply with_streams_inv.
  - destruct (cn_closed c); injection H as <-; [|done]. split; [done|by exists s].
  - injection H as <-. apply (with_streams_inv _ (cn_current c) (cn_sessions c) (cn_forwarders c ∖ {[s]})) in Hi.
    by apply Destroy_swap_life; apply Hi || intros [=].
  - destruct (Destroy_close_inv w c Hi Hb) as (c' & E & Hi'). rewrite E in H. by injection H as <-.
  - injection H as <-. destruct Hi as [Hl H1 H2], Hb as [Hb1 Hb2].
    split; [|done..]. destruct Hl; try congruence. by eapply life_closed.
  - injection H as <-. destruct Hi as [Hl H1 H2], Hb as [Hb1 Hb2].
    destruct Hl as [? ? ? E|? ? ? ? E|w' Hd Hc Hcl E|? ? ? E]; rewrite E in Hb1;
      try by apply not_elem_of_nil in Hb1.
    apply list_elem_of_singleton in Hb1 as <-. rewrite E, without_self.
    split; [by apply life_gone| |done].
    unfold inside. cbn. rewrite Hc. cbn. intros []%not_elem_of_nil.
Qed.

(** *** One stream: the forwarder is gone before the channel is closed *)

Definition addressed_to (s0 : nat) (a : act) : Prop :=
  match a with ARequest s => s = s0 | _ => True end.

(** The fields [one_stream] does not look at. *)
Lemma one_stream_life (s0 : nat) (c : Conn) (cl w : list destroyer) (closed wr : bool) :
  one_stream s0 c -> (forall s, ByForwarder s ∈ cl ++ w -> s ∈ cn_sessions c) ->
  one_stream s0 (with_life c (cn_destroyed c) cl closed w wr).
Proof. intros [H1 H2 H3 H4 H5 H6 H7 H8] Hs. by split. Qed.

Lemma one_stream_reader (s0 : nat) (c : Conn) (r : reader) :
  one_stream s0 c -> r <> Serving ->
  (r <> Reading -> cn_sessions c = ∅) -> one_stream s0 (with_reader c r).
Proof. intros [H1 H2 H3 H4 H5 H6 H7 H8] Hs Hr. split; naive_solver. Qed.

Lemma leave_stream_one (s0 : nat) (c c' : Conn) :
  leave_stream s0 c = Some c' -> one_stream s0 c ->
  one_stream s0 (with_reader c' Reading) /\ cn_sessions c' = ∅ /\ cn_reader c' = cn_reader c.
Proof.
  unfold leave_stream. destruct (in_destroy _ _) eqn:E; [done|]. intros [= <-] [H1 H2 H3 H4 H5 H6 H7 H8].
  apply in_destroy_false in E.
  assert (Hs : cn_sessions c ∖ {[s0]} = ∅) by set_solver.
  assert (Hf : cn_forwarders c ∖ {[s0]} = ∅) by set_solver.
  split; [|done]. split; cbn; rewrite ?Hs, ?Hf; try done; try set_solver.
Qed.

Lemma join_stream_one (s0 : nat) (c : Conn) :
  cn_reader c = Serving -> cn_current c = Some s0 -> one_stream s0 c ->
  one_stream s0 (with_reader (join_stream s0 c) Reading).
Proof.
  intros Hr Hc Ho. unfold join_stream. case_bool_decide as E.
  - apply one_stream_reader; [done|done|naive_solver].
  - destruct Ho as [H1 H2 H3 H4 H5 H6 H7 H8].
    split; cbn; try done; try set_solver; try congruence.
Qed.

Lemma swap_one (s0 : nat) (who : destroyer) (c : Conn) :
  one_stream s0 c -> cn_forwarders c = ∅ -> cn_reader c <> Serving \/ s0 ∈ cn_sessions c ->
  (forall s, who = ByForwarder s -> s ∈ cn_sessions c) -> one_stream s0 (Destroy_swap who c).
Proof.
  intros [H1 H2 H3 H4 H5 H6 H7 H8] Hf Hs Hw. unfold Destroy_swap.
  destruct (cn_destroyed c) eqn:E; [by split; rewrite ?E|].
  split; cbn; try done; [naive_solver|].
  intros s Hin. unfold inside in *. cbn in Hin. apply elem_of_cons in Hin as [Hin|Hin]; [by apply Hw|by apply H7].
Qed.

(** A request can only be read before the connection is closed; whoever
    is then inside [Destroy] is the forwarder, whose session remains. *)
Lemma request_one (s0 : nat) (c : Conn) :
  conn_inv c -> one_stream s0 c -> cn_reader c = Reading /\ cn_closed c = false ->
  one_stream s0 (with_reader (with_streams c (Some s0) (cn_sessions c) (cn_forwarders c)) Serving).
Proof.
  intros Hi Ho [Hb Hcl].
  assert (Hin : cn_destroyed c = true -> s0 ∈ cn_sessions c).
  { intros Hd. destruct (ci_life _ Hi) as [|w _ Hc _ Hw| |]; try congruence.
    assert (Hin : inside w c) by (unfold inside; rewrite Hc; set_solver).
    destruct w as [|s]; [by rewrite (ci_reader _ Hi Hin) in Hb|].
    apply (os_inside _ _ Ho) in Hin. pose proof (os_sessions _ _ Ho). set_solver. }
  destruct Ho as [H1 H2 H3 H4 H5 H6 H7 H8]. split; cbn; try done; naive_solver.
Qed.

(** Moving on inside [Destroy] adds no one to it. *)
Lemma close_one (s0 : nat) (w : destroyer) (c c' : Conn) :
  Destroy_close w c = Done c' -> w ∈ cn_closers c -> one_stream s0 c -> one_stream s0 c'.
Proof.
  unfold Destroy_close. destruct (cn_closed c); [done|]. intros [= <-] Hb Ho.
  apply one_stream_life; [done|]. intros s Hin. apply (os_inside _ _ Ho). unfold inside.
  rewrite elem_of_app. apply elem_of_app in Hin as [Hin|Hin].
  - apply list_elem_of_difference in Hin as [Hin _]. by left.
  - apply elem_of_cons in Hin as [Hin|Hin]; [subst w; by left|by right].
Qed.

Lemma cn_do_one (s0 : nat) (a : act) (c : Conn) (r : outcome Conn) :
  cn_do a c = Some r -> conn_inv c -> one_stream s0 c -> addressed_to s0 a ->
  exists c', r = Done c' /\ one_stream s0 c'.
Proof.
  intros H Hi Ho Ha. assert (Hp := cn_do_inv a c r H Hi).
  destruct a as [s| | | | | | |s|s|s|w| |w]; cbn in H; apply when_Some in H as [Hb H];
    rewrite ?andb_true_iff, ?orb_true_iff, ?bool_decide_eq_true, ?negb_true_iff in Hb.
  - cbn in Ha. subst s. injection H as <-. eexists. split; [done|]. by apply request_one.
  - destruct (os_current _ _ Ho) as [E|E]; rewrite E in H; [done|]. cbn in H. injection H as <-.
    eexists. split; [done|]. by apply join_stream_one.
  - destruct (os_current _ _ Ho) as [E|E]; rewrite E in H; [done|]. cbn in H.
    destruct (leave_stream s0 c) as [c1|] eqn:El; [|done]. injection H as <-.
    eexists. split; [done|]. by apply (leave_stream_one s0 c c1).
  - injection H as <-. eexists. split; [done|]. by apply one_stream_reader.
  - destruct (os_current _ _ Ho) as [E|E]; rewrite E in H.
    + injection H as <-. eexists. split; [done|]. apply one_stream_reader; [done..|].
      intros _. by apply (os_none _ _ Ho).
    + cbn in H. destruct (leave_stream s0 c) as [c1|] eqn:El; [|done]. injection H as <-.
      eexists. split; [done|]. destruct (leave_stream_one s0 c c1 El Ho) as (H1 & H2 & _).
      by apply (one_stream_reader s0 (with_reader c1 Reading)).
  - injection H as <-. eexists. split; [done|].
    assert (Hs : cn_sessions c = ∅) by (apply (os_left _ _ Ho); congruence).
    apply swap_one; [by apply one_stream_reader| |by left|done].
    cbn. pose proof (os_forwarders _ _ Ho). set_solver.
  - injection H as <-. eexists. split; [done|]. apply one_stream_reader; [done..|].
    intros _. apply (os_left _ _ Ho); destruct Hb; congruence.
  - injection H as <-. eexists. split; [done|]. destruct Ho as [H1 H2 H3 H4 H5 H6 H7 H8].
    split; cbn; try done; set_solver.
  - destruct (ci_life _ Hi) as [_ _ E|? _ _ E|? E|E]; try by (rewrite E in H; injection H as <-; eauto).
    all: rewrite (os_destroyed _ _ Ho E) in Hb; set_solver.
  - injection H as <-. eexists. split; [done|].
    assert (Hin : s ∈ cn_sessions c) by (pose proof (os_forwarders _ _ Ho); set_solver).
    pose proof (os_sessions _ _ Ho) as Hsub. assert (s = s0) as -> by set_solver.
    apply swap_one; cbn; [| |by right|naive_solver].
    + destruct Ho as [H1 H2 H3 H4 H5 H6 H7 H8]. split; cbn; try done; set_solver.
    + pose proof (os_forwarders _ _ Ho). set_solver.
  - destruct r as [c'|p]; [|by destruct Hp as [_ [s Hs]]]. eexists. split; [done|]. injection H as H.
    by apply (close_one s0 w c).
  - injection H as <-. eexists. split; [done|]. apply one_stream_life; [done|]. apply (os_inside _ _ Ho).
  - injection H as <-. eexists. split; [done|]. apply one_stream_life; [done|].
    intros s Hin. apply (os_inside _ _ Ho). unfold inside.
    rewrite elem_of_app. apply elem_of_app in Hin as [Hin|Hin]; [by left|].
    apply list_elem_of_difference in Hin as [Hin _]. by right.
Qed.

Lemma new_conn_inv (client : Client) : conn_inv (new_conn client).
Proof. split; [by apply life_open|by intros ?%not_elem_of_nil|by intros []]. Qed.

Lemma new_conn_one (s0 : nat) (client : Client) : one_stream s0 (new_conn client).
Proof. split; cbn; try done; [by left|intros s []%not_elem_of_nil]. Qed.

Lemma cn_run_one (s0 : nat) (acts : list act) (c : Conn) (r : outcome Conn) :
  cn_run acts c = Some r -> conn_inv c -> one_stream s0 c -> Forall (addressed_to s0) acts ->
  exists c', r = Done c' /\ conn_inv c' /\ one_stream s0 c'.
Proof.
  revert c. induction acts as [|a acts IH]; cbn; intros c H Hi Ho Ha; [injection H as <-; eauto|].
  apply Forall_cons in Ha as [Ha Has]. destruct (cn_do a c) as [r'|] eqn:E; [|done].
  assert (Hi' := cn_do_inv a c r' E Hi).
  destruct (cn_do_one s0 a c r' E Hi Ho Ha) as (c' & -> & Ho'). by apply (IH c').
Qed.

(** Once its reader has returned nothing of a connection is left. *)
Lemma returned_gone (s0 : nat) (c : Conn) :
  conn_inv c -> one_stream s0 c -> cn_reader c = Returned ->
  cn_closed c = true /\ cn_writer c = false /\ cn_sessions c = ∅ /\ cn_forwarders c = ∅
  /\ counted c = false.
Proof.
  intros Hi Ho Hr. assert (Hd := ci_left _ Hi (or_intror Hr)).
  assert (Hs : cn_sessions c = ∅) by (apply (os_left _ _ Ho); congruence).
  assert (Hn : forall w, ~ inside w c).
  { intros [|s] Hin; [|apply (os_inside _ _ Ho) in Hin; set_solver].
    apply (ci_reader _ Hi) in Hin. congruence. }
  assert (Hf := os_destroyed _ _ Ho Hd). destruct (ci_life _ Hi) as [?|w _ Hc|w _ Hc _ Hw|_ Hc Hcl Hw Hwr].
  - congruence.
  - destruct (Hn w). unfold inside. rewrite Hc. set_solver.
  - destruct (Hn w). unfold inside. rewrite Hc, Hw. set_solver.
  - unfold counted. by rewrite Hd, Hc, Hw.
Qed.

(** ** The gauge of active clients *)

Lemma Destroy_swap_counted (who : destroyer) (c : Conn) : counted (Destroy_swap who c) = counted c.
Proof.
  unfold Destroy_swap. destruct (cn_destroyed c) eqn:E; [done|]. unfold counted. cbn.
  by rewrite E.
Qed.

(** Only the end of [Destroy] takes a connection out of the count. *)
Lemma cn_do_counted (a : act) (c c' : Conn) :
  cn_do a c = Some (Done c') -> conn_inv c ->
  match a with
  | AFinish _ => counted c = true /\ counted c' = false
  | _ => counted c' = counted c
  end.
Proof.
  intros H Hi. assert (Hl := ci_life _ Hi).
  destruct a as [s| | | | | | |s|s|s|w| |w]; cbn in H; apply when_Some in H as [Hb H];
    try by injection H as <-.
  - destruct (cn_current c); cbn in H; [|done]. injection H as <-. unfold join_stream. clear Hb. by destruct (bool_decide _).
  - destruct (cn_current c); cbn in H; [|done]. unfold leave_stream in H.
    destruct (in_destroy _ _); cbn in H; [done|]. by injection H as <-.
  - destruct (cn_current c); [|by injection H as <-]. unfold leave_stream in H.
    destruct (in_destroy _ _); cbn in H; [done|]. by injection H as <-.
  - injection H as <-. by rewrite Destroy_swap_counted.
  - destruct (cn_closed c); [done|by injection H as <-].
  - injection H as <-. by rewrite Destroy_swap_counted.
  - injection H as H. unfold Destroy_close in H. destruct (cn_closed c) eqn:E; [done|]. injection H as <-.
    apply bool_decide_eq_true in Hb. unfold counted. cbn.
    rewrite (bool_decide_false (cn_closers c = [])) by (intros E'; rewrite E' in Hb; set_solver).
    by rewrite !orb_true_r.
  - injection H as <-. rewrite andb_true_iff, bool_decide_eq_true in Hb. destruct Hb as [Hb _].
    destruct Hl as [? ? ? Hw|? ? ? ? Hw|w' Hd Hc Hcl Hw|? ? ? Hw]; rewrite Hw in Hb;
      try by apply not_elem_of_nil in Hb.
    apply list_elem_of_singleton in Hb as <-. unfold counted. cbn. by rewrite Hd, Hc, Hw, without_self.
Qed.

Definition counted_conns (m : gmap nat Conn) : nat :=
  size (filter (fun e => counted e.2 = true) m).

Record server_inv (sv : Server) : Prop := {
  vi_conns : map_Forall (fun _ c => conn_inv c) (sv_conns sv);
  vi_gauge : sv_active sv = int64_wrap (Z.of_nat (counted_conns (sv_conns sv)));
  vi_manager : manager_inv (sv_manager sv)
}.

Lemma counted_insert_same (m : gmap nat Conn) (id : nat) (c c' : Conn) :
  m !! id = Some c -> counted c' = counted c -> counted_conns (<[id := c']> m) = counted_conns m.
Proof.
  intros Hl Hc. unfold counted_conns. destruct (counted c) eqn:E.
  - rewrite map_filter_insert_True by done. apply map_size_insert_Some.
    exists c. by apply map_lookup_filter_Some.
  - rewrite map_filter_insert_False by (cbn; congruence).
    rewrite map_filter_delete, delete_id; [done|].
    apply map_lookup_filter_None. right. intros x Hx. cbn. congruence.
Qed.

Lemma counted_insert_last (m : gmap nat Conn) (id : nat) (c c' : Conn) :
  m !! id = Some c -> counted c = true -> counted c' = false ->
  Z.of_nat (counted_conns (<[id := c']> m)) = (Z.of_nat (counted_conns m) + -1)%Z.
Proof.
  intros Hl Hc Hc'. unfold counted_conns. rewrite map_filter_insert_False by (cbn; congruence).
  rewrite map_filter_delete.
  assert (Hf : filter (fun e => counted e.2 = true) m !! id = Some c) by by apply map_lookup_filter_Some.
  rewrite map_size_delete, Hf.
  assert (size (filter (fun e => counted e.2 = true) m) <> 0)%nat; [|lia].
  intros Hz%map_size_empty_inv. by rewrite Hz, lookup_empty in Hf.
Qed.

Lemma counted_insert_new (m : gmap nat Conn) (id : nat) (c : Conn) :
  m !! id = None -> counted c = true -> counted_conns (<[id := c]> m) = S (counted_conns m).
Proof.
  intros Hl Hc. unfold counted_conns. rewrite map_filter_insert_True by done.
  apply map_size_insert_None. apply map_lookup_filter_None. by left.
Qed.

Lemma newClientConnection_inv (local remote : gostring) (sv sv' : Server) :
  newClientConnection local remote sv = Done sv' -> server_inv sv -> server_inv sv'.
Proof.
  unfold newClientConnection. destruct (NewClient local remote) as [client|]; [|done].
  intros [= <-] [Hc Hg Hm]. assert (Hn : sv_conns sv !! fresh (dom (sv_conns sv)) = None)
    by apply not_elem_of_dom, is_fresh.
  split; cbn; [by apply map_Forall_insert_2; [apply new_conn_inv|]| |done].
  rewrite counted_insert_new, Hg, int64_wrap_add by done. f_equal. lia.
Qed.

Lemma sv_do_inv (id : nat) (a : act) (sv sv' : Server) :
  sv_do id a sv = Some (Done sv') -> server_inv sv -> server_inv sv'.
Proof.
  intros Ha [Hc Hg Hm]. unfold sv_do in Ha. destruct (sv_conns sv !! id) as [c|] eqn:Hl; [|done]. cbn in Ha.
  destruct (cn_do a c) as [[c'|]|] eqn:E; [|done..]. cbn in Ha. injection Ha as <-.
  assert (Hi : conn_inv c) by by apply (Hc id).
  assert (Hcnt := cn_do_counted a c c' E Hi). apply cn_do_inv in E; [|done].
  split; cbn; [by apply map_Forall_insert_2| |done].
  destruct a; try by rewrite (counted_insert_same _ id c).
  destruct Hcnt as [H1 H2]. by rewrite (counted_insert_last _ id c), Hg, int64_wrap_add.
Qed.

Lemma accept_result_inv (ev : accepted) (sv sv' : Server) :
  accept_result ev sv = Done sv' -> server_inv sv -> server_inv sv'.
Proof.
  intros E Hi. destruct ev as [local remote| | |]; cbn in E; try (injection E as <-; by destruct Hi).
  destruct (newClientConnection local remote sv) as [sv1|] eqn:E1; [|done]. injection E as <-.
  apply newClientConnection_inv in E1; [|done]. by destruct E1.
Qed.

Lemma sv_step_inv `{GoRuntime} (sv sv' : Server) : sv_step sv sv' -> server_inv sv -> server_inv sv'.
Proof.
  intros Hstep Hi. destruct Hstep as [sv _|sv _|ev sv sv' _ E|id a sv sv' E|failure port sv|queue sm sv Hg|sv].
  - by destruct Hi.
  - by destruct Hi.
  - by eapply accept_result_inv.
  - by eapply sv_do_inv.
  - by destruct Hi.
  - destruct Hi as [H1 H2 H3]. split; [done..|]. by eapply mg_step_inv.
  - by destruct Hi.
Qed.

Lemma sv_steps_inv `{GoRuntime} (sv sv' : Server) : sv_steps sv sv' -> server_inv sv -> server_inv sv'.
Proof. induction 1; eauto using sv_step_inv. Qed.

Lemma sv_reach_inv `{GoRuntime} (sv : Server) : sv_reach sv -> server_inv sv.
Proof.
  intros (mt & Hm & Hs). eapply sv_steps_inv; [done|].
  split; [apply map_Forall_empty|done|by apply NewStreamManager_inv].
Qed.

Lemma sv_reach_more `{GoRuntime} (sv sv' : Server) : sv_reach sv -> sv_steps sv sv' -> sv_reach sv'.
Proof. intros (mt & Hm & Hs) Hs'. exists mt. split; [done|]. by etrans. Qed.

(** *** A cancelled server *)

(** A connection [AcceptTCP] may still hand out. *)
Definition pending (sv : Server) : nat := if bool_decide (sv_accept sv = Accepting) then 1 else 0.

Lemma pending_other (sv : Server) : sv_accept sv <> Accepting -> pending sv = 0%nat.
Proof. intros Hn. unfold pending. by rewrite bool_decide_false. Qed.

(** Cancelled once, cancelled for good; then a pending connection at most
    is added. *)
Lemma cancelled_step `{GoRuntime} (sv sv' : Server) :
  sv_step sv sv' -> sv_done sv = true ->
  sv_done sv' = true
  /\ (size (sv_conns sv') + pending sv' <= size (sv_conns sv) + pending sv)%nat.
Proof.
  intros Hstep Hd. destruct Hstep as [sv E|sv E|ev sv sv' Ea E|id a sv sv' E|failure port sv|queue sm sv _|sv].
  - split; [done|]. rewrite (pending_other (Server_Start sv)) by done. cbn. lia.
  - split; [done|]. rewrite (pending_other (accept_check sv)); [cbn; lia|]. cbn. by rewrite Hd.
  - unfold pending at 2. rewrite Ea. cbn [bool_decide].
    destruct ev as [local remote| | |]; cbn in E.
    + unfold newClientConnection in E. destruct (NewClient local remote); [|done]. injection E as <-.
      split; [done|]. rewrite pending_other by done. cbn.
      rewrite map_size_insert_None by apply not_elem_of_dom, is_fresh. rewrite bool_decide_true by done. lia.
    + rewrite Hd in E. injection E as <-. split; [done|]. rewrite pending_other by done. cbn. lia.
    + injection E as <-. split; [done|]. rewrite pending_other by done. cbn. lia.
    + rewrite Hd in E. injection E as <-. split; [done|]. rewrite pending_other by done. cbn. lia.
  - unfold sv_do in E. destruct (sv_conns sv !! id) as [c|] eqn:Hl; [|done]. cbn in E.
    destruct (cn_do a c) as [[c'|]|]; [|done..]. injection E as <-.
    split; [done|]. cbn. rewrite map_size_insert_Some by done. done.
  - done.
  - done.
  - done.
Qed.

Lemma cancelled_steps `{GoRuntime} (sv sv' : Server) :
  sv_steps sv sv' -> sv_done sv = true ->
  sv_done sv' = true
  /\ (size (sv_conns sv') + pending sv' <= size (sv_conns sv) + pending sv)%nat.
Proof.
  induction 1 as [sv|sv sv1 sv2 Hs _ IH]; intros Hd; [by split|].
  destruct (cancelled_step _ _ Hs Hd) as [Hd1 Hz1]. destruct (IH Hd1) as [Hd2 Hz2]. split; [done|lia].
Qed.

(** When [clients.Wait] returns, every connection has been destroyed. *)
Lemma all_returned_left (sv : Server) :
  server_inv sv -> all_returned sv = true ->
  map_Forall (fun _ c => cn_reader c = Returned /\ cn_destroyed c = true) (sv_conns sv).
Proof.
  intros Hr Ea id c Hl. unfold all_returned in Ea. rewrite forallb_forall in Ea.
  specialize (Ea (id, c)). rewrite <- list_elem_of_In, elem_of_map_to_list, bool_decide_eq_true in Ea.
  specialize (Ea Hl). split; [done|]. apply (ci_left c); [by apply (vi_conns _ Hr id)|by right].
Qed.

Lemma all_returned_false (sv : Server) :
  all_returned sv = false <-> exists id c, sv_conns sv !! id = Some c /\ cn_reader c <> Returned.
Proof.
  unfold all_returned. rewrite <- not_true_iff_false, forallb_forall. split.
  - intros Hn. destruct (decide (map_Forall (fun _ c => cn_reader c = Returned) (sv_conns sv))) as [Hf|Hf].
    + destruct Hn. intros [id c] Hin. apply bool_decide_eq_true.
      rewrite <- list_elem_of_In, elem_of_map_to_list in Hin. by apply (Hf id).
    + apply map_not_Forall in Hf as (id & c & Hl & Hc); [|apply _]. by exists id, c.
  - intros (id & c & Hl & Hc) Hf. specialize (Hf (id, c)).
    rewrite <- list_elem_of_In, elem_of_map_to_list, bool_decide_eq_true in Hf. by apply Hc, Hf.
Qed.

(** ** Properties *)

(** C21: A connection whose requests resolve to one stream (the target is
    fixed by its first request) never crashes the proxy: in every
    interleaving of its reader, its writer, its forwarder and the calls of
    [Destroy] no packet is sent to the closed write channel and the
    channel is closed at most once. *)
Theorem one_stream_no_panic (s0 : nat) (client : Client) (acts : list act) (p : panic) :
  Forall (addressed_to s0) acts -> cn_run acts (new_conn client) <> Some (Panic p).
Proof.
  intros Ha H. destruct (cn_run_one s0 acts _ _ H (new_conn_inv client) (new_conn_one s0 client) Ha)
    as (c' & E & _). done.
Qed.

Definition sample_client : Client := mkClient (str "10.0.0.1") (str "10.0.0.7") [] [] [] [].

(** A slow client: its forwarder destroys it while the reader serves a
    TEARDOWN, which waits for that to end. *)
Definition slow_client : list act :=
  [ARequest 3; ASetup; AForward 3; ARequest 3; ASlow 3; AClose (ByForwarder 3); AWriterEnds;
   AFinish (ByForwarder 3); ATeardown; ALeave; AReaderDestroy; AReaderReturns].

Lemma one_stream_no_panic_witness :
  (exists c, cn_run slow_client (new_conn sample_client) = Some (Done c) /\ cn_reader c = Returned)
  /\ cn_run slow_client (new_conn sample_client) <> Some (Panic SendOnClosed).
Proof.
  split; [eexists; split; [vm_compute; reflexivity|reflexivity]|].
  apply (one_stream_no_panic 3). repeat constructor.
Defined.

(** Why the fixed target matters: a connection that joined one stream and
    then addressed another would leave the first one's forwarder behind. *)
Example two_streams_panic :
  cn_run [ARequest 1; ASetup; ARequest 2; AServed; ALeave; AReaderDestroy; AClose ByReader; AForward 1]
    (new_conn sample_client) = Some (Panic SendOnClosed).
Proof. by vm_compute. Qed.

(** C22: When the reader of such a connection returns, which is what the
    server's wait group waits for, nothing of the connection is left: its
    write channel is closed, its writer has ended, it is in no stream's
    table, none of its forwarders runs, and its [Destroy] has finished, so
    that the gauge of active clients no longer counts it. *)
Theorem returned_conn_gone (s0 : nat) (client : Client) (acts : list act) (c : Conn) :
  Forall (addressed_to s0) acts -> cn_run acts (new_conn client) = Some (Done c) ->
  cn_reader c = Returned ->
  cn_closed c = true /\ cn_writer c = false /\ cn_sessions c = ∅ /\ cn_forwarders c = ∅
  /\ counted c = false.
Proof.
  intros Ha H Hr. destruct (cn_run_one s0 acts _ _ H (new_conn_inv client) (new_conn_one s0 client) Ha)
    as (c' & E & Hi & Ho). injection E as <-. by apply (returned_gone s0).
Qed.

Lemma returned_conn_gone_witness :
  exists c, cn_run slow_client (new_conn sample_client) = Some (Done c)
    /\ cn_writer c = false /\ cn_sessions c = ∅ /\ counted c = false.
Proof.
  edestruct (returned_conn_gone 3 sample_client slow_client) as (_ & H1 & H2 & _ & H3);
    [repeat constructor|vm_compute; reflexivity|reflexivity|].
  eexists. split; [vm_compute; reflexivity|]. split; [exact H1|]. split; [exact H2|exact H3].
Defined.

(** The one stream matters here too: a reader whose other stream's
    forwarder is inside [Destroy] returns before that has finished. *)
Example two_streams_left :
  exists c, cn_run [ARequest 1; ASetup; ARequest 2; ASlow 1; AServed; ALeave; AReaderDestroy; AReaderReturns]
      (new_conn sample_client) = Some (Done c)
    /\ cn_reader c = Returned /\ cn_writer c = true /\ counted c = true.
Proof. eexists. by vm_compute. Qed.

(** The gauge of active clients is at all times the number of connections
    accepted and not yet destroyed to the end. *)
Theorem active_clients_gauge `{GoRuntime} (sv : Server) :
  sv_reach sv -> sv_active sv = int64_wrap (Z.of_nat (counted_conns (sv_conns sv))).
Proof. intros Hr. apply sv_reach_inv in Hr. apply Hr. Qed.

(** C26: [Shutdown] of a server in any state it can reach, with the other
    goroutines going on between its cancel and the moment its wait ends:
    the accept loop takes no further connection, except for one whose
    [AcceptTCP] was already under way, and its next check ends it; when
    the caller's time is over first [Shutdown] reports that and touches
    nothing; otherwise it waits for every reader, and once they have all
    returned it returns without an error, every connection destroyed
    before the first stream is, every stream of the registry destroyed
    with its connect loop ended, and the gauge of streams at zero. *)
Theorem Server_Shutdown_spec `{GoRuntime, NetURL, Crypto} (env : nat -> NetEnv) (buf : nat -> gostring)
    (now : Z) (sv0 sv : Server) :
  sv_reach sv0 -> sv_steps (Shutdown_begin sv0) sv -> (forall i, dial_ok (env i)) ->
  (size (sv_conns sv) + pending sv <= size (sv_conns sv0) + pending sv0)%nat
  /\ sv_accept (accept_check sv) = Stopped
  /\ (exists msg, Shutdown_finish env buf now true sv = Some (Done (sv, Some (ErrText msg))))
  /\ (Shutdown_finish env buf now false sv = None <->
      exists id c, sv_conns sv !! id = Some c /\ cn_reader c <> Returned)
  /\ forall r, Shutdown_finish env buf now false sv = Some r ->
     exists sv', r = Done (sv', None)
       /\ map_Forall (fun _ c => cn_reader c = Returned /\ cn_destroyed c = true) (sv_conns sv)
       /\ sv_conns sv' = sv_conns sv /\ mg_streams (sv_manager sv') = ∅
       /\ m_ActiveStreams (mg_metrics (sv_manager sv')) = 0%Z
       /\ forall key id, mg_streams (sv_manager sv) !! key = Some id -> destroyed_in (sv_manager sv') id.
Proof.
  intros Hr Hs Hd. assert (Hi := sv_reach_inv sv0 Hr).
  assert (Hi' : server_inv sv) by (apply (sv_steps_inv _ _ Hs); by destruct Hi).
  destruct (cancelled_steps _ _ Hs eq_refl) as [Hdone Hsize].
  split; [exact Hsize|]. split; [cbn; by rewrite Hdone|]. unfold Shutdown_finish.
  split; [by eexists|]. rewrite <- all_returned_false.
  destruct (all_returned sv) eqn:Ea; [|by split].
  destruct (sm_Shutdown_result env buf now (sv_manager sv) (vi_manager _ Hi') Hd)
    as (sm' & E & He & Hg & Hall).
  rewrite E. split; [done|]. intros r [= <-]. eexists. split; [done|].
  split; [by apply all_returned_left|done].
Qed.

(** One stream in the registry, one client that came and went, and an
    accept under way when the context is cancelled. *)
Definition quiet_acts : list act :=
  [ALeave; AReaderDestroy; AClose ByReader; AWriterEnds; AFinish ByReader; AReaderReturns].

Fixpoint sv_acts (id : nat) (acts : list act) (sv : Server) : option Server :=
  match acts with
  | [] => Some sv
  | a :: acts => match sv_do id a sv with Some (Done sv) => sv_acts id acts sv | _ => None end
  end.

Lemma sv_acts_steps `{GoRuntime} (id : nat) (acts : list act) (sv sv' : Server) :
  sv_acts id acts sv = Some sv' -> sv_steps sv sv'.
Proof.
  revert sv. induction acts as [|a acts IH]; cbn; intros sv E; [injection E as <-; reflexivity|].
  destruct (sv_do id a sv) as [[sv1|]|] eqn:E1; [|done..]. eapply rtc_l; [by eapply SvAct|by apply IH].
Qed.

Definition busy_server : Server :=
  let sv := accept_check (Server_Start (NewServer metrics_zero)) in
  let sv := match accept_result (AcConn (str "10.0.0.1:554") (str "10.0.0.7:40000")) sv with
            | Done sv => sv | Panic _ => sv end in
  let sv := (LookupStream 60 0 (str "cam:554") (str "u") (str "p") (str "/s") sv).1 in
  accept_check sv.

Lemma busy_server_reach : @sv_reach sample_runtime busy_server.
Proof.
  exists metrics_zero. split; [reflexivity|]. unfold sv_steps.
  eapply rtc_l; [by apply SvStart|]. eapply rtc_l; [by apply SvCheck|].
  eapply rtc_l; [eapply (SvAccept (AcConn (str "10.0.0.1:554") (str "10.0.0.7:40000"))); [done|vm_compute; reflexivity]|].
  eapply rtc_l; [apply (SvStreams 100), (MgGet _ _ 60 0 (str "cam:554") (str "u") (str "p") (str "/s"))|].
  eapply rtc_l; [by apply SvCheck|]. vm_compute. apply rtc_refl.
Qed.

Lemma Server_Shutdown_spec_witness :
  exists sv sv', sv_acts 0 quiet_acts (Shutdown_begin busy_server) = Some sv
    /\ pending busy_server = 1%nat /\ (size (sv_conns sv) + pending sv <= 2)%nat
    /\ @Shutdown_finish sample_runtime sample_neturl sample_crypto (fun _ => sample_env true)
         (fun _ => []) 9 false sv = Some (Done (sv', None))
    /\ size (mg_streams (sv_manager sv)) = 1%nat /\ mg_streams (sv_manager sv') = ∅.
Proof.
  destruct (sv_acts 0 quiet_acts (Shutdown_begin busy_server)) as [sv|] eqn:E; [|vm_compute in E; discriminate].
  pose proof (sv_acts_steps (H := sample_runtime) _ _ _ _ E) as Hs.
  destruct (@Server_Shutdown_spec sample_runtime sample_neturl sample_crypto (fun _ => sample_env true)
    (fun _ => []) 9 busy_server sv busy_server_reach Hs sample_dials) as (H1 & _ & _ & _ & H2).
  destruct (@Shutdown_finish sample_runtime sample_neturl sample_crypto (fun _ => sample_env true)
    (fun _ => []) 9 false sv) as [r|] eqn:Ef.
  - destruct (H2 r eq_refl) as (sv' & -> & _ & _ & He & _). exists sv, sv'.
    split; [reflexivity|]. split; [reflexivity|]. split; [exact H1|]. split; [exact Ef|].
    split; [|exact He]. vm_compute in E. injection E as <-. reflexivity.
  - vm_compute in E. injection E as <-. vm_compute in Ef. discriminate.
Defined.

(** What the wait cannot cover: an [AcceptTCP] that was under way may hand
    out its connection after [Shutdown] has returned. *)
Example accepted_after_shutdown :
  exists sv sv' sv'', sv_acts 0 quiet_acts (Shutdown_begin busy_server) = Some sv
    /\ @Shutdown_finish sample_runtime sample_neturl sample_crypto (fun _ => sample_env true)
         (fun _ => []) 9 false sv = Some (Done (sv', None))
    /\ sv_accept sv' = Accepting
    /\ accept_result (AcConn (str "10.0.0.1:554") (str "10.0.0.8:40001")) sv' = Done sv''
    /\ all_returned sv'' = false.
Proof.
  eexists _, _, _. split; [vm_compute; reflexivity|]. split; [vm_compute; reflexivity|].
  split; [reflexivity|]. split; [vm_compute; reflexivity|]. vm_compute. reflexivity.
Qed.
