(* ===== verification/Main.v ===== *)
(** * The process: [main] of src/cmd/main.go

    Flags, log file, metrics server, listener, serving until a signal, and
    the shutdown with its five seconds, in the order of the source and
    with every exit.  What the operating system does and what the
    goroutines do while [main] waits are arguments. *)

From stdpp Require Import gmap strings list fin_maps.
From Stdlib Require Import Ascii ZArith Lia.
From S2P Require Import Prelude GoStrings Request Config Metrics Digest Remote Session Fanout Stream StreamManager Client Server Report.

Local Open Scope go_scope.

(** ** Definitions *)

Record CommandLine := mkCommandLine {
  cl_log : gostring;
  cl_port : Z;
  cl_verbose : bool;
  cl_flags : Flags
}.

(** The defaults of the [flag] calls. *)
Definition default_flags : CommandLine :=
  mkCommandLine (str "-") 554 false (mkFlags (20 * Second) 1000 65536 (5 * Second) 0).

(** The surroundings of one run. *)
Record World := mkWorld {
  w_log_opens : option goerror;       (* the error of os.OpenFile *)
  w_metrics_listen : bool;            (* net.Listen for the metrics *)
  w_metrics_stop : option goerror;    (* the error of http.Server.Shutdown *)
  w_listen : option gostring;         (* the error of net.ListenTCP *)
  w_wake : option gostring;           (* the signal, or the context done *)
  w_serve : Server -> Server;         (* the goroutines until the signal *)
  w_settle : Server -> Server;        (* the goroutines until Shutdown's select *)
  w_expired : bool;                   (* the five seconds are over first *)
  w_env : nat -> NetEnv;              (* what the TEARDOWNs meet *)
  w_buf : nat -> gostring;
  w_now : Z
}.

Record Process := mkProcess {
  pr_config : Config;
  pr_logger : Logger;
  pr_metrics : metrics_server;
  pr_server : option Server
}.

(** The package variables before [main]. *)
Definition process_start : Process :=
  mkProcess DefaultConfig (mkLogger false []) (mkMetricsServer None ∅) None.

Section Main.
Context `{GoRuntime, NetURL, Crypto}.

(** From [go server.Start()] on: [None] while [main] still waits. *)
Definition serve_and_stop (w : World) (cfg : Config) (lg : Logger) (ms : metrics_server) (sv : Server)
  : option (outcome (Process * Z)) :=
  let sv := w_serve w (Server_Start sv) in
  let lg := match w_wake w with
            | Some sig => LogCriticalf (str "Received signal: %v. Shutting down...") [AString sig] lg
            | None => LogCriticalf (str "Context cancelled. Shutting down...") [] lg
            end in
  let sv := w_settle w (Shutdown_begin sv) in
  r ← Shutdown_finish (w_env w) (w_buf w) (w_now w) (w_expired w) sv;
  Some (let! (sv, err) := r in
        match err with
        | Some e =>
            let lg := LogCriticalf (str "Server shutdown error: %v") [AError e] lg in
            Done (mkProcess cfg lg ms (Some sv), 1%Z)
        | None =>
            let err := (match ms_server ms with Some _ => w_metrics_stop w | None => None end) in
            let ms := ShutdownMetricsServer ms in
            let lg := match err with
                      | Some e => LogCriticalf (str "Metrics shutdown error: %v") [AError e] lg
                      | None => lg
                      end in
            let lg := LogCriticalf (str "Server gracefully stopped.") [] lg in
            Done (mkProcess cfg lg ms (Some sv), 0%Z)
        end).

(** [main] once the log file is set up. *)
Definition main_started (w : World) (c : CommandLine) (lg : Logger) : option (outcome (Process * Z)) :=
  let cfg := apply_flags DefaultConfig (cl_flags c) in
  let lg := SetVerbose (cl_verbose c) lg in
  let '(ms, err) := StartMetricsServer (pr_metrics process_start) (w_metrics_listen w) (metricsPort (cl_flags c)) in
  match err with
  | Some e => Some (Done (mkProcess cfg (LogCriticalf (str "metrics server: %v") [AError e] lg) ms None, 1%Z))
  | None =>
      let lg := match ms_server ms with
                | Some port => LogCriticalf (str "Metrics endpoint listening on %s/metrics") [AString (str ":" ++ Itoa port)] lg
                | None => lg
                end in
      let '(sv, err) := Listen (w_listen w) (cl_port c) (NewServer metrics_zero) in
      match err with
      | Some e =>
          let lg := LogCriticalf (str "Failed to bind port: %d, error: %v") [AInt (cl_port c); AError e] lg in
          Some (Done (mkProcess cfg lg ms (Some sv), 1%Z))
      | None =>
          let lg := LogCriticalf (str "Listening on port: %d") [AInt (cl_port c)] lg in
          serve_and_stop w cfg lg ms sv
      end
  end.

(** [main]: the process when it exits, and its status. [log.Fatalf] prints
    and exits with 1. *)
Definition main (w : World) (c : CommandLine) : option (outcome (Process * Z)) :=
  let lg := pr_logger process_start in
  if cl_log c =s str "-" then main_started w c lg
  else match w_log_opens w with
       | Some e =>
           let lg := LogCriticalf (str "error opening log file %s: %v") [AString (cl_log c); AError e] lg in
           Some (Done (mkProcess DefaultConfig lg (pr_metrics process_start) None, 1%Z))
       | None => main_started w c lg
       end.

End Main.

(** ** Specification *)

(** What the goroutines may do: steps of the server, its context left as
    [main] set it. *)
Definition server_steps `{GoRuntime} (f : Server -> Server) : Prop :=
  forall sv, sv_reach sv -> sv_reach (f sv) /\ sv_done (f sv) = sv_done sv.

Definition log_ready (w : World) (c : CommandLine) : bool :=
  (cl_log c =s str "-") || bool_decide (w_log_opens w = None).

(** The four things that must go well. *)
Definition all_well (w : World) (c : CommandLine) : bool :=
  log_ready w c
  && ((metricsPort (cl_flags c) <=? 0)%Z || w_metrics_listen w)
  && bool_decide (w_listen w = None) && negb (w_expired w).

(** The server when the select of [Shutdown] fires. *)
Definition settled (w : World) (c : CommandLine) : Server :=
  w_settle w (Shutdown_begin (w_serve w (Server_Start (Listen None (cl_port c) (NewServer metrics_zero)).1))).

(** ** Lemmas *)

Section MainLemmas.
Context `{GoRuntime, NetURL, Crypto}.

Lemma settled_reach (w : World) (c : CommandLine) :
  server_steps (w_serve w) -> server_steps (w_settle w) -> sv_reach (settled w c) /\ sv_done (settled w c) = true.
Proof.
  intros Hs Ht. unfold settled.
  assert (R0 : sv_reach (Server_Start (Listen None (cl_port c) (NewServer metrics_zero)).1)).
  { exists metrics_zero. split; [done|]. eapply rtc_l; [apply SvListen|]. by apply rtc_once, SvStart. }
  destruct (Hs _ R0) as [R1 _]. set (sv := w_serve w _) in *.
  destruct (Ht (Shutdown_begin sv)) as [R2 D2].
  { eapply sv_reach_more; [exact R1|]. apply rtc_once, SvCancel. }
  split; [done|by rewrite D2].
Qed.

(** The metrics server is off, or on the port asked for. *)
Lemma StartMetricsServer_first (can : bool) (port : Z) :
  let '(ms, err) := StartMetricsServer (mkMetricsServer None ∅) can port in
  (err = None <-> (port <=? 0)%Z || can = true)
  /\ ms_listening (ShutdownMetricsServer ms) = ∅ /\ ms_server (ShutdownMetricsServer ms) = None.
Proof.
  unfold StartMetricsServer. cbn. destruct (port <=? 0)%Z; [done|]. destruct can; cbn; [|done].
  split; [done|]. split; [|done]. set_solver.
Qed.

(** What a finished run leaves when its status is 0. *)
Definition clean_exit (w : World) (c : CommandLine) (p : Process) : Prop :=
  pr_config p = apply_flags DefaultConfig (cl_flags c)
  /\ ms_server (pr_metrics p) = None /\ ms_listening (pr_metrics p) = ∅
  /\ exists sv, pr_server p = Some sv /\ mg_streams (sv_manager sv) = ∅
     /\ map_Forall (fun _ cn => cn_reader cn = Returned /\ cn_destroyed cn = true) (sv_conns sv)
     /\ forall key id, mg_streams (sv_manager (settled w c)) !! key = Some id -> destroyed_in (sv_manager sv) id.

Section Run.
Variables (w : World) (c : CommandLine).
Hypothesis Hr : sv_reach (settled w c).
Hypothesis Hd : forall i, dial_ok (w_env w i).
Hypothesis Hret : w_expired w = false -> all_returned (settled w c) = true.

Lemma serve_and_stop_result (lg : Logger) (ms : metrics_server) :
  ms_listening (ShutdownMetricsServer ms) = ∅ -> ms_server (ShutdownMetricsServer ms) = None ->
  exists p code, serve_and_stop w (apply_flags DefaultConfig (cl_flags c)) lg ms
      (Listen None (cl_port c) (NewServer metrics_zero)).1 = Some (Done (p, code))
    /\ code = (if w_expired w then 1 else 0)%Z /\ (code = 0%Z -> clean_exit w c p).
Proof.
  intros Hl Hs. unfold serve_and_stop, Shutdown_finish. fold (settled w c).
  destruct (w_expired w) eqn:Ex; cbn; [by eexists _, _|].
  rewrite (Hret eq_refl).
  destruct (sm_Shutdown_result (w_env w) (w_buf w) (w_now w) _ (vi_manager _ (sv_reach_inv _ Hr)) Hd)
    as (sm' & E & He & _ & Hall).
  rewrite E. cbn. eexists _, _. split; [reflexivity|]. split; [done|]. intros _.
  split_and!; [done..|]. eexists. split_and!; [done|done| |done].
  apply (all_returned_left (settled w c)); [by apply sv_reach_inv|by apply Hret].
Qed.

Lemma main_started_result (lg : Logger) :
  exists p code, main_started w c lg = Some (Done (p, code))
    /\ code = (if ((metricsPort (cl_flags c) <=? 0)%Z || w_metrics_listen w)
                  && bool_decide (w_listen w = None) && negb (w_expired w) then 0 else 1)%Z
    /\ (code = 0%Z -> clean_exit w c p)
    /\ (w_listen w <> None -> forall sv, pr_server p = Some sv -> sv_conns sv = ∅).
Proof.
  unfold main_started. change (pr_metrics process_start) with (mkMetricsServer None ∅).
  pose proof (StartMetricsServer_first (w_metrics_listen w) (metricsPort (cl_flags c))) as Hms.
  destruct (StartMetricsServer _ _ _) as [ms err]. destruct Hms as (Hok & Hl & Hsv).
  destruct err as [e|].
  { eexists _, _. split; [reflexivity|]. split_and!; [|done|done].
    destruct (_ || w_metrics_listen w); [by destruct Hok as [_ Hok]; specialize (Hok eq_refl)|done]. }
  rewrite (proj1 Hok eq_refl). cbn [andb]. destruct (w_listen w) as [e|]; cbn -[serve_and_stop Listen].
  { eexists _, _. split; [reflexivity|]. split_and!; [done|done|]. by intros _ sv [= <-]. }
  edestruct (serve_and_stop_result (LogCriticalf (str "Listening on port: %d") [AInt (cl_port c)]
    match ms_server ms with
    | Some port => LogCriticalf (str "Metrics endpoint listening on %s/metrics") [AString (str ":" ++ Itoa port)]
                     (SetVerbose (cl_verbose c) lg)
    | None => SetVerbose (cl_verbose c) lg
    end) ms Hl Hsv) as (p & code & E & Hcode & Hclean).
  eexists _, _. split; [exact E|]. split_and!; [|done|done].
  rewrite Hcode. by destruct (w_expired w).
Qed.

End Run.

End MainLemmas.

(** ** Properties *)

(** C23: [main] always ends when its waits end, and its status tells the
    whole story: 0 exactly if the log file could be opened, the metrics
    endpoint and the port could be bound and every connection ended within
    the five seconds, 1 otherwise; and after a 0 every connection and every
    stream of the registry is destroyed, the metrics endpoint is closed and the
    configuration is the one of the command line.  A port that cannot be
    bound ends the process before any connection is taken. *)
Theorem main_exit_status `{GoRuntime, NetURL, Crypto} (w : World) (c : CommandLine) :
  server_steps (w_serve w) -> server_steps (w_settle w) ->
  (forall i, dial_ok (w_env w i)) ->
  (w_expired w = false -> all_returned (settled w c) = true) ->
  exists p code, main w c = Some (Done (p, code))
    /\ code = (if all_well w c then 0 else 1)%Z /\ (code = 0%Z -> clean_exit w c p)
    /\ (w_listen w <> None -> forall sv, pr_server p = Some sv -> sv_conns sv = ∅).
Proof.
  intros Hs Ht Hd Hret. destruct (settled_reach w c Hs Ht) as [Hr _]. unfold main, all_well, log_ready.
  destruct (cl_log c =s str "-"); [by apply main_started_result|].
  destruct (w_log_opens w) as [e|]; [|by apply main_started_result].
  by eexists _, _.
Qed.

(** A run with the default flags, in which nobody connects. *)
Definition quiet_world : World :=
  mkWorld None true None None (Some (str "interrupt")) id id false (fun _ => sample_env true) (fun _ => []) 9.

Lemma main_exit_status_witness :
  exists p code, @main sample_runtime sample_neturl sample_crypto quiet_world default_flags = Some (Done (p, code))
    /\ code = 0%Z /\ ms_server (pr_metrics p) = None.
Proof.
  destruct (@main_exit_status sample_runtime sample_neturl sample_crypto quiet_world default_flags)
    as (p & code & E & Hc & Hclean & _).
  - by intros sv Hr.
  - by intros sv Hr.
  - intros i. split; apply (bool_decide_unpack _); by vm_compute.
  - by vm_compute.
  - assert (Hcode : code = 0%Z) by (rewrite Hc; by vm_compute).
    exists p, code. split; [exact E|]. split; [exact Hcode|]. apply (Hclean Hcode).
Defined.
